(* ===== verification/_CoqProject ===== *)
-Q . S2P
Prelude.v
GoStrings.v
GoNet.v
GoEncoding.v
GoFloat.v
FloatBounds.v
GoJson.v
Protocol.v
Model.v
WsStream.v
Pinger.v
Detector.v
Tracer.v
IpUtil.v
RouteClass.v
Socks5.v
Dialer.v
LocalProxy.v
TunnelUi.v
Version.v
Feature.v
Hub.v
Ingest.v
Public.v
Console.v
ConsoleView.v
Accounts.v
ProxySession.v
ProxyService.v
Pump.v
Access.v
FileSys.v
HostMain.v
HostBoot.v
Updater.v
Installer.v
AgentProxy.v
AgentClient.v
ProbeMain.v
Scheduler.v
KeepAlive.v
TunnelNet.v
TunnelHost.v
TunnelProbe.v
TunnelStream.v
ExitPath.v
System.v
Registration.v
