(* ===== verification/Prelude.v ===== *)
(** * JustPing: a verification development

    JustPing measures networks from many places: a _Host_ ([host/]) keeps a
    database, a console and a web page; _probes_ ([agent/]) on many machines ping
    and trace targets and report over one WebSocket each; a _tunnel client_
    ([tunnel/]) lets an operator use the network of a probe through local
    listeners. The code they share is in [shared/].

    ** How the parts interact

    Operators log in through an OAuth provider ([host/internal/auth],
    [host/internal/api]) and edit targets and probes in the console. Every change
    makes the hub ([host/internal/ws]) send each connected probe its list of
    targets. The probe's client ([agent/internal/client]) hands the list to the
    scheduler ([agent/cmd/agent]), which runs one worker per target: each round
    pings once ([agent/internal/pinger]), queues a report, and feeds a detector
    ([agent/internal/traceroute]) that may ask for a traceroute. Reports reach the
    hub's connection handler, which stores them; routes are enriched and classified
    ([host/internal/ipgeo]), and visitors see the tables through the observer API.
    Proxy logins are issued for ten minutes ([host/internal/proxy]); the tunnel
    client opens tunnels with one, each multiplexed over the probe's WebSocket to
    the probe's proxy manager. A probe installs itself as a service
    ([agent/internal/service]) and replaces its own executable by newer releases
    ([agent/internal/updater]), by itself or when the console asks.

    ** The files, in the order they depend on each other

    - [Prelude]: notations, tactics, bounded slices ([push_bounded]), reachability
      of step relations and runs under interference ([counted]), comparators, the order of map iteration ([MapOrder]) and
      unstable sorting ([GoSort]) as classes.
    - [GoStrings], [GoNet], [GoEncoding], [GoFloat], [FloatBounds], [GoJson]: what
      the program uses of Go's standard library, executable: [strings], [strconv],
      the width of [int] ([IntSize]), [net] addresses, [hex], [base64], SHA-256,
      float64 (Stdlib's [SpecFloat] at 53/1024 bits) and how far its operations
      round, JSON values with the decoding rules of struct tags.
    - [Protocol]: [shared/protocol/message.go]. Each payload is a record with the
      encoder and decoder its tags give; class [Wire] promises that values in
      [wire_ok] survive the round trip. The texts of [time.Time] are the class
      [TimeText]. [Model]: the rows of [host/internal/model].
    - [WsStream]: [shared/wsutil], a byte stream over WebSocket messages.
    - [Pinger], [Detector], [Tracer], [AgentProxy], [AgentClient], [Scheduler]: the
      probe's measurements, tunnels and connection.
    - [IpUtil], [RouteClass], [Version], [Feature], [Hub], [Ingest], [Console],
      [ConsoleView], [ProxySession], [ProxyService]: the Host's connections, console
      and tunnels. [Pump]: the goroutines of one open tunnel between the steps of the
      service, and the two entry points as a whole.
    - [Public]: the observer API. [Accounts], [Access]: the tables of users,
      whitelist and settings with everything that writes them; the OAuth
      callbacks, sessions, routes and the credential console on top of them.
      [HostMain]: what the Host's [main] decides, static files, connection string, a
      round of the retention cleaner. [HostBoot]: [InitDB] and [main] as a whole, and
      the tables over time.
    - [KeepAlive]: both ends of a probe's connection in time, with their read
      deadlines, pings and heartbeats, and the tunnel client's own keep-alive.
    - [TunnelNet], [TunnelHost], [TunnelProbe], [TunnelStream]: a tunnel from the
      client to the target: service, bridge, connection, proxy manager and target as
      one step relation, its invariant for the steps of either side, and what it
      gives.
    - [Socks5], [Dialer], [LocalProxy], [TunnelUi]: the tunnel client: the SOCKS5
      entrance, the table of tunnels, the listeners and command line, the console.
    - [FileSys], [Updater], [Installer], [ProbeMain]: files as a map, the updater,
      the service, and the probe's [main] with its hooks and its end.
    - [ExitPath], [System], [Registration]: the programs together.

    ** How state and operations correspond to the code

    A Go struct is a [Record], a method a [Definition] of the same name over it.
    Objects shared by pointer (sessions, tunnels, connections, workers) live in a
    list used as a heap, maps hold their indices. Goroutines appear as step
    relations: one step is one critical section of one goroutine, so what a
    method does after it unlocked is a step of its own ([Hub.leave],
    [ProxyService.finish_close], [AgentProxy.close_dropped],
    [AgentClient.QueueReport_send], [Dialer.mark_closed], [LocalProxy.stop_rest])
    and every interleaving is covered. A handler whose statements others can get
    between is split in the same way where a theorem depends on it
    ([Accounts.adminDeleteWhitelist], [Registration.handle_websocket]); the other
    handlers of the console are one step each. A panic is [None] ([Pinger.NewTargetWindow],
    [Hub.SafeSend]) or a flag ([Scheduler.crashed]). Fields named as history
    ([wire], [accepted], [traces], [effects], [pr_results]) only record what
    happened; no guard reads them. A command or a system call that may fail is
    asked of an oracle ([Updater.Sys], [Installer.Os]), so the theorems hold for
    every combination of failures.

    What is not under [src/] is an argument: the random source ([Rand]), HTTP
    answers ([Http], [Updater.Net], [Access.Providers]), the resolver, ICMP and the
    ping library (records [ping_env], [trace_env]), the largest allocation
    ([Alloc]), GORM's treatment of zero values and of shared statements ([Gorm],
    [GormChain]), what SQL averages and how it orders text ([Sql]), what a column
    makes of a value that is written to it ([Columns]), [url.Parse]
    ([UrlParse]), signatures of tokens ([Jwt]), [strings.ToLower] beyond ASCII
    ([UnicodeLower]), names of temporary files ([TempNames]), the styles of the
    console ([Render]), the clock. Each class has an instance that the witnesses
    use.

    ** What the theorems show

    - [Registration], [System], [ExitPath], [ProbeMain]: a probe with a valid token is
      online as the probe the token belongs to and measures its list, unless somebody
      queues a message before its answer ([registration], [outrun]); a probe fed by the console never panics and
      runs exactly one worker per target ([probe_under_console]); the list it
      decodes is the list configured ([console_to_probe]); a measurement and a
      route arrive in the database as its columns take them
      ([measurement_end_to_end], [trace_end_to_end]); the forced restart of old probes works on exactly the
      machines it is chosen for ([forced_crash_works]); the address a SOCKS5
      client names is the one the probe dials, under the credential that was
      issued ([exit_path]); an update asked for in the console installs a verified
      release, reports what it did and restarts ([update_end_to_end]), and a probe
      only ever becomes such a release ([probe_process]).
    - [AgentClient]: reports are neither lost track of, nor duplicated, nor
      reordered ([report_accounting], [outage_replayed]); backoff and connection
      state ([connection_loop_sound]).
    - [Scheduler], [Tracer], [Detector], [Pinger]: the cooldown between traces, the
      trace as a function of the replies, what a latency shift means, the summary
      of a window and one round.
    - [Hub], [Ingest], [Console]: connections and channels, accounting of forced
      restarts, termination of [SendWait], trustworthy rows, registration and
      token rotation, the invariant of the tables, override lists.
    - [ProxySession], [ProxyService], [AgentProxy], [Pump]: lifetime and refinement
      of credentials, the tunnel table, delivery in order and draining, no send on a
      closed channel, every dialled connection owned or closed, the target a client
      asks for is the one dialled; the entry points leave nothing behind when they
      fail ([entry_points]), and the goroutines of a tunnel end
      ([pump_terminates]).
    - [TunnelStream]: under every interleaving the target gets a prefix of what the
      client sent and the client a prefix of what the target sent ([tunnel_stream]),
      and what was read can always be brought across ([stream_progress]); the two
      ways the code falls short ([close_truncates], [revoked_while_asking]).
    - [KeepAlive]: a connection that is fast enough stays up ([healthy_connection]),
      a silent one is closed on both ends ([silence_noticed]), the same for the
      tunnel client ([healthy_tunnel]), and what breaks the first
      ([registration_race], [slow_clients_cut_probe],
      [stalled_client_loses_tunnel]).
    - [HostBoot]: a serving Host has its settings ([host_start]); no row of a
      table is older than the days its last round read (or what a probe may claim, if
      that is more) and the time since ([retention_bound]). [ConsoleView]: what the list says of a probe is
      what a request does ([listing_agrees]).
    - [Accounts], [Access]: an initialized platform keeps an administrator and makes
      no other superadmin, and only deletions that overlap can empty its whitelist
      ([initialized_platform], [whitelist_emptied]); who is logged in
      ([login_admits], [login_vouched]); what a session is good for
      ([session_gates], [routes_gated]); settings and the credential console.
    - [Public], [HostMain]: bounds of the quality score, what visitors see, which rows
      the matrix, the points and the trace of an instant are, the repair of old
      routes; static files stay below their directory; what retention deletes.
    - [WsStream], [Socks5], [Dialer], [LocalProxy], [TunnelUi]: no byte is lost or
      reordered; the handshake dials what was asked; the table of tunnels under
      every interleaving, and closing all of them; listeners are loopback only; an
      HTTP client gets the tunnel it asks for or it is closed, and its requests go on
      without what is for the proxy ([http_entrance]); the keys of the console and its bounds.
    - [Updater], [Installer]: the first source that verifies is used; whatever fails,
      the executable is the old or the new one whole; uninstalling undoes
      installing; where a run's configuration comes from.
    - [RouteClass], [Version], [Feature], [IpUtil]: classification equals a table
      of patterns, the AS path, version order, capability ladder, address headers.

    ** Bounds and fuel

    [KeepAlive] takes the longest handling of a message, the delay of frames and the
    lateness of goroutines as parameters, and its theorems name the inequalities
    they need; [retention_bound] the same for the days (below 2^31), the time a message
    takes and the time since the last round. [pump_terminates] counts steps: at most the bytes
    that can still be read and ten.

    Recursion that is not structural takes fuel: [Hub.SendWait_loop] (165 attempts
    suffice for the five-second timeout, [SendWait_terminates]), [GoStrings.digits],
    [strip_seqs], [GoNet.v6_loop] and [Updater.dot_groups] (the length of the text
    suffices), [WsStream.copy_all] (one read per byte and one more,
    [write_copy_roundtrip]), [FileSys.free_name] (as many names as there are files,
    and one more). The loops of a trace run 30 and 3 times as the code's constants
    say; [waitReply] follows the finite list of what the socket returned before
    its deadline. [Pinger]'s loss theorem covers windows of up to 100 samples, the
    most the console accepts. Ids of tunnels are int64 and wrap; [dialer_table]
    says what holds before the first of them repeats.

    ** What is not modelled

    I/O proper: WebSocket frames, SQL itself and its migration, the HTTP server and
    router, sockets, the terminal, [exec] of commands beyond success or failure;
    logging. Time runs only in [KeepAlive] and [HostBoot]; elsewhere a timer is a
    step that may happen at any moment. Data races are outside the model
    where the code has none by locking; a detector fed by two workers of one
    target at once is treated as fed in turn. The older [PingTarget] of the
    pinger, which nothing calls, is left out, as are thin wrappers that pass their
    arguments on. *)
From stdpp Require Export base decidable list gmap strings sorting.
From Stdlib Require Export ZArith Lia Ascii.

(** ** Notations *)

Declare Scope go_scope.
Delimit Scope go_scope with go.
#[global] Open Scope go_scope.

(** A Go call that may return an error: the value, or the error's text. *)
Inductive result (A : Type) : Type :=
  | Ok (a : A)
  | Err (msg : string).
Arguments Ok {A} a.
Arguments Err {A} msg.

Definition result_bind {A B : Type} (r : result A) (k : A → result B) : result B :=
  match r with
  | Ok a => k a
  | Err m => Err m
  end.

Notation "'let?' x ':=' r 'in' k" := (result_bind r (fun x => k))
  (at level 10, x pattern, r at level 100, k at level 200) : go_scope.

(** ** Tactics *)

(** Splits every [match] and [if] of the goal or of a hypothesis, and cleans
    the equations this leaves. *)
Ltac go_case :=
  match goal with
  | |- context [match ?x with _ => _ end] => destruct x eqn:?
  | H : context [match ?x with _ => _ end] |- _ => destruct x eqn:?
  end.
Ltac go_cases := repeat (go_case; simplify_eq/=; try done).

(** Turns boolean tests on [Z], [nat] and booleans into propositions. *)
Ltac go_bool :=
  repeat match goal with
  | H : negb _ = true |- _ => apply negb_true_iff in H
  | H : negb _ = false |- _ => apply negb_false_iff in H
  | H : (_ && _)%bool = true |- _ => apply andb_true_iff in H as [? ?]
  | H : (_ || _)%bool = false |- _ => apply orb_false_iff in H as [? ?]
  | H : (_ <? _)%Z = true |- _ => apply Z.ltb_lt in H
  | H : (_ <? _)%Z = false |- _ => apply Z.ltb_ge in H
  | H : (_ <=? _)%Z = true |- _ => apply Z.leb_le in H
  | H : (_ <=? _)%Z = false |- _ => apply Z.leb_gt in H
  | H : (_ =? _)%Z = true |- _ => apply Z.eqb_eq in H
  | H : (_ =? _)%Z = false |- _ => apply Z.eqb_neq in H
  | H : (_ <? _)%nat = true |- _ => apply Nat.ltb_lt in H
  | H : (_ <? _)%nat = false |- _ => apply Nat.ltb_ge in H
  | H : (_ <=? _)%nat = true |- _ => apply Nat.leb_le in H
  | H : (_ <=? _)%nat = false |- _ => apply Nat.leb_gt in H
  | H : (_ =? _)%nat = true |- _ => apply Nat.eqb_eq in H
  | H : (_ =? _)%nat = false |- _ => apply Nat.eqb_neq in H
  | H : (_ =? _)%string = true |- _ => apply String.eqb_eq in H
  | H : (_ =? _)%string = false |- _ => apply String.eqb_neq in H
  | H : bool_decide _ = true |- _ => apply bool_decide_eq_true in H
  | H : bool_decide _ = false |- _ => apply bool_decide_eq_false in H
  end.

Create HintDb go.

(** ** Bounded slices

    The shape [s = append(s, x); if len(s) > max { s = s[len(s)-max:] }], which
    the probe and the console use for every history they keep. *)

Definition zlen {A} (l : list A) : Z := Z.of_nat (length l).

Definition keep_last {A} (max : Z) (l : list A) : list A :=
  if (max <? zlen l)%Z then drop (Z.to_nat (zlen l - max)) l else l.

Definition push_bounded {A} (max : Z) (l : list A) (x : A) : list A :=
  keep_last max (l ++ [x]).

Section bounded.
Context {A : Type}.
Implicit Types (l : list A) (x : A).

Lemma zlen_nonneg l : (0 <= zlen l)%Z.
Proof. unfold zlen. lia. Qed.

Lemma zlen_app l1 l2 : (zlen (l1 ++ l2) = zlen l1 + zlen l2)%Z.
Proof. unfold zlen. rewrite length_app. lia. Qed.

Lemma keep_last_len max l :
    (0 <= max)%Z → (zlen (keep_last max l) = Z.min max (zlen l))%Z.
Proof.
    unfold keep_last, zlen. intros ?. destruct (Z.ltb_spec max (Z.of_nat (length l))).
    - rewrite length_drop. lia.
    - lia.
Qed.

Lemma keep_last_suffix max l : keep_last max l `suffix_of` l.
Proof.
    unfold keep_last. destruct (_ <? _)%Z; [|done].
    exists (take (Z.to_nat (zlen l - max)) l). by rewrite take_drop.
Qed.

Lemma keep_last_keep max l l' :
    (0 <= max)%Z → keep_last max (keep_last max l ++ l') = keep_last max (l ++ l').
Proof.
    intros Hm. unfold keep_last at 2. destruct (Z.ltb_spec max (zlen l)) as [H|H]; [|done].
    unfold keep_last. rewrite !zlen_app.
    assert (zlen (drop (Z.to_nat (zlen l - max)) l) = max) as ->.
    { unfold zlen in *. rewrite length_drop. lia. }
    pose proof (zlen_nonneg l') as H'. rewrite (proj2 (Z.ltb_lt max (zlen l + zlen l'))) by lia.
    rewrite <- (drop_app_le l l') by (unfold zlen in *; lia).
    destruct (Z.ltb_spec max (max + zlen l')) as [H1|H1].
    - rewrite drop_drop. f_equal. lia.
    - f_equal. lia.
Qed.

Lemma push_bounded_len max l x :
    (0 <= max)%Z → (zlen (push_bounded max l x) = Z.min max (zlen l + 1))%Z.
Proof. intros. unfold push_bounded. by rewrite keep_last_len, zlen_app. Qed.

Lemma push_bounded_small max l x :
    (zlen l < max)%Z → push_bounded max l x = l ++ [x].
Proof.
    intros. unfold push_bounded, keep_last. rewrite zlen_app.
    change (zlen [x]) with 1%Z. by destruct (Z.ltb_spec max (zlen l + 1)); [lia|].
Qed.

(** The newest element is always the last one kept. *)
Lemma push_bounded_last max l x : (0 < max)%Z → last (push_bounded max l x) = Some x.
Proof.
    intros. unfold push_bounded, keep_last. rewrite zlen_app. change (zlen [x]) with 1%Z.
    destruct (Z.ltb_spec max (zlen l + 1)); [|apply last_snoc].
    rewrite drop_app_le by (unfold zlen in *; lia). apply last_snoc.
Qed.

(** A full history loses exactly its oldest element. *)
Lemma push_bounded_full max l x :
    (0 < max)%Z → zlen l = max → push_bounded max l x = tail l ++ [x].
Proof.
    intros ? E. unfold push_bounded, keep_last. rewrite zlen_app. change (zlen [x]) with 1%Z.
    destruct (Z.ltb_spec max (zlen l + 1)); [|lia].
    replace (Z.to_nat (zlen l + 1 - max)) with 1 by lia.
    destruct l; unfold zlen in *; simpl in *; [lia|done].
Qed.
End bounded.

#[export] Hint Resolve zlen_nonneg : go.

(** ** Generic lemmas *)

Lemma Forall_suffix {A} (P : A → Prop) l1 l2 : l1 `suffix_of` l2 → Forall P l2 → Forall P l1.
Proof. intros [k ->] H. by apply Forall_app in H as [_ ?]. Qed.

Lemma keep_last_Forall {A} (P : A → Prop) max l : Forall P l → Forall P (keep_last max l).
Proof. apply Forall_suffix, keep_last_suffix. Qed.

Lemma push_bounded_Forall {A} (P : A → Prop) max l x :
  Forall P l → P x → Forall P (push_bounded max l x).
Proof. intros. apply keep_last_Forall, Forall_app. auto. Qed.

#[export] Hint Resolve push_bounded_Forall keep_last_Forall : go.

Lemma StronglySorted_weaken {A} (R R' : A → A → Prop) l :
  (∀ x y, R x y → R' x y) → StronglySorted R l → StronglySorted R' l.
Proof. intros HR. induction 1 as [|x l _ IH Hall]; constructor; [done|]. eapply Forall_impl; eauto. Qed.

(** ** Reachability, for the components modelled as step relations. *)

Section reach.
Context {S : Type} (init : S → Prop) (step : S → S → Prop).

Inductive reachable : S → Prop :=
  | reach_init s : init s → reachable s
  | reach_step s s' : reachable s → step s s' → reachable s'.

Lemma reachable_ind_inv (I : S → Prop) :
    (∀ s, init s → I s) → (∀ s s', I s → step s s' → I s') → ∀ s, reachable s → I s.
Proof. intros Hi Hs s R. induction R; eauto. Qed.

Lemma reachable_rtc s s' : reachable s → rtc step s s' → reachable s'.
Proof. intros Hs Hr. revert Hs. induction Hr as [|s s1 s' Hst _ IH]; [done|]. intros Hs. apply IH. by eapply reach_step. Qed.
End reach.

(** Runs of a component in its surroundings: [counted n s s'] takes [n] steps of
    its own, with any number of others in between. *)
Section counted.
Context {S : Type} (own others : S → S → Prop).

Inductive counted : nat → S → S → Prop :=
  | counted_refl s : counted 0 s s
  | counted_own n s s' s'' : own s s' → counted n s' s'' → counted (Datatypes.S n) s s''
  | counted_others n s s' s'' : others s s' → counted n s' s'' → counted n s s''.

(** A measure that own steps decrease and others do not increase. *)
Lemma counted_bound (I : S → Prop) (m : S → nat) :
  (∀ s s', I s → own s s' → I s' ∧ (m s' < m s)%nat) → (∀ s s', I s → others s s' → I s' ∧ (m s' <= m s)%nat) →
  ∀ n s s', counted n s s' → I s → I s' ∧ (n + m s' <= m s)%nat.
Proof.
  intros Hown Hoth n s s'. induction 1 as [s|n s s1 s' Hs _ IH|n s s1 s' Hs _ IH]; intros Hi; [split; [done|lia]| |].
  - destruct (Hown _ _ Hi Hs) as [Hi1 Hm]. destruct (IH Hi1). split; [done|lia].
  - destruct (Hoth _ _ Hi Hs) as [Hi1 Hm]. destruct (IH Hi1). split; [done|lia].
Qed.
End counted.

(** ** Comparators

    A three-way comparison that is a total preorder. Comparisons are built by
    comparing a key ([cmp_on]) and by breaking ties ([cmp_then]). *)

Class TotalCmp {A} (c : A → A → comparison) : Prop := {
  cmp_refl x : c x x = Eq;
  cmp_opp x y : c y x = CompOpp (c x y);
  cmp_trans k x y z : c x y = k → c y z = k → c x z = k
}.

Definition cmp_on {A B} (f : A → B) (c : B → B → comparison) (x y : A) : comparison := c (f x) (f y).
Definition cmp_then {A} (c d : A → A → comparison) (x y : A) : comparison :=
  match c x y with Eq => d x y | r => r end.

Section comparators.
Context {A : Type} (c : A → A → comparison) `{!TotalCmp c}.

Lemma cmp_eq_compat x y z : c x y = Eq → c x z = c y z.
Proof.
    intros E. assert (c y x = Eq) as E' by (by rewrite (cmp_opp x y), E).
    destruct (c y z) eqn:E2; destruct (c x z) eqn:E3; try done; exfalso.
    - pose proof (cmp_trans _ x y z E E2). congruence.
    - pose proof (cmp_trans _ x y z E E2). congruence.
    - pose proof (cmp_trans _ y x z E' E3). congruence.
    - assert (c z x = Lt) as E4 by (by rewrite (cmp_opp x z), E3).
      pose proof (cmp_trans _ y z x E2 E4). congruence.
    - pose proof (cmp_trans _ y x z E' E3). congruence.
    - assert (c z x = Gt) as E4 by (by rewrite (cmp_opp x z), E3).
      pose proof (cmp_trans _ y z x E2 E4). congruence.
Qed.

Lemma cmp_eq_compat_r x y z : c y z = Eq → c x y = c x z.
Proof.
    intros E. rewrite (cmp_opp y x), (cmp_opp z x). f_equal. by apply cmp_eq_compat.
Qed.

#[export] Instance cmp_then_total d : TotalCmp d → TotalCmp (cmp_then c d).
Proof.
    intros Hd. split; unfold cmp_then.
    - intros x. by rewrite !cmp_refl.
    - intros x y. rewrite (cmp_opp x y). destruct (c x y); simpl; [apply cmp_opp|done..].
    - intros k x y z. destruct (c x y) eqn:E1; destruct (c y z) eqn:E2; intros H1 H2; subst; try done.
      + rewrite (cmp_trans Eq x y z) by done. by apply (cmp_trans _ x y z).
      + by rewrite (cmp_eq_compat x y z), E2.
      + by rewrite (cmp_eq_compat x y z), E2.
      + by rewrite <- (cmp_eq_compat_r x y z), E1.
      + by rewrite (cmp_trans Lt x y z).
      + by rewrite <- (cmp_eq_compat_r x y z), E1.
      + by rewrite (cmp_trans Gt x y z).
Qed.
End comparators.

#[export] Instance cmp_on_total {A B} (f : A → B) c : TotalCmp c → TotalCmp (cmp_on f c).
Proof.
  intros Hc. split; unfold cmp_on; [intros; apply cmp_refl|intros; apply cmp_opp|].
  intros. by apply (cmp_trans _ _ (f y)).
Qed.

#[export] Instance Zcompare_total : TotalCmp Z.compare.
Proof.
  split; [apply Z.compare_refl|intros; apply Z.compare_antisym|].
  intros k x y z <- ?. destruct (Z.compare_spec x y), (Z.compare_spec y z), (Z.compare_spec x z);
    try done; lia.
Qed.

Lemma cmp_not_gt_trans {A} (c : A → A → comparison) `{!TotalCmp c} x y z :
  c x y ≠ Gt → c y z ≠ Gt → c x z ≠ Gt.
Proof.
  intros H1 H2. destruct (c x y) eqn:E1; [by rewrite (cmp_eq_compat c x y z)| |done].
  destruct (c y z) eqn:E2; [by rewrite <- (cmp_eq_compat_r c x y z), E1| |done].
  by rewrite (cmp_trans Lt x y z).
Qed.

(** ** Map iteration

    Go visits the entries of a map in an order the language leaves open. *)

Class MapOrder := {
  range_order : ∀ {A : Type}, list A → list A;
  range_order_perm : ∀ {A : Type} (l : list A), range_order l ≡ₚ l
}.

Definition in_key_order : MapOrder := {|
  range_order := λ A l, l;
  range_order_perm := λ A l, Permutation_refl l
|}.

Lemma elem_of_range `{MapOrder} {A} (l : list A) x : x ∈ range_order l ↔ x ∈ l.
Proof. by rewrite range_order_perm. Qed.

Lemma NoDup_range `{MapOrder} {A} (l : list A) : NoDup (range_order l) ↔ NoDup l.
Proof. by rewrite range_order_perm. Qed.

(** An invariant of the loop that visits the entries of [m] in any order: it
    may speak of the part already visited. *)
Lemma foldl_map_inv `{MapOrder} `{Countable K} {V B : Type} (f : B → K * V → B) (m : gmap K V)
    (P : B → gmap K V → Prop) b :
  P b ∅ →
  (∀ b' m' k v, m !! k = Some v → m' !! k = None → m' ⊆ m → P b' m' → P (f b' (k, v)) (<[k:=v]> m')) →
  P (foldl f b (range_order (map_to_list m))) m.
Proof.
  intros Hb Hs.
  assert (Hgen : ∀ l b' m', NoDup (l.*1) → (∀ k v, (k, v) ∈ l → m !! k = Some v ∧ m' !! k = None) →
    m' ⊆ m → P b' m' → P (foldl f b' l) (list_to_map l ∪ m')).
  { induction l as [|[k v] l IH]; intros b' m' Hnd Hl Hm Hp; cbn.
    - by rewrite (left_id_L ∅ _).
    - apply NoDup_cons in Hnd as [Hk Hnd].
      destruct (Hl k v ltac:(left)) as [Hmk Hnk].
      rewrite <- insert_union_l, insert_union_r by (by apply not_elem_of_list_to_map_1).
      apply IH; [done| | |by apply Hs].
      + intros k' v' Hin. destruct (Hl k' v' ltac:(by right)) as [? ?]. split; [done|].
        rewrite lookup_insert_ne; [done|]. intros <-. apply Hk. apply list_elem_of_fmap. by exists (k, v').
      + by apply insert_subseteq_l. }
  set (l := range_order (map_to_list m)).
  assert (Hl : l ≡ₚ map_to_list m) by apply range_order_perm.
  assert (list_to_map l ∪ ∅ = m) as Heq.
  { rewrite (right_id_L ∅ _), <- (list_to_map_to_list m). apply list_to_map_proper; [|done].
    rewrite Hl. apply NoDup_fst_map_to_list. }
  rewrite <- Heq. apply Hgen; [rewrite Hl; apply NoDup_fst_map_to_list| |apply map_empty_subseteq|done].
  intros k v Hin. rewrite Hl in Hin. split; [by apply elem_of_map_to_list|done].
Qed.

(** ** [sort.Slice]

    It permutes its argument into an order [less] allows; it is not stable, so
    the order of equivalent elements is open. *)

Class WeakOrder {A} (less : A → A → bool) : Prop := {
  less_asym x y : less x y = true → less y x = false;
  not_less_trans x y z : less y x = false → less z y = false → less z x = false
}.

Class GoSort := {
  sort_slice : ∀ {A : Type}, (A → A → bool) → list A → list A;
  sort_slice_perm : ∀ {A : Type} less (l : list A), sort_slice less l ≡ₚ l;
  sort_slice_sorted : ∀ {A : Type} less (l : list A),
    WeakOrder less → StronglySorted (λ x y, less y x = false) (sort_slice less l)
}.

Section insertion_sort.
Context {A : Type} (less : A → A → bool).

Fixpoint insert_by (x : A) (l : list A) : list A :=
  match l with
  | [] => [x]
  | y :: l => if less y x then y :: insert_by x l else x :: y :: l
  end.

Definition insertion_sort (l : list A) : list A := foldr insert_by [] l.

Lemma insert_by_perm x l : insert_by x l ≡ₚ x :: l.
Proof.
  induction l as [|y l IH]; simpl; [done|]. destruct (less y x); [|done].
  rewrite IH. by apply Permutation_swap.
Qed.

Lemma insertion_sort_perm l : insertion_sort l ≡ₚ l.
Proof. induction l as [|x l IH]; simpl; [done|]. by rewrite insert_by_perm, IH. Qed.

Lemma insertion_sort_sorted l :
  WeakOrder less → StronglySorted (λ x y, less y x = false) (insertion_sort l).
Proof.
  intros Hw. induction l as [|x l IH]; simpl; [constructor|].
  induction IH as [|y l' Hs IH Hall]; simpl; [repeat constructor|].
  destruct (less y x) eqn:E.
  - constructor; [done|]. rewrite insert_by_perm. constructor; [by apply less_asym|done].
  - constructor; [by constructor|]. constructor; [done|].
    eapply Forall_impl; [exact Hall|]. intros z Hz. by eapply not_less_trans.
Qed.
End insertion_sort.

Definition go_insertion_sort : GoSort := {|
  sort_slice := @insertion_sort;
  sort_slice_perm := @insertion_sort_perm;
  sort_slice_sorted := @insertion_sort_sorted
|}.
