(* ===== verification/GoStrings.v ===== *)
(** * The parts of Go's [strings] and [strconv] packages the program uses

    Go strings are byte sequences; here they are Rocq [string]s, whose
    characters are the 256 bytes. White space is Unicode's, as [unicode.IsSpace]
    has it, written as the UTF-8 sequences that encode it. *)
From S2P Require Import Prelude.

(** ** Bytes and slicing *)

Definition byte_of (c : ascii) : Z := Z.of_N (N_of_ascii c).

Fixpoint bytes (l : list N) : string :=
  match l with
  | [] => ""
  | n :: l => String (ascii_of_N n) (bytes l)
  end.

Abbreviation slen := String.length.

Fixpoint str_drop (n : nat) (s : string) : string :=
  match n, s with
  | O, _ => s
  | S n, String _ s => str_drop n s
  | S _, EmptyString => ""
  end.

Fixpoint str_take (n : nat) (s : string) : string :=
  match n, s with
  | S n, String c s => String c (str_take n s)
  | _, _ => ""
  end.

Definition str_rev (s : string) : string := String.rev s.

(** [s[i]], for an index known to be in range. *)
Fixpoint str_get (i : nat) (s : string) : option ascii :=
  match i, s with
  | O, String c _ => Some c
  | S i, String _ s => str_get i s
  | _, EmptyString => None
  end.

(** ** [strings] *)

Fixpoint HasPrefix (s p : string) : bool :=
  match p, s with
  | EmptyString, _ => true
  | String a p, String b s => Ascii.eqb a b && HasPrefix s p
  | _, EmptyString => false
  end.

Definition HasSuffix (s p : string) : bool := HasPrefix (str_rev s) (str_rev p).

Definition TrimPrefix (s p : string) : string :=
  if HasPrefix s p then str_drop (slen p) s else s.

Definition TrimSuffix (s p : string) : string :=
  if HasSuffix s p then str_take (slen s - slen p) s else s.

(** [unicode.IsSpace]: the UTF-8 encodings of the White_Space characters. *)
Definition space_seqs : list string :=
  bytes <$> [[9]; [10]; [11]; [12]; [13]; [32]; [194; 133]; [194; 160];
             [225; 154; 128];
             [226; 128; 128]; [226; 128; 129]; [226; 128; 130]; [226; 128; 131];
             [226; 128; 132]; [226; 128; 133]; [226; 128; 134]; [226; 128; 135];
             [226; 128; 136]; [226; 128; 137]; [226; 128; 138];
             [226; 128; 168]; [226; 128; 169]; [226; 128; 175];
             [226; 129; 159]; [227; 128; 128]]%N.

(** The first of [seqs] that [s] begins with. *)
Fixpoint match_seq (seqs : list string) (s : string) : option string :=
  match seqs with
  | [] => None
  | p :: seqs => if HasPrefix s p then Some p else match_seq seqs s
  end.

Fixpoint strip_seqs (fuel : nat) (seqs : list string) (s : string) : string :=
  match fuel with
  | O => s
  | S fuel =>
      match match_seq seqs s with
      | Some p => strip_seqs fuel seqs (str_drop (slen p) s)
      | None => s
      end
  end.

Definition TrimLeftSpace (s : string) : string := strip_seqs (slen s) space_seqs s.
Definition TrimRightSpace (s : string) : string :=
  str_rev (strip_seqs (slen s) (str_rev <$> space_seqs) (str_rev s)).
Definition TrimSpace (s : string) : string := TrimRightSpace (TrimLeftSpace s).

Definition in_cutset (cut : string) (c : ascii) : bool :=
  existsb (Ascii.eqb c) (String.list_ascii_of_string cut).

Fixpoint TrimLeft (s cut : string) : string :=
  match s with
  | String c s' => if in_cutset cut c then TrimLeft s' cut else s
  | EmptyString => ""
  end.
Definition TrimRight (s cut : string) : string := str_rev (TrimLeft (str_rev s) cut).
Definition Trim (s cut : string) : string := TrimRight (TrimLeft s cut) cut.

(** [strings.Split] on a one-byte separator: always at least one field. *)
Fixpoint Split (s : string) (sep : ascii) : list string :=
  match s with
  | EmptyString => [""]
  | String c s =>
      if Ascii.eqb c sep then "" :: Split s sep
      else match Split s sep with
           | f :: fs => String c f :: fs
           | [] => [String c ""]
           end
  end.

Definition Join (l : list string) (sep : string) : string := String.concat sep l.

Fixpoint Contains (s sub : string) : bool :=
  HasPrefix s sub || match s with
                     | String _ s => Contains s sub
                     | EmptyString => false
                     end.

Fixpoint IndexByte (s : string) (c : ascii) : option nat :=
  match s with
  | EmptyString => None
  | String a s => if Ascii.eqb a c then Some O else S <$> IndexByte s c
  end.

Fixpoint LastIndexByte (s : string) (c : ascii) : option nat :=
  match s with
  | EmptyString => None
  | String a s =>
      match LastIndexByte s c with
      | Some i => Some (S i)
      | None => if Ascii.eqb a c then Some O else None
      end
  end.

(** [strings.Cut] on a one-byte separator. *)
Definition Cut (s : string) (sep : ascii) : string * string * bool :=
  match IndexByte s sep with
  | Some i => (str_take i s, str_drop (S i) s, true)
  | None => (s, "", false)
  end.

(** [strings.Fields]: the maximal runs of non-space characters. *)
Fixpoint fields_aux (fuel : nat) (cur : string) (s : string) : list string :=
  let flush := if (cur =? "")%string then [] else [str_rev cur] in
  match fuel, s with
  | S fuel, String c s' =>
      match match_seq space_seqs s with
      | Some p => flush ++ fields_aux fuel "" (str_drop (slen p) s)
      | None => fields_aux fuel (String c cur) s'
      end
  | _, _ => flush
  end.
Definition Fields (s : string) : list string := fields_aux (S (slen s)) "" s.

Definition lower_ascii (c : ascii) : ascii :=
  let n := N_of_ascii c in
  if ((65 <=? n)%N && (n <=? 90)%N)%bool then ascii_of_N (n + 32) else c.

Fixpoint map_string (f : ascii → ascii) (s : string) : string :=
  match s with
  | EmptyString => ""
  | String c s => String (f c) (map_string f s)
  end.

(** Simple case folding towards ASCII: besides the letters, U+017F folds to
    [s] and U+212A to [k]. *)
Fixpoint fold_ascii (s : string) : string :=
  match s with
  | String "197" (String "191" s) => String "s" (fold_ascii s)
  | String "226" (String "132" (String "170" s)) => String "k" (fold_ascii s)
  | String c s => String (lower_ascii c) (fold_ascii s)
  | EmptyString => ""
  end.

(** [strings.EqualFold], for calls where one side is ASCII. *)
Definition EqualFold (s t : string) : bool := (fold_ascii s =? fold_ascii t)%string.

(** [strings.Compare]: bytewise order, as -1, 0 or 1. *)
Fixpoint str_cmp (s t : string) : comparison :=
  match s, t with
  | EmptyString, EmptyString => Eq
  | EmptyString, _ => Lt
  | _, EmptyString => Gt
  | String a s, String b t =>
      match N.compare (N_of_ascii a) (N_of_ascii b) with
      | Eq => str_cmp s t
      | c => c
      end
  end.

Definition cmp_int (c : comparison) : Z :=
  match c with Lt => -1 | Eq => 0 | Gt => 1 end%Z.

Definition StrCompare (s t : string) : Z := cmp_int (str_cmp s t).

(** ** [strconv] *)

(** The width of the platform's [int]. *)
Class IntSize := int_size : Z.
Definition int64_size : IntSize := 64%Z.
Definition int32_size : IntSize := 32%Z.

(** 64-bit arithmetic wraps around. *)
Definition wrap64 (z : Z) : Z := ((z + 2 ^ 63) mod 2 ^ 64 - 2 ^ 63)%Z.

Lemma wrap64_small z : (- 2 ^ 63 <= z < 2 ^ 63)%Z → wrap64 z = z.
Proof. intros. unfold wrap64. rewrite Z.mod_small by lia. lia. Qed.

Definition int_max {W : IntSize} : Z := (2 ^ (int_size - 1) - 1)%Z.
Definition int_min {W : IntSize} : Z := (- 2 ^ (int_size - 1))%Z.

Inductive atoi_error := ErrSyntax | ErrRange.
#[export] Instance atoi_error_eq_dec : EqDecision atoi_error.
Proof. solve_decision. Defined.

Definition is_digit (c : ascii) : bool := ((48 <=? byte_of c) && (byte_of c <=? 57))%Z.

(** [strconv.ParseUint] in base 10: it stops at the first digit that overflows,
    before it has seen the rest of the string. *)
Fixpoint parse_uint (max n : Z) (s : string) : Z * option atoi_error :=
  match s with
  | EmptyString => (n, None)
  | String c s =>
      if is_digit c then
        let n' := (n * 10 + (byte_of c - 48))%Z in
        if (max <? n')%Z then (max, Some ErrRange) else parse_uint max n' s
      else (0%Z, Some ErrSyntax)
  end.

(** [strconv.Atoi]: the value is meaningful on a range error too (it saturates),
    and is 0 on a syntax error. *)
Definition Atoi {W : IntSize} (s : string) : Z * option atoi_error :=
  let '(neg, body) := match s with
                      | String "+" r => (false, r)
                      | String "-" r => (true, r)
                      | _ => (false, s)
                      end in
  if (body =? "")%string then (0%Z, Some ErrSyntax)
  else
    let '(un, e) := parse_uint (2 ^ int_size - 1) 0 body in
    match e with
    | Some ErrSyntax => (0%Z, Some ErrSyntax)
    | _ =>
        if negb neg && (2 ^ (int_size - 1) <=? un)%Z then (int_max, Some ErrRange)
        else if neg && (2 ^ (int_size - 1) <? un)%Z then (int_min, Some ErrRange)
        else ((if neg then - un else un)%Z, None)
    end.

Definition digit_of (d : Z) : ascii := ascii_of_N (Z.to_N (48 + d)).

Fixpoint digits (fuel : nat) (n : Z) (acc : string) : string :=
  match fuel with
  | O => acc
  | S fuel =>
      let acc := String (digit_of (n mod 10)) acc in
      if (n <? 10)%Z then acc else digits fuel (n / 10) acc
  end.

(** [strconv.Itoa]; a number has at most as many decimal digits as bits. *)
Definition Itoa (n : Z) : string :=
  if (n <? 0)%Z then String "-" (digits (S (Z.to_nat (Z.log2 (- n)))) (- n) "")
  else digits (S (Z.to_nat (Z.log2 n))) n "".

(** ** Tests against the documented behaviour *)

Example trim_space_ascii : TrimSpace ("  a b" +:+ bytes [10; 194; 160]%N) = "a b".
Proof. reflexivity. Qed.
Example split_empty : Split "" "," = [""].
Proof. reflexivity. Qed.
Example fields_runs : Fields " a  bc d " = ["a"; "bc"; "d"].
Proof. reflexivity. Qed.
Example atoi_neg : Atoi (W := int64_size) "-42" = ((-42)%Z, None).
Proof. reflexivity. Qed.
Example atoi_big : Atoi (W := int64_size) "99999999999999999999" = ((2 ^ 63 - 1)%Z, Some ErrRange).
Proof. reflexivity. Qed.
Example itoa_big : Itoa 65535 = "65535".
Proof. reflexivity. Qed.

(** ** Facts about strings *)

Lemma str_app_cons c s t : String c s +:+ t = String c (s +:+ t).
Proof. done. Qed.
Lemma str_app_nil_r s : s +:+ "" = s.
Proof. induction s; [done|]. rewrite str_app_cons. by f_equal. Qed.
Lemma str_app_assoc s t u : (s +:+ t) +:+ u = s +:+ (t +:+ u).
Proof. induction s; [done|]. rewrite !str_app_cons. by f_equal. Qed.
Lemma slen_app s t : slen (s +:+ t) = slen s + slen t.
Proof. induction s; [done|]. rewrite str_app_cons. simpl. by f_equal. Qed.
Lemma str_drop_app s t : str_drop (slen s) (s +:+ t) = t.
Proof. induction s; [by destruct t|]. by rewrite str_app_cons. Qed.
Lemma str_take_app s t : str_take (slen s) (s +:+ t) = s.
Proof. induction s; [by destruct t|]. rewrite str_app_cons. simpl. by f_equal. Qed.
Lemma str_drop_S_app s c t : str_drop (S (slen s)) (s +:+ String c t) = t.
Proof. induction s as [|a s IH]; [by destruct t|]. rewrite str_app_cons. simpl in *. apply IH. Qed.

Lemma HasPrefix_app p s : HasPrefix (p +:+ s) p = true.
Proof.
  induction p; [by destruct s|]. rewrite str_app_cons. simpl.
  by rewrite Ascii.eqb_refl.
Qed.
Lemma HasPrefix_spec s p : HasPrefix s p = true ↔ ∃ k, s = p +:+ k.
Proof.
  split; [|intros [k ->]; apply HasPrefix_app].
  revert s. induction p as [|a p IH]; intros s H; [by exists s|].
  destruct s as [|b s]; simpl in H; [done|].
  apply andb_true_iff in H as [->%Ascii.eqb_eq [k ->]%IH]. by exists k.
Qed.

(** [s] holds no byte [c]. *)
Definition no_byte (c : ascii) (s : string) : Prop := IndexByte s c = None.

Lemma Contains_byte s c : Contains s (String c "") = bool_decide (IndexByte s c ≠ None).
Proof.
  induction s as [|a s IH]; [done|]. cbn [Contains HasPrefix IndexByte].
  assert (HasPrefix s "" = true) as -> by (by destruct s).
  rewrite IH, Ascii.eqb_sym, andb_true_r. destruct (Ascii.eqb a c); [done|]. by destruct (IndexByte s c).
Qed.

Lemma no_byte_nil c : no_byte c "".
Proof. done. Qed.
Lemma no_byte_cons c a s : no_byte c (String a s) ↔ a ≠ c ∧ no_byte c s.
Proof.
  unfold no_byte. simpl. destruct (Ascii.eqb_spec a c); [by intuition|].
  by destruct (IndexByte s c); intuition.
Qed.
Lemma no_byte_app c s t : no_byte c (s +:+ t) ↔ no_byte c s ∧ no_byte c t.
Proof.
  induction s; [split; [done|tauto]|]. rewrite str_app_cons, !no_byte_cons. tauto.
Qed.
Lemma no_byte_last c s : no_byte c s → LastIndexByte s c = None.
Proof.
  induction s as [|a s IH]; [done|]. rewrite no_byte_cons. intros [Ha Hs]. simpl.
  rewrite IH by done. by destruct (Ascii.eqb_spec a c).
Qed.
Lemma IndexByte_app c s t : no_byte c s → IndexByte (s +:+ String c t) c = Some (slen s).
Proof.
  induction s as [|a s IH].
  - intros _. change ("" +:+ String c t) with (String c t). simpl. by rewrite Ascii.eqb_refl.
  - rewrite no_byte_cons. intros [Ha Hs]. rewrite str_app_cons. simpl.
    destruct (Ascii.eqb_spec a c); [done|]. by rewrite IH.
Qed.
Lemma LastIndexByte_app c s t :
  no_byte c t → LastIndexByte (s +:+ String c t) c = Some (slen s).
Proof.
  intros Ht. induction s as [|a s IH].
  - change ("" +:+ String c t) with (String c t). simpl.
    by rewrite no_byte_last, Ascii.eqb_refl.
  - rewrite str_app_cons. simpl. by rewrite IH.
Qed.
Lemma IndexByte_Some s c i :
  IndexByte s c = Some i → no_byte c (str_take i s) ∧ s = str_take i s +:+ String c (str_drop (S i) s).
Proof.
  revert i. induction s as [|a s IH]; intros i; simpl; [done|].
  destruct (Ascii.eqb_spec a c) as [->|Ha].
  - intros [= <-]. split; [done|]. by destruct s.
  - destruct (IndexByte s c) as [j|] eqn:E; simpl; [|done]. intros [= <-].
    destruct (IH j eq_refl) as [H1 H2]. simpl. rewrite no_byte_cons, str_app_cons.
    split; [done|]. f_equal. apply H2.
Qed.

Lemma Split_nonempty s c : Split s c ≠ [].
Proof. induction s; simpl; [done|]. by destruct (Ascii.eqb _ _), (Split s c). Qed.
Lemma Split_no_byte s c : no_byte c s → Split s c = [s].
Proof.
  induction s as [|a s IH]; [done|]. rewrite no_byte_cons. intros [Ha Hs]. simpl.
  destruct (Ascii.eqb_spec a c); [done|]. by rewrite IH.
Qed.
Lemma Split_cons s c t : no_byte c s → Split (s +:+ String c t) c = s :: Split t c.
Proof.
  induction s as [|a s IH].
  - intros _. change ("" +:+ String c t) with (String c t). simpl. by rewrite Ascii.eqb_refl.
  - rewrite no_byte_cons. intros [Ha Hs]. rewrite str_app_cons. simpl.
    destruct (Ascii.eqb_spec a c); [done|]. by rewrite IH.
Qed.
Lemma Split_Forall s c : Forall (no_byte c) (Split s c).
Proof.
  induction s as [|a s IH]; simpl; [by repeat constructor|].
  destruct (Ascii.eqb_spec a c); [by constructor|].
  destruct (Split s c); [by repeat constructor; apply no_byte_cons|].
  inversion IH; subst. constructor; [by apply no_byte_cons|done].
Qed.
Lemma Join_cons x y l sep : Join (x :: y :: l) sep = x +:+ (sep +:+ Join (y :: l) sep).
Proof. done. Qed.
Lemma Split_Join (c : ascii) l :
  l ≠ [] → Forall (no_byte c) l → Split (Join l (String c "")) c = l.
Proof.
  intros Hne HF. induction l as [|x l IH]; [done|].
  apply Forall_cons in HF as [Hx HF]. destruct l as [|y l].
  - by apply Split_no_byte.
  - rewrite Join_cons. change (String c "" +:+ ?s) with (String c s).
    rewrite Split_cons by done. f_equal. by apply IH.
Qed.

(** ** Decimal numerals *)

Fixpoint all_bytes (p : ascii → bool) (s : string) : bool :=
  match s with
  | EmptyString => true
  | String c s => p c && all_bytes p s
  end.

Lemma all_bytes_no_byte p c s : p c = false → all_bytes p s = true → no_byte c s.
Proof.
  intros Hc. induction s as [|a s IH]; [done|]. simpl. intros [Ha Hs]%andb_true_iff.
  apply no_byte_cons. split; [congruence|auto].
Qed.

Lemma byte_of_digit d : (0 <= d < 10)%Z → byte_of (digit_of d) = (48 + d)%Z.
Proof.
  intros. unfold byte_of, digit_of. rewrite N_ascii_embedding by lia. lia.
Qed.
Lemma is_digit_of d : (0 <= d < 10)%Z → is_digit (digit_of d) = true.
Proof. intros. unfold is_digit. rewrite byte_of_digit by done. lia. Qed.

Lemma digits_all fuel n acc :
  (0 <= n)%Z → all_bytes is_digit acc = true → all_bytes is_digit (digits fuel n acc) = true.
Proof.
  revert n acc. induction fuel as [|fuel IH]; intros n acc Hn Ha; simpl; [done|].
  assert (all_bytes is_digit (String (digit_of (n mod 10)) acc) = true).
  { simpl. rewrite is_digit_of by (apply Z.mod_pos_bound; lia). done. }
  destruct (n <? 10)%Z; [done|]. apply IH; [|done]. apply Z.div_pos; lia.
Qed.

Lemma digits_nonempty fuel n acc : digits (S fuel) n acc ≠ "".
Proof.
  revert n acc. induction fuel as [|fuel IH]; intros n acc; simpl.
  - by destruct (n <? 10)%Z.
  - destruct (n <? 10)%Z; [done|]. apply IH.
Qed.

Lemma parse_digits max fuel n acc :
  (0 <= n <= max)%Z → (n < 2 ^ Z.of_nat fuel)%Z →
  parse_uint max 0 (digits fuel n acc) = parse_uint max n acc.
Proof.
  revert n acc. induction fuel as [|fuel IH]; intros n acc Hn Hf.
  { change (2 ^ Z.of_nat 0)%Z with 1%Z in Hf. by replace n with 0%Z by lia. }
  assert (parse_uint max (n / 10) (String (digit_of (n mod 10)) acc) = parse_uint max n acc) as E.
  { pose proof (Z.mod_pos_bound n 10 eq_refl). cbn [parse_uint].
    rewrite is_digit_of, byte_of_digit by done.
    replace (n / 10 * 10 + (48 + n mod 10 - 48))%Z with n
      by (rewrite (Z.div_mod n 10) at 1; lia).
    destruct (Z.ltb_spec max n); [lia|done]. }
  cbn [digits]. destruct (Z.ltb_spec n 10).
  - rewrite <- E. by rewrite Z.div_small by lia.
  - rewrite IH; [done|..].
    + split; [apply Z.div_pos; lia|]. apply Z.div_le_upper_bound; lia.
    + apply Z.div_lt_upper_bound; [lia|]. rewrite Nat2Z.inj_succ, Z.pow_succ_r in Hf by lia. lia.
Qed.

Lemma Itoa_digits n : (0 <= n)%Z → all_bytes is_digit (Itoa n) = true ∧ Itoa n ≠ "".
Proof.
  intros. unfold Itoa. destruct (Z.ltb_spec n 0); [lia|].
  split; [by apply digits_all|apply digits_nonempty].
Qed.

Lemma log2_fuel n : (0 <= n)%Z → (n < 2 ^ Z.of_nat (S (Z.to_nat (Z.log2 n))))%Z.
Proof.
  intros. pose proof (Z.log2_nonneg n). rewrite Nat2Z.inj_succ, Z2Nat.id by done.
  destruct (Z.eq_dec n 0) as [->|]; [done|]. apply Z.log2_spec. lia.
Qed.

(** Printing a non-negative [int] and reading it back gives it back. *)
Lemma Atoi_Itoa {W : IntSize} n :
  (1 <= int_size)%Z → (0 <= n <= int_max)%Z → Atoi (Itoa n) = (n, None).
Proof.
  intros Hw Hn. destruct (Itoa_digits n) as [Hd He]; [lia|].
  assert (2 ^ int_size = 2 * 2 ^ (int_size - 1))%Z as Ep.
  { rewrite <- Z.pow_succ_r by lia. f_equal. lia. }
  unfold Atoi.
  assert (match Itoa n with
          | String "+" r => (false, r) | String "-" r => (true, r) | _ => (false, Itoa n)
          end = (false, Itoa n)) as ->.
  { destruct (Itoa n) as [|c s]; [done|]. simpl in Hd. apply andb_true_iff in Hd as [Hc _].
    destruct c as [[][][][][][][][]]; done. }
  destruct (Itoa n =? "")%string eqn:E0; [by apply String.eqb_eq in E0|].
  unfold int_max in *.
  unfold Itoa. destruct (Z.ltb_spec n 0); [lia|].
  rewrite parse_digits by (try apply log2_fuel; lia). cbn [parse_uint negb andb].
  destruct (Z.leb_spec (2 ^ (int_size - 1)) n); [lia|done].
Qed.

Lemma str_cmp_refl s : str_cmp s s = Eq.
Proof. induction s; simpl; [done|]. by rewrite N.compare_refl. Qed.
Lemma str_cmp_eq s t : str_cmp s t = Eq → s = t.
Proof.
  revert t. induction s as [|a s IH]; intros [|b t]; simpl; try done.
  destruct (N.compare_spec (N_of_ascii a) (N_of_ascii b)) as [E| |]; try done.
  intros ?%IH. subst. f_equal. by rewrite <- (ascii_N_embedding a), E, ascii_N_embedding.
Qed.
Lemma str_cmp_opp s t : str_cmp t s = CompOpp (str_cmp s t).
Proof.
  revert t. induction s as [|a s IH]; intros [|b t]; simpl; try done.
  rewrite N.compare_antisym. by destruct (N.compare (N_of_ascii a) (N_of_ascii b)); simpl.
Qed.
Lemma str_cmp_trans c s t u : str_cmp s t = c → str_cmp t u = c → str_cmp s u = c.
Proof.
  intros <-. revert t u. induction s as [|a s IH]; intros [|b t] [|d u]; simpl; try done.
  destruct (N.compare_spec (N_of_ascii a) (N_of_ascii b)) as [E1|L1|L1];
  destruct (N.compare_spec (N_of_ascii b) (N_of_ascii d)) as [E2|L2|L2];
  destruct (N.compare_spec (N_of_ascii a) (N_of_ascii d)) as [E3|L3|L3];
    try (exfalso; lia); intros; auto; try congruence.
  all: try (symmetry; congruence).
Qed.
#[export] Instance str_cmp_total : TotalCmp str_cmp.
Proof. split; [apply str_cmp_refl|intros; apply str_cmp_opp|intros ?? y ???; by apply (str_cmp_trans _ _ y)]. Qed.

(** ** Slices and bytes *)

Lemma str_take_drop n s : str_take n s +:+ str_drop n s = s.
Proof.
  revert s. induction n as [|n IH]; intros [|c s]; [done..|].
  simpl. rewrite str_app_cons. by rewrite IH.
Qed.
Lemma no_byte_take c n s : no_byte c s → no_byte c (str_take n s).
Proof. rewrite <- (str_take_drop n s) at 1. rewrite no_byte_app. tauto. Qed.
Lemma no_byte_drop c n s : no_byte c s → no_byte c (str_drop n s).
Proof. rewrite <- (str_take_drop n s) at 1. rewrite no_byte_app. tauto. Qed.
Lemma str_drop_drop n m s : str_drop n (str_drop m s) = str_drop (m + n) s.
Proof. revert s. induction m as [|m IH]; intros [|c s]; simpl; auto. by destruct n. Qed.
Lemma no_byte_drop_le c n m s : (n <= m)%nat → no_byte c (str_drop n s) → no_byte c (str_drop m s).
Proof.
  intros Hle Hn. replace m with (n + (m - n))%nat by lia. rewrite <- str_drop_drop.
  by apply no_byte_drop.
Qed.
Lemma str_drop_take n m s : str_drop n (str_take m s) = str_take (m - n) (str_drop n s).
Proof.
  revert m s. induction n as [|n IH]; intros m s; [simpl; by rewrite Nat.sub_0_r|].
  destruct m as [|m], s as [|c s]; simpl; auto. by destruct (m - n)%nat.
Qed.
Lemma no_byte_drop_take c n m s : no_byte c (str_drop n s) → no_byte c (str_drop n (str_take m s)).
Proof. intros. rewrite str_drop_take. by apply no_byte_take. Qed.
Lemma LastIndexByte_Some s c i :
  LastIndexByte s c = Some i →
  no_byte c (str_drop (S i) s) ∧ s = str_take i s +:+ String c (str_drop (S i) s).
Proof.
  revert i. induction s as [|a s IH]; intros i; simpl; [done|].
  destruct (LastIndexByte s c) as [j|] eqn:E.
  - intros [= <-]. destruct (IH j eq_refl) as [H1 H2]. split; [done|].
    cbn [str_take str_drop]. rewrite str_app_cons. f_equal. apply H2.
  - destruct (Ascii.eqb_spec a c) as [->|]; [|done]. intros [= <-].
    split; [|by destruct s].
    assert (no_byte c s) as Hs; [|by destruct s].
    clear IH. induction s as [|b s IH]; [done|]. simpl in E.
    destruct (LastIndexByte s c); [done|]. destruct (Ascii.eqb_spec b c); [done|].
    apply no_byte_cons; auto.
Qed.
Lemma no_byte_HasPrefix_1 c s : no_byte c s → HasPrefix s (String c "") = false.
Proof.
  destruct s as [|a s]; [done|]. rewrite no_byte_cons. intros [Ha _]. simpl.
  by destruct (Ascii.eqb_spec c a).
Qed.

(** ** Strings without white space *)

Definition printable (c : ascii) : bool := ((33 <=? byte_of c) && (byte_of c <=? 126))%Z.

Lemma match_seq_printable c s :
  printable c = true →
  match_seq space_seqs (String c s) = None ∧ match_seq (str_rev <$> space_seqs) (String c s) = None.
Proof. destruct c as [[][][][][][][][]]; intros H; vm_compute in H; try done; split; reflexivity. Qed.

Lemma strip_seqs_printable f s :
  all_bytes printable s = true →
  strip_seqs f space_seqs s = s ∧ strip_seqs f (str_rev <$> space_seqs) s = s.
Proof.
  destruct f; [done|]. destruct s as [|c s]; [intros _; split; reflexivity|].
  cbn [all_bytes]. intros [Hc _]%andb_true_iff.
  destruct (match_seq_printable c s Hc) as [E1 E2]. cbn [strip_seqs]. by rewrite E1, E2.
Qed.

Lemma rev_app_all p s t :
  all_bytes p (String.rev_app s t) = all_bytes p s && all_bytes p t.
Proof.
  revert t. induction s as [|c s IH]; intros t; [done|]. simpl. rewrite IH. simpl.
  by destruct (p c), (all_bytes p s).
Qed.
Lemma str_rev_all p s : all_bytes p (str_rev s) = all_bytes p s.
Proof. unfold str_rev, String.rev. rewrite rev_app_all. simpl. apply andb_true_r. Qed.

Lemma rev_app_spec s t : String.rev_app s t = str_rev s +:+ t.
Proof.
  unfold str_rev, String.rev. revert t. induction s as [|c s IH]; intros t; [done|].
  simpl. rewrite IH, (IH (String c "")), str_app_assoc. done.
Qed.
Lemma str_rev_cons c s : str_rev (String c s) = str_rev s +:+ String c "".
Proof. apply (rev_app_spec s (String c "")). Qed.
Lemma str_rev_app s t : str_rev (s +:+ t) = str_rev t +:+ str_rev s.
Proof.
  induction s as [|c s IH]; [by rewrite str_app_nil_r|].
  rewrite str_app_cons, !str_rev_cons, IH, str_app_assoc. done.
Qed.
Lemma str_rev_involutive s : str_rev (str_rev s) = s.
Proof.
  induction s as [|c s IH]; [done|]. rewrite str_rev_cons, str_rev_app, IH. done.
Qed.

Lemma TrimSpace_printable s : all_bytes printable s = true → TrimSpace s = s.
Proof.
  intros Hs. unfold TrimSpace, TrimLeftSpace, TrimRightSpace.
  rewrite (proj1 (strip_seqs_printable _ s Hs)).
  rewrite (proj2 (strip_seqs_printable _ (str_rev s) ltac:(by rewrite str_rev_all))).
  apply str_rev_involutive.
Qed.

Lemma all_bytes_app p s t : all_bytes p (s +:+ t) = all_bytes p s && all_bytes p t.
Proof. induction s; [done|]. rewrite str_app_cons. simpl. rewrite IHs. apply andb_assoc. Qed.
Lemma all_bytes_impl (p q : ascii → bool) s :
  (∀ c, p c = true → q c = true) → all_bytes p s = true → all_bytes q s = true.
Proof. intros H. induction s; [done|]. simpl. rewrite !andb_true_iff. intuition. Qed.
Lemma digit_printable c : is_digit c = true → printable c = true.
Proof. unfold is_digit, printable. intros. lia. Qed.
Lemma Join_all p l sep :
  Forall (λ s, all_bytes p s = true) l → all_bytes p sep = true → all_bytes p (Join l sep) = true.
Proof.
  intros Hl Hs. induction Hl as [|x l Hx Hl IH]; [done|]. destruct l as [|y l]; [done|].
  rewrite Join_cons, !all_bytes_app, Hx, Hs. done.
Qed.

(** ** [TrimSpace] cuts both ends, and cuts them once *)

Lemma match_seq_none seqs s : match_seq seqs s = None ↔ ∀ p, p ∈ seqs → HasPrefix s p = false.
Proof.
  induction seqs as [|q seqs IH]; simpl; [split; [intros _ p Hp; by apply elem_of_nil in Hp|done]|].
  destruct (HasPrefix s q) eqn:E; split; try done.
  - intros H. specialize (H q). rewrite E in H. exfalso. by discriminate H; left.
  - intros H p Hp. apply elem_of_cons in Hp as [-> |Hp]; [done|]. by apply IH.
  - intros H. apply IH. intros p Hp. apply H. by right.
Qed.

Lemma match_seq_some seqs s p : match_seq seqs s = Some p → p ∈ seqs ∧ HasPrefix s p = true.
Proof.
  induction seqs as [|q seqs IH]; simpl; [done|]. destruct (HasPrefix s q) eqn:E.
  - intros [= ->]. split; [left|done].
  - intros H. apply IH in H as [H1 H2]. split; [by right|done].
Qed.

Section Strip.
Context (seqs : list string) (Hne : ∀ p, p ∈ seqs → p ≠ "").

Lemma strip_clean fuel : ∀ s, (slen s <= fuel)%nat → match_seq seqs (strip_seqs fuel seqs s) = None.
Proof.
  induction fuel as [|fuel IH]; intros s Hs; cbn [strip_seqs].
  { destruct s; [|simpl in Hs; lia]. apply match_seq_none. intros p Hp. destruct p; [|done]. by apply Hne in Hp. }
  destruct (match_seq seqs s) as [p|] eqn:E; [|done].
  apply match_seq_some in E as [Hp [k ->]%HasPrefix_spec]. rewrite str_drop_app. apply IH.
  rewrite slen_app in Hs. destruct p; [by apply Hne in Hp|]. simpl in Hs. lia.
Qed.

Lemma strip_suffix fuel : ∀ s, ∃ k, s = k +:+ strip_seqs fuel seqs s.
Proof.
  induction fuel as [|fuel IH]; intros s; cbn [strip_seqs]; [by exists ""|].
  destruct (match_seq seqs s) as [p|] eqn:E; [|by exists ""].
  apply match_seq_some in E as [_ [k ->]%HasPrefix_spec]. rewrite str_drop_app.
  destruct (IH k) as [k' E]. exists (p +:+ k'). by rewrite str_app_assoc, <- E.
Qed.

Lemma strip_id fuel s : match_seq seqs s = None → strip_seqs fuel seqs s = s.
Proof. intros E. destruct fuel; [done|]. simpl. by rewrite E. Qed.

Lemma match_seq_prefix s t : match_seq seqs (s +:+ t) = None → match_seq seqs s = None.
Proof.
  rewrite !match_seq_none. intros H p Hp. specialize (H p Hp). apply not_true_iff_false. intros [k ->]%HasPrefix_spec.
  apply not_true_iff_false in H. apply H, HasPrefix_spec. exists (k +:+ t). by rewrite str_app_assoc.
Qed.
End Strip.

Lemma space_seqs_nonempty p : p ∈ space_seqs → p ≠ "".
Proof. intros Hp ->. revert Hp. apply (bool_decide_unpack (¬ "" ∈ space_seqs)). by vm_compute. Qed.

Lemma rev_seqs_nonempty p : p ∈ str_rev <$> space_seqs → p ≠ "".
Proof. intros Hp ->. revert Hp. apply (bool_decide_unpack (¬ "" ∈ str_rev <$> space_seqs)). by vm_compute. Qed.

Lemma slen_rev s : slen (str_rev s) = slen s.
Proof. induction s as [|c s IH]; [done|]. rewrite str_rev_cons, slen_app, IH. simpl. lia. Qed.

(** What [TrimSpace] leaves: a part of the string with clean ends. *)
Lemma TrimSpace_parts s :
  (∃ k1 k2, s = k1 +:+ (TrimSpace s +:+ k2)) ∧ match_seq space_seqs (TrimSpace s) = None ∧
  match_seq (str_rev <$> space_seqs) (str_rev (TrimSpace s)) = None.
Proof.
  unfold TrimSpace. set (a := TrimLeftSpace s). unfold TrimRightSpace. set (r := strip_seqs _ _ (str_rev a)).
  assert (Ha : match_seq space_seqs a = None) by (apply strip_clean; [apply space_seqs_nonempty|done]).
  assert (Hr : match_seq (str_rev <$> space_seqs) r = None).
  { apply strip_clean; [apply rev_seqs_nonempty|]. by rewrite slen_rev. }
  destruct (strip_suffix space_seqs (slen s) s) as [k1 E1]. fold (TrimLeftSpace s) in E1. fold a in E1.
  destruct (strip_suffix (str_rev <$> space_seqs) (slen a) (str_rev a)) as [k2 E2]. fold r in E2.
  assert (E3 : a = str_rev r +:+ str_rev k2) by by rewrite <- str_rev_app, <- E2, str_rev_involutive.
  split_and!.
  - exists k1, (str_rev k2). by rewrite <- E3.
  - rewrite E3 in Ha. by apply match_seq_prefix in Ha.
  - by rewrite str_rev_involutive.
Qed.

Lemma TrimSpace_idemp s : TrimSpace (TrimSpace s) = TrimSpace s.
Proof.
  destruct (TrimSpace_parts s) as (_ & H1 & H2). set (b := TrimSpace s) in *.
  unfold TrimSpace, TrimLeftSpace. rewrite strip_id by done. unfold TrimRightSpace. rewrite strip_id by done.
  apply str_rev_involutive.
Qed.

Lemma no_byte_TrimSpace c s : no_byte c s → no_byte c (TrimSpace s).
Proof.
  destruct (TrimSpace_parts s) as ((k1 & k2 & E) & _). rewrite E at 1. rewrite !no_byte_app. tauto.
Qed.
