(* ===== verification/GoNet.v ===== *)
(** * The parts of Go's [net] package the program uses

    [SplitHostPort]/[JoinHostPort], [ParseIP], [IP.String] and the address
    predicates. An [IP] is its list of bytes: 16 from [ParseIP] (IPv4 addresses
    in the ::ffff:0:0/96 form), 4 or 16 elsewhere. *)
From S2P Require Import Prelude GoStrings.

(** ** host:port *)

Definition SplitHostPort (hostport : string) : result (string * string) :=
  match LastIndexByte hostport ":" with
  | None => Err "missing port in address"
  | Some i =>
      let finish (host : string) (j k : nat) :=
        if decide (IndexByte (str_drop j hostport) "[" ≠ None)
        then Err "unexpected '[' in address"
        else if decide (IndexByte (str_drop k hostport) "]" ≠ None)
        then Err "unexpected ']' in address"
        else Ok (host, str_drop (S i) hostport) in
      if HasPrefix hostport "[" then
        match IndexByte hostport "]" with
        | None => Err "missing ']' in address"
        | Some e =>
            if (S e =? slen hostport)%nat then Err "missing port in address"
            else if (S e =? i)%nat then
              finish (str_drop 1 (str_take e hostport)) 1%nat (S e)
            else if decide (str_get (S e) hostport = Some ":"%char)
            then Err "too many colons in address"
            else Err "missing port in address"
        end
      else
        let host := str_take i hostport in
        if decide (IndexByte host ":" ≠ None) then Err "too many colons in address"
        else finish host O O
  end.

Definition JoinHostPort (host port : string) : string :=
  match IndexByte host ":" with
  | Some _ => "[" +:+ host +:+ "]:" +:+ port
  | None => host +:+ ":" +:+ port
  end.

(** [url.Parse]: the scheme and the host of a URL. *)
Class UrlParse := url_parse : string → result (string * string).

(** ** Addresses *)

Abbreviation IP := (list Z).

Definition v4_prefix : list Z := repeat 0%Z 10 ++ [255; 255]%Z.

(** [ip.To4()] *)
Definition To4 (ip : IP) : option IP :=
  if (length ip =? 4)%nat then Some ip
  else if (length ip =? 16)%nat && bool_decide (take 12 ip = v4_prefix)
  then Some (drop 12 ip)
  else None.

(** One decimal field of a dotted IPv4 address: no empty field, no leading
    zero, at most 255. *)
Fixpoint dec_field (n : Z) (s : string) : option Z :=
  match s with
  | EmptyString => Some n
  | String c s =>
      if is_digit c then
        let n := (n * 10 + (byte_of c - 48))%Z in
        if (255 <? n)%Z then None else dec_field n s
      else None
  end.
Definition octet (s : string) : option Z :=
  match s with
  | EmptyString => None
  | String "0" (String _ _) => None
  | _ => dec_field 0 s
  end.

Definition parseIPv4 (s : string) : option (list Z) :=
  match Split s "." with
  | [a; b; c; d] =>
      a ← octet a; b ← octet b; c ← octet c; d ← octet d; Some [a; b; c; d]
  | _ => None
  end.

Definition hex_val (c : ascii) : option Z :=
  let n := byte_of c in
  if ((48 <=? n) && (n <=? 57))%Z then Some (n - 48)%Z
  else if ((97 <=? n) && (n <=? 102))%Z then Some (n - 87)%Z
  else if ((65 <=? n) && (n <=? 70))%Z then Some (n - 55)%Z
  else None.

(** The leading run of hexadecimal digits: their number, their value and the
    rest of the string. *)
Fixpoint hex_run (off : nat) (acc : Z) (s : string) : nat * Z * string :=
  match s with
  | String c s' =>
      match hex_val c with
      | Some d => hex_run (S off) (acc * 16 + d)%Z s'
      | None => (off, acc, s)
      end
  | EmptyString => (off, acc, s)
  end.

(** The loop of [netip.parseIPv6]: [out] holds the bytes read so far (in order)
    and [ell] the position of the ellipsis. *)
Fixpoint v6_loop (fuel : nat) (out : list Z) (ell : option nat) (s : string)
  : option (list Z * option nat) :=
  match fuel with
  | O => None
  | S fuel =>
      if (16 <=? length out)%nat then (if (s =? "")%string then Some (out, ell) else None)
      else
        let '(off, acc, rest) := hex_run 0 0 s in
        if (off =? 0)%nat || (4 <? off)%nat then None
        else if HasPrefix rest "." then
          if bool_decide (ell = None) && negb (length out =? 12)%nat then None
          else if (16 <? length out + 4)%nat then None
          else match parseIPv4 s with
               | Some v4 => Some (out ++ v4, ell)
               | None => None
               end
        else
          let out := out ++ [acc / 256; acc mod 256]%Z in
          match rest with
          | EmptyString => Some (out, ell)
          | String ":" EmptyString => None
          | String ":" (String ":" s') =>
              match ell with
              | Some _ => None
              | None =>
                  if (s' =? "")%string then Some (out, Some (length out))
                  else v6_loop fuel out (Some (length out)) s'
              end
          | String ":" s' => v6_loop fuel out ell s'
          | String _ _ => None
          end
  end.

Definition parseIPv6 (s : string) : option IP :=
  let '(s, ell) := if HasPrefix s "::" then (str_drop 2 s, Some O) else (s, None) in
  if bool_decide (ell = Some O) && (s =? "")%string then Some (repeat 0%Z 16)
  else
    match v6_loop 9 [] ell s with
    | None => None
    | Some (out, ell) =>
        if (length out <? 16)%nat then
          match ell with
          | None => None
          | Some e => Some (take e out ++ repeat 0%Z (16 - length out) ++ drop e out)
          end
        else match ell with
             | Some _ => None
             | None => Some out
             end
    end.

(** [netip.ParseAddr] decides on the first of '.', ':' and '%'; [net.ParseIP]
    refuses zones. *)
Fixpoint parse_kind (s : string) : option bool :=
  match s with
  | String "." _ => Some true
  | String ":" _ => Some false
  | String "%" _ => None
  | String _ s => parse_kind s
  | EmptyString => None
  end.

Definition ParseIP (s : string) : option IP :=
  match parse_kind s with
  | Some true => (λ v4, v4_prefix ++ v4) <$> parseIPv4 s
  | Some false => if decide (IndexByte s "%" = None) then parseIPv6 s else None
  | None => None
  end.

(** ** [IP.String] *)

Definition hex_digit (d : Z) : ascii :=
  if (d <? 10)%Z then ascii_of_N (Z.to_N (48 + d)) else ascii_of_N (Z.to_N (87 + d)).

Fixpoint hex_digits (fuel : nat) (n : Z) (acc : string) : string :=
  match fuel with
  | O => acc
  | S fuel =>
      let acc := String (hex_digit (n mod 16)) acc in
      if (n <? 16)%Z then acc else hex_digits fuel (n / 16) acc
  end.
Definition FormatHex (n : Z) : string := hex_digits 4 n "".

Fixpoint words16 (ip : IP) : list Z :=
  match ip with
  | a :: b :: ip => (a * 256 + b)%Z :: words16 ip
  | _ => []
  end.

Fixpoint zero_run (ws : list Z) : nat :=
  match ws with
  | 0%Z :: ws => S (zero_run ws)
  | _ => O
  end.

(** The leftmost longest run of at least two zero groups: its start and length. *)
Fixpoint best_run (n i : nat) (ws : list Z) (best : nat * nat) : nat * nat :=
  match n with
  | O => best
  | S n =>
      let l := zero_run (drop i ws) in
      let best := if (2 <=? l)%nat && (snd best <? l)%nat then (i, l) else best in
      best_run n (S i) ws best
  end.

Definition v6_string (ip : IP) : string :=
  let ws := words16 ip in
  let '(start, len) := best_run 8 0 ws (255%nat, 0%nat) in
  if (len =? 0)%nat then Join (FormatHex <$> ws) ":"
  else Join (FormatHex <$> take start ws) ":" +:+ "::" +:+
       Join (FormatHex <$> drop (start + len) ws) ":".

Definition v4_string (v4 : list Z) : string := Join (Itoa <$> v4) ".".

Definition IPString (ip : IP) : string :=
  match To4 ip with
  | Some v4 => v4_string v4
  | None => v6_string ip
  end.

(** ** Predicates of [net.IP] *)

Definition byte_at (ip : IP) (i : nat) : Z := nth i ip 0%Z.

Definition IsLoopback (ip : IP) : bool :=
  match To4 ip with
  | Some v4 => (byte_at v4 0 =? 127)%Z
  | None => bool_decide (ip = repeat 0%Z 15 ++ [1%Z])
  end.
Definition IsUnspecified (ip : IP) : bool :=
  match To4 ip with
  | Some v4 => bool_decide (v4 = [0; 0; 0; 0]%Z)
  | None => bool_decide (ip = repeat 0%Z 16)
  end.
Definition IsPrivate (ip : IP) : bool :=
  match To4 ip with
  | Some v4 =>
      ((byte_at v4 0 =? 10)
       || ((byte_at v4 0 =? 172) && (Z.land (byte_at v4 1) 240 =? 16))
       || ((byte_at v4 0 =? 192) && (byte_at v4 1 =? 168)))%Z
  | None => (length ip =? 16)%nat && (Z.land (byte_at ip 0) 254 =? 252)%Z
  end.
Definition IsMulticast (ip : IP) : bool :=
  match To4 ip with
  | Some v4 => (Z.land (byte_at v4 0) 240 =? 224)%Z
  | None => (length ip =? 16)%nat && (byte_at ip 0 =? 255)%Z
  end.
Definition IsLinkLocalMulticast (ip : IP) : bool :=
  match To4 ip with
  | Some v4 => ((byte_at v4 0 =? 224) && (byte_at v4 1 =? 0) && (byte_at v4 2 =? 0))%Z
  | None => (length ip =? 16)%nat && (byte_at ip 0 =? 255)%Z && (Z.land (byte_at ip 1) 15 =? 2)%Z
  end.
Definition IsLinkLocalUnicast (ip : IP) : bool :=
  match To4 ip with
  | Some v4 => ((byte_at v4 0 =? 169) && (byte_at v4 1 =? 254))%Z
  | None => (length ip =? 16)%nat && (byte_at ip 0 =? 254)%Z && (Z.land (byte_at ip 1) 192 =? 128)%Z
  end.

(** ** Tests against the documented behaviour *)

Example SplitHostPort_tests :
  SplitHostPort "[2001:db8::1]:443" = Ok ("2001:db8::1", "443") ∧
  SplitHostPort "1.2.3.4:80" = Ok ("1.2.3.4", "80") ∧
  SplitHostPort "2001:db8::1" = Err "too many colons in address" ∧
  SplitHostPort "[::1]" = Err "missing port in address" ∧
  SplitHostPort "host" = Err "missing port in address".
Proof. repeat split. Qed.
Example IPString_tests :
  (IPString <$> ParseIP "2001:DB8:0:0:1:0:0:1") = Some "2001:db8::1:0:0:1" ∧
  (IPString <$> ParseIP "::") = Some "::" ∧
  (IPString <$> ParseIP "1::") = Some "1::" ∧
  (IPString <$> ParseIP "::ffff:1.2.3.4") = Some "1.2.3.4" ∧
  (IPString <$> ParseIP "fe80::1%eth0") = None ∧
  (IPString <$> ParseIP "1.02.3.4") = None ∧
  (IPString <$> ParseIP "1:2:3:4:5:6:7:8") = Some "1:2:3:4:5:6:7:8" ∧
  (IPString <$> ParseIP "1:2:3:4:5:6:7:8:9") = None.
Proof. repeat split. Qed.

(** ** host:port round trips *)

(** What [SplitHostPort] guarantees of its results. *)
Definition host_ok (h : string) : Prop := no_byte "[" h ∧ no_byte "]" h.
Definition port_ok (p : string) : Prop := no_byte ":" p ∧ no_byte "[" p ∧ no_byte "]" p.

Lemma decide_no_byte {A} c s (a b : A) :
  no_byte c s → (if decide (IndexByte s c ≠ None) then a else b) = b.
Proof. intros H. by destruct (decide _). Qed.

Ltac no_bytes := rewrite ?no_byte_app, ?no_byte_cons; repeat split; done.

Lemma SplitHostPort_Join h p :
  host_ok h → port_ok p → SplitHostPort (JoinHostPort h p) = Ok (h, p).
Proof.
  intros [H1 H2] [P1 [P2 P3]]. unfold JoinHostPort. destruct (IndexByte h ":") as [k|] eqn:Ek.
  - set (s := _ +:+ _).
    assert (s = ("[" +:+ h +:+ "]") +:+ String ":" p) as Es.
    { unfold s. by rewrite !str_app_assoc. }
    assert (s = ("[" +:+ h) +:+ String "]" (String ":" p)) as Es2.
    { unfold s. by rewrite !str_app_assoc. }
    assert (LastIndexByte s ":" = Some (S (S (slen h)))) as El.
    { rewrite Es, LastIndexByte_app by done. rewrite !slen_app. simpl. f_equal. lia. }
    assert (IndexByte s "]" = Some (S (slen h))) as Ei.
    { rewrite Es2, IndexByte_app; [|by apply no_byte_app].
      rewrite !slen_app. done. }
    unfold SplitHostPort. rewrite El, Ei. assert (HasPrefix s "[" = true) as -> by (apply (HasPrefix_app "[")).
    assert (slen s = S (S (slen h)) + S (slen p))%nat as Ls.
    { rewrite Es, !slen_app. simpl. lia. }
    destruct (Nat.eqb_spec (S (S (slen h))) (slen s)); [lia|]. rewrite Nat.eqb_refl.
    assert (str_drop 1 s = h +:+ "]:" +:+ p) as D1 by done.
    assert (str_drop (S (S (slen h))) s = String ":" p) as D2.
    { change (S (S (slen h))) with (1 + S (slen h))%nat. rewrite <- str_drop_drop, D1.
      change ("]:" +:+ p) with (String "]" (String ":" p)). apply str_drop_S_app. }
    rewrite !decide_no_byte.
    + rewrite str_drop_take, D1. change (S (S (S (slen h)))) with (S (S (slen h)) + 1)%nat || idtac.
      replace (S (S (S (slen h)))) with (S (S (slen h)) + 1)%nat by lia.
      rewrite <- str_drop_drop, D2. simpl. replace (slen h - 0)%nat with (slen h) by lia.
      by rewrite str_take_app.
    + rewrite D2. no_bytes.
    + rewrite D1. no_bytes.
  - assert (LastIndexByte (h +:+ ":" +:+ p) ":" = Some (slen h)) as El by (by apply LastIndexByte_app).
    unfold SplitHostPort. rewrite El.
    assert (no_byte "[" (h +:+ ":" +:+ p)) as Nb by no_bytes.
    rewrite (no_byte_HasPrefix_1 "[" _ Nb), str_take_app, !decide_no_byte.
    + change (":" +:+ p) with (String ":" p). by rewrite str_drop_S_app.
    + simpl. no_bytes.
    + done.
    + done.
Qed.

Lemma SplitHostPort_ok s h p : SplitHostPort s = Ok (h, p) → host_ok h ∧ port_ok p.
Proof.
  unfold SplitHostPort. destruct (LastIndexByte s ":") as [i|] eqn:El; [|done].
  apply LastIndexByte_Some in El as [Pc _].
  destruct (HasPrefix s "[") eqn:Ep.
  - destruct (IndexByte s "]") as [e|] eqn:Ei; [|done].
    apply IndexByte_Some in Ei as [Ne _].
    destruct (_ =? _)%nat; [done|]. destruct (Nat.eqb_spec (S e) i); [|by destruct (decide _)].
    destruct (decide _) as [|D1]; [done|]. destruct (decide _) as [|D2]; [done|].
    intros [= <- <-]. apply dec_stable in D1, D2. split; split.
    + apply (no_byte_drop_take _ 1). done.
    + by apply (no_byte_drop _ 1).
    + done.
    + split; [apply (no_byte_drop_le _ 1 (S i)); [lia|done]|apply (no_byte_drop_le _ (S e) (S i)); [lia|done]].
  - destruct (decide _) as [|D0]; [done|].
    destruct (decide _) as [|D1]; [done|]. destruct (decide _) as [|D2]; [done|].
    intros [= <- <-]. apply dec_stable in D1, D2. simpl in D1, D2.
    split; split; try (by apply no_byte_take); [done|].
    split; by apply (no_byte_drop _ (S i)).
Qed.
