(* ===== verification/GoEncoding.v ===== *)
(** * Encodings of Go's standard library: [encoding/hex], [encoding/base64], [crypto/sha256]

    A [[]byte] is the byte sequence a Rocq [string] holds. [rand.Read] is an
    oracle: the bytes it fills in at each call, or its error. *)
From S2P Require Import Prelude GoStrings.

Definition chr (z : Z) : ascii := ascii_of_N (Z.to_N z).

Lemma byte_of_chr z : (0 <= z < 256)%Z → byte_of (chr z) = z.
Proof.
  intros. unfold byte_of, chr. rewrite N_ascii_embedding by lia. lia.
Qed.

Lemma chr_byte_of c : chr (byte_of c) = c.
Proof. unfold chr, byte_of. by rewrite N2Z.id, ascii_N_embedding. Qed.

Lemma byte_of_range c : (0 <= byte_of c < 256)%Z.
Proof. unfold byte_of. pose proof (N_ascii_bounded c). lia. Qed.

(** ** [hex.EncodeToString] *)

Definition hex_char (d : Z) : ascii := if (d <? 10)%Z then chr (48 + d) else chr (87 + d).

Fixpoint HexEncode (s : string) : string :=
  match s with
  | "" => ""
  | String c s =>
      String (hex_char (byte_of c / 16)) (String (hex_char (byte_of c mod 16)) (HexEncode s))
  end.

Definition hex_char_val (c : ascii) : Z :=
  if (byte_of c <? 58)%Z then (byte_of c - 48)%Z else (byte_of c - 87)%Z.

Lemma hex_char_inv d : (0 <= d < 16)%Z → hex_char_val (hex_char d) = d.
Proof.
  intros H. unfold hex_char, hex_char_val.
  destruct (Z.ltb_spec d 10); rewrite byte_of_chr by lia.
  - rewrite (proj2 (Z.ltb_lt (48 + d) 58)); lia.
  - rewrite (proj2 (Z.ltb_ge (87 + d) 58)); lia.
Qed.

Lemma byte_of_inj c d : byte_of c = byte_of d → c = d.
Proof. intros E. by rewrite <- (chr_byte_of c), E, chr_byte_of. Qed.

#[export] Instance HexEncode_inj : Inj (=) (=) HexEncode.
Proof.
  intros s. induction s as [|c s IH]; intros [|d t]; try done; cbn [HexEncode].
  injection 1. intros Ht%IH Hlo Hhi. f_equal; [|done].
  apply (f_equal hex_char_val) in Hlo, Hhi. apply byte_of_inj.
  pose proof (byte_of_range c). pose proof (byte_of_range d).
  rewrite !hex_char_inv in Hlo, Hhi by
    (first [apply Z.mod_pos_bound; lia | split; [apply Z.div_pos|apply Z.div_lt_upper_bound]; lia]).
  rewrite (Z.div_mod (byte_of c) 16), (Z.div_mod (byte_of d) 16) by lia. congruence.
Qed.

(** ** [base64.StdEncoding] *)

Definition b64_alphabet : string :=
  "ABCDEFGHIJKLMNOPQRSTUVWXYZabcdefghijklmnopqrstuvwxyz0123456789+/".

Definition b64_char (d : Z) : ascii := default "A"%char (str_get (Z.to_nat d) b64_alphabet).

Definition b64_val (c : ascii) : option Z := Z.of_nat <$> IndexByte b64_alphabet c.

(** The sextet [i] (from the left) of three bytes, and the byte [i] of four sextets. *)
Definition b64_group (a b c : ascii) : Z := (byte_of a * 65536 + byte_of b * 256 + byte_of c)%Z.
Definition b64_out (v i : Z) : ascii := b64_char (v / 64 ^ (3 - i) mod 64).
Definition b64_ungroup (d0 d1 d2 d3 : Z) : Z := (d0 * 262144 + d1 * 4096 + d2 * 64 + d3)%Z.
Definition b64_byte (v i : Z) : ascii := chr (v / 256 ^ (2 - i) mod 256).

Fixpoint B64Encode (s : string) : string :=
  match s with
  | String a (String b (String c s)) =>
      let v := b64_group a b c in
      String (b64_out v 0) (String (b64_out v 1) (String (b64_out v 2) (String (b64_out v 3) (B64Encode s))))
  | String a (String b "") =>
      let v := b64_group a b "000"%char in
      String (b64_out v 0) (String (b64_out v 1) (String (b64_out v 2) "="))
  | String a "" =>
      let v := b64_group a "000"%char "000"%char in
      String (b64_out v 0) (String (b64_out v 1) "==")
  | "" => ""
  end.

(** [DecodeString] skips line breaks, wants full padding and ignores the unused
    low bits of the last sextet. [None] is its error. *)
Fixpoint strip_newlines (s : string) : string :=
  match s with
  | "" => ""
  | String c s =>
      if ((byte_of c =? 10) || (byte_of c =? 13))%Z then strip_newlines s
      else String c (strip_newlines s)
  end.

Fixpoint b64_decode (s : string) : option string :=
  match s with
  | "" => Some ""
  | String c0 (String c1 (String c2 (String c3 s))) =>
      d0 ← b64_val c0; d1 ← b64_val c1;
      match b64_val c2 with
      | None =>
          if Ascii.eqb c2 "=" && Ascii.eqb c3 "=" && (s =? "")%string then
            Some (String (b64_byte (b64_ungroup d0 d1 0 0) 0) "")
          else None
      | Some d2 =>
          match b64_val c3 with
          | None =>
              if Ascii.eqb c3 "=" && (s =? "")%string then
                let v := b64_ungroup d0 d1 d2 0 in
                Some (String (b64_byte v 0) (String (b64_byte v 1) ""))
              else None
          | Some d3 =>
              let v := b64_ungroup d0 d1 d2 d3 in
              r ← b64_decode s;
              Some (String (b64_byte v 0) (String (b64_byte v 1) (String (b64_byte v 2) r)))
          end
      end
  | _ => None
  end.

Definition B64Decode (s : string) : option string := b64_decode (strip_newlines s).

Lemma string_ind3 (P : string → Prop) :
  P "" → (∀ a, P (String a "")) → (∀ a b, P (String a (String b ""))) →
  (∀ a b c s, P s → P (String a (String b (String c s)))) → ∀ s, P s.
Proof.
  intros H0 H1 H2 H3. fix IH 1. intros [|a [|b [|c s]]];
    [exact H0|exact (H1 a)|exact (H2 a b)|exact (H3 a b c s (IH s))].
Qed.

Lemma b64_val_char d : (0 <= d < 64)%Z → b64_val (b64_char d) = Some d.
Proof.
  intros H.
  assert (Hall : Forall (λ d, b64_val (b64_char d) = Some d) (seqZ 0 64)).
  { apply (bool_decide_unpack _). vm_compute. exact I. }
  rewrite Forall_forall in Hall. apply Hall, elem_of_seqZ. lia.
Qed.

Lemma b64_out_val v i : b64_val (b64_out v i) = Some (v / 64 ^ (3 - i) mod 64)%Z.
Proof. apply b64_val_char, Z.mod_pos_bound. lia. Qed.

Lemma b64_byte_group a b c d0 d1 d2 d3 :
  let v := b64_group a b c in
  d0 = (v / 64 ^ (3 - 0) mod 64)%Z → d1 = (v / 64 ^ (3 - 1) mod 64)%Z →
  d2 = (v / 64 ^ (3 - 2) mod 64)%Z → d3 = (v / 64 ^ (3 - 3) mod 64)%Z →
  b64_ungroup d0 d1 d2 d3 = v.
Proof.
  intros v -> -> -> ->. unfold b64_ungroup, v, b64_group.
  pose proof (byte_of_range a). pose proof (byte_of_range b). pose proof (byte_of_range c).
  change (64 ^ (3 - 0))%Z with 262144%Z. change (64 ^ (3 - 1))%Z with 4096%Z.
  change (64 ^ (3 - 2))%Z with 64%Z. change (64 ^ (3 - 3))%Z with 1%Z.
  Z.div_mod_to_equations. lia.
Qed.

Lemma b64_byte_0 a b c : b64_byte (b64_group a b c) 0 = a.
Proof.
  rewrite <- (chr_byte_of a) at 2. unfold b64_byte, b64_group. f_equal.
  pose proof (byte_of_range a). pose proof (byte_of_range b). pose proof (byte_of_range c).
  change (256 ^ (2 - 0))%Z with 65536%Z. Z.div_mod_to_equations. lia.
Qed.

Lemma b64_byte_1 a b c : b64_byte (b64_group a b c) 1 = b.
Proof.
  rewrite <- (chr_byte_of b) at 2. unfold b64_byte, b64_group. f_equal.
  pose proof (byte_of_range a). pose proof (byte_of_range b). pose proof (byte_of_range c).
  change (256 ^ (2 - 1))%Z with 256%Z. Z.div_mod_to_equations. lia.
Qed.

Lemma b64_byte_2 a b c : b64_byte (b64_group a b c) 2 = c.
Proof.
  rewrite <- (chr_byte_of c) at 2. unfold b64_byte, b64_group. f_equal.
  pose proof (byte_of_range a). pose proof (byte_of_range b). pose proof (byte_of_range c).
  change (256 ^ (2 - 2))%Z with 1%Z. Z.div_mod_to_equations. lia.
Qed.

Lemma b64_out_zero v i : (v / 64 ^ (3 - i) mod 64 = 0)%Z → b64_out v i = "A"%char.
Proof. unfold b64_out. by intros ->. Qed.

Lemma b64_decode_encode s : b64_decode (B64Encode s) = Some s.
Proof.
  induction s as [|a|a b|a b c s IH] using string_ind3; [done|..]; cbn [B64Encode].
  - set (v := b64_group a _ _). cbn [b64_decode]. rewrite !b64_out_val. simpl.
    rewrite (b64_byte_group a "000"%char "000"%char) by
      (try done; pose proof (byte_of_range a); unfold b64_group; simpl byte_of;
       change (64 ^ (3 - 3))%Z with 1%Z; change (64 ^ (3 - 2))%Z with 64%Z;
       change (byte_of "000") with 0%Z; Z.div_mod_to_equations; lia).
    by rewrite b64_byte_0.
  - set (v := b64_group a b _). cbn [b64_decode]. rewrite !b64_out_val. simpl.
    rewrite (b64_byte_group a b "000"%char) by
      (try done; pose proof (byte_of_range a); unfold b64_group; simpl byte_of;
       change (64 ^ (3 - 3))%Z with 1%Z; change (64 ^ (3 - 2))%Z with 64%Z;
       change (byte_of "000") with 0%Z; Z.div_mod_to_equations; lia).
    by rewrite b64_byte_0, b64_byte_1.
  - set (v := b64_group a b c). cbn [b64_decode]. rewrite !b64_out_val. simpl.
    rewrite IH. simpl. rewrite (b64_byte_group a b c) by done.
    by rewrite b64_byte_0, b64_byte_1, b64_byte_2.
Qed.

Lemma b64_char_not_nl d : (0 <= d < 64)%Z →
  ((byte_of (b64_char d) =? 10) || (byte_of (b64_char d) =? 13))%Z = false.
Proof.
  intros H.
  assert (Hall : Forall (λ d, ((byte_of (b64_char d) =? 10) || (byte_of (b64_char d) =? 13))%Z = false)
    (seqZ 0 64)).
  { apply (bool_decide_unpack _). vm_compute. exact I. }
  rewrite Forall_forall in Hall. apply Hall, elem_of_seqZ. lia.
Qed.

Lemma strip_newlines_encode s : strip_newlines (B64Encode s) = B64Encode s.
Proof.
  assert (Hn : ∀ v i, ((byte_of (b64_out v i) =? 10) || (byte_of (b64_out v i) =? 13))%Z = false).
  { intros v i. apply b64_char_not_nl, Z.mod_pos_bound. lia. }
  induction s as [|a|a b|a b c s IH] using string_ind3; [done|..]; cbn [B64Encode strip_newlines];
    rewrite !Hn; try done. by rewrite IH.
Qed.

Lemma B64Decode_Encode s : B64Decode (B64Encode s) = Some s.
Proof. unfold B64Decode. by rewrite strip_newlines_encode, b64_decode_encode. Qed.

Lemma B64Encode_nonempty s : s ≠ "" → B64Encode s ≠ "".
Proof. by destruct s as [|a [|b [|c s]]]. Qed.

(** ** [sha256.Sum256] *)

Definition w32 (z : Z) : Z := Z.land z 4294967295.
Definition rotr (x n : Z) : Z := Z.lor (Z.shiftr x n) (w32 (Z.shiftl x (32 - n))).

Definition sha_k : list Z :=
  [1116352408; 1899447441; 3049323471; 3921009573; 961987163; 1508970993; 2453635748; 2870763221;
   3624381080; 310598401; 607225278; 1426881987; 1925078388; 2162078206; 2614888103; 3248222580;
   3835390401; 4022224774; 264347078; 604807628; 770255983; 1249150122; 1555081692; 1996064986;
   2554220882; 2821834349; 2952996808; 3210313671; 3336571891; 3584528711; 113926993; 338241895;
   666307205; 773529912; 1294757372; 1396182291; 1695183700; 1986661051; 2177026350; 2456956037;
   2730485921; 2820302411; 3259730800; 3345764771; 3516065817; 3600352804; 4094571909; 275423344;
   430227734; 506948616; 659060556; 883997877; 958139571; 1322822218; 1537002063; 1747873779;
   1955562222; 2024104815; 2227730452; 2361852424; 2428436474; 2756734187; 3204031479; 3329325298]%Z.

Definition sha_init : list Z :=
  [1779033703; 3144134277; 1013904242; 2773480762; 1359893119; 2600822924; 528734635; 1541459225]%Z.

(** The message schedule, newest word first. *)
Fixpoint sha_schedule (n : nat) (w : list Z) : list Z :=
  match n with
  | O => w
  | S n =>
      let g i := nth i w 0%Z in
      let x := g 1 in let y := g 14 in
      let s1 := Z.lxor (Z.lxor (rotr x 17) (rotr x 19)) (Z.shiftr x 10) in
      let s0 := Z.lxor (Z.lxor (rotr y 7) (rotr y 18)) (Z.shiftr y 3) in
      sha_schedule n (w32 (s1 + g 6%nat + s0 + g 15%nat)%Z :: w)
  end.

Definition sha_round (st : list Z) (kw : Z * Z) : list Z :=
  match st with
  | [a; b; c; d; e; f; g; h] =>
      let s1 := Z.lxor (Z.lxor (rotr e 6) (rotr e 11)) (rotr e 25) in
      let ch := Z.lxor (Z.land e f) (Z.land (Z.lxor e 4294967295) g) in
      let t1 := (h + s1 + ch + fst kw + snd kw)%Z in
      let s0 := Z.lxor (Z.lxor (rotr a 2) (rotr a 13)) (rotr a 22) in
      let maj := Z.lxor (Z.lxor (Z.land a b) (Z.land a c)) (Z.land b c) in
      [w32 (t1 + s0 + maj); a; b; c; w32 (d + t1); e; f; g]
  | _ => st
  end.

Fixpoint be_words (l : list Z) : list Z :=
  match l with
  | a :: b :: c :: d :: l => (a * 16777216 + b * 65536 + c * 256 + d)%Z :: be_words l
  | _ => []
  end.

Definition sha_block (st : list Z) (blk : list Z) : list Z :=
  let ws := rev (sha_schedule 48 (rev (be_words blk))) in
  zip_with (λ x y, w32 (x + y)) st (foldl sha_round st (combine sha_k ws)).

Fixpoint sha_blocks (n : nat) (st : list Z) (l : list Z) : list Z :=
  match n with
  | O => st
  | S n => sha_blocks n (sha_block st (take 64 l)) (drop 64 l)
  end.

Definition be_bytes (n : nat) (z : Z) : list Z :=
  (λ i, Z.land (Z.shiftr z (8 * Z.of_nat (n - 1 - i))) 255) <$> seq 0 n.

Definition Sum256 (s : string) : string :=
  let m := byte_of <$> String.list_ascii_of_string s in
  let len := zlen m in
  let pad := ((55 - len) mod 64)%Z in
  let m := m ++ [128%Z] ++ repeat 0%Z (Z.to_nat pad) ++ be_bytes 8 (8 * len) in
  let st := sha_blocks (length m / 64) sha_init m in
  String.string_of_list_ascii (chr <$> (st ≫= be_bytes 4)).

Example Sum256_tests :
  HexEncode (Sum256 "") = "e3b0c44298fc1c149afbf4c8996fb92427ae41e4649b934ca495991b7852b855" ∧
  HexEncode (Sum256 "abc") = "ba7816bf8f01cfea414140de5dae2223b00361a396177a9cb410ff61f20015ad" ∧
  HexEncode (Sum256 "abcdbcdecdefdefgefghfghighijhijkijkljklmklmnlmnomnopnopq") =
    "248d6a61d20638b8e5c026930c3e6039a33ce45964ff2167f6ecedd419db06c1".
Proof. by vm_compute. Qed.

Example B64_tests :
  B64Encode "light work." = "bGlnaHQgd29yay4=" ∧ B64Decode "bGlnaHQgd29yay4=" = Some "light work." ∧
  B64Decode "bGln" = Some "lig" ∧ B64Decode "bGl" = None ∧ B64Decode "bGlnaHQgd2==x" = None.
Proof. by vm_compute. Qed.

(** ** [crypto/rand] *)

(** [rand_read k n]: what the [k]-th call of [rand.Read] on [n] bytes gives. *)
Class Rand := rand_read : nat → nat → result string.
