(* ===== verification/GoFloat.v ===== *)
(** * [float64] arithmetic

    IEEE 754 binary64 with the round-to-nearest-even operations of the Standard
    Library's executable specification. No fused multiply-add: amd64 builds do
    not use it. *)
From Stdlib Require Export SpecFloat.
From S2P Require Import Prelude.
#[global] Open Scope go_scope.

Abbreviation float := spec_float.
Abbreviation f_prec := 53%Z.
Abbreviation f_emax := 1024%Z.

Definition fadd : float → float → float := SFadd f_prec f_emax.
Definition fsub : float → float → float := SFsub f_prec f_emax.
Definition fmul : float → float → float := SFmul f_prec f_emax.
Definition fdiv : float → float → float := SFdiv f_prec f_emax.
Definition fsqrt : float → float := SFsqrt f_prec f_emax.
Definition fabs : float → float := SFabs.
Definition flt : float → float → bool := SFltb.
Definition fle : float → float → bool := SFleb.
Definition feq : float → float → bool := SFeqb.
Definition fzero : float := S754_zero false.

(** [float64(z)] *)
Definition F_of_Z (z : Z) : float := binary_normalize f_prec f_emax z 0 false.

(** The decimal constant [n/10^d], correctly rounded. *)
Definition F_dec (n : Z) (d : Z) : float := fdiv (F_of_Z n) (F_of_Z (10 ^ d)).

#[export] Instance float_eq_dec : EqDecision float.
Proof. solve_decision. Defined.

(** The integer a float stands for, when it stands for one. *)
Definition F_integral (f : float) : option Z :=
  match f with
  | S754_zero _ => Some 0%Z
  | S754_finite s m e =>
      let v := if s then Z.neg m else Z.pos m in
      if (0 <=? e)%Z then Some (v * 2 ^ e)%Z
      else if (v mod 2 ^ (- e) =? 0)%Z then Some (v / 2 ^ (- e))%Z else None
  | _ => None
  end.

(** [int(f)] on a finite float: truncation towards zero. *)
Definition F_trunc (f : float) : Z :=
  match f with
  | S754_finite s m e =>
      let q := if (0 <=? e)%Z then (Z.pos m * 2 ^ e)%Z else (Z.pos m / 2 ^ (- e))%Z in
      if s then (- q)%Z else q
  | _ => 0%Z
  end.

(** [math.Round]: to the nearest integer, halves away from zero. *)
Definition fround (f : float) : float :=
  match f with
  | S754_finite s m e =>
      if (0 <=? e)%Z then f
      else
        let q := ((2 * Z.pos m + 2 ^ (- e)) / (2 * 2 ^ (- e)))%Z in
        if (q =? 0)%Z then S754_zero s
        else binary_normalize f_prec f_emax (if s then (- q)%Z else q) 0 s
  | _ => f
  end.

Definition fnan (f : float) : bool := match f with S754_nan => true | _ => false end.
Definition finf (f : float) : bool := match f with S754_infinity _ => true | _ => false end.

(** ** The decimal an integral float is printed as

    [strconv] prints the shortest decimal that reads back as the float: up to
    2^53 that is the integer itself, beyond it the closest multiple of the
    largest power of ten that still reads back. *)
Fixpoint shortest_int (j : nat) (z : Z) : Z :=
  match j with
  | O => z
  | S j' =>
      let p := (10 ^ Z.of_nat j)%Z in
      let c := ((2 * z + p) / (2 * p) * p)%Z in
      if bool_decide (F_of_Z c = F_of_Z z) then c else shortest_int j' z
  end.

Definition printed_int (z : Z) : Z :=
  if (Z.abs z <=? 2 ^ 53)%Z then z
  else if (z <? 0)%Z then (- shortest_int 21 (- z))%Z else shortest_int 21 z.

Example printed_int_tests :
  printed_int (2 ^ 50) = (2 ^ 50)%Z ∧ printed_int (2 ^ 60) = 1152921504606847000%Z ∧
  printed_int 9223372037 = 9223372037%Z ∧ F_integral (F_of_Z (-7)) = Some (-7)%Z ∧
  F_integral (F_dec 15 1) = None ∧ fround (F_dec 25 1) = F_of_Z 3 ∧ fround (F_dec (-25) 1) = F_of_Z (-3).
Proof. by vm_compute. Qed.

(** ** Integers below 2^53 are exact *)

Lemma digits2_bounds m :
  (2 ^ (Z.pos (digits2_pos m) - 1) <= Z.pos m < 2 ^ Z.pos (digits2_pos m))%Z.
Proof.
  induction m as [m IH|m IH|]; cbn [digits2_pos]; [..|done];
    rewrite Pos2Z.inj_succ, Z.pow_succ_r by lia;
    replace (Z.succ (Z.pos (digits2_pos m)) - 1)%Z with (Z.succ (Z.pos (digits2_pos m) - 1)) by lia;
    rewrite Z.pow_succ_r by lia; lia.
Qed.

Lemma digits2_shl d m : Z.pos (digits2_pos (Pos.iter xO m d)) = (Z.pos (digits2_pos m) + Z.pos d)%Z.
Proof.
  induction d as [|d IH] using Pos.peano_ind; [simpl; lia|].
  rewrite Pos.iter_succ. simpl. lia.
Qed.

Lemma shl_value d m : Z.pos (Pos.iter xO m d) = (Z.pos m * 2 ^ Z.pos d)%Z.
Proof.
  induction d as [|d IH] using Pos.peano_ind; [simpl; lia|].
  rewrite Pos.iter_succ, Pos2Z.inj_xO, IH, Pos2Z.inj_succ, Z.pow_succ_r by lia. lia.
Qed.

Lemma round_exact s m e :
  (Z.pos (digits2_pos m) = 53)%Z → (-1074 <= e <= 971)%Z →
  binary_round_aux f_prec f_emax s (Z.pos m) e loc_Exact = S754_finite s m e.
Proof.
  intros Hd He.
  assert (Hs : shr_fexp f_prec f_emax (Z.pos m) e loc_Exact = (Build_shr_record (Z.pos m) false false, e)).
  { unfold shr_fexp, fexp, emin. simpl Zdigits2. rewrite Hd.
    replace (Z.max (53 + e - 53) (3 - 1024 - 53) - e)%Z with 0%Z by lia. done. }
  unfold binary_round_aux. rewrite Hs. cbn [shr_m loc_of_shr_record round_nearest_even].
  rewrite Hs. cbn [shr_m]. by rewrite (proj2 (Z.leb_le e (1024 - 53))) by lia.
Qed.

Lemma F_of_pos s m :
  (Z.pos m < 2 ^ 53)%Z →
  ∃ m' e, binary_round f_prec f_emax s m 0 = S754_finite s m' (- e) ∧ (0 <= e)%Z ∧
          Z.pos m' = (Z.pos m * 2 ^ e)%Z.
Proof.
  intros Hm. pose proof (digits2_bounds m) as [Hlo Hhi].
  assert (Hd : (Z.pos (digits2_pos m) <= 53)%Z).
  { destruct (Z.le_gt_cases (Z.pos (digits2_pos m)) 53) as [|Hgt]; [done|].
    assert (2 ^ 53 <= 2 ^ (Z.pos (digits2_pos m) - 1))%Z by (apply Z.pow_le_mono_r; lia). lia. }
  unfold binary_round, shl_align, fexp, emin.
  replace (Z.max (Z.pos (digits2_pos m) + 0 - 53) (3 - 1024 - 53) - 0)%Z
    with (Z.pos (digits2_pos m) - 53)%Z by lia.
  replace (Z.max (Z.pos (digits2_pos m) + 0 - 53) (3 - 1024 - 53))%Z
    with (Z.pos (digits2_pos m) - 53)%Z by lia.
  destruct (Z.pos (digits2_pos m) - 53)%Z as [|p|p] eqn:E; [|lia|].
  - exists m, 0%Z. rewrite round_exact by lia. rewrite Z.pow_0_r, Z.mul_1_r. done.
  - exists (Pos.iter xO m p), (Z.pos p). rewrite round_exact by (rewrite ?digits2_shl; lia).
    split_and!; [done|lia|apply shl_value].
Qed.

Lemma F_integral_finite s m e v :
  (0 <= e)%Z → Z.pos m = (Z.pos v * 2 ^ e)%Z →
  F_integral (S754_finite s m (- e)) = Some (if s then Z.neg v else Z.pos v).
Proof.
  intros He Hm. unfold F_integral.
  assert (Hv : (if s then Z.neg m else Z.pos m) = ((if s then Z.neg v else Z.pos v) * 2 ^ e)%Z).
  { destruct s; [|done]. change (Z.neg m) with (- Z.pos m)%Z. change (Z.neg v) with (- Z.pos v)%Z. lia. }
  rewrite Hv, Z.opp_involutive. assert (0 < 2 ^ e)%Z by (apply Z.pow_pos_nonneg; lia).
  rewrite Z.mod_mul, Z.div_mul by lia. simpl.
  destruct (Z.leb_spec 0 (- e)); [|done]. assert (e = 0%Z) as -> by lia. simpl. f_equal. lia.
Qed.

Lemma F_integral_of_Z z : (Z.abs z < 2 ^ 53)%Z → F_integral (F_of_Z z) = Some z.
Proof.
  intros Hz. destruct z as [|p|p]; [done|..]; unfold F_of_Z, binary_normalize.
  - destruct (F_of_pos false p) as (m & e & -> & He & Hm); [lia|]. by apply (F_integral_finite false).
  - destruct (F_of_pos true p) as (m & e & -> & He & Hm); [lia|]. by apply (F_integral_finite true).
Qed.

(** ** Comparison is a total preorder away from NaN

    A float is placed by its sign class, then by exponent and mantissa,
    mirrored for negative ones. *)

Definition f_class (f : float) : Z :=
  match f with
  | S754_infinity true => -2
  | S754_finite true _ _ => -1
  | S754_zero _ => 0
  | S754_finite false _ _ => 1
  | S754_infinity false => 2
  | S754_nan => 3
  end%Z.
Definition f_exp (f : float) : Z :=
  match f with S754_finite s _ e => if s then (- e)%Z else e | _ => 0%Z end.
Definition f_mant (f : float) : Z :=
  match f with S754_finite s m _ => if s then Z.neg m else Z.pos m | _ => 0%Z end.

Definition fcmp : float → float → comparison :=
  cmp_then (cmp_on f_class Z.compare) (cmp_then (cmp_on f_exp Z.compare) (cmp_on f_mant Z.compare)).

#[export] Instance fcmp_total : TotalCmp fcmp.
Proof. unfold fcmp. typeclasses eauto. Qed.

Lemma SFcompare_fcmp f g : fnan f = false → fnan g = false → SFcompare f g = Some (fcmp f g).
Proof.
  destruct f as [s|s| |s m e], g as [s'|s'| |s' m' e']; try done; intros _ _;
    try destruct s; try destruct s'; try done.
  unfold SFcompare, fcmp, cmp_then, cmp_on. simpl. f_equal.
  rewrite Z.compare_opp, (Z.compare_antisym e e'). unfold Pos.compare.
  by destruct (e ?= e')%Z.
Qed.

Lemma flt_spec f g : fnan f = false → fnan g = false → flt f g = bool_decide (fcmp f g = Lt).
Proof.
  intros Hf Hg. unfold flt, SFltb. rewrite SFcompare_fcmp by done. by destruct (fcmp f g).
Qed.

(** The least and the greatest of a running comparison. *)
Lemma fmin_step f g : fnan f = false → fnan g = false →
  let m := if flt g f then g else f in (m = f ∨ m = g) ∧ fcmp f m ≠ Lt ∧ fcmp g m ≠ Lt.
Proof.
  intros Hf Hg. rewrite flt_spec by done. simpl. case_bool_decide as E.
  - split_and!; [by right| |by rewrite cmp_refl]. rewrite (cmp_opp g f), E. done.
  - split_and!; [by left|by rewrite cmp_refl|done].
Qed.

Lemma fmax_step f g : fnan f = false → fnan g = false →
  let m := if flt f g then g else f in (m = f ∨ m = g) ∧ fcmp m f ≠ Lt ∧ fcmp m g ≠ Lt.
Proof.
  intros Hf Hg. rewrite flt_spec by done. simpl. case_bool_decide as E.
  - split_and!; [by right| |by rewrite cmp_refl]. rewrite (cmp_opp f g), E. done.
  - split_and!; [by left|by rewrite cmp_refl|done].
Qed.

Lemma fcmp_ge_trans f g h : fcmp f g ≠ Lt → fcmp g h ≠ Lt → fcmp f h ≠ Lt.
Proof.
  intros H1 H2 H3. apply (cmp_not_gt_trans fcmp h g f).
  - rewrite (cmp_opp g h). by destruct (fcmp g h).
  - rewrite (cmp_opp f g). by destruct (fcmp f g).
  - by rewrite (cmp_opp f h), H3.
Qed.
