(* ===== verification/FloatBounds.v ===== *)
(** * Rounding keeps bounds

    Rounding to nearest never passes an integer bound: the part of the theory of
    float64 the Host's scores need. A bound [k] of a value [m * 2^e] is written
    with [e] negative, [m <= k * 2^(-e)]. *)
From S2P Require Import Prelude GoStrings GoFloat.

#[local] Open Scope Z_scope.

(** A number that is zero or positive. *)
Definition nonneg (f : float) : Prop :=
  match f with
  | S754_zero _ | S754_finite false _ _ | S754_infinity false => True
  | _ => False
  end.

Definition at_most (k : Z) (f : float) : Prop :=
  match f with
  | S754_zero _ | S754_finite true _ _ | S754_infinity true => True
  | S754_finite false m e => e <= 0 ∧ Z.pos m <= k * 2 ^ (- e)
  | _ => False
  end.

(** ** Shifting right *)

Definition flags (x : shr_record) : bool := shr_r x || shr_s x.

Record shifted (n : Z) (x y : shr_record) : Prop := {
  sh_m : shr_m y = shr_m x / 2 ^ n;
  sh_flags : flags y = negb (shr_m x mod 2 ^ n =? 0) || flags x
}.

Lemma shr_1_shifted x : 0 <= shr_m x → shifted 1 x (shr_1 x).
Proof.
  destruct x as [m r s]. cbn [shr_m]. intros Hm.
  destruct m as [|[p|p|]|p]; [| | | |by destruct (Zlt_not_le _ _ (Pos2Z.neg_is_neg p))]; split; unfold flags; cbn [shr_1 shr_m shr_r shr_s]; try done;
    change (2 ^ 1) with 2.
  - apply (Z.div_unique _ 2 _ 1); lia.
  - by rewrite <- (Z.mod_unique (Z.pos p~1) 2 (Z.pos p) 1) by lia.
  - apply (Z.div_unique _ 2 _ 0); lia.
  - by rewrite <- (Z.mod_unique (Z.pos p~0) 2 (Z.pos p) 0) by lia.
Qed.

Lemma shifted_trans a b x y z : 0 <= a → 0 <= b → shifted a x y → shifted b y z → shifted (a + b) x z.
Proof.
  intros Ha Hb [H1 H2] [H3 H4]. assert (0 < 2 ^ a) by (apply Z.pow_pos_nonneg; lia). assert (0 < 2 ^ b) by (apply Z.pow_pos_nonneg; lia). split.
  - rewrite H3, H1, Z.div_div, Z.pow_add_r by lia. done.
  - rewrite H4, H2, H1, orb_assoc. f_equal. rewrite Z.pow_add_r, Z.rem_mul_r by lia.
    pose proof (Z.mod_pos_bound (shr_m x) (2 ^ a)). pose proof (Z.mod_pos_bound (shr_m x / 2 ^ a) (2 ^ b)).
    destruct (Z.eqb_spec (shr_m x mod 2 ^ a) 0), (Z.eqb_spec (shr_m x / 2 ^ a mod 2 ^ b) 0),
      (Z.eqb_spec (shr_m x mod 2 ^ a + 2 ^ a * (shr_m x / 2 ^ a mod 2 ^ b)) 0); try done; exfalso; nia.
Qed.

Lemma iter_shifted p : ∀ x, 0 <= shr_m x → shifted (Z.pos p) x (iter_pos shr_1 p x).
Proof.
  assert (Hnn : ∀ n x y, shifted n x y → 0 <= n → 0 <= shr_m x → 0 <= shr_m y).
  { intros n x y [-> _] Hn Hx. apply Z.div_pos; [done|]. apply Z.pow_pos_nonneg; lia. }
  induction p as [p IH|p IH|]; intros x Hx; cbn [iter_pos].
  - pose proof (shr_1_shifted x Hx) as H1. assert (H0 : 0 <= shr_m (shr_1 x)) by (eapply Hnn; [exact H1|lia|done]).
    pose proof (IH _ H0) as H2. assert (H3 : 0 <= shr_m (iter_pos shr_1 p (shr_1 x))) by (eapply Hnn; [exact H2|lia|done]).
    replace (Z.pos p~1) with (1 + (Z.pos p + Z.pos p)) by lia.
    eapply shifted_trans; [lia|lia|exact H1|]. eapply shifted_trans; [lia|lia|exact H2|by apply IH].
  - pose proof (IH x Hx) as H2. assert (H3 : 0 <= shr_m (iter_pos shr_1 p x)) by (eapply Hnn; [exact H2|lia|done]).
    replace (Z.pos p~0) with (Z.pos p + Z.pos p) by lia. eapply shifted_trans; [lia|lia|exact H2|by apply IH].
  - by apply shr_1_shifted.
Qed.

(** One alignment: the exponent it ends on, the quotient, and whether the rest
    was nothing. *)
Lemma shr_fexp_spec m e : 0 <= m →
  let '(r, e') := shr_fexp f_prec f_emax m e loc_Exact in
  let q := round_nearest_even (shr_m r) (loc_of_shr_record r) in
  e' = Z.max e (fexp f_prec f_emax (Zdigits2 m + e)) ∧ 0 <= shr_m r <= q ∧
  ∀ K, m <= K * 2 ^ (e' - e) → q <= K ∧ shr_m r <= K.
Proof.
  intros Hm. unfold shr_fexp. set (t := fexp f_prec f_emax (Zdigits2 m + e)). cbn [shr_record_of_loc].
  destruct (t - e) as [|p|p] eqn:Et; cbn [shr].
  - cbn. split_and!; [lia|done|done|]. intros K. replace (e - e) with 0 by lia. rewrite Z.mul_1_r. done.
  - pose proof (iter_shifted p (Build_shr_record m false false) Hm) as [H1 H2].
    destruct (iter_pos shr_1 p _) as [q r s]. cbn [shr_m shr_r shr_s] in *. assert (0 < 2 ^ Z.pos p) by (apply Z.pow_pos_nonneg; lia).
    assert (Hq : 0 <= q) by (rewrite H1; apply Z.div_pos; lia).
    assert (Hup : q <= round_nearest_even q (loc_of_shr_record (Build_shr_record q r s)) <= q + 1).
    { destruct r, s; cbn; try lia. destruct (Z.even q); lia. }
    split_and!; [lia|done|apply Hup|]. intros K. replace (e + Z.pos p - e) with (Z.pos p) by lia. intros HK.
    pose proof (Z.div_mod m (2 ^ Z.pos p)) as Hdm. pose proof (Z.mod_pos_bound m (2 ^ Z.pos p)) as Hmp. rewrite <- H1 in Hdm.
    unfold flags in H2. cbn [shr_m shr_r shr_s orb] in H2. rewrite orb_false_r in H2.
    destruct (Z.eqb_spec (m mod 2 ^ Z.pos p) 0) as [Hx|Hx].
    + cbn in H2. apply orb_false_iff in H2 as [-> ->]. cbn. assert (q <= K) by nia. done.
    + assert (q < K) by nia. lia.
  - cbn. split_and!; [lia|done|done|]. intros K. replace (e - e) with 0 by lia. rewrite Z.mul_1_r. done.
Qed.

(** ** Rounding *)

Lemma digits_bound m e k : 0 < m → e <= 0 → k < 2 ^ 50 → m <= k * 2 ^ (- e) → Zdigits2 m + e <= 50.
Proof.
  intros Hm He Hk Hb. destruct m as [|m|]; try lia. cbn [Zdigits2]. pose proof (digits2_bounds m) as [Hlo _].
  destruct (Z.le_gt_cases (Z.pos (digits2_pos m) + e) 50) as [|Hgt]; [done|].
  assert (2 ^ (50 - e) <= 2 ^ (Z.pos (digits2_pos m) - 1)) by (apply Z.pow_le_mono_r; lia).
  assert (2 ^ (50 - e) = 2 ^ 50 * 2 ^ (- e)) by (rewrite <- Z.pow_add_r by lia; f_equal; lia).
  assert (0 < 2 ^ (- e)) by (apply Z.pow_pos_nonneg; lia). nia.
Qed.

(** An alignment of a bounded value keeps the exponent negative and the bound. *)
Lemma shr_fexp_bound m e k : 0 <= m → e <= 0 → k < 2 ^ 50 → m <= k * 2 ^ (- e) →
  let '(r, e') := shr_fexp f_prec f_emax m e loc_Exact in
  let q := round_nearest_even (shr_m r) (loc_of_shr_record r) in
  e' <= 0 ∧ 0 <= q <= k * 2 ^ (- e') ∧ 0 <= shr_m r <= k * 2 ^ (- e').
Proof.
  intros Hm He Hk Hb. pose proof (shr_fexp_spec m e Hm) as Hs. destruct (shr_fexp _ _ m e loc_Exact) as [r e'].
  cbv zeta in *. destruct Hs as (Ee & Hr & Hq).
  assert (He' : e' <= 0).
  { rewrite Ee. assert (fexp f_prec f_emax (Zdigits2 m + e) <= 0); [|lia]. unfold fexp, emin.
    destruct (decide (m = 0)) as [->|]; [cbn; lia|]. assert (Zdigits2 m + e <= 50); [|lia]. eapply digits_bound; [lia|done|exact Hk|done]. }
  assert (HK : m <= k * 2 ^ (- e') * 2 ^ (e' - e)).
  { rewrite <- Z.mul_assoc, <- Z.pow_add_r by lia. replace (- e' + (e' - e)) with (- e) by lia. done. }
  destruct (Hq _ HK). lia.
Qed.

Lemma round_aux_bound sx m e k : 0 <= m → e <= 0 → k < 2 ^ 50 → m <= k * 2 ^ (- e) →
  match binary_round_aux f_prec f_emax sx m e loc_Exact with
  | S754_zero s => s = sx
  | S754_finite s m' e' => s = sx ∧ e' <= 0 ∧ Z.pos m' <= k * 2 ^ (- e')
  | _ => False
  end.
Proof.
  intros Hm He Hk Hb. unfold binary_round_aux. pose proof (shr_fexp_bound m e k Hm He Hk Hb) as H1.
  destruct (shr_fexp _ _ m e loc_Exact) as [r e1]. cbv zeta in H1. destruct H1 as (He1 & Hq & _).
  pose proof (shr_fexp_bound _ e1 k (proj1 Hq) He1 Hk (proj2 Hq)) as H2.
  destruct (shr_fexp _ _ (round_nearest_even _ _) e1 loc_Exact) as [r2 e2]. cbv zeta in H2. destruct H2 as (He2 & _ & Hr2).
  destruct (shr_m r2) as [|p|p]; [done| |lia]. rewrite (proj2 (Z.leb_le e2 (f_emax - f_prec))) by lia. split_and!; [done|lia|apply Hr2].
Qed.

(** Without a bound: the sign stays. *)
Lemma round_aux_sign sx m e : 0 <= m →
  match binary_round_aux f_prec f_emax sx m e loc_Exact with
  | S754_zero s | S754_finite s _ _ | S754_infinity s => s = sx
  | S754_nan => False
  end.
Proof.
  intros Hm. unfold binary_round_aux. pose proof (shr_fexp_spec m e Hm) as H1.
  destruct (shr_fexp _ _ m e loc_Exact) as [r e1]. cbv zeta in H1. destruct H1 as (_ & H1 & _).
  assert (Hq : 0 <= round_nearest_even (shr_m r) (loc_of_shr_record r)) by lia.
  pose proof (shr_fexp_spec _ e1 Hq) as H2. destruct (shr_fexp _ _ (round_nearest_even _ _) e1 loc_Exact) as [r2 e2]. cbv zeta in H2.
  destruct H2 as (_ & H2 & _). destruct (shr_m r2) as [|p|p]; [done| |lia]. by destruct (_ <=? _).
Qed.

Lemma shl_align_value m e e' : e' <= e → Z.pos (fst (shl_align m e e')) = Z.pos m * 2 ^ (e - e') ∧ snd (shl_align m e e') = e'.
Proof.
  intros He. unfold shl_align. destruct (e' - e) as [|d|d] eqn:Ed; cbn [fst snd].
  - replace (e - e') with 0 by lia. rewrite Z.pow_0_r. lia.
  - lia.
  - rewrite shl_value. replace (e - e') with (Z.pos d) by lia. done.
Qed.

Lemma shl_align_le m e t : e <= t → shl_align m e t = (m, e).
Proof. intros He. unfold shl_align. destruct (t - e) as [|d|d] eqn:Ed; [done|done|lia]. Qed.

Lemma binary_round_bound m e k : e <= 0 → k < 2 ^ 50 → Z.pos m <= k * 2 ^ (- e) → at_most k (binary_round f_prec f_emax false m e).
Proof.
  intros He Hk Hb. unfold binary_round. set (t := fexp f_prec f_emax _).
  assert (Ha : ∃ m' e', shl_align m e t = (m', e') ∧ e' <= 0 ∧ Z.pos m' <= k * 2 ^ (- e')).
  { destruct (Z.le_gt_cases e t).
    - rewrite shl_align_le by done. by exists m, e.
    - pose proof (shl_align_value m e t) as [E1 E2]; [lia|]. destruct (shl_align m e t) as [m' e']. cbn [fst snd] in *. subst e'.
      exists m', t. split_and!; [done|lia|]. rewrite E1. replace (- t) with (- e + (e - t)) by lia. rewrite Z.pow_add_r by lia.
      assert (0 < 2 ^ (e - t)) by (apply Z.pow_pos_nonneg; lia). nia. }
  destruct Ha as (m' & e' & -> & He' & Hb'). pose proof (round_aux_bound false (Z.pos m') e' k) as Hr.
  destruct (binary_round_aux _ _ _ _ _ _) as [| | |s m2 e2]; cbn; try (by destruct Hr; try lia); try done.
  destruct Hr as (-> & ? & ?); [lia..|]. done.
Qed.

Lemma binary_round_sign sx m e :
  match binary_round f_prec f_emax sx m e with
  | S754_zero s | S754_finite s _ _ | S754_infinity s => s = sx
  | S754_nan => False
  end.
Proof. unfold binary_round. destruct (shl_align _ _ _) as [m' e']. by apply round_aux_sign. Qed.

(** ** Arithmetic *)

Lemma fmul_nonneg f m e : nonneg f → nonneg (fmul f (S754_finite false m e)).
Proof.
  intros Hf. unfold fmul, SFmul. destruct f as [s|[]| |[] mf ef]; try done.
  pose proof (round_aux_sign (xorb false false) (Z.pos (mf * m)) (ef + e) (Pos2Z.is_nonneg _)) as Hs.
  destruct (binary_round_aux _ _ _ _ _ _) as [|[]| |[] m' e']; done.
Qed.

Lemma at_most_neg k z e : z <= 0 → at_most k (binary_normalize f_prec f_emax z e false).
Proof.
  intros Hz. destruct z as [|m|m]; cbn [binary_normalize]; [done|lia|]. pose proof (binary_round_sign true m e) as Hs.
  destruct (binary_round _ _ _ _ _) as [s|s| |s m' e']; cbn; subst; done.
Qed.

Lemma fsub_at_most k f y : 0 <= k < 2 ^ 50 → at_most k f → nonneg y → at_most k (fsub f y).
Proof.
  intros Hk Hf Hy. unfold fsub, SFsub. destruct f as [s|[]| |sx mx ex], y as [t|[]| |[] my ey]; try done.
  - by destruct s, t.
  - set (ez := Z.min ex ey). pose proof (shl_align_value mx ex ez) as [Ex _]; [lia|]. pose proof (shl_align_value my ey ez) as [Ey _]; [lia|].
    rewrite Ex, Ey. assert (0 < 2 ^ (ex - ez)) by (apply Z.pow_pos_nonneg; lia). assert (0 < 2 ^ (ey - ez)) by (apply Z.pow_pos_nonneg; lia).
    destruct sx; cbn [cond_Zopp].
    + apply at_most_neg. nia.
    + destruct Hf as [Hex Hmx]. set (z := Z.pos mx * _ - _).
      assert (Hz : z <= k * 2 ^ (- ez)).
      { replace (- ez) with (- ex + (ex - ez)) by lia. rewrite Z.pow_add_r by lia. subst z. nia. }
      destruct z as [|m|m] eqn:E; [done| |by apply at_most_neg]. apply binary_round_bound; lia.
Qed.

(** Valid floats are compared by value. *)
Lemma flt_value m e m' e' :
  bounded f_prec f_emax m e = true → bounded f_prec f_emax m' e' = true →
  flt (S754_finite false m e) (S754_finite false m' e') = true →
  Z.pos m * 2 ^ (e - Z.min e e') < Z.pos m' * 2 ^ (e' - Z.min e e').
Proof.
  unfold bounded, canonical_mantissa. intros [C1 _]%andb_true_iff [C2 _]%andb_true_iff. apply Z.eqb_eq in C1, C2.
  unfold flt, SFltb, SFcompare. destruct (Z.compare_spec e e') as [->|Hlt|Hgt]; [|intros _|done].
  - intros Hc. replace (e' - Z.min e' e') with 0 by lia. rewrite Z.pow_0_r. change (Pos.compare_cont Eq m m') with (Pos.compare m m') in Hc.
    destruct (Pos.compare_spec m m'); try done. lia.
  - replace (e - Z.min e e') with 0 by lia. rewrite Z.pow_0_r. pose proof (digits2_bounds m) as [_ Hhi]. pose proof (digits2_bounds m') as [Hlo _].
    unfold fexp, emin in C1, C2. assert (Z.pos (digits2_pos m) <= 53) by lia. assert (Z.pos (digits2_pos m') = 53) as E' by lia.
    rewrite E' in Hlo. assert (2 ^ Z.pos (digits2_pos m) <= 2 ^ 53) by (apply Z.pow_le_mono_r; lia).
    assert (2 ^ 1 <= 2 ^ (e' - Z.min e e')) by (apply Z.pow_le_mono_r; lia). nia.
Qed.

Lemma fsub_gt_nonneg m e g :
  bounded f_prec f_emax m e = true → valid_binary f_prec f_emax g = true → flt (S754_finite false m e) g = true →
  nonneg (fsub g (S754_finite false m e)).
Proof.
  intros Hb Hv Hl. destruct g as [[]|[]| |[] m' e']; try done. cbn in Hv. pose proof (flt_value m e m' e' Hb Hv Hl) as Hlt.
  unfold fsub, SFsub. set (ez := Z.min e' e). pose proof (shl_align_value m' e' ez) as [Ex _]; [lia|].
  pose proof (shl_align_value m e ez) as [Ey _]; [lia|]. rewrite Ex, Ey. cbn [cond_Zopp].
  replace (Z.min e e') with ez in Hlt by lia. destruct (Z.pos m' * _ - _) as [|p|p] eqn:E; [done| |lia]. cbn [binary_normalize].
  pose proof (binary_round_sign false p ez) as Hs. destruct (binary_round _ _ _ _ _) as [s|[]| |[] m2 e2]; done.
Qed.

(** ** Back to the integers *)

Lemma F_trunc_of_Z z : 0 <= z < 2 ^ 53 → F_trunc (F_of_Z z) = z.
Proof.
  intros Hz. destruct z as [|p|p]; [done| |lia]. unfold F_of_Z, binary_normalize.
  destruct (F_of_pos false p) as (m & e & -> & He & Hm); [lia|]. unfold F_trunc. assert (0 < 2 ^ e) by (apply Z.pow_pos_nonneg; lia).
  destruct (Z.leb_spec 0 (- e)).
  - assert (e = 0) as -> by lia. cbn in *. lia.
  - rewrite Z.opp_involutive, Hm, Z.div_mul by lia. done.
Qed.

Lemma fround_bound k f : 0 <= k < 2 ^ 50 → at_most k f → nonneg f → 0 <= F_trunc (fround f) <= k ∧ finf (fround f) = false ∧ fnan (fround f) = false.
Proof.
  intros Hk Ha Hn. destruct f as [s|[]| |[] m e]; try done.
  - cbn. split; [lia|done].
  - destruct Ha as [He Hm]. unfold fround. destruct (Z.leb_spec 0 e).
    + assert (e = 0) as -> by lia. cbn in *. split; [lia|done].
    + set (q := (2 * Z.pos m + 2 ^ (- e)) / (2 * 2 ^ (- e))). assert (Hp : 0 < 2 ^ (- e)) by (apply Z.pow_pos_nonneg; lia).
      assert (Hq : 0 <= q <= k).
      { subst q. split; [apply Z.div_pos; lia|]. apply Z.lt_succ_r. apply Z.div_lt_upper_bound; [lia|]. nia. }
      destruct (Z.eqb_spec q 0); [cbn; split; [lia|done]|].
      change (binary_normalize f_prec f_emax q 0 false) with (F_of_Z q). rewrite F_trunc_of_Z by lia. split; [done|].
      destruct q as [|p|p]; [done| |lia]. unfold F_of_Z, binary_normalize. destruct (F_of_pos false p) as (m' & e' & -> & _ & _); [lia|done].
Qed.
