(* ===== verification/GoJson.v ===== *)
(** * [encoding/json], as the program uses it

    Every payload goes through [any] once: the receiver decodes an envelope,
    re-encodes its payload and decodes it into the payload's type. A [json] is
    that intermediate value: numbers are float64, and an object lists its members
    in the order they are re-encoded. A decoder takes the value the destination
    already holds, which [null] and absent members leave alone; [None] is an
    error. *)
From S2P Require Import Prelude GoStrings GoFloat.

#[local] Set Warnings "-register-all".

Inductive json :=
  | JNull
  | JBool (b : bool)
  | JNum (f : float)
  | JStr (s : string)
  | JArr (l : list json)
  | JObj (l : list (string * json)).

Definition decoder (A : Type) := A → json → option A.

Definition dec_string : decoder string := λ old j,
  match j with JNull => Some old | JStr s => Some s | _ => None end.
Definition dec_bool : decoder bool := λ old j,
  match j with JNull => Some old | JBool b => Some b | _ => None end.
Definition dec_float : decoder float := λ old j,
  match j with JNull => Some old | JNum f => Some f | _ => None end.

(** The integer literal a number is re-encoded as; none from 10^21 on, where
    the encoder switches to exponents. *)
Definition int_literal (f : float) : option Z :=
  z ← F_integral f; if (Z.abs z <? 10 ^ 21)%Z then Some (printed_int z) else None.

Definition dec_in (lo hi : Z) : decoder Z := λ old j,
  match j with
  | JNull => Some old
  | JNum f => z ← int_literal f; if ((lo <=? z) && (z <=? hi))%Z then Some z else None
  | _ => None
  end.

Definition dec_int {W : IntSize} : decoder Z := dec_in int_min int_max.
Definition dec_int64 : decoder Z := dec_in (- 2 ^ 63) (2 ^ 63 - 1).
(** An unsigned destination also refuses the literal [-0]. *)
Definition dec_uint64 : decoder Z := λ old j,
  match j with
  | JNum (S754_zero true) => None
  | _ => dec_in 0 (2 ^ 64 - 1) old j
  end.

Definition dec_list {A} (zero : A) (d : decoder A) : decoder (list A) := λ old j,
  match j with
  | JNull => Some []
  | JArr l => mapM (d zero) l
  | _ => None
  end.

(** ** Structs *)

Definition members (j : json) : option (list (string * json)) :=
  match j with JNull => Some [] | JObj l => Some l | _ => None end.

(** The member [name], matched without regard to case; the last one wins. *)
Definition field {A} (name : string) (d : decoder A) (zero : A) (l : list (string * json)) : option A :=
  foldl (λ acc kv, a ← acc; if EqualFold kv.1 name then d a kv.2 else Some a) (Some zero) l.

(** ** Encoding *)

Definition enc_int (z : Z) : json := JNum (F_of_Z z).
(** [omitempty] *)
Definition omit_str (name s : string) : list (string * json) :=
  if (s =? "")%string then [] else [(name, JStr s)].
Definition omit_bool (name : string) (b : bool) : list (string * json) :=
  if b then [(name, JBool b)] else [].

(** ** Round trips *)

Lemma field_nil {A} name (d : decoder A) a : field name d a [] = Some a.
Proof. done. Qed.

Lemma field_skip {A} name (d : decoder A) a kv l :
  EqualFold kv.1 name = false → field name d a (kv :: l) = field name d a l.
Proof. intros E. unfold field. simpl. by rewrite E. Qed.

Lemma field_hit {A} name (d : decoder A) a kv l b :
  EqualFold kv.1 name = true → d a kv.2 = Some b → field name d a (kv :: l) = field name d b l.
Proof. intros E Hd. unfold field. simpl. by rewrite E, Hd. Qed.

Lemma field_omit_str name' name d (a : string) s l :
  field name' dec_string d (omit_str name s ++ l)
  = if EqualFold name name' && negb (s =? "")%string then field name' dec_string s l
    else field name' dec_string d l.
Proof.
  unfold omit_str. destruct (s =? "")%string; simpl; [by rewrite andb_false_r|].
  rewrite andb_true_r. unfold field. simpl. by destruct (EqualFold name name').
Qed.

(** Integers below 2^53 survive the passage through float64. *)
Definition exact_range (z : Z) : Prop := (Z.abs z < 2 ^ 53)%Z.

Lemma int_literal_of_Z z : exact_range z → int_literal (F_of_Z z) = Some z.
Proof.
  intros Hz. unfold exact_range in Hz. unfold int_literal. rewrite F_integral_of_Z by done. simpl.
  rewrite (proj2 (Z.ltb_lt (Z.abs z) (10 ^ 21))) by lia. unfold printed_int.
  by rewrite (proj2 (Z.leb_le (Z.abs z) (2 ^ 53))) by lia.
Qed.

Lemma dec_in_enc lo hi old z :
  exact_range z → (lo <= z <= hi)%Z → dec_in lo hi old (enc_int z) = Some z.
Proof.
  intros Hz Hb. unfold dec_in, enc_int. rewrite int_literal_of_Z by done. simpl.
  by rewrite (proj2 (Z.leb_le lo z)), (proj2 (Z.leb_le z hi)) by lia.
Qed.

Lemma dec_in_bounds lo hi old j z :
  (lo <= old <= hi)%Z → dec_in lo hi old j = Some z → (lo <= z <= hi)%Z.
Proof.
  intros Ho. unfold dec_in. destruct j; try done; [by intros [= <-]|].
  destruct (int_literal f) as [v|]; simpl; [|done]. destruct (_ && _) eqn:E; [|done].
  intros [= <-]. go_bool. lia.
Qed.

(** An integer field out of the destination's range fails the whole decode. *)
Lemma dec_in_out lo hi old z :
  exact_range z → ¬ (lo <= z <= hi)%Z → dec_in lo hi old (enc_int z) = None.
Proof.
  intros Hz Hb. unfold dec_in, enc_int. rewrite int_literal_of_Z by done. simpl.
  destruct (_ && _) eqn:E; [|done]. go_bool. lia.
Qed.
