(* ===== verification/Protocol.v ===== *)
(** * The wire protocol ([shared/protocol/message.go])

    The messages the probe and the Host exchange, as records with the encoder and
    the decoder [encoding/json] derives from their tags. A payload that fails to
    decode is dropped whole by its receiver. Instants are parsed and printed by
    [time.Time]'s text methods, which are a parameter. *)
From S2P Require Import Prelude GoStrings GoFloat GoJson.

Definition MessageType := string.
Definition TypeRegisterRequest : MessageType := "register_request".
Definition TypeRegisterResponse : MessageType := "register_response".
Definition TypeHeartbeat : MessageType := "heartbeat".
Definition TypeHeartbeatAck : MessageType := "heartbeat_ack".
Definition TypeTargetSync : MessageType := "target_sync".
Definition TypePingReport : MessageType := "ping_report".
Definition TypeTracerouteReport : MessageType := "traceroute_report".
Definition TypeProxyOpen : MessageType := "proxy_open".
Definition TypeProxyOpenResult : MessageType := "proxy_open_result".
Definition TypeProxyData : MessageType := "proxy_data".
Definition TypeProxyClose : MessageType := "proxy_close".
Definition TypeUpdateCheck : MessageType := "update_check".
Definition TypeUpdateResult : MessageType := "update_result".
Definition TypeSoftExit : MessageType := "soft_exit".
Definition TypeError : MessageType := "error".

(** Instants in nanoseconds since Go's zero time. *)
Class TimeText := {
  time_text : Z → string;
  time_parse : string → option Z;
  time_parse_text t : time_parse (time_text t) = Some t
}.

(** What a message type promises its two ends: values in [wire_ok] arrive as
    they were sent. *)
Class Wire (A : Type) := {
  wire_zero : A;
  wire_enc : A → json;
  wire_dec : decoder A;
  wire_ok : A → Prop;
  wire_roundtrip a : wire_ok a → wire_dec wire_zero (wire_enc a) = Some a
}.

(** [decodePayload] / [decodeProxy]: into a fresh value. *)
Definition decode {A} `{Wire A} (j : json) : option A := wire_dec wire_zero j.

(** ** Registration *)

Record RegisterRequest := mkRegisterRequest {
  rr_Token : string; rr_Hostname : string; rr_OS : string; rr_Arch : string; rr_Version : string
}.

Definition dec_RegisterRequest : decoder RegisterRequest := λ old j,
  o ← members j;
  t ← field "token" dec_string (rr_Token old) o;
  h ← field "hostname" dec_string (rr_Hostname old) o;
  os ← field "os" dec_string (rr_OS old) o;
  a ← field "arch" dec_string (rr_Arch old) o;
  v ← field "version" dec_string (rr_Version old) o;
  Some (mkRegisterRequest t h os a v).

Definition enc_RegisterRequest (r : RegisterRequest) : json :=
  JObj [("arch", JStr (rr_Arch r)); ("hostname", JStr (rr_Hostname r)); ("os", JStr (rr_OS r));
        ("token", JStr (rr_Token r)); ("version", JStr (rr_Version r))].

Record RegisterResponse := mkRegisterResponse {
  rs_Success : bool; rs_AgentID : string; rs_Message : string
}.

Definition dec_RegisterResponse : decoder RegisterResponse := λ old j,
  o ← members j;
  s ← field "success" dec_bool (rs_Success old) o;
  a ← field "agent_id" dec_string (rs_AgentID old) o;
  m ← field "message" dec_string (rs_Message old) o;
  Some (mkRegisterResponse s a m).

Definition enc_RegisterResponse (r : RegisterResponse) : json :=
  JObj (omit_str "agent_id" (rs_AgentID r) ++ omit_str "message" (rs_Message r) ++
        [("success", JBool (rs_Success r))]).

(** ** Target synchronisation *)

Record TargetConfig := mkTargetConfig {
  tc_ID : string; tc_Name : string; tc_Host : string;
  tc_PacketCount : Z; tc_IntervalSec : Z; tc_DisableRoute : bool
}.

Definition zero_TargetConfig : TargetConfig := mkTargetConfig "" "" "" 0 0 false.

Section TargetSync.
Context {W : IntSize}.

Definition dec_TargetConfig : decoder TargetConfig := λ old j,
  o ← members j;
  i ← field "id" dec_string (tc_ID old) o;
  n ← field "name" dec_string (tc_Name old) o;
  h ← field "host" dec_string (tc_Host old) o;
  pc ← field "packet_count" dec_int (tc_PacketCount old) o;
  iv ← field "interval_sec" dec_int (tc_IntervalSec old) o;
  d ← field "disable_route" dec_bool (tc_DisableRoute old) o;
  Some (mkTargetConfig i n h pc iv d).

Definition enc_TargetConfig (t : TargetConfig) : json :=
  JObj (omit_bool "disable_route" (tc_DisableRoute t) ++
        [("host", JStr (tc_Host t)); ("id", JStr (tc_ID t)); ("interval_sec", enc_int (tc_IntervalSec t));
         ("name", JStr (tc_Name t)); ("packet_count", enc_int (tc_PacketCount t))]).

Record TargetSyncPayload := mkTargetSync { ts_Targets : list TargetConfig }.

Definition dec_TargetSync : decoder TargetSyncPayload := λ old j,
  o ← members j;
  l ← field "targets" (dec_list zero_TargetConfig dec_TargetConfig) (ts_Targets old) o;
  Some (mkTargetSync l).

Definition enc_TargetSync (p : TargetSyncPayload) : json :=
  JObj [("targets", JArr (enc_TargetConfig <$> ts_Targets p))].
End TargetSync.

(** ** Reports *)

Record SinglePingResult := mkPing {
  pr_TargetID : string; pr_TargetHost : string; pr_Timestamp : Z;
  pr_PacketsSent : Z; pr_PacketsRecv : Z; pr_LossPct : float;
  pr_MinRTT : float; pr_MaxRTT : float; pr_AvgRTT : float; pr_Jitter : float; pr_StdDev : float;
  pr_ErrorMsg : string
}.

Record TracerouteHop := mkHop {
  hop_TTL : Z; hop_IP : string; hop_Hostname : string; hop_RTTs : list float;
  hop_AvgRTT : float; hop_LossPct : float
}.

Record TracerouteReportPayload := mkTraceReport {
  tr_AgentID : string; tr_TargetID : string; tr_TargetHost : string; tr_ResolvedIP : string;
  tr_Timestamp : Z; tr_DurationMs : Z; tr_Reached : bool; tr_Hops : list TracerouteHop
}.

Definition zero_ping : SinglePingResult :=
  mkPing "" "" 0 0 0 fzero fzero fzero fzero fzero fzero "".
Definition zero_hop : TracerouteHop := mkHop 0 "" "" [] fzero fzero.

Section Reports.
Context {W : IntSize} {TT : TimeText}.

Definition dec_time : decoder Z := λ old j,
  match j with JNull => Some old | JStr s => time_parse s | _ => None end.

Definition dec_SinglePingResult : decoder SinglePingResult := λ old j,
  o ← members j;
  i ← field "target_id" dec_string (pr_TargetID old) o;
  h ← field "target_host" dec_string (pr_TargetHost old) o;
  t ← field "timestamp" dec_time (pr_Timestamp old) o;
  ps ← field "packets_sent" dec_int (pr_PacketsSent old) o;
  prc ← field "packets_recv" dec_int (pr_PacketsRecv old) o;
  lp ← field "loss_pct" dec_float (pr_LossPct old) o;
  mi ← field "min_rtt_ms" dec_float (pr_MinRTT old) o;
  ma ← field "max_rtt_ms" dec_float (pr_MaxRTT old) o;
  av ← field "avg_rtt_ms" dec_float (pr_AvgRTT old) o;
  ji ← field "jitter_ms" dec_float (pr_Jitter old) o;
  sd ← field "std_dev_ms" dec_float (pr_StdDev old) o;
  e ← field "error_msg" dec_string (pr_ErrorMsg old) o;
  Some (mkPing i h t ps prc lp mi ma av ji sd e).

Definition enc_SinglePingResult (r : SinglePingResult) : json :=
  JObj ([("avg_rtt_ms", JNum (pr_AvgRTT r))] ++ omit_str "error_msg" (pr_ErrorMsg r) ++
        [("jitter_ms", JNum (pr_Jitter r)); ("loss_pct", JNum (pr_LossPct r));
         ("max_rtt_ms", JNum (pr_MaxRTT r)); ("min_rtt_ms", JNum (pr_MinRTT r));
         ("packets_recv", enc_int (pr_PacketsRecv r)); ("packets_sent", enc_int (pr_PacketsSent r));
         ("std_dev_ms", JNum (pr_StdDev r)); ("target_host", JStr (pr_TargetHost r));
         ("target_id", JStr (pr_TargetID r)); ("timestamp", JStr (time_text (pr_Timestamp r)))]).

Record PingReportPayload := mkPingReport { pp_AgentID : string; pp_Results : list SinglePingResult }.

Definition dec_PingReport : decoder PingReportPayload := λ old j,
  o ← members j;
  a ← field "agent_id" dec_string (pp_AgentID old) o;
  l ← field "results" (dec_list zero_ping dec_SinglePingResult) (pp_Results old) o;
  Some (mkPingReport a l).

Definition enc_PingReport (p : PingReportPayload) : json :=
  JObj [("agent_id", JStr (pp_AgentID p)); ("results", JArr (enc_SinglePingResult <$> pp_Results p))].

Definition dec_TracerouteHop : decoder TracerouteHop := λ old j,
  o ← members j;
  t ← field "ttl" dec_int (hop_TTL old) o;
  i ← field "ip" dec_string (hop_IP old) o;
  h ← field "hostname" dec_string (hop_Hostname old) o;
  r ← field "rtts_ms" (dec_list fzero dec_float) (hop_RTTs old) o;
  a ← field "avg_rtt_ms" dec_float (hop_AvgRTT old) o;
  l ← field "loss_pct" dec_float (hop_LossPct old) o;
  Some (mkHop t i h r a l).

Definition enc_TracerouteHop (h : TracerouteHop) : json :=
  JObj ([("avg_rtt_ms", JNum (hop_AvgRTT h))] ++ omit_str "hostname" (hop_Hostname h) ++
        omit_str "ip" (hop_IP h) ++
        [("loss_pct", JNum (hop_LossPct h)); ("rtts_ms", JArr (JNum <$> hop_RTTs h));
         ("ttl", enc_int (hop_TTL h))]).

Definition dec_TracerouteReport : decoder TracerouteReportPayload := λ old j,
  o ← members j;
  a ← field "agent_id" dec_string (tr_AgentID old) o;
  i ← field "target_id" dec_string (tr_TargetID old) o;
  h ← field "target_host" dec_string (tr_TargetHost old) o;
  ip ← field "resolved_ip" dec_string (tr_ResolvedIP old) o;
  t ← field "timestamp" dec_time (tr_Timestamp old) o;
  d ← field "duration_ms" dec_int64 (tr_DurationMs old) o;
  r ← field "reached" dec_bool (tr_Reached old) o;
  l ← field "hops" (dec_list zero_hop dec_TracerouteHop) (tr_Hops old) o;
  Some (mkTraceReport a i h ip t d r l).

Definition enc_TracerouteReport (r : TracerouteReportPayload) : json :=
  JObj ([("agent_id", JStr (tr_AgentID r)); ("duration_ms", enc_int (tr_DurationMs r));
         ("hops", JArr (enc_TracerouteHop <$> tr_Hops r)); ("reached", JBool (tr_Reached r));
         ("resolved_ip", JStr (tr_ResolvedIP r)); ("target_host", JStr (tr_TargetHost r))] ++
        omit_str "target_id" (tr_TargetID r) ++
        [("timestamp", JStr (time_text (tr_Timestamp r)))]).
End Reports.

(** ** The proxy and updates *)

Record ProxyOpenPayload := mkProxyOpen { po_TunnelID : string; po_Host : string; po_Port : Z }.
Record ProxyOpenResultPayload := mkOpenResult { or_TunnelID : string; or_OK : bool; or_Error : string }.
Record ProxyDataPayload := mkProxyData { pd_TunnelID : string; pd_Data : string }.
Record ProxyClosePayload := mkProxyClose { pc_TunnelID : string; pc_Reason : string }.
Record UpdateResultPayload := mkUpdateResult {
  ur_AgentID : string; ur_CurrentVersion : string; ur_LatestVersion : string;
  ur_Updating : bool; ur_Error : string
}.

Definition dec_ProxyOpen {W : IntSize} : decoder ProxyOpenPayload := λ old j,
  o ← members j;
  i ← field "tunnel_id" dec_string (po_TunnelID old) o;
  h ← field "host" dec_string (po_Host old) o;
  p ← field "port" dec_int (po_Port old) o;
  Some (mkProxyOpen i h p).

Definition enc_ProxyOpen (p : ProxyOpenPayload) : json :=
  JObj [("host", JStr (po_Host p)); ("port", enc_int (po_Port p)); ("tunnel_id", JStr (po_TunnelID p))].

Definition dec_OpenResult : decoder ProxyOpenResultPayload := λ old j,
  o ← members j;
  i ← field "tunnel_id" dec_string (or_TunnelID old) o;
  k ← field "ok" dec_bool (or_OK old) o;
  e ← field "error" dec_string (or_Error old) o;
  Some (mkOpenResult i k e).

Definition enc_OpenResult (r : ProxyOpenResultPayload) : json :=
  JObj (omit_str "error" (or_Error r) ++ [("ok", JBool (or_OK r)); ("tunnel_id", JStr (or_TunnelID r))]).

Definition dec_ProxyData : decoder ProxyDataPayload := λ old j,
  o ← members j;
  i ← field "tunnel_id" dec_string (pd_TunnelID old) o;
  d ← field "data" dec_string (pd_Data old) o;
  Some (mkProxyData i d).

Definition enc_ProxyData (p : ProxyDataPayload) : json :=
  JObj [("data", JStr (pd_Data p)); ("tunnel_id", JStr (pd_TunnelID p))].

Definition dec_ProxyClose : decoder ProxyClosePayload := λ old j,
  o ← members j;
  i ← field "tunnel_id" dec_string (pc_TunnelID old) o;
  r ← field "reason" dec_string (pc_Reason old) o;
  Some (mkProxyClose i r).

Definition enc_ProxyClose (p : ProxyClosePayload) : json :=
  JObj (omit_str "reason" (pc_Reason p) ++ [("tunnel_id", JStr (pc_TunnelID p))]).

Definition dec_UpdateResult : decoder UpdateResultPayload := λ old j,
  o ← members j;
  a ← field "agent_id" dec_string (ur_AgentID old) o;
  c ← field "current_version" dec_string (ur_CurrentVersion old) o;
  l ← field "latest_version" dec_string (ur_LatestVersion old) o;
  u ← field "updating" dec_bool (ur_Updating old) o;
  e ← field "error" dec_string (ur_Error old) o;
  Some (mkUpdateResult a c l u e).

Definition enc_UpdateResult (r : UpdateResultPayload) : json :=
  JObj ([("agent_id", JStr (ur_AgentID r)); ("current_version", JStr (ur_CurrentVersion r))] ++
        omit_str "error" (ur_Error r) ++ omit_str "latest_version" (ur_LatestVersion r) ++
        [("updating", JBool (ur_Updating r))]).

(** ** Messages as the program sends them *)

Inductive Payload :=
  | PRegisterResponse (r : RegisterResponse)
  | PTargetSync (t : TargetSyncPayload)
  | PHeartbeatAck
  | PUpdateCheck
  | PSoftExit
  | PProxyOpen (p : ProxyOpenPayload)
  | POpenResult (p : ProxyOpenResultPayload)
  | PProxyData (p : ProxyDataPayload)
  | PProxyClose (p : ProxyClosePayload)
  | PUpdateResult (p : UpdateResultPayload).

Record Envelope := mkEnvelope { env_Type : MessageType; env_Payload : json }.

(** ** Round trips *)

Lemma mapM_enc {A} (d : json → option A) (e : A → json) l :
  Forall (λ a, d (e a) = Some a) l → mapM d (e <$> l) = Some l.
Proof. induction 1 as [|a l Ha _ IH]; [done|]. cbn. rewrite Ha. cbn. by rewrite IH. Qed.

Lemma dec_list_enc {A} zero (d : decoder A) old e (l : list A) :
  Forall (λ a, d zero (e a) = Some a) l → dec_list zero d old (JArr (e <$> l)) = Some l.
Proof. apply mapM_enc. Qed.


(** Computes a decode of an encoded record, using the equations in the context
    for the parts the computation stops at. *)
Ltac wire_solve :=
  cbv; repeat (match goal with E : _ = Some _ |- _ => rewrite E; clear E end; cbv);
  try reflexivity.

(** Splits on whether an [omitempty] string is empty. *)
Ltac omit_case s := destruct (String.eqb_spec s ""); [subst s|].

Section RoundTrips.
Context {W : IntSize} {TT : TimeText}.

Definition int_ok (z : Z) : Prop := exact_range z ∧ (int_min <= z <= int_max)%Z.

Lemma dec_int_enc old z : int_ok z → dec_int old (enc_int z) = Some z.
Proof. intros [? ?]. by apply dec_in_enc. Qed.

#[export, program] Instance wire_RegisterRequest : Wire RegisterRequest := {
  wire_zero := mkRegisterRequest "" "" "" "" "";
  wire_enc := enc_RegisterRequest;
  wire_dec := dec_RegisterRequest;
  wire_ok _ := True
}.
Next Obligation. intros [a b c d e] _. wire_solve. Qed.

#[export, program] Instance wire_RegisterResponse : Wire RegisterResponse := {
  wire_zero := mkRegisterResponse false "" "";
  wire_enc := enc_RegisterResponse;
  wire_dec := dec_RegisterResponse;
  wire_ok _ := True
}.
Next Obligation.
  intros [a b c] _. unfold enc_RegisterResponse, omit_str. cbn [rs_Success rs_AgentID rs_Message].
  omit_case b; omit_case c; wire_solve.
Qed.

Definition target_ok (t : TargetConfig) : Prop := int_ok (tc_PacketCount t) ∧ int_ok (tc_IntervalSec t).

Lemma TargetConfig_roundtrip t :
  target_ok t → dec_TargetConfig zero_TargetConfig (enc_TargetConfig t) = Some t.
Proof.
  destruct t as [i n h pc iv d]. intros [E1 E2]. cbn in E1, E2.
  apply (dec_int_enc 0) in E1, E2. unfold dec_TargetConfig, enc_TargetConfig. cbn [tc_PacketCount tc_IntervalSec].
  revert E1 E2. generalize (@dec_int W) (enc_int pc) (enc_int iv). intros di jp ji E1 E2.
  destruct d; wire_solve.
Qed.

#[export, program] Instance wire_TargetSync : Wire TargetSyncPayload := {
  wire_zero := mkTargetSync [];
  wire_enc := enc_TargetSync;
  wire_dec := dec_TargetSync;
  wire_ok p := Forall target_ok (ts_Targets p)
}.
Next Obligation.
  intros [l] Hl. assert (E : dec_list zero_TargetConfig dec_TargetConfig [] (JArr (enc_TargetConfig <$> l)) = Some l).
  { apply dec_list_enc. eapply Forall_impl; [exact Hl|]. apply TargetConfig_roundtrip. }
  unfold dec_TargetSync, enc_TargetSync. cbn [ts_Targets]. revert E.
  generalize (dec_list zero_TargetConfig dec_TargetConfig) (JArr (enc_TargetConfig <$> l)). intros dl j E.
  wire_solve.
Qed.

Definition ping_ok (r : SinglePingResult) : Prop := int_ok (pr_PacketsSent r) ∧ int_ok (pr_PacketsRecv r).

Lemma SinglePingResult_roundtrip r :
  ping_ok r → dec_SinglePingResult zero_ping (enc_SinglePingResult r) = Some r.
Proof.
  destruct r as [i h t ps pr lp mi ma av ji sd e]. intros [E1 E2]. cbn in E1, E2.
  apply (dec_int_enc 0) in E1, E2. pose proof (time_parse_text t) as E3.
  unfold dec_SinglePingResult, enc_SinglePingResult, dec_time, omit_str.
  cbn [pr_PacketsSent pr_PacketsRecv pr_Timestamp pr_ErrorMsg].
  revert E1 E2 E3. generalize (@dec_int W) (enc_int ps) (enc_int pr) (time_text t) time_parse.
  intros di jp jr tx tp E1 E2 E3. omit_case e; wire_solve.
Qed.

#[export, program] Instance wire_PingReport : Wire PingReportPayload := {
  wire_zero := mkPingReport "" [];
  wire_enc := enc_PingReport;
  wire_dec := dec_PingReport;
  wire_ok p := Forall ping_ok (pp_Results p)
}.
Next Obligation.
  intros [a l] Hl. assert (E : dec_list zero_ping dec_SinglePingResult [] (JArr (enc_SinglePingResult <$> l)) = Some l).
  { apply dec_list_enc. eapply Forall_impl; [exact Hl|]. apply SinglePingResult_roundtrip. }
  unfold dec_PingReport, enc_PingReport. cbn [pp_Results pp_AgentID]. revert E.
  generalize (dec_list zero_ping dec_SinglePingResult) (JArr (enc_SinglePingResult <$> l)). intros dl j E.
  wire_solve.
Qed.

Lemma TracerouteHop_roundtrip h :
  int_ok (hop_TTL h) → dec_TracerouteHop zero_hop (enc_TracerouteHop h) = Some h.
Proof.
  destruct h as [t i n r a l]. intros E1. cbn in E1. apply (dec_int_enc 0) in E1.
  assert (E2 : dec_list fzero dec_float [] (JArr (JNum <$> r)) = Some r) by (apply dec_list_enc, Forall_true; done).
  unfold dec_TracerouteHop, enc_TracerouteHop, omit_str. cbn [hop_TTL hop_RTTs hop_IP hop_Hostname].
  revert E1 E2. generalize (@dec_int W) (enc_int t) (dec_list fzero dec_float) (JArr (JNum <$> r)).
  intros di jt dl jl E1 E2. omit_case i; omit_case n; wire_solve.
Qed.

#[export, program] Instance wire_TracerouteReport : Wire TracerouteReportPayload := {
  wire_zero := mkTraceReport "" "" "" "" 0 0 false [];
  wire_enc := enc_TracerouteReport;
  wire_dec := dec_TracerouteReport;
  wire_ok p := exact_range (tr_DurationMs p) ∧ Forall (λ h, int_ok (hop_TTL h)) (tr_Hops p)
}.
Next Obligation.
  intros [a i h ip t d r l] [E1 Hl]. cbn in E1, Hl.
  assert (E2 : dec_list zero_hop dec_TracerouteHop [] (JArr (enc_TracerouteHop <$> l)) = Some l).
  { apply dec_list_enc. eapply Forall_impl; [exact Hl|]. apply TracerouteHop_roundtrip. }
  assert (E3 : dec_int64 0%Z (enc_int d) = Some d).
  { apply dec_in_enc; [done|]. unfold exact_range in E1. lia. }
  pose proof (time_parse_text t) as E4.
  unfold dec_TracerouteReport, enc_TracerouteReport, dec_time, omit_str.
  cbn [tr_DurationMs tr_Hops tr_Timestamp tr_TargetID]. revert E2 E3 E4.
  generalize dec_int64 (enc_int d) (dec_list zero_hop dec_TracerouteHop) (JArr (enc_TracerouteHop <$> l))
    (time_text t) time_parse. intros di jd dl jl tx tp E2 E3 E4. omit_case i; wire_solve.
Qed.

#[export, program] Instance wire_ProxyOpen : Wire ProxyOpenPayload := {
  wire_zero := mkProxyOpen "" "" 0;
  wire_enc := enc_ProxyOpen;
  wire_dec := dec_ProxyOpen;
  wire_ok p := int_ok (po_Port p)
}.
Next Obligation.
  intros [i h p] E1. cbn in E1. apply (dec_int_enc 0) in E1. unfold dec_ProxyOpen, enc_ProxyOpen.
  cbn [po_Port]. revert E1. generalize (@dec_int W) (enc_int p). intros di jp E1. wire_solve.
Qed.

#[export, program] Instance wire_OpenResult : Wire ProxyOpenResultPayload := {
  wire_zero := mkOpenResult "" false "";
  wire_enc := enc_OpenResult;
  wire_dec := dec_OpenResult;
  wire_ok _ := True
}.
Next Obligation.
  intros [i k e] _. unfold enc_OpenResult, omit_str. cbn [or_Error]. omit_case e; wire_solve.
Qed.

#[export, program] Instance wire_ProxyData : Wire ProxyDataPayload := {
  wire_zero := mkProxyData "" "";
  wire_enc := enc_ProxyData;
  wire_dec := dec_ProxyData;
  wire_ok _ := True
}.
Next Obligation. intros [i d] _. wire_solve. Qed.

#[export, program] Instance wire_ProxyClose : Wire ProxyClosePayload := {
  wire_zero := mkProxyClose "" "";
  wire_enc := enc_ProxyClose;
  wire_dec := dec_ProxyClose;
  wire_ok _ := True
}.
Next Obligation.
  intros [i r] _. unfold enc_ProxyClose, omit_str. cbn [pc_Reason]. omit_case r; wire_solve.
Qed.

#[export, program] Instance wire_UpdateResult : Wire UpdateResultPayload := {
  wire_zero := mkUpdateResult "" "" "" false "";
  wire_enc := enc_UpdateResult;
  wire_dec := dec_UpdateResult;
  wire_ok _ := True
}.
Next Obligation.
  intros [a c l u e] _. unfold enc_UpdateResult, omit_str. cbn [ur_Error ur_LatestVersion].
  omit_case e; omit_case l; wire_solve.
Qed.

(** The envelope a message travels in ([QueueEnvelope], [Hub.Send], the client's
    [sendEnvelope]); its timestamp is read by nobody. *)
Definition envelope (m : Payload) : Envelope :=
  match m with
  | PRegisterResponse r => mkEnvelope TypeRegisterResponse (wire_enc r)
  | PTargetSync t => mkEnvelope TypeTargetSync (wire_enc t)
  | PHeartbeatAck => mkEnvelope TypeHeartbeatAck (JObj [("status", JStr "ok")])
  | PUpdateCheck => mkEnvelope TypeUpdateCheck JNull
  | PSoftExit => mkEnvelope TypeSoftExit (JObj [])
  | PProxyOpen p => mkEnvelope TypeProxyOpen (wire_enc p)
  | POpenResult p => mkEnvelope TypeProxyOpenResult (wire_enc p)
  | PProxyData p => mkEnvelope TypeProxyData (wire_enc p)
  | PProxyClose p => mkEnvelope TypeProxyClose (wire_enc p)
  | PUpdateResult p => mkEnvelope TypeUpdateResult (wire_enc p)
  end.

End RoundTrips.

(** ** An instance of [TimeText], to run the definitions with *)

Fixpoint pos_text (p : positive) : string :=
  match p with
  | xH => ""
  | xO p => String "0" (pos_text p)
  | xI p => String "1" (pos_text p)
  end.

Fixpoint text_pos (s : string) : positive :=
  match s with
  | "" => xH
  | String c s => if Ascii.eqb c "0" then xO (text_pos s) else xI (text_pos s)
  end.

Lemma text_pos_text p : text_pos (pos_text p) = p.
Proof. induction p as [p IH|p IH|]; simpl; by rewrite ?IH. Qed.

#[program] Definition binary_time : TimeText := {|
  time_text t := match t with Z0 => "0" | Zpos p => String "+" (pos_text p) | Zneg p => String "-" (pos_text p) end;
  time_parse s :=
    match s with
    | String c s =>
        if Ascii.eqb c "0" then Some 0%Z
        else if Ascii.eqb c "+" then Some (Zpos (text_pos s))
        else if Ascii.eqb c "-" then Some (Zneg (text_pos s)) else None
    | "" => None
    end
|}.
Next Obligation. intros [|p|p]; simpl; by rewrite ?text_pos_text. Qed.
