(* ===== verification/Model.v ===== *)
(** * The Host's rows ([host/internal/model/models.go])

    The tables the Host reads and writes, as records. Columns no modelled code
    touches (timestamps of creation and update) are left out; the columns derived
    at read time are computed where they are used. *)
From S2P Require Import Prelude GoStrings GoFloat.

(** [SystemSetting] is a key and its value. *)
Record SystemSetting := mkSetting { ss_Key : string; ss_Value : string }.

Record EmailWhitelist := mkWhitelist { ew_ID : Z; ew_Email : string; ew_Remark : string; ew_CreatedBy : string }.

Record User := mkUser {
  u_ID : Z; u_Provider : string; u_ProviderID : string; u_GitHubID : Z; u_Username : string;
  u_Email : string; u_AvatarURL : string; u_Role : string; u_LastLoginAt : Z
}.

Record Target := mkTarget {
  tg_ID : string; tg_Name : string; tg_Host : string; tg_PacketCount : Z; tg_IntervalSec : Z;
  tg_Tags : string; tg_Enabled : bool; tg_DisableRoute : bool
}.

Record Agent := mkAgent {
  ag_ID : string; ag_Name : string; ag_Token : string; ag_PublicIP : string; ag_OS : string;
  ag_Arch : string; ag_Version : string; ag_Tags : string; ag_DisabledRouteTargets : string;
  ag_PausedTargets : string; ag_IsOnline : bool; ag_LastSeenAt : Z
}.

Record AgentUpdateStatus := mkUpdateStatus {
  us_CurrentVersion : string; us_LatestVersion : string; us_Updating : bool; us_Error : string; us_CheckedAt : Z
}.

Record PingMetric := mkMetric {
  pm_AgentID : string; pm_TargetID : string; pm_Timestamp : Z; pm_PacketsSent : Z; pm_PacketsRecv : Z;
  pm_LossPct : float; pm_MinRTT : float; pm_MaxRTT : float; pm_AvgRTT : float; pm_Jitter : float;
  pm_StdDev : float; pm_ErrorMsg : string
}.

Record EnrichedHop := mkEnriched {
  eh_TTL : Z; eh_IP : string; eh_Hostname : string; eh_RTTs : list float; eh_AvgRTT : float; eh_LossPct : float;
  eh_ASNumber : string; eh_ASOrg : string; eh_ISP : string; eh_Country : string; eh_CountryCode : string;
  eh_City : string
}.

Record ASNode := mkASNode { an_ASN : string; an_Name : string }.

Record TracerouteRecord := mkTraceRecord {
  trc_ID : string; trc_AgentID : string; trc_TargetID : string; trc_TargetHost : string; trc_ResolvedIP : string;
  trc_Timestamp : Z; trc_DurationMs : Z; trc_Reached : bool; trc_HopCount : Z; trc_RoutePath : string;
  trc_ASPath : string; trc_ASNodes : list ASNode; trc_Hops : list EnrichedHop
}.

(** ** The columns

    What PostgreSQL gives back of a value that was written to a column, [None] when
    it refuses the value: [numeric(p,s)] rounds to [s] digits, [varchar(n)] limits
    the length, [timestamptz] keeps microseconds. *)
Class Columns := {
  numeric : Z → Z → float → option float;
  varchar : Z → string → option string;
  timestamptz : Z → Z;
  timestamptz_near t : (Z.abs (timestamptz t - t) <= 1000)%Z
}.

Section Columns.
Context `{Columns}.

(** A row of [ping_metrics] as its columns hold it. *)
Definition stored_metric (m : PingMetric) : option PingMetric :=
  agent ← varchar 36 (pm_AgentID m); target ← varchar 36 (pm_TargetID m);
  loss ← numeric 5 2 (pm_LossPct m); lo ← numeric 8 2 (pm_MinRTT m); hi ← numeric 8 2 (pm_MaxRTT m);
  avg ← numeric 8 2 (pm_AvgRTT m); jitter ← numeric 8 2 (pm_Jitter m); dev ← numeric 8 2 (pm_StdDev m);
  msg ← varchar 255 (pm_ErrorMsg m);
  Some (mkMetric agent target (timestamptz (pm_Timestamp m)) (pm_PacketsSent m) (pm_PacketsRecv m) loss lo hi avg jitter dev msg).

(** A row of [traceroute_records]; its hops and AS nodes are JSON texts without limit. *)
Definition stored_trace (r : TracerouteRecord) : option TracerouteRecord :=
  id ← varchar 36 (trc_ID r); agent ← varchar 36 (trc_AgentID r); target ← varchar 36 (trc_TargetID r);
  host ← varchar 255 (trc_TargetHost r); ip ← varchar 128 (trc_ResolvedIP r);
  path ← varchar 64 (trc_RoutePath r); asPath ← varchar 512 (trc_ASPath r);
  Some (mkTraceRecord id agent target host ip (timestamptz (trc_Timestamp r)) (trc_DurationMs r) (trc_Reached r) (trc_HopCount r)
          path asPath (trc_ASNodes r) (trc_Hops r)).

Lemma stored_metric_time m m' : stored_metric m = Some m' → (Z.abs (pm_Timestamp m' - pm_Timestamp m) <= 1000)%Z.
Proof.
  unfold stored_metric. intros E. repeat (apply bind_Some in E as (? & _ & E)). injection E as <-. apply timestamptz_near.
Qed.

(** Each column by itself; the counts are as they were. *)
Lemma stored_metric_columns m m' : stored_metric m = Some m' →
  pm_PacketsSent m' = pm_PacketsSent m ∧ pm_PacketsRecv m' = pm_PacketsRecv m ∧
  numeric 8 2 (pm_AvgRTT m) = Some (pm_AvgRTT m') ∧ numeric 5 2 (pm_LossPct m) = Some (pm_LossPct m') ∧
  varchar 36 (pm_AgentID m) = Some (pm_AgentID m') ∧ varchar 255 (pm_ErrorMsg m) = Some (pm_ErrorMsg m').
Proof.
  unfold stored_metric. intros E. repeat (apply bind_Some in E as (? & ? & E)). injection E as <-. by split_and!.
Qed.

Lemma stored_trace_time r r' : stored_trace r = Some r' → (Z.abs (trc_Timestamp r' - trc_Timestamp r) <= 1000)%Z.
Proof.
  unfold stored_trace. intros E. repeat (apply bind_Some in E as (? & _ & E)). injection E as <-. apply timestamptz_near.
Qed.
End Columns.

(** Columns for the examples: halves away from zero, lengths in bytes, times cut. *)
Definition round_numeric (p s : Z) (f : float) : option float :=
  match f with
  | S754_zero _ => Some fzero
  | S754_nan => Some f
  | S754_infinity _ => None
  | S754_finite neg m e =>
      let n := if (0 <=? e)%Z then (Z.pos m * 2 ^ e * 10 ^ s)%Z else ((2 * Z.pos m * 10 ^ s + 2 ^ (- e)) / (2 * 2 ^ (- e)))%Z in
      if (10 ^ p <=? n)%Z then None else Some (F_dec (if neg then - n else n) s)
  end.

#[program] Definition simple_columns : Columns := {|
  numeric := round_numeric;
  varchar n s := if (Z.of_nat (slen s) <=? n)%Z then Some s else None;
  timestamptz t := (t / 1000 * 1000)%Z
|}.
Next Obligation. intros t. pose proof (Z.div_mod t 1000). pose proof (Z.mod_pos_bound t 1000). lia. Qed.

#[export] Instance Agent_eq_dec : EqDecision Agent.
Proof. solve_decision. Defined.
#[export] Instance Target_eq_dec : EqDecision Target.
Proof. solve_decision. Defined.
