(* ===== verification/WsStream.v ===== *)
(** * A byte stream over WebSocket messages ([shared/wsutil/conn.go])

    [Conn.Read] walks the binary messages of a connection, [Conn.Write] sends one
    message each; both ends of a tunnel use it. The WebSocket library gives a
    message in pieces of its choice, may report the end of a message together with
    its last bytes or after them, and a broken connection ends within a message.
    The copy loops of the relays ([io.Copy]) are modelled on top. *)
From S2P Require Import Prelude GoStrings.

(** A message that has begun to arrive; only a broken connection leaves one short. *)
Record Msg := mkMsg { payload : string; whole : bool }.

Inductive read_error := ErrEOF | ErrBroken.
#[export] Instance read_error_eq_dec : EqDecision read_error.
Proof. solve_decision. Defined.

(** How the library answers a read: at most how many bytes, and whether the last
    bytes come with the end of the message. *)
Record answer := mkAnswer { chunk : nat; eof_early : bool }.

(** [reader.Read(p)] with [k] bytes of room. *)
Definition reader_read (k : nat) (a : answer) (m : Msg) : string * Msg * option read_error :=
  if (payload m =? "")%string then ("", m, Some (if whole m then ErrEOF else ErrBroken))
  else
    let n := Nat.min k (S (chunk a)) in
    let rest := str_drop n (payload m) in
    (str_take n (payload m), mkMsg rest (whole m), if (rest =? "")%string && whole m && eof_early a then Some ErrEOF else None).

(** The connection: the current reader, the messages to come, what was written. *)
Record Conn := mkWs { reader : option Msg; incoming : list Msg; written : list string }.

(** The loop of [Read] from message [m] on; [None] as error is a successful read. *)
Fixpoint read_msgs (k : nat) (a : answer) (m : Msg) (inc : list Msg) : string * option read_error * option Msg * list Msg :=
  match reader_read k a m with
  | (d, m', None) => (d, None, Some m', inc)
  | (d, m', Some ErrBroken) => (d, Some ErrBroken, Some m', inc)
  | (d, _, Some ErrEOF) =>
      if negb (d =? "")%string then (d, None, None, inc)
      else
        match inc with
        | [] => ("", Some ErrBroken, None, [])
        | m :: inc => read_msgs k a m inc
        end
  end.

(** [NextReader] fails when nothing is to come. *)
Definition Read (k : nat) (a : answer) (c : Conn) : string * option read_error * Conn :=
  let '(d, e, r, inc) :=
    match reader c, incoming c with
    | Some m, inc => read_msgs k a m inc
    | None, [] => ("", Some ErrBroken, None, [])
    | None, m :: inc => read_msgs k a m inc
    end in
  (d, e, mkWs r inc (written c)).

(** [Write] of a connection that works. *)
Definition Write (p : string) (c : Conn) : Conn := mkWs (reader c) (incoming c) (written c ++ [p]).

(** What is still to be read. *)
Definition pending (c : Conn) : string :=
  match reader c with Some m => payload m | None => "" end +:+ String.concat "" (payload <$> incoming c).

(** A message can only be short if nothing follows it. *)
Fixpoint closed_after_short (l : list Msg) : bool :=
  match l with
  | [] => true
  | m :: l => (whole m || (length l =? 0)%nat) && closed_after_short l
  end.
Definition conn_ok (c : Conn) : bool :=
  closed_after_short (match reader c with Some m => m :: incoming c | None => incoming c end).

(** [io.Copy] from the connection: reads until one fails; what arrived. *)
Fixpoint copy_all (fuel : nat) (k : nat) (answers : nat → answer) (c : Conn) : option (string * Conn) :=
  match fuel with
  | O => None
  | S n =>
      match Read k (answers n) c with
      | (d, Some _, c') => Some (d, c')
      | (d, None, c') => '(d', c') ← copy_all n k answers c'; Some (d +:+ d', c')
      end
  end.

(** ** Lemmas *)

Lemma concat_cons s l : String.concat "" (s :: l) = s +:+ String.concat "" l.
Proof. destruct l as [|t l]; cbn; [by rewrite str_app_nil_r|done]. Qed.

Lemma reader_read_split k a m :
  let '(d, m', e) := reader_read k a m in
  d +:+ payload m' = payload m ∧ whole m' = whole m ∧
  (e = Some ErrEOF → payload m' = "" ∧ whole m = true) ∧ (e = Some ErrBroken → payload m' = "" ∧ whole m = false ∧ d = "") ∧
  (e = None → payload m ≠ "").
Proof.
  unfold reader_read. destruct (String.eqb_spec (payload m) "") as [E|E].
  - rewrite E. by destruct (whole m).
  - cbn. split_and!; [apply str_take_drop|done| |by destruct (_ && _)|done].
    destruct (_ && _ && _) eqn:Eb; [|done]. intros _. apply andb_true_iff in Eb as [Eb _]. apply andb_true_iff in Eb as [Eb Hw].
    split; [by apply String.eqb_eq|done].
Qed.

Lemma reader_read_progress k a m : (0 < k)%nat → payload m ≠ "" → fst (fst (reader_read k a m)) ≠ "".
Proof.
  intros Hk Hm. unfold reader_read. rewrite (proj2 (String.eqb_neq _ _) Hm). cbn [fst].
  destruct (payload m); [done|]. destruct k; [lia|]. done.
Qed.

Lemma read_msgs_spec k a inc : ∀ m,
  closed_after_short (m :: inc) = true →
  let '(d, e, r, inc') := read_msgs k a m inc in
  d +:+ pending (mkWs r inc' []) = payload m +:+ String.concat "" (payload <$> inc) ∧
  conn_ok (mkWs r inc' []) = true ∧
  (e ≠ None → d = "" ∧ pending (mkWs r inc' []) = "") ∧
  ((0 < k)%nat → e = None → d ≠ "").
Proof.
  induction inc as [|m2 inc IH]; intros m Hok; cbn [read_msgs];
    pose proof (reader_read_split k a m) as Hs; pose proof (reader_read_progress k a m) as Hp;
    destruct (reader_read k a m) as [[d m'] e]; destruct Hs as (H1 & H2 & H3 & H4 & H5); cbn [fst] in Hp.
  - destruct e as [[]|].
    + destruct (H3 eq_refl) as [Ep _]. rewrite Ep, str_app_nil_r in H1. subst d.
      destruct (String.eqb_spec (payload m) "") as [E|E]; cbn [negb]; [by rewrite E|]. unfold pending. cbn. by rewrite !str_app_nil_r.
    + destruct (H4 eq_refl) as (Ep & Ew & ->). cbn in H1. unfold pending, conn_ok. cbn in *. rewrite <- H1, Ep. by rewrite H2, Ew.
    + split_and!; try done.
      * unfold pending. cbn. by rewrite !str_app_nil_r.
      * unfold conn_ok. cbn. by rewrite orb_true_r.
      * intros Hk _. apply Hp; [done|]. by apply H5.
  - cbn [closed_after_short length] in Hok. apply andb_true_iff in Hok as [Hw Hok]. rewrite orb_false_r in Hw.
    rewrite fmap_cons, concat_cons. destruct e as [[]|].
    + destruct (H3 eq_refl) as [Ep _]. rewrite Ep, str_app_nil_r in H1. subst d.
      destruct (String.eqb_spec (payload m) "") as [E|E]; cbn [negb].
      * rewrite E. specialize (IH m2 Hok). destruct (read_msgs k a m2 inc) as [[[d e] r] inc']. done.
      * split_and!; try done. unfold pending. cbn [reader incoming]. by rewrite fmap_cons, concat_cons.
    + destruct (H4 eq_refl) as (_ & Ew & _). congruence.
    + split_and!; try done.
      * unfold pending. cbn [reader incoming]. by rewrite fmap_cons, concat_cons, <- H1, str_app_assoc.
      * unfold conn_ok. cbn [reader incoming closed_after_short length]. by rewrite H2, Hw, Hok.
      * intros Hk _. apply Hp; [done|]. by apply H5.
Qed.

Lemma Read_spec k a c :
  conn_ok c = true →
  let '(d, e, c') := Read k a c in
  d +:+ pending c' = pending c ∧ conn_ok c' = true ∧ written c' = written c ∧
  (e ≠ None → pending c = "" ∧ d = "") ∧ ((0 < k)%nat → e = None → d ≠ "").
Proof.
  intros Hok. unfold Read.
  assert (Hm : ∀ m inc, pending c = payload m +:+ String.concat "" (payload <$> inc) → closed_after_short (m :: inc) = true →
    let '(d, e, r, inc') := read_msgs k a m inc in
    d +:+ pending (mkWs r inc' (written c)) = pending c ∧ conn_ok (mkWs r inc' (written c)) = true ∧
    written (mkWs r inc' (written c)) = written c ∧
    (e ≠ None → pending c = "" ∧ d = "") ∧ ((0 < k)%nat → e = None → d ≠ "")).
  { intros m inc -> Hc. pose proof (read_msgs_spec k a inc m Hc) as Hs. destruct (read_msgs k a m inc) as [[[d e] r] inc'].
    destruct Hs as (H1 & H2 & H3 & H4). split_and!; try done. intros He. destruct (H3 He) as [-> Ep]. split; [|done].
    by rewrite <- H1. }
  destruct c as [[m|] inc w]; cbn [reader incoming written] in *.
  - specialize (Hm m inc eq_refl Hok). by destruct (read_msgs k a m inc) as [[[d e] r] inc'].
  - destruct inc as [|m inc]; [by split_and!|]. specialize (Hm m inc). destruct (read_msgs k a m inc) as [[[d e] r] inc'].
    apply Hm; [|done]. unfold pending. cbn [reader incoming]. by rewrite fmap_cons, concat_cons.
Qed.

Lemma copy_all_spec k answers : (0 < k)%nat → ∀ n c,
  conn_ok c = true → (slen (pending c) < n)%nat →
  ∃ c', copy_all n k answers c = Some (pending c, c') ∧ pending c' = "" ∧ written c' = written c.
Proof.
  intros Hk. induction n as [|n IH]; intros c Hok Hn; [lia|]. cbn [copy_all].
  pose proof (Read_spec k (answers n) c Hok) as Hr. destruct (Read k (answers n) c) as [[d e] c'].
  destruct Hr as (H1 & H2 & H3 & H4 & H5). destruct e as [e|].
  - destruct H4 as [E ->]; [done|]. exists c'. rewrite E in *. cbn in H1. by rewrite H3.
  - specialize (H5 Hk eq_refl). assert (Hl : (slen (pending c') < slen (pending c))%nat).
    { rewrite <- H1, slen_app. destruct d; [done|]. cbn. lia. }
    destruct (IH c' H2 ltac:(lia)) as (c2 & -> & E2 & W2). exists c2. cbn. split_and!; [by rewrite H1|done|by rewrite W2].
Qed.

(** Reads of any sizes, one after the other: the bytes they give, and whether all
    succeeded. *)
Fixpoint reads (l : list (nat * answer)) (c : Conn) : string * bool * Conn :=
  match l with
  | [] => ("", true, c)
  | (k, a) :: l =>
      let '(d, e, c) := Read k a c in
      let '(d', good, c) := reads l c in (d +:+ d', bool_decide (e = None) && good, c)
  end.

Lemma reads_spec l : ∀ c, conn_ok c = true →
  let '(d, good, c') := reads l c in
  d +:+ pending c' = pending c ∧ conn_ok c' = true ∧ (good = false → d = pending c).
Proof.
  induction l as [|[k a] l IH]; intros c Hok; [by split_and!|]. cbn [reads].
  pose proof (Read_spec k a c Hok) as Hr. destruct (Read k a c) as [[d e] c1]. destruct Hr as (H1 & H2 & _ & H4 & _).
  specialize (IH c1 H2). destruct (reads l c1) as [[d' good] c2]. destruct IH as (I1 & I2 & I3). split_and!; [|done|].
  - by rewrite str_app_assoc, I1.
  - destruct (bool_decide_reflect (e = None)) as [->|He]; cbn [andb].
    + intros ->. by rewrite I3.
    + intros _. destruct (H4 He) as [E ->]. rewrite E in *. assert (E1 : pending c1 = "") by exact H1.
      rewrite E1 in I1. by destruct d'.
Qed.

(** ** Properties *)

(** The stream is the concatenation of the messages. Whatever sizes are read and
    however the library cuts the messages, the bytes that were read, followed by
    what is left, are the payloads in order: no byte is lost, repeated or moved by
    a message boundary or an empty message. A read fails only once everything that
    arrived has been read, and with room for a byte a successful read gives one. *)
Theorem stream_reads l k a c :
  conn_ok c = true →
  let '(d, good, c') := reads l c in
  d +:+ pending c' = pending c ∧ (good = false → d = pending c) ∧
  let '(d', e, _) := Read k a c' in
  (e ≠ None → pending c' = "" ∧ d' = "") ∧ ((0 < k)%nat → e = None → d' ≠ "").
Proof.
  intros Hok. pose proof (reads_spec l c Hok) as Hr. destruct (reads l c) as [[d good] c']. destruct Hr as (H1 & H2 & H3).
  split; [done|]. split; [done|]. pose proof (Read_spec k a c' H2) as Hs. destruct (Read k a c') as [[d' e] c2].
  split; apply Hs.
Qed.

(** C38. A relay direction over WebSockets, end to end: what one side writes, in
    chunks of any size, is copied whole and in order by the other side's copy loop,
    whatever buffer it uses; the loop ends after at most one read per byte and one
    more. *)
Theorem write_copy_roundtrip chunks k answers n c :
  (0 < k)%nat → written c = [] → (slen (String.concat "" chunks) < n)%nat →
  let sender := foldl (λ c p, Write p c) c chunks in
  ∃ c', copy_all n k answers (mkWs None ((λ p, mkMsg p true) <$> written sender) []) = Some (String.concat "" chunks, c').
Proof.
  intros Hk Hw Hn sender.
  assert (Es : written sender = chunks).
  { subst sender. clear Hn. assert (Hg : ∀ c, written (foldl (λ c p, Write p c) c chunks) = written c ++ chunks).
    { clear. induction chunks as [|p l IH]; intros c; cbn [foldl]; [by rewrite app_nil_r|].
      rewrite IH. cbn [written Write]. by rewrite <- app_assoc. }
    by rewrite Hg, Hw. }
  rewrite Es. set (c0 := mkWs None _ []).
  assert (Ep : pending c0 = String.concat "" chunks).
  { unfold pending. cbn [reader incoming c0]. rewrite <- list_fmap_compose.
    change (payload ∘ (λ p : string, mkMsg p true)) with (@id string). by rewrite list_fmap_id. }
  destruct (copy_all_spec k answers Hk n c0) as (c' & Hc & _).
  - unfold conn_ok. cbn. clear. induction chunks as [|p l IH]; [done|]. cbn. by rewrite IH.
  - by rewrite Ep.
  - exists c'. by rewrite Hc, Ep.
Qed.

(** ** Witnesses *)

Definition demo_ws : Conn := mkWs None [mkMsg "he" true; mkMsg "" true; mkMsg "llo" true; mkMsg "!?" false] [].

Lemma stream_reads_witness :
  conn_ok demo_ws = true ∧
  fst (reads [(1, mkAnswer 9 false); (8, mkAnswer 0 true); (2, mkAnswer 9 true); (9, mkAnswer 9 false); (9, mkAnswer 9 false); (9, mkAnswer 0 true)] demo_ws)
    = ("hello!?", false) ∧
  ("hello" +:+ pending (snd (reads [(9, mkAnswer 9 true); (9, mkAnswer 9 true)] demo_ws)) = pending demo_ws).
Proof.
  split; [reflexivity|]. split; [reflexivity|].
  pose proof (stream_reads [(9, mkAnswer 9 true); (9, mkAnswer 9 true)] 1 (mkAnswer 0 false) demo_ws eq_refl) as Hr.
  destruct (reads _ demo_ws) as [[d good] c'] eqn:E. destruct Hr as [Hr _]. rewrite <- Hr. vm_compute in E. by injection E as <- <- <-.
Defined.

Lemma write_copy_roundtrip_witness :
  ∃ c', copy_all 20 2 (λ _, mkAnswer 0 true)
    (mkWs None ((λ p, mkMsg p true) <$> written (foldl (λ c p, Write p c) (mkWs None [] []) ["GET "; ""; "/ HTTP"])) [])
  = Some ("GET / HTTP", c').
Proof. apply (write_copy_roundtrip ["GET "; ""; "/ HTTP"] 2 (λ _, mkAnswer 0 true) 20 (mkWs None [] [])); [lia|done|by apply Nat.ltb_lt]. Defined.
