(* ===== verification/Pinger.v ===== *)
(** * Pings and their sliding windows ([agent/internal/pinger])

    One ICMP echo per round, kept in a bounded window per target, summarised for
    the Host. What the network answers is an input; allocating a window panics
    when the runtime cannot represent its size. *)
From S2P Require Import Prelude GoStrings GoFloat GoJson Protocol.

Definition round (val : float) : float := fdiv (fround (fmul val (F_of_Z 100))) (F_of_Z 100).

Definition fsum (l : list float) : float := foldl fadd fzero l.

(** [float64(d.Microseconds()) / 1000.0] *)
Definition rtt_ms (us : Z) : float := fdiv (F_of_Z us) (F_of_Z 1000).

(** ** [single.go] *)

Record SinglePingStat := mkStat { st_Timestamp : Z; st_Success : bool; st_RTT : float; st_ErrorMsg : string }.

Record TargetWindow := mkWindow { w_history : list SinglePingStat; w_maxKeep : Z }.

(** The largest allocation the Go runtime accepts, in bytes; a [SinglePingStat]
    takes 56. *)
Class Alloc := max_alloc : Z.
Definition stat_size : Z := 56.

(** [make([]SinglePingStat, 0, n)] panics with [None]. *)
Definition make_stats `{Alloc} (n : Z) : option (list SinglePingStat) :=
  if (n <? 0)%Z || (max_alloc <? n * stat_size)%Z then None else Some [].

Definition NewTargetWindow `{Alloc} (maxKeep : Z) : option TargetWindow :=
  let maxKeep := if (maxKeep <=? 0)%Z then 20%Z else maxKeep in
  h ← make_stats maxKeep; Some (mkWindow h maxKeep).

Definition Add (w : TargetWindow) (stat : SinglePingStat) : TargetWindow :=
  mkWindow (push_bounded (w_maxKeep w) (w_history w) stat) (w_maxKeep w).

Record WindowSummary := mkSummary {
  ws_TotalSent : Z; ws_TotalRecv : Z; ws_LossPct : float; ws_MinRTT : float; ws_MaxRTT : float;
  ws_AvgRTT : float; ws_Jitter : float; ws_StdDev : float; ws_LatestRTT : float; ws_LatestError : string
}.

Definition zero_summary : WindowSummary :=
  mkSummary 0 0 fzero fzero fzero fzero fzero fzero fzero "".

Definition MaxFloat64 : float := S754_finite false 9007199254740991 971.

(** [calculateRFC3550Jitter] *)
Fixpoint jitter_loop (prev : float) (l : list float) (jitter : float) : float :=
  match l with
  | [] => jitter
  | r :: l =>
      let d := fabs (fsub r prev) in
      jitter_loop r l (fadd jitter (fdiv (fsub d jitter) (F_of_Z 16)))
  end.

Definition calculateRFC3550Jitter (rtts : list float) : float :=
  match rtts with
  | r :: (_ :: _) as l => round (jitter_loop r (tail rtts) fzero)
  | _ => fzero
  end.

(** The accumulator of the loop of [Summary]. *)
Record scan := mkScan { sc_recv : Z; sc_rtts : list float; sc_sum : float; sc_min : float; sc_max : float; sc_err : string }.

Definition scan_one (a : scan) (s : SinglePingStat) : scan :=
  if st_Success s then
    mkScan (sc_recv a + 1) (sc_rtts a ++ [st_RTT s]) (fadd (sc_sum a) (st_RTT s))
      (if flt (st_RTT s) (sc_min a) then st_RTT s else sc_min a)
      (if flt (sc_max a) (st_RTT s) then st_RTT s else sc_max a) (sc_err a)
  else
    mkScan (sc_recv a) (sc_rtts a) (sc_sum a) (sc_min a) (sc_max a)
      (if negb (st_ErrorMsg s =? "")%string then st_ErrorMsg s else sc_err a).

Definition scan_all (l : list SinglePingStat) : scan :=
  foldl scan_one (mkScan 0 [] fzero MaxFloat64 fzero "") l.

Definition loss_pct (total recv : Z) : float :=
  round (fmul (fdiv (F_of_Z (total - recv)) (F_of_Z total)) (F_of_Z 100)).

Definition Summary (w : TargetWindow) : WindowSummary :=
  let total := zlen (w_history w) in
  if (total =? 0)%Z then zero_summary
  else
    let a := scan_all (w_history w) in
    let recv := sc_recv a in
    if (0 <? recv)%Z then
      let avg := fdiv (sc_sum a) (F_of_Z recv) in
      let variance := foldl (λ v r, let d := fsub r avg in fadd v (fmul d d)) fzero (sc_rtts a) in
      mkSummary total recv (loss_pct total recv) (round (sc_min a)) (round (sc_max a)) (round avg)
        (calculateRFC3550Jitter (sc_rtts a)) (round (fsqrt (fdiv variance (F_of_Z recv))))
        (round (default fzero (last (sc_rtts a)))) (sc_err a)
    else
      mkSummary total recv (F_of_Z 100) fzero fzero fzero fzero fzero fzero
        (if (sc_err a =? "")%string then "All packets timed out" else sc_err a).

(** *** One echo *)

(** What the resolver and the ping library answer: the addresses, why no pinger
    could be made, why the run failed, the round-trip time handed to [OnRecv], and
    the statistics' received count and average, in microseconds. *)
Record ping_env := mkPingEnv {
  pe_lookup : result (list string);
  pe_new : option string;
  pe_run : option string;
  pe_recv : option Z;
  pe_stats : option (Z * Z)
}.

Definition fail_stat (msg : string) : SinglePingStat := mkStat 0 false fzero msg.

Definition pingOnce (e : ping_env) : SinglePingStat * option string :=
  match pe_lookup e with
  | Err m => (fail_stat m, Some m)
  | Ok [] => (fail_stat "host resolution failed", Some "host resolution failed")
  | Ok (_ :: _) =>
      match pe_new e with
      | Some m => (fail_stat m, Some m)
      | None =>
          match pe_run e with
          | Some m => (fail_stat m, Some m)
          | None =>
              match pe_recv e, pe_stats e with
              | Some us, _ => (mkStat 0 true (rtt_ms us) "", None)
              | None, Some (n, avg) =>
                  if (0 <? n)%Z then
                    (mkStat 0 true (if (0 <? avg)%Z then rtt_ms avg else fzero) "", None)
                  else (fail_stat "Packet timed out", None)
              | None, None => (fail_stat "Packet timed out", None)
              end
          end
      end
  end.

(** [env priv] is what the network does in each mode; the result has the new mode. *)
Definition ExecuteSinglePing (linux : bool) (now : Z) (priv : bool) (env : bool → ping_env) : SinglePingStat * bool :=
  let '(stat, err) := pingOnce (env priv) in
  let '(stat, err, priv) :=
    match err with
    | Some _ =>
        if linux && negb priv then
          let '(stat, err2) := pingOnce (env true) in
          if bool_decide (err2 = None) || st_Success stat then (stat, err2, true) else (stat, err, priv)
        else (stat, err, priv)
    | None => (stat, err, priv)
    end in
  (mkStat now (st_Success stat) (st_RTT stat) (match err with Some m => m | None => st_ErrorMsg stat end), priv).

(** ** [pinger.go] *)

Record Pinger := mkPinger {
  p_targets : list TargetConfig;
  p_isPrivileged : bool;
  p_windows : gmap string TargetWindow
}.

Definition NewPinger (windows : bool) : Pinger := mkPinger [] windows ∅.

(** [LoadOrStore] evaluates the new window first, and keeps the old one. *)
Definition GetOrCreateWindow `{Alloc} (targetID : string) (windowSize : Z) (p : Pinger) : option (Pinger * TargetWindow) :=
  let windowSize := if (windowSize <=? 0)%Z then 20%Z else windowSize in
  w ← NewTargetWindow windowSize;
  match p_windows p !! targetID with
  | Some old => Some (p, old)
  | None => Some (mkPinger (p_targets p) (p_isPrivileged p) (<[targetID := w]> (p_windows p)), w)
  end.

Definition UpdateTargets (targets : list TargetConfig) (p : Pinger) : Pinger :=
  mkPinger targets (p_isPrivileged p) (p_windows p).

Definition PingTargetOnce `{Alloc} (linux : bool) (now : Z) (env : bool → ping_env) (t : TargetConfig) (p : Pinger)
    : option (Pinger * SinglePingResult) :=
  let windowSize := if (tc_PacketCount t <=? 0)%Z then 20%Z else tc_PacketCount t in
  '(p, win) ← GetOrCreateWindow (tc_ID t) windowSize p;
  let '(stat, priv) := ExecuteSinglePing linux now (p_isPrivileged p) env in
  let win := Add win stat in
  let p := mkPinger (p_targets p) priv (<[tc_ID t := win]> (p_windows p)) in
  let summary := Summary win in
  let '(recvThisRound, rttThisRound, errMsg) :=
    if st_Success stat then (1%Z, st_RTT stat, "")
    else (0%Z, fzero, if (st_ErrorMsg stat =? "")%string then "Packet timed out" else st_ErrorMsg stat) in
  Some (p, mkPing (tc_ID t) (tc_Host t) (st_Timestamp stat) 1 recvThisRound (ws_LossPct summary)
             (ws_MinRTT summary) (ws_MaxRTT summary) rttThisRound (ws_Jitter summary) (ws_StdDev summary) errMsg).

(** ** Lemmas *)

Definition successes (l : list SinglePingStat) : list float := st_RTT <$> List.filter st_Success l.

Lemma scan_spec l : ∀ a,
  sc_recv (foldl scan_one a l) = (sc_recv a + zlen (successes l))%Z ∧
  sc_rtts (foldl scan_one a l) = sc_rtts a ++ successes l.
Proof.
  induction l as [|s l IH]; intros a; simpl; [unfold zlen, successes; simpl; rewrite app_nil_r; split; [lia|done]|].
  destruct (IH (scan_one a s)) as [-> ->]. unfold successes, scan_one, zlen. csimpl.
  destruct (st_Success s); csimpl; [|done]. split; [lia|]. by rewrite <- (assoc_L (++)).
Qed.

(** A round-trip time a reply can have: not negative, and finite. *)
Definition rtt_ok (f : float) : Prop :=
  fnan f = false ∧ f ≠ S754_zero true ∧ fcmp f fzero ≠ Lt ∧ fcmp f MaxFloat64 = Lt.

Lemma rtt_zero r : rtt_ok r → fcmp fzero r ≠ Lt → r = fzero.
Proof.
  intros (_ & Hz & Hp & _) Hn. assert (E : fcmp r fzero = Eq).
  { rewrite (cmp_opp r fzero) in Hn. by destruct (fcmp r fzero). }
  unfold fcmp, cmp_then, cmp_on in E. destruct r as [[]|[]| |[] m e]; try done.
Qed.

Record scan_inv (a b : scan) (l : list float) : Prop := {
  scan_min_of : sc_min b = sc_min a ∨ sc_min b ∈ l;
  scan_max_of : sc_max b = sc_max a ∨ sc_max b ∈ l;
  scan_min_le : fcmp (sc_min a) (sc_min b) ≠ Lt;
  scan_max_ge : fcmp (sc_max b) (sc_max a) ≠ Lt;
  scan_all_in : Forall (λ r, fcmp r (sc_min b) ≠ Lt ∧ fcmp (sc_max b) r ≠ Lt) l
}.

Lemma scan_min_max l : ∀ a,
  Forall rtt_ok (successes l) → fnan (sc_min a) = false → fnan (sc_max a) = false →
  scan_inv a (foldl scan_one a l) (successes l).
Proof.
  induction l as [|s l IH]; intros a Hl Hmin Hmax; cbn [foldl].
  { split; rewrite ?cmp_refl; try done; try (by left); constructor. }
  unfold successes in *. cbn [List.filter] in *. destruct (st_Success s) eqn:Es.
  - cbn [fmap list_fmap] in *. apply Forall_cons in Hl as [[Hn _] Hl].
    destruct (fmin_step (sc_min a) (st_RTT s)) as (M1 & M2 & M3); [done..|].
    destruct (fmax_step (sc_max a) (st_RTT s)) as (X1 & X2 & X3); [done..|].
    set (a1 := scan_one a s).
    assert (Emin : (if flt (st_RTT s) (sc_min a) then st_RTT s else sc_min a) = sc_min a1)
      by (unfold a1, scan_one; by rewrite Es).
    assert (Emax : (if flt (sc_max a) (st_RTT s) then st_RTT s else sc_max a) = sc_max a1)
      by (unfold a1, scan_one; by rewrite Es).
    rewrite Emin in *. rewrite Emax in *.
    destruct (IH a1 Hl) as [I1 I2 I3 I4 I5]; [by destruct M1 as [->| ->]|by destruct X1 as [->| ->]|].
    split.
    + destruct I1 as [->|?]; [|right; by right]. destruct M1 as [->| ->]; [by left|right; left].
    + destruct I2 as [->|?]; [|right; by right]. destruct X1 as [->| ->]; [by left|right; left].
    + by eapply fcmp_ge_trans.
    + by eapply fcmp_ge_trans.
    + constructor; [|done]. split; by eapply fcmp_ge_trans.
  - unfold scan_one at 2. rewrite Es.
    match goal with |- scan_inv _ (foldl _ ?x _) _ => destruct (IH x Hl) as [? ? ? ? ?]; [done..|by split] end.
Qed.

Lemma window_kept w stat : (0 <= w_maxKeep w)%Z → (zlen (w_history (Add w stat)) <= w_maxKeep w)%Z.
Proof. intros. simpl. rewrite push_bounded_len by done. lia. Qed.

(** Every loss percentage a window of up to 100 samples can have. *)
Definition loss_sane (total recv : Z) : bool :=
  let l := loss_pct total recv in
  fle fzero l && fle l (F_of_Z 100) && Bool.eqb (feq l fzero) (recv =? total)%Z &&
  Bool.eqb (feq l (F_of_Z 100)) (recv =? 0)%Z.

Lemma loss_sane_all :
  forallb (λ total, forallb (λ recv, loss_sane total recv) (seqZ 0 (total + 1))) (seqZ 1 100) = true.
Proof. vm_compute. reflexivity. Qed.

Lemma loss_sane_bounded total recv :
  (1 <= total <= 100)%Z → (0 <= recv <= total)%Z → loss_sane total recv = true.
Proof.
  intros Ht Hr. pose proof loss_sane_all as H. rewrite forallb_forall in H.
  specialize (H total). rewrite forallb_forall in H. apply H; apply list_elem_of_In, elem_of_seqZ; lia.
Qed.

Lemma successes_len l : (0 <= zlen (successes l) <= zlen l)%Z.
Proof.
  unfold successes, zlen. rewrite length_fmap. split; [lia|].
  induction l as [|s l IH]; simpl; [lia|]. destruct (st_Success s); simpl; lia.
Qed.

(** ** Properties *)

(** C29. The summary of a window: it counts the samples and the replies; the loss
    of a window of at most 100 samples (the most the Host configures) lies
    between 0 and 100, is 0 exactly when every sample was answered and 100
    exactly when none was; and with at least one reply the minimum and the
    maximum are rounded replies that bound every reply. *)
Theorem Summary_sound w :
  (1 <= zlen (w_history w) <= 100)%Z → Forall rtt_ok (successes (w_history w)) →
  let s := Summary w in
  let recv := zlen (successes (w_history w)) in
  ws_TotalSent s = zlen (w_history w) ∧ ws_TotalRecv s = recv ∧
  fle fzero (ws_LossPct s) = true ∧ fle (ws_LossPct s) (F_of_Z 100) = true ∧
  (feq (ws_LossPct s) fzero = true ↔ recv = zlen (w_history w)) ∧
  (feq (ws_LossPct s) (F_of_Z 100) = true ↔ recv = 0%Z) ∧
  (recv ≠ 0%Z → ∃ lo hi, lo ∈ successes (w_history w) ∧ hi ∈ successes (w_history w) ∧
     ws_MinRTT s = round lo ∧ ws_MaxRTT s = round hi ∧
     Forall (λ r, fcmp r lo ≠ Lt ∧ fcmp hi r ≠ Lt) (successes (w_history w))).
Proof.
  intros Hn Hok. unfold Summary. cbv zeta. set (l := w_history w) in *.
  destruct (Z.eqb_spec (zlen l) 0) as [|_]; [lia|].
  destruct (scan_spec l (mkScan 0 [] fzero MaxFloat64 fzero "")) as [Er _].
  fold (scan_all l) in Er. cbn [sc_recv] in Er. rewrite Z.add_0_l in Er. rewrite Er.
  pose proof (successes_len l) as Hlen.
  pose proof (loss_sane_bounded (zlen l) (zlen (successes l)) Hn Hlen) as Hs.
  unfold loss_sane in Hs. apply andb_true_iff in Hs as [Hs E4]. apply andb_true_iff in Hs as [Hs E3].
  apply andb_true_iff in Hs as [E1 E2]. apply eqb_prop in E3, E4.
  destruct (Z.ltb_spec 0 (zlen (successes l))) as [Hpos|Hz]; cbn [ws_TotalSent ws_TotalRecv ws_LossPct ws_MinRTT ws_MaxRTT].
  - rewrite E3, E4, !Z.eqb_eq. split_and!; try done. intros _.
    destruct (scan_min_max l (mkScan 0 [] fzero MaxFloat64 fzero "") Hok eq_refl eq_refl) as [I1 I2 I3 I4 I5].
    fold (scan_all l) in *. simpl in I1, I2, I3, I4.
    destruct (successes l) as [|r rs] eqn:El; [done|].
    pose proof Hok as [Hr _]%Forall_cons. pose proof I5 as [[Hrmin Hrmax] _]%Forall_cons.
    exists (sc_min (scan_all l)), (sc_max (scan_all l)). split_and!; try done.
    + destruct I1 as [I1|?]; [|done]. destruct Hr as (_ & _ & _ & Hlt). rewrite I1, Hlt in Hrmin. done.
    + destruct I2 as [I2|?]; [|done]. rewrite I2 in Hrmax |- *. rewrite (rtt_zero r Hr Hrmax). left.
  - assert (zlen (successes l) = 0%Z) as -> by lia. split_and!; try done; split; try done; lia.
Qed.

(** One round against one target: it reports exactly one packet, received or
    not, names the target, explains a loss, and leaves the target's window with
    at most its fixed number of samples, the newest being this one. *)
Theorem PingTargetOnce_round `{Alloc} linux now env t p p' r :
  (∀ id w, p_windows p !! id = Some w → (0 < w_maxKeep w)%Z) →
  PingTargetOnce linux now env t p = Some (p', r) →
  pr_TargetID r = tc_ID t ∧ pr_TargetHost r = tc_Host t ∧ pr_Timestamp r = now ∧
  pr_PacketsSent r = 1%Z ∧ (pr_PacketsRecv r = 0 ∨ pr_PacketsRecv r = 1)%Z ∧
  (pr_PacketsRecv r = 0%Z ↔ pr_ErrorMsg r ≠ "") ∧
  ∃ w stat, p_windows p' !! tc_ID t = Some w ∧ (zlen (w_history w) <= w_maxKeep w)%Z ∧
    last (w_history w) = Some stat ∧ (st_Success stat = true ↔ pr_PacketsRecv r = 1%Z) ∧
    (∀ old, p_windows p !! tc_ID t = Some old → w_maxKeep w = w_maxKeep old).
Proof.
  intros Hw. unfold PingTargetOnce. destruct (GetOrCreateWindow _ _ p) as [[p1 w]|] eqn:Eg; [|done]. simpl.
  destruct (ExecuteSinglePing linux now (p_isPrivileged p1) env) as [stat priv] eqn:Ee.
  assert (Hkeep : (0 < w_maxKeep w)%Z ∧ ∀ old, p_windows p !! tc_ID t = Some old → w = old).
  { unfold GetOrCreateWindow in Eg. destruct (NewTargetWindow _) as [nw|] eqn:En; [|done]. simpl in Eg.
    destruct (p_windows p !! tc_ID t) as [old|] eqn:Eo; simplify_eq; (split; [|congruence]); [by eapply Hw|].
    unfold NewTargetWindow in En. destruct (make_stats _); [|done]. simplify_eq/=. repeat case_match; go_bool; lia. }
  destruct Hkeep as [Hpos Hold].
  assert (Hts : st_Timestamp stat = now).
  { unfold ExecuteSinglePing in Ee. repeat case_match; by simplify_eq. }
  assert (Hwin : ∃ w' stat', <[tc_ID t := Add w stat]> (p_windows p1) !! tc_ID t = Some w' ∧
    (zlen (w_history w') <= w_maxKeep w')%Z ∧ last (w_history w') = Some stat' ∧ stat' = stat ∧
    (∀ old, p_windows p !! tc_ID t = Some old → w_maxKeep w' = w_maxKeep old)).
  { exists (Add w stat), stat. rewrite lookup_insert_eq. split_and!; [done|apply (window_kept w stat); lia| |done|].
    - by apply push_bounded_last.
    - intros old Ho. by rewrite (Hold old Ho). }
  destruct Hwin as (w' & stat' & E1 & E2 & E3 & -> & E5).
  destruct (st_Success stat) eqn:Es; intros [= <- <-]; cbn;
    (split; [done|]; split; [done|]; split; [done|]; split; [done|]).
  - split; [by right|]. split; [done|]. exists w', stat. by rewrite Es.
  - split; [by left|]. split; [by destruct (String.eqb_spec (st_ErrorMsg stat) "")|].
    exists w', stat. by rewrite Es.
Qed.

(** A window keeps the size it was created with: a later change of the target's
    packet count does not reach it. *)
Lemma window_size_fixed `{Alloc} id n w p p' w' :
  p_windows p !! id = Some w → GetOrCreateWindow id n p = Some (p', w') → w' = w ∧ p' = p.
Proof.
  intros E. unfold GetOrCreateWindow. destruct (NewTargetWindow _); [|done]. simpl. rewrite E. by intros [= <- <-].
Qed.

(** ** Witnesses *)

Definition demo_stat (ok : bool) (us : Z) : SinglePingStat := mkStat 5 ok (rtt_ms us) (if ok then "" else "timeout").

Definition demo_window : TargetWindow := mkWindow [demo_stat true 12500; demo_stat false 0; demo_stat true 9300] 20.

Lemma Summary_sound_witness :
  let w := demo_window in
  let s := Summary w in
  let recv := zlen (successes (w_history w)) in
  ws_TotalSent s = zlen (w_history w) ∧ ws_TotalRecv s = recv ∧
  fle fzero (ws_LossPct s) = true ∧ fle (ws_LossPct s) (F_of_Z 100) = true ∧
  (feq (ws_LossPct s) fzero = true ↔ recv = zlen (w_history w)) ∧
  (feq (ws_LossPct s) (F_of_Z 100) = true ↔ recv = 0%Z) ∧
  (recv ≠ 0%Z → ∃ lo hi, lo ∈ successes (w_history w) ∧ hi ∈ successes (w_history w) ∧
     ws_MinRTT s = round lo ∧ ws_MaxRTT s = round hi ∧
     Forall (λ r, fcmp r lo ≠ Lt ∧ fcmp hi r ≠ Lt) (successes (w_history w))).
Proof.
  apply (Summary_sound demo_window); [vm_compute; split; discriminate|].
  repeat constructor; try discriminate; vm_compute; discriminate.
Defined.

Definition alloc_amd64 : Alloc := (2 ^ 48)%Z.

Definition demo_env (priv : bool) : ping_env :=
  if priv then mkPingEnv (Ok ["192.0.2.1"]) None None (Some 8125%Z) None
  else mkPingEnv (Ok ["192.0.2.1"]) None (Some "operation not permitted") None None.

Definition demo_target : TargetConfig := mkTargetConfig "t1" "One" "one.example" 20 30 false.

Lemma PingTargetOnce_round_witness :
  let _ := alloc_amd64 in
  ∃ p' r, PingTargetOnce true 9 demo_env demo_target (NewPinger false) = Some (p', r) ∧
  p_isPrivileged p' = true ∧
  pr_TargetID r = "t1" ∧ pr_TargetHost r = "one.example" ∧ pr_Timestamp r = 9%Z ∧
  pr_PacketsSent r = 1%Z ∧ (pr_PacketsRecv r = 0 ∨ pr_PacketsRecv r = 1)%Z ∧
  (pr_PacketsRecv r = 0%Z ↔ pr_ErrorMsg r ≠ "") ∧
  ∃ w stat, p_windows p' !! "t1" = Some w ∧ (zlen (w_history w) <= w_maxKeep w)%Z ∧
    last (w_history w) = Some stat ∧ (st_Success stat = true ↔ pr_PacketsRecv r = 1%Z) ∧
    (∀ old, p_windows (NewPinger false) !! "t1" = Some old → w_maxKeep w = w_maxKeep old).
Proof.
  intros ?. do 2 eexists. split; [vm_compute; reflexivity|]. split; [reflexivity|].
  apply (PingTargetOnce_round true 9 demo_env demo_target (NewPinger false)).
  - intros id w E. simpl in E. by rewrite lookup_empty in E.
  - vm_compute. reflexivity.
Defined.
