(* ===== verification/Detector.v ===== *)
(** * Latency-shift detection ([agent/internal/traceroute/detector.go])

    Decides from a target's round-trip times when its route has changed: a
    sustained run of samples far from the baseline that itself is stable. *)
From S2P Require Import Prelude GoFloat.

Record LatencyShiftDetector := mkDetector {
  d_history : list float;
  d_maxHistory : Z;
  d_baseline : float;
  d_shiftSamples : list float;
  d_requiredStreak : Z
}.

Definition NewLatencyShiftDetector (requiredStreak : Z) : LatencyShiftDetector :=
  mkDetector [] 30 fzero [] (if (requiredStreak <=? 0)%Z then 30%Z else requiredStreak).

(** [sort.Float64s], for lists without NaN. *)
Definition calcMedian (vals : list float) : float :=
  match vals with
  | [] => fzero
  | _ =>
      let copied := insertion_sort flt vals in
      let mid := (length copied / 2)%nat in
      if (length copied mod 2 =? 1)%nat then nth mid copied fzero
      else fdiv (fadd (nth (mid - 1) copied fzero) (nth mid copied fzero)) (F_of_Z 2)
  end.

Definition calcMAD (vals : list float) (center : float) : float :=
  match vals with
  | [] => fzero
  | _ => calcMedian ((λ v, fabs (fsub v center)) <$> vals)
  end.

(** [math.Max], for arguments that are not NaN. *)
Definition fmax (a b : float) : float := if flt a b then b else a.

Definition addHistory (val : float) (d : LatencyShiftDetector) : LatencyShiftDetector :=
  mkDetector (push_bounded (d_maxHistory d) (d_history d) val) (d_maxHistory d) (d_baseline d)
    (d_shiftSamples d) (d_requiredStreak d).

(** [isCandidateShift], against a history. *)
Definition candidate (history : list float) (rtt : float) : bool :=
  let baseMedian := calcMedian history in
  let baseJitter := calcMAD history baseMedian in
  let diff := fabs (fsub rtt baseMedian) in
  let minDiffRequired := fmax (F_of_Z 40) (fmul baseJitter (F_of_Z 3)) in
  fle minDiffRequired diff ||
  (fle (F_of_Z 25) diff && flt fzero baseMedian && fle (F_dec 45 2) (fdiv diff baseMedian) &&
   fle (fmul baseJitter (F_dec 25 1)) diff).

(** The new plateau is far enough from the baseline, and stable. *)
Definition far_plateau (baseMedian newMedian : float) : bool :=
  let shiftDist := fabs (fsub newMedian baseMedian) in
  negb (flt shiftDist (F_of_Z 30) && (feq baseMedian fzero || flt (fdiv shiftDist baseMedian) (F_dec 40 2))).

Definition stable_plateau (samples : list float) : bool :=
  let newMedian := calcMedian samples in
  let newMAD := calcMAD samples newMedian in
  fle newMAD (F_of_Z 25) || (flt fzero newMedian && fle (fdiv newMAD newMedian) (F_dec 25 2)).

Definition Feed (rtt : float) (d : LatencyShiftDetector) : LatencyShiftDetector * bool :=
  if fle rtt fzero then (d, false)
  else if (zlen (d_history d) <? 8)%Z then
    let history := d_history d ++ [rtt] in
    (mkDetector history (d_maxHistory d) (calcMedian history) (d_shiftSamples d) (d_requiredStreak d), false)
  else
    let baseMedian := calcMedian (d_history d) in
    let d := mkDetector (d_history d) (d_maxHistory d) baseMedian (d_shiftSamples d) (d_requiredStreak d) in
    if negb (candidate (d_history d) rtt) then
      (addHistory rtt (mkDetector (d_history d) (d_maxHistory d) (d_baseline d) [] (d_requiredStreak d)), false)
    else
      let samples := d_shiftSamples d ++ [rtt] in
      if (zlen samples <? d_requiredStreak d)%Z then
        (mkDetector (d_history d) (d_maxHistory d) (d_baseline d) samples (d_requiredStreak d), false)
      else
        let newMedian := calcMedian samples in
        if negb (far_plateau baseMedian newMedian) then
          (mkDetector (d_history d) (d_maxHistory d) (d_baseline d) [] (d_requiredStreak d), false)
        else if negb (stable_plateau samples) then
          (mkDetector (d_history d) (d_maxHistory d) (d_baseline d) (tail samples) (d_requiredStreak d), false)
        else (mkDetector samples (d_maxHistory d) newMedian [] (d_requiredStreak d), true).

(** ** Runs *)

Definition feed_all (rtts : list float) (d : LatencyShiftDetector) : LatencyShiftDetector :=
  foldl (λ d r, fst (Feed r d)) d rtts.

(** The samples a detector looks at. *)
Definition counted (rtts : list float) : list float := List.filter (λ r, negb (fle r fzero)) rtts.

(** ** Invariant, relative to the samples fed so far *)

Record inv (n : Z) (fed : list float) (d : LatencyShiftDetector) : Prop := {
  inv_streak : d_requiredStreak d = n;
  inv_max : d_maxHistory d = 30%Z;
  inv_hist : (zlen (d_history d) <= Z.max 30 n)%Z;
  inv_short : (zlen (d_shiftSamples d) < n)%Z;
  inv_suffix : d_shiftSamples d `suffix_of` counted fed;
  inv_cand : Forall (λ r, candidate (d_history d) r = true) (d_shiftSamples d);
  inv_warm : (zlen (d_history d) < 8)%Z → d_shiftSamples d = []
}.

Lemma new_inv n : (0 < n)%Z → inv n [] (NewLatencyShiftDetector n).
Proof.
  intros Hn. unfold NewLatencyShiftDetector. rewrite (proj2 (Z.leb_gt n 0)) by lia.
  split; simpl; try done; unfold zlen; simpl; try lia.
Qed.

Lemma counted_snoc fed r : counted (fed ++ [r]) = counted fed ++ (if fle r fzero then [] else [r]).
Proof. unfold counted. rewrite List.filter_app. simpl. by destruct (fle r fzero). Qed.

Lemma suffix_snoc {A} (l1 l2 : list A) x : l1 `suffix_of` l2 → l1 ++ [x] `suffix_of` l2 ++ [x].
Proof. intros [k ->]. exists k. by rewrite (assoc_L (++)). Qed.

Lemma suffix_tail {A} (l1 l2 : list A) : l1 `suffix_of` l2 → tail l1 `suffix_of` l2.
Proof. intros [k ->]. destruct l1 as [|x l1]; [by exists k|]. exists (k ++ [x]). by rewrite <- (assoc_L (++)). Qed.

Lemma zlen_snoc {A} (l : list A) x : zlen (l ++ [x]) = (zlen l + 1)%Z.
Proof. by rewrite zlen_app. Qed.

Lemma Feed_inv n fed d r :
  (8 <= n)%Z → inv n fed d → inv n (fed ++ [r]) (fst (Feed r d)).
Proof.
  intros Hn [Is Im Ih Isht Isuf Ic Iw]. unfold Feed.
  destruct (fle r fzero) eqn:E0.
  { split; try done. by rewrite counted_snoc, E0, app_nil_r. }
  assert (Hsuf : ∀ l, l `suffix_of` counted fed → l ++ [r] `suffix_of` counted (fed ++ [r])).
  { intros l Hl. rewrite counted_snoc, E0. by apply suffix_snoc. }
  assert (Hnil : [] `suffix_of` counted (fed ++ [r])) by apply suffix_nil.
  destruct (Z.ltb_spec (zlen (d_history d)) 8) as [Hw|Hw].
  { rewrite (Iw Hw). split; simpl; try done; rewrite ?zlen_snoc; try lia; try (unfold zlen; simpl; lia). }
  cbn [d_history d_baseline d_shiftSamples d_requiredStreak d_maxHistory].
  destruct (candidate (d_history d) r) eqn:Ec; cbn [negb].
  2: { split; simpl; try done; try (unfold zlen; simpl; lia).
       rewrite push_bounded_len by lia. lia. }
  assert (Hc' : Forall (λ r, candidate (d_history d) r = true) (d_shiftSamples d ++ [r])).
  { apply Forall_app. split; [done|by constructor]. }
  rewrite Is. destruct (Z.ltb_spec (zlen (d_shiftSamples d ++ [r])) n) as [Hl|Hl].
  { split; simpl; try done; [by apply Hsuf|lia]. }
  rewrite zlen_snoc in Hl.
  destruct (far_plateau _ _); cbn [negb].
  2: { split; simpl; try done; unfold zlen; simpl; lia. }
  destruct (stable_plateau _); cbn [negb].
  - split; simpl; try done; rewrite ?zlen_snoc; try lia; unfold zlen; simpl; lia.
  - assert (Ht : zlen (tail (d_shiftSamples d ++ [r])) = zlen (d_shiftSamples d)).
    { destruct (d_shiftSamples d) as [|x l]; [done|]. unfold zlen. simpl. rewrite length_app. simpl. lia. }
    split; simpl; try done; try lia; [by apply suffix_tail, Hsuf|].
    apply (Forall_suffix _ _ _ (suffix_tail _ _ (reflexivity _)) Hc').
Qed.

Lemma feed_all_inv n rtts d fed :
  (8 <= n)%Z → inv n fed d → inv n (fed ++ rtts) (feed_all rtts d).
Proof.
  revert d fed. induction rtts as [|r rtts IH]; intros d fed Hn Hi; simpl; [by rewrite app_nil_r|].
  replace (fed ++ r :: rtts) with ((fed ++ [r]) ++ rtts) by by rewrite <- (assoc_L (++)).
  apply IH; [done|]. by apply Feed_inv.
Qed.

(** ** Property *)

(** C22. A shift is reported only after a sustained, stable move: when a detector
    that wants [n] samples reports one, the last [n] positive samples fed to it
    all were candidates against one and the same baseline history of at least
    eight samples (a single sample near the baseline would have started the
    count afresh), their median is far from the baseline's and they are stable;
    they become the new baseline. Memory stays bounded by [max 30 n] samples. *)
Theorem Feed_shift_sustained n rtts r :
  (8 <= n)%Z →
  let d := feed_all rtts (NewLatencyShiftDetector n) in
  let '(d', shift) := Feed r d in
  (zlen (d_history d') <= Z.max 30 n)%Z ∧ (zlen (d_shiftSamples d') < n)%Z ∧
  (shift = true →
   zlen (d_history d') = n ∧ d_history d' `suffix_of` counted (rtts ++ [r]) ∧
   (8 <= zlen (d_history d))%Z ∧
   Forall (λ x, candidate (d_history d) x = true) (d_history d') ∧
   far_plateau (calcMedian (d_history d)) (calcMedian (d_history d')) = true ∧
   stable_plateau (d_history d') = true).
Proof.
  intros Hn d. pose proof (feed_all_inv n rtts _ [] Hn (new_inv n ltac:(lia))) as Hi. simpl in Hi. fold d in Hi.
  pose proof (Feed_inv n rtts d r Hn Hi) as Hi'.
  destruct (Feed r d) as [d' shift] eqn:E. simpl in Hi'.
  split; [apply Hi'|]. split; [apply Hi'|]. intros ->.
  destruct Hi as [Is Im Ih Isht Isuf Ic Iw]. unfold Feed in E.
  destruct (fle r fzero) eqn:E0; [done|].
  destruct (Z.ltb_spec (zlen (d_history d)) 8) as [|Hw]; [done|].
  cbn [d_history d_baseline d_shiftSamples d_requiredStreak d_maxHistory] in E.
  destruct (candidate (d_history d) r) eqn:Ec; cbn [negb] in E; [|done].
  rewrite Is in E. destruct (Z.ltb_spec (zlen (d_shiftSamples d ++ [r])) n) as [|Hl]; [done|].
  destruct (far_plateau _ _) eqn:Ef; cbn [negb] in E; [|done].
  destruct (stable_plateau _) eqn:Es; cbn [negb] in E; [|done].
  injection E as <-. cbn [d_history]. rewrite zlen_snoc in *. split_and!; try done; [lia| |].
  - rewrite counted_snoc, E0. by apply suffix_snoc.
  - apply Forall_app. split; [done|by constructor].
Qed.

(** ** A run that reports a shift *)

Definition demo_rtts : list float := repeat (F_of_Z 50) 8 ++ repeat (F_of_Z 180) 7.

Lemma Feed_shift_sustained_witness :
  let d := feed_all demo_rtts (NewLatencyShiftDetector 8) in
  let '(d', shift) := Feed (F_of_Z 180) d in
  (zlen (d_history d') <= Z.max 30 8)%Z ∧ (zlen (d_shiftSamples d') < 8)%Z ∧
  (shift = true →
   zlen (d_history d') = 8%Z ∧ d_history d' `suffix_of` counted (demo_rtts ++ [F_of_Z 180]) ∧
   (8 <= zlen (d_history d))%Z ∧
   Forall (λ x, candidate (d_history d) x = true) (d_history d') ∧
   far_plateau (calcMedian (d_history d)) (calcMedian (d_history d')) = true ∧
   stable_plateau (d_history d') = true).
Proof. apply (Feed_shift_sustained 8 demo_rtts (F_of_Z 180)). lia. Defined.

Example demo_shift : snd (Feed (F_of_Z 180) (feed_all demo_rtts (NewLatencyShiftDetector 8))) = true.
Proof. by vm_compute. Qed.
