(* ===== verification/Tracer.v ===== *)
(** * The ICMP traceroute ([agent/internal/traceroute/tracer.go])

    Up to thirty hops of three probes each, strictly in sequence. What the
    resolver, the socket and the clock answer is an input, a record [trace_env];
    the probes sent are kept in a log. *)
From S2P Require Import Prelude GoStrings GoNet GoFloat GoJson Protocol.

Definition MaxHops : Z := 30.
Definition ProbesPerHop : Z := 3.

Definition roundFloat (val : float) : float := fdiv (fround (fmul val (F_of_Z 100))) (F_of_Z 100).

(** ** Replies *)

Inductive icmp_message :=
  | TimeExceeded
  | EchoReply (id : option Z)
  | DestinationUnreachable
  | OtherMessage.

(** One iteration of the reading loop: whether the clock had passed the deadline,
    and what the read gave, a packet coming with the microseconds since the probe
    was sent, its sender and what it parses to. *)
Inductive read_result :=
  | ReadError
  | ReadPacket (us : Z) (peer : option string) (msg : option icmp_message).

Record read := mkRead { rd_late : bool; rd_result : read_result }.

Definition extractIP (peer : option string) : string :=
  match peer with
  | None => ""
  | Some addr => match SplitHostPort addr with Ok (host, _) => host | Err _ => addr end
  end.

(** The loop ends at the latest when the reads do: the socket's own deadline. *)
Fixpoint waitReply (expectedID : Z) (destIP : string) (reads : list read) : option (string * float * bool) :=
  match reads with
  | [] => None
  | r :: reads =>
      if rd_late r then None
      else
        match rd_result r with
        | ReadError => None
        | ReadPacket us peer msg =>
            let rtt := roundFloat (fdiv (F_of_Z us) (F_of_Z 1000)) in
            let peerIP := extractIP peer in
            match msg with
            | None => waitReply expectedID destIP reads
            | Some TimeExceeded => Some (peerIP, rtt, false)
            | Some (EchoReply echo) =>
                if match echo with Some id => (expectedID =? 0)%Z || (id =? expectedID)%Z | None => false end
                then Some (peerIP, rtt, true)
                else if (peerIP =? destIP)%string then Some (peerIP, rtt, true)
                else waitReply expectedID destIP reads
            | Some DestinationUnreachable => Some (peerIP, rtt, (peerIP =? destIP)%string)
            | Some OtherMessage => waitReply expectedID destIP reads
            end
        end
  end.

(** [listenICMP]: [Some isUDP], or no socket. *)
Definition listenICMP (windows raw udp : bool) : option bool :=
  if raw then Some false
  else if negb windows && udp then Some true
  else None.

(** ** The environment of one trace *)

(** One probe: the random number drawn, whether the packet went out, what is read. *)
Record probe := mkProbe { pb_rand : Z; pb_sent : bool; pb_reads : list read }.

Record trace_env := mkTraceEnv {
  te_start : Z;
  te_elapsed : Z;
  te_lookup : result (list string);
  te_listen : option bool;
  te_pid : Z;
  te_hop_cancelled : Z → bool;
  te_cancelled : Z → Z → bool;
  te_probe : Z → Z → probe;
  te_names : string → result (list string)
}.

Definition lookupHostname (names : string → result (list string)) (ipStr : string) : string :=
  match names ipStr with
  | Ok (name :: _) => TrimSuffix name "."
  | _ => ""
  end.

(** The "unique" sequence number of a probe. *)
Definition probe_seq (ttl attempt rand : Z) : Z :=
  Z.lor (Z.lor (Z.shiftl ttl 8) (Z.land attempt 255)) (Z.shiftl rand 4).

(** ** The loops of [TraceTarget] *)

(** What one hop has gathered; [ha_log] is the (TTL, sequence number) of each
    probe sent. *)
Record hop_acc := mkHopAcc {
  ha_ip : string; ha_rtts : list float; ha_recv : Z; ha_reached : bool; ha_log : list (Z * Z)
}.

Section Trace.
Context (e : trace_env) (destIP : string).

Definition pid : Z := Z.land (te_pid e) 65535.

Definition probe_once (ttl attempt : Z) (a : hop_acc) : hop_acc :=
  let p := te_probe e ttl attempt in
  let seq := probe_seq ttl attempt (pb_rand p) in
  if negb (pb_sent p) then a
  else
    let a := mkHopAcc (ha_ip a) (ha_rtts a) (ha_recv a) (ha_reached a) (ha_log a ++ [(ttl, seq)]) in
    match waitReply pid destIP (pb_reads p) with
    | Some (replyIP, rtt, isDestination) =>
        if negb (replyIP =? "")%string then
          mkHopAcc replyIP (ha_rtts a ++ [rtt]) (ha_recv a + 1)
            (if isDestination || (replyIP =? destIP)%string then true else ha_reached a) (ha_log a)
        else a
    | None => a
    end.

Fixpoint probe_loop (n : nat) (ttl attempt : Z) (a : hop_acc) : hop_acc :=
  match n with
  | O => a
  | S n =>
      if te_cancelled e ttl attempt then a
      else probe_loop n ttl (attempt + 1) (probe_once ttl attempt a)
  end.

Definition close_hop (ttl : Z) (a : hop_acc) : TracerouteHop :=
  let ip := ha_ip a in
  mkHop ttl ip (if negb (ip =? "")%string then lookupHostname (te_names e) ip else "") (ha_rtts a)
    (if (0 <? zlen (ha_rtts a))%Z then
       roundFloat (fdiv (foldl fadd fzero (ha_rtts a)) (F_of_Z (zlen (ha_rtts a))))
     else fzero)
    (roundFloat (fmul (fdiv (F_of_Z (ProbesPerHop - ha_recv a)) (F_of_Z ProbesPerHop)) (F_of_Z 100))).

(** [reached] belongs to the whole trace, but a set one ends it. *)
Fixpoint hop_loop (n : nat) (ttl : Z) (hops : list TracerouteHop) (log : list (Z * Z))
    : list TracerouteHop * bool * list (Z * Z) :=
  match n with
  | O => (hops, false, log)
  | S n =>
      if te_hop_cancelled e ttl then (hops, false, log)
      else
        let a := probe_loop (Z.to_nat ProbesPerHop) ttl 0 (mkHopAcc "" [] 0 false log) in
        let hops := hops ++ [close_hop ttl a] in
        if ha_reached a then (hops, true, ha_log a) else hop_loop n (ttl + 1) hops (ha_log a)
  end.
End Trace.

Definition TraceTarget (e : trace_env) (target : TargetConfig) : TracerouteReportPayload * list (Z * Z) :=
  let report ip reached hops :=
    mkTraceReport "" (tc_ID target) (tc_Host target) ip (te_start e) (te_elapsed e) reached hops in
  match te_lookup e with
  | Err _ | Ok [] => (report "" false [], [])
  | Ok (destIP :: _) =>
      match te_listen e with
      | None => (report destIP false [], [])
      | Some _ =>
          let '(hops, reached, log) := hop_loop e destIP (Z.to_nat MaxHops) 1 [] [] in
          (report destIP reached hops, log)
      end
  end.

(** ** What a trace should report, probe by probe *)

Section Spec.
Context (e : trace_env) (destIP : string).

(** The reply a probe counts, if any. *)
Definition reply (ttl attempt : Z) : option (string * float * bool) :=
  let p := te_probe e ttl attempt in
  if pb_sent p then
    match waitReply (pid e) destIP (pb_reads p) with
    | Some (ip, rtt, d) => if (ip =? "")%string then None else Some (ip, rtt, d || (ip =? destIP)%string)
    | None => None
    end
  else None.

Definition replies (ttl : Z) : list (string * float * bool) := omap (reply ttl) [0; 1; 2]%Z.

Definition arrived (ttl : Z) : bool := existsb snd (replies ttl).

Definition hop_at (ttl : Z) : TracerouteHop :=
  let rtts := (λ r, r.1.2) <$> replies ttl in
  let ip := default "" (last ((λ r, r.1.1) <$> replies ttl)) in
  mkHop ttl ip (if (ip =? "")%string then "" else lookupHostname (te_names e) ip) rtts
    (match rtts with [] => fzero | _ => roundFloat (fdiv (foldl fadd fzero rtts) (F_of_Z (zlen rtts))) end)
    (roundFloat (fmul (fdiv (F_of_Z (3 - zlen rtts)) (F_of_Z 3)) (F_of_Z 100))).

(** ** Lemmas *)

Definition acc_of (log : list (Z * Z)) (rs : list (string * float * bool)) : hop_acc :=
  mkHopAcc (default "" (last ((λ r, r.1.1) <$> rs))) ((λ r, r.1.2) <$> rs) (zlen rs) (existsb snd rs) log.

Lemma probe_once_spec ttl attempt log rs :
  ∃ log', probe_once e destIP ttl attempt (acc_of log rs) =
          acc_of log' (rs ++ from_option (λ r, [r]) [] (reply ttl attempt)) ∧
          (length log' <= S (length log))%nat.
Proof.
  unfold probe_once, reply. destruct (pb_sent _); cbn [negb from_option].
  2: { exists log. rewrite app_nil_r. split; [done|lia]. }
  eexists. destruct (waitReply _ _ _) as [[[ip rtt] d]|]; cbn [from_option].
  2: { rewrite app_nil_r. split; [done|]. rewrite length_app. simpl. lia. }
  destruct (ip =? "")%string; cbn [negb from_option].
  { rewrite app_nil_r. split; [done|]. rewrite length_app. simpl. lia. }
  split; [|cbn; rewrite length_app; simpl; lia].
  unfold acc_of. rewrite !fmap_app, zlen_app, existsb_app. csimpl. rewrite last_snoc, orb_false_r. cbn.
  f_equal. by destruct (d || _), (existsb snd rs).
Qed.

Lemma probe_loop_spec n : ∀ ttl attempt log rs,
  (∀ a, te_cancelled e ttl a = false) →
  ∃ log', probe_loop e destIP n ttl attempt (acc_of log rs) =
          acc_of log' (rs ++ omap (reply ttl) (seqZ attempt (Z.of_nat n))) ∧
          (length log' <= n + length log)%nat.
Proof.
  induction n as [|n IH]; intros ttl attempt log rs Hc; simpl.
  { exists log. rewrite app_nil_r. split; [done|lia]. }
  rewrite Hc. destruct (probe_once_spec ttl attempt log rs) as (l1 & -> & Hl1).
  destruct (IH ttl (attempt + 1)%Z l1 (rs ++ from_option (λ r, [r]) [] (reply ttl attempt)) Hc) as (l2 & -> & Hl2).
  exists l2. rewrite <- (assoc_L (++)). rewrite (seqZ_cons attempt) by lia.
  replace (Z.pred (Z.of_nat (S n))) with (Z.of_nat n) by lia. replace (Z.succ attempt) with (attempt + 1)%Z by lia.
  cbn [omap list_omap]. split; [|lia]. by destruct (reply ttl attempt).
Qed.

Lemma close_hop_spec ttl log : close_hop e ttl (acc_of log (replies ttl)) = hop_at ttl.
Proof.
  unfold close_hop, hop_at. cbn [ha_ip ha_rtts ha_recv acc_of]. f_equal.
  - by destruct (_ =? "")%string.
  - destruct (replies ttl) as [|r rs]; [done|]. rewrite (proj2 (Z.ltb_lt _ _)); [done|]. unfold zlen. simpl. lia.
  - unfold zlen. by rewrite length_fmap.
Qed.

Lemma hop_loop_spec n : ∀ ttl hops log,
  (∀ t, te_hop_cancelled e t = false) → (∀ t a, te_cancelled e t a = false) →
  ∃ k log', hop_loop e destIP n ttl hops log =
    (hops ++ (hop_at <$> seqZ ttl (Z.of_nat k)), bool_decide (k ≠ 0%nat) && arrived (ttl + Z.of_nat k - 1), log') ∧
    (k <= n)%nat ∧ (k = n ∨ k ≠ 0%nat ∧ arrived (ttl + Z.of_nat k - 1) = true) ∧
    (∀ t, (ttl <= t < ttl + Z.of_nat k - 1)%Z → arrived t = false) ∧
    (length log' <= 3 * k + length log)%nat.
Proof.
  induction n as [|n IH]; intros ttl hops log Hh Hc.
  { exists 0%nat, log. simpl. rewrite app_nil_r. split_and!; try done; lia. }
  cbn [hop_loop]. rewrite Hh.
  destruct (probe_loop_spec (Z.to_nat ProbesPerHop) ttl 0 log [] (Hc ttl)) as (l1 & E1 & Hl1).
  change (Z.to_nat ProbesPerHop) with 3%nat in *. change (seqZ 0 (Z.of_nat 3)) with [0;1;2]%Z in E1.
  change (mkHopAcc "" [] 0 false log) with (acc_of log []). rewrite E1. fold (replies ttl). cbn [app].
  rewrite close_hop_spec. change (ha_reached (acc_of l1 (replies ttl))) with (arrived ttl).
  change (ha_log (acc_of l1 (replies ttl))) with l1.
  destruct (arrived ttl) eqn:Ea.
  - exists 1%nat, l1. rewrite (seqZ_cons ttl) by lia. cbn -[arrived].
    replace (ttl + Z.of_nat 1 - 1)%Z with ttl by lia. rewrite Ea. split_and!; try done; try lia; try (by right); intros; lia.
  - destruct (IH (ttl + 1)%Z (hops ++ [hop_at ttl]) l1 Hh Hc) as (k & l2 & -> & Hk & Hend & Hno & Hl2).
    exists (S k), l2. replace (ttl + 1 + Z.of_nat k - 1)%Z with (ttl + Z.of_nat (S k) - 1)%Z in * by lia.
    rewrite (seqZ_cons ttl) by lia. replace (Z.pred (Z.of_nat (S k))) with (Z.of_nat k) by lia.
    replace (Z.succ ttl) with (ttl + 1)%Z by lia. rewrite <- (assoc_L (++)). cbn [fmap list_fmap app].
    split_and!; try lia.
    + f_equal. f_equal. destruct k; [|done]. cbn -[arrived Z.of_nat]. replace (ttl + Z.of_nat 1 - 1)%Z with ttl by lia. by rewrite Ea.
    + destruct Hend as [->|[? ?]]; [by left|by right].
    + intros t Ht. destruct (decide (t = ttl)) as [->|]; [done|]. apply Hno. lia.
Qed.
End Spec.

(** With cancellation as well: every hop has the TTL of its place. *)
Lemma hop_loop_ttls e destIP n : ∀ ttl hops log,
  ∃ k, (k <= n)%nat ∧ hop_TTL <$> (hop_loop e destIP n ttl hops log).1.1 = (hop_TTL <$> hops) ++ seqZ ttl (Z.of_nat k).
Proof.
  induction n as [|n IH]; intros ttl hops log; cbn [hop_loop].
  { exists 0%nat. simpl. by rewrite app_nil_r. }
  destruct (te_hop_cancelled e ttl). { exists 0%nat. simpl. rewrite app_nil_r. split; [lia|done]. }
  destruct (ha_reached _).
  { exists 1%nat. cbn. rewrite fmap_app. rewrite (seqZ_cons ttl) by lia. split; [lia|done]. }
  destruct (IH (ttl + 1)%Z (hops ++ [close_hop e ttl (probe_loop e destIP (Z.to_nat ProbesPerHop) ttl 0 (mkHopAcc "" [] 0 false log))])
              (ha_log (probe_loop e destIP (Z.to_nat ProbesPerHop) ttl 0 (mkHopAcc "" [] 0 false log)))) as (k & Hk & E).
  exists (S k). split; [lia|]. rewrite E, fmap_app, <- (assoc_L (++)). f_equal. cbn [fmap list_fmap hop_TTL close_hop app].
  rewrite (seqZ_cons ttl) by lia. f_equal. f_equal; lia.
Qed.

Lemma trace_ttls e target :
  ∃ k, (k <= 30)%nat ∧ hop_TTL <$> tr_Hops (TraceTarget e target).1 = seqZ 1 (Z.of_nat k).
Proof.
  unfold TraceTarget. destruct (te_lookup e) as [[|ip ips]|m]; [exists 0%nat; split; [lia|done]| |exists 0%nat; split; [lia|done]].
  destruct (te_listen e); [|exists 0%nat; split; [lia|done]].
  destruct (hop_loop_ttls e ip (Z.to_nat MaxHops) 1 [] []) as (k & Hk & E). exists k. split; [done|].
  by destruct (hop_loop _ _ _ _ _ _) as [[hops reached] log].
Qed.

(** ** Properties *)

(** C20. A trace that is not cancelled reports exactly what its probes were
    answered: hops 1 to [n] in order, each with the replies of its three probes
    (the last replier's address and name, every round-trip time, their average
    and the share lost); it stops at the first hop where the destination
    answered, and only then calls it reached; otherwise it goes on to hop 30. *)
Theorem TraceTarget_spec e target destIP ips sock :
  te_lookup e = Ok (destIP :: ips) → te_listen e = Some sock →
  (∀ t, te_hop_cancelled e t = false) → (∀ t a, te_cancelled e t a = false) →
  let '(r, log) := TraceTarget e target in
  let n := zlen (tr_Hops r) in
  (1 <= n <= 30)%Z ∧ tr_Hops r = hop_at e destIP <$> seqZ 1 n ∧
  (∀ t, (1 <= t < n)%Z → arrived e destIP t = false) ∧ tr_Reached r = arrived e destIP n ∧
  (tr_Reached r = false → n = 30%Z) ∧ (zlen log <= 90)%Z ∧
  tr_TargetID r = tc_ID target ∧ tr_TargetHost r = tc_Host target ∧ tr_ResolvedIP r = destIP.
Proof.
  intros El Es Hh Hc. unfold TraceTarget. rewrite El, Es.
  destruct (hop_loop_spec e destIP (Z.to_nat MaxHops) 1 [] [] Hh Hc) as (k & log & -> & Hk & Hend & Hno & Hlog).
  change (Z.to_nat MaxHops) with 30%nat in *. cbn [tr_Hops tr_Reached tr_TargetID tr_TargetHost tr_ResolvedIP app].
  assert (zlen (hop_at e destIP <$> seqZ 1 (Z.of_nat k)) = Z.of_nat k) as ->.
  { unfold zlen. rewrite length_fmap, length_seqZ. lia. }
  assert (k ≠ 0%nat) as Hk0 by (destruct Hend as [->|[? _]]; done).
  rewrite bool_decide_eq_true_2 by done. replace (1 + Z.of_nat k - 1)%Z with (Z.of_nat k) in * by lia.
  cbn [length] in Hlog. split_and!; try done; try lia; [|unfold zlen; lia].
  intros Hr. destruct Hend as [->|[_ Hr']]; [done|]. unfold andb in Hr. congruence.
Qed.

(** Whatever the network does, and wherever it is cancelled, a trace's report
    has the TTLs 1, 2, 3, ... of at most thirty hops, so it survives the encoding
    to JSON and back. *)
Theorem TraceTarget_wire {W : IntSize} {TT : TimeText} e target :
  exact_range (te_elapsed e) → (31 <= int_max)%Z →
  let r := (TraceTarget e target).1 in
  (∃ k, (k <= 30)%nat ∧ hop_TTL <$> tr_Hops r = seqZ 1 (Z.of_nat k)) ∧
  decode (wire_enc r) = Some r.
Proof.
  intros He HW r. pose proof (trace_ttls e target) as Hk. fold r in Hk.
  split; [done|]. apply wire_roundtrip. destruct Hk as (k & Hk & E). split.
  - subst r. unfold TraceTarget. destruct (te_lookup e) as [[|ip ips]|m]; [done| |done]. destruct (te_listen e); [|done].
    by destruct (hop_loop _ _ _ _ _ _) as [[hops reached] log].
  - assert (Hall : Forall int_ok (hop_TTL <$> tr_Hops r)).
    { rewrite E. apply Forall_seqZ. intros t Ht. unfold int_ok, exact_range, int_min, int_max in *. lia. }
    exact (proj1 (Forall_fmap _ _ _) Hall).
Qed.

(** ** A three-hop trace *)

Definition demo_reads (us : Z) (ip : string) (m : icmp_message) : list read :=
  [mkRead false (ReadPacket us (Some ip) (Some OtherMessage)); mkRead false (ReadPacket us (Some ip) (Some m))].

Definition demo_trace : trace_env :=
  mkTraceEnv 1000 250 (Ok ["1.1.1.1"]) (listenICMP false true true) 4242 (λ _, false) (λ _ _, false)
    (λ ttl a,
       if (ttl =? 3)%Z then mkProbe 5 true (demo_reads 9000 "1.1.1.1" (EchoReply (Some 4242%Z)))
       else if (ttl =? 2)%Z then mkProbe 5 true []
       else mkProbe 5 (negb (a =? 1)%Z) (demo_reads 1500 "192.168.0.1:0" TimeExceeded))
    (λ ip, Ok [ip +:+ ".example."]).

Definition demo_target : TargetConfig := mkTargetConfig "t1" "One" "one.example" 20 30 false.

Lemma TraceTarget_spec_witness :
  let '(r, log) := TraceTarget demo_trace demo_target in
  let n := zlen (tr_Hops r) in
  (1 <= n <= 30)%Z ∧ tr_Hops r = hop_at demo_trace "1.1.1.1" <$> seqZ 1 n ∧
  (∀ t, (1 <= t < n)%Z → arrived demo_trace "1.1.1.1" t = false) ∧ tr_Reached r = arrived demo_trace "1.1.1.1" n ∧
  (tr_Reached r = false → n = 30%Z) ∧ (zlen log <= 90)%Z ∧
  tr_TargetID r = tc_ID demo_target ∧ tr_TargetHost r = tc_Host demo_target ∧ tr_ResolvedIP r = "1.1.1.1".
Proof. by apply (TraceTarget_spec demo_trace demo_target "1.1.1.1" [] false). Defined.

Example demo_trace_hops :
  hop_IP <$> tr_Hops (TraceTarget demo_trace demo_target).1 = ["192.168.0.1"; ""; "1.1.1.1"] ∧
  tr_Reached (TraceTarget demo_trace demo_target).1 = true ∧
  (λ h, printed_int (default 0%Z (F_integral (fround (hop_LossPct h))))) <$> tr_Hops (TraceTarget demo_trace demo_target).1 = [33; 100; 0]%Z.
Proof. by vm_compute. Qed.

Lemma TraceTarget_wire_witness :
  let _ := int32_size in let _ := binary_time in
  let r := (TraceTarget demo_trace demo_target).1 in
  (∃ k, (k <= 30)%nat ∧ hop_TTL <$> tr_Hops r = seqZ 1 (Z.of_nat k)) ∧ decode (wire_enc r) = Some r.
Proof. intros ? ?. apply TraceTarget_wire; by vm_compute. Defined.

(** Two probes of one hop can carry the same sequence number, and probes of
    different hops as well. *)
Example probe_seq_collides : probe_seq 1 0 0 = probe_seq 1 0 16 ∧ probe_seq 1 0 112 = probe_seq 7 0 0.
Proof. split; vm_compute; reflexivity. Qed.
