(* ===== verification/IpUtil.v ===== *)
(** * Client addresses and their masking

    [host/internal/iputil/ip.go] (the address of an HTTP client), the address
    ranges of [host/internal/ipgeo/ipgeo.go] and [host/internal/auth/mask.go]
    (what an anonymous visitor sees of an address or of a target). *)
From S2P Require Import Prelude GoStrings GoNet.

(** ** [iputil/ip.go] *)

Section IpUtil.
Context {W : IntSize}.

Definition CleanIP (raw : string) : string :=
  let raw := TrimSpace raw in
  if (raw =? "")%string then ""
  else
    let raw := Trim raw (bytes [34; 39]%N) in
    let parse (raw : string) :=
      let raw := TrimSpace raw in
      let raw := TrimPrefix raw "[" in
      let raw := TrimSuffix raw "]" in
      let raw := TrimSpace raw in
      match ParseIP raw with
      | None => ""
      | Some ip => IPString ip
      end in
    match SplitHostPort raw with
    | Ok (host, port) =>
        if negb (port =? "")%string then
          let '(p, err) := Atoi port in
          if negb (bool_decide (err = None)) || (p <? 1)%Z || (65535 <? p)%Z then ""
          else parse host
        else parse host
    | Err _ => parse raw
    end.

Definition IsPublicIP (ip : option IP) : bool :=
  match ip with
  | None => false
  | Some ip =>
      if IsLoopback ip || IsPrivate ip || IsUnspecified ip ||
         IsLinkLocalUnicast ip || IsLinkLocalMulticast ip || IsMulticast ip
      then false else true
  end.

(** The loop over the parts of an X-Forwarded-For value. *)
Fixpoint xff_loop (parts : list string) (firstValid : string) : string * bool :=
  match parts with
  | [] => (firstValid, false)
  | part :: parts =>
      let cleaned := CleanIP part in
      if (cleaned =? "")%string then xff_loop parts firstValid
      else
        match ParseIP cleaned with
        | None => xff_loop parts firstValid
        | Some ip =>
            if IsPublicIP (Some ip) then (cleaned, true)
            else xff_loop parts (if (firstValid =? "")%string then cleaned else firstValid)
        end
  end.

Definition extractFromXFFWithStatus (headerVal : string) : string * bool :=
  xff_loop (Split headerVal ",") "".

Definition ExtractXForwardedFor (headerVal : string) : string :=
  fst (extractFromXFFWithStatus headerVal).

(** What [GetClientIP] reads of an [http.Request]. *)
Record Request := mkRequest {
  Header : string → string;
  RemoteAddr : string
}.

Definition GetClientIP (r : option Request) : string :=
  match r with
  | None => ""
  | Some r =>
      let cfIP := CleanIP (Header r "CF-Connecting-IP") in
      if negb (cfIP =? "")%string then cfIP
      else
        let xff := Header r "X-Forwarded-For" in
        let '(ip, isPublic) :=
          if negb (xff =? "")%string then extractFromXFFWithStatus xff else ("", false) in
        if negb (ip =? "")%string && isPublic then ip
        else
          let xffFallback := ip in
          let realIP := CleanIP (Header r "X-Real-IP") in
          if negb (realIP =? "")%string && IsPublicIP (ParseIP realIP) then realIP
          else
            let xffFallback :=
              if negb (realIP =? "")%string && (xffFallback =? "")%string
              then realIP else xffFallback in
            if negb (xffFallback =? "")%string then xffFallback
            else if negb (RemoteAddr r =? "")%string then
              let ip := CleanIP (RemoteAddr r) in
              if negb (ip =? "")%string then ip else RemoteAddr r
            else ""
  end.
End IpUtil.

(** ** [ipgeo.go]: ranges that are never looked up *)

Definition isPrivateOrReserved (ip : IP) : bool :=
  if IsLoopback ip || IsUnspecified ip || IsMulticast ip || IsLinkLocalUnicast ip then true
  else
    match To4 ip with
    | Some v4 =>
        if (byte_at v4 0 =? 10)%Z then true
        else if ((byte_at v4 0 =? 172) && (16 <=? byte_at v4 1) && (byte_at v4 1 <=? 31))%Z then true
        else if ((byte_at v4 0 =? 192) && (byte_at v4 1 =? 168))%Z then true
        else ((byte_at v4 0 =? 100) && ((64 <=? byte_at v4 1) && (byte_at v4 1 <=? 127)))%Z
    | None => false
    end.

(** ** [auth/mask.go] *)

Definition MaskIP (ipStr : string) : string :=
  let ipStr := TrimSpace ipStr in
  if (ipStr =? "")%string then ""
  else
    match ParseIP ipStr with
    | None => "***"
    | Some parsed =>
        match To4 parsed with
        | Some ipv4 =>
            Itoa (byte_at ipv4 0) +:+ "." +:+ Itoa (byte_at ipv4 1) +:+ ".***.***"
        | None =>
            match Split ipStr ":" with
            | p0 :: p1 :: _ :: _ :: _ => p0 +:+ ":" +:+ p1 +:+ ":****:****"
            | _ => "2001:db8:****:****"
            end
        end
    end.

Definition MaskHost (host : string) : string :=
  let host := TrimSpace host in
  if (host =? "")%string then ""
  else if bool_decide (ParseIP host ≠ None) then MaskIP host
  else
    let parts := Split host "." in
    match rev parts with
    | [] | [_] => "***"
    | [p1; _] => "***." +:+ p1
    | last :: prev :: _ => "***." +:+ prev +:+ "." +:+ last
    end.

(** ** Tests from the source ([ip_test.go]) *)

#[local] Existing Instance int64_size.

Example CleanIP_tests :
  CleanIP <$> ["";
               "   "; "192.0.2.1"; "  192.0.2.1  "; "192.0.2.1:8080"; "'192.0.2.1'";
               "2001:db8::1"; "[2001:db8::1]"; "[2001:db8::1]:443"; "invalid.ip"; "192.0.2.1:999999"]
  = [""; ""; "192.0.2.1"; "192.0.2.1"; "192.0.2.1"; "192.0.2.1";
     "2001:db8::1"; "2001:db8::1"; "2001:db8::1"; ""; ""].
Proof. vm_compute. done. Qed.

Example IsPublicIP_tests :
  (λ s, IsPublicIP (ParseIP s)) <$>
    [""; "8.8.8.8"; "203.0.113.1"; "10.0.0.1"; "172.16.0.1"; "192.168.1.1"; "127.0.0.1";
     "0.0.0.0"; "169.254.1.1"; "224.0.0.1"; "2001:db8::1"; "::1"; "::"; "fc00::1"; "fe80::1"]
  = [false; true; true; false; false; false; false;
     false; false; false; true; false; false; false; false].
Proof. vm_compute. done. Qed.

(** ** Facts *)

Definition is_octet (b : Z) : Prop := (0 <= b <= 255)%Z.

(** A finite check over the 256 octets. *)
Lemma octets_check (P : Z → bool) :
  forallb P (seqZ 0 256) = true → ∀ b, is_octet b → P b = true.
Proof.
  rewrite forallb_forall. intros H b Hb. apply H.
  apply list_elem_of_In, elem_of_seqZ. unfold is_octet in Hb. lia.
Qed.

Lemma octet_Itoa b : is_octet b → octet (Itoa b) = Some b.
Proof.
  intros Hb.
  pose proof (octets_check (λ b, bool_decide (octet (Itoa b) = Some b)) ltac:(vm_compute; done) b Hb).
  by apply bool_decide_eq_true in H.
Qed.

Lemma Itoa_octet_digits b : is_octet b → all_bytes is_digit (Itoa b) = true.
Proof. intros [? ?]. by apply Itoa_digits. Qed.

Lemma parseIPv4_string a b c d :
  is_octet a → is_octet b → is_octet c → is_octet d →
  parseIPv4 (v4_string [a; b; c; d]) = Some [a; b; c; d].
Proof.
  intros Ha Hb Hc Hd. unfold parseIPv4, v4_string. rewrite Split_Join; [|done|].
  - simpl. by rewrite !octet_Itoa.
  - simpl. repeat constructor;
      eapply all_bytes_no_byte; try (by apply Itoa_octet_digits); done.
Qed.

Lemma parse_kind_digits s t : all_bytes is_digit s = true → parse_kind (s +:+ String "." t) = Some true.
Proof.
  induction s as [|x s IH]; [done|]. cbn [all_bytes]. intros [Hx Hs]%andb_true_iff.
  rewrite str_app_cons. specialize (IH Hs).
  destruct x as [[][][][][][][][]]; try (by vm_compute in Hx); exact IH.
Qed.

Lemma ParseIP_v4_string a b c d :
  is_octet a → is_octet b → is_octet c → is_octet d →
  ParseIP (v4_string [a; b; c; d]) = Some (v4_prefix ++ [a; b; c; d]).
Proof.
  intros Ha Hb Hc Hd. unfold ParseIP.
  assert (parse_kind (v4_string [a; b; c; d]) = Some true) as ->.
  { unfold v4_string. simpl fmap. rewrite Join_cons. apply parse_kind_digits.
    by apply Itoa_octet_digits. }
  by rewrite parseIPv4_string.
Qed.

Lemma v4_string_printable l : Forall is_octet l → all_bytes printable (v4_string l) = true.
Proof.
  intros Hl. apply Join_all; [|done]. apply Forall_fmap. eapply Forall_impl; [exact Hl|].
  intros b Hb. simpl. eapply all_bytes_impl; [apply digit_printable|]. by apply Itoa_octet_digits.
Qed.

(** ** The specification of the X-Forwarded-For choice *)

Section Spec.
Context {W : IntSize}.

Definition valid_part (p : string) : bool :=
  negb (CleanIP p =? "")%string && bool_decide (ParseIP (CleanIP p) ≠ None).
Definition public_part (p : string) : bool :=
  valid_part p && IsPublicIP (ParseIP (CleanIP p)).

Definition first_where {A} (f : A → bool) (l : list A) : option A := head (List.filter f l).

(** The first public entry if there is one, else the first valid one. *)
Definition xff_spec (parts : list string) : string * bool :=
  match first_where public_part parts with
  | Some p => (CleanIP p, true)
  | None => (from_option CleanIP "" (first_where valid_part parts), false)
  end.

(** The candidates of [GetClientIP], best first. *)
Definition client_candidates (r : Request) : list string :=
  let cf := CleanIP (Header r "CF-Connecting-IP") in
  let xff := Split (Header r "X-Forwarded-For") "," in
  let real := CleanIP (Header r "X-Real-IP") in
  [cf;
   from_option CleanIP "" (first_where public_part xff);
   (if IsPublicIP (ParseIP real) then real else "");
   from_option CleanIP "" (first_where valid_part xff);
   real;
   CleanIP (RemoteAddr r);
   RemoteAddr r].

Definition first_nonempty (l : list string) : string :=
  default "" (first_where (λ s, negb (s =? "")%string) l).

Lemma first_where_cons {A} f (x : A) l :
  first_where f (x :: l) = if f x then Some x else first_where f l.
Proof. unfold first_where. simpl. by destruct (f x). Qed.

Lemma first_where_true {A} f (l : list A) x : first_where f l = Some x → f x = true.
Proof.
  induction l as [|y l IH]; [done|]. rewrite first_where_cons. destruct (f y) eqn:E; [|auto].
  by intros [= ->].
Qed.

Lemma xff_loop_spec parts fv :
  (fv = "" → xff_loop parts fv = xff_spec parts) ∧
  (fv ≠ "" → xff_loop parts fv =
     match first_where public_part parts with
     | Some p => (CleanIP p, true)
     | None => (fv, false)
     end).
Proof.
  revert fv. induction parts as [|p parts IH]; intros fv; [split; [intros ->|]; done|].
  cbn [xff_loop]. unfold xff_spec. rewrite !first_where_cons.
  assert (Hp : public_part p = valid_part p && IsPublicIP (ParseIP (CleanIP p))) by done.
  assert (Hv : valid_part p = negb (CleanIP p =? "")%string && bool_decide (ParseIP (CleanIP p) ≠ None)) by done.
  destruct (CleanIP p =? "")%string eqn:E1; simpl in Hv; rewrite Hv in Hp; simpl in Hp.
  { rewrite Hp, Hv. apply IH. }
  destruct (ParseIP (CleanIP p)) as [ip|] eqn:E2.
  2: { rewrite bool_decide_eq_false_2 in Hv, Hp by tauto. rewrite Hp, Hv. apply IH. }
  rewrite bool_decide_eq_true_2 in Hv, Hp by done. rewrite andb_true_l in Hp. rewrite Hp, Hv.
  destruct (IsPublicIP (Some ip)) eqn:E3; [by split|].
  apply String.eqb_neq in E1. split.
  - intros ->. by apply (proj2 (IH (CleanIP p)) E1).
  - intros Hf. assert ((fv =? "")%string = false) as -> by (by apply String.eqb_neq).
    by apply (proj2 (IH fv) Hf).
Qed.

Lemma part_nonempty f parts p :
  (∀ q, f q = true → valid_part q = true) → first_where f parts = Some p → CleanIP p ≠ "".
Proof.
  intros Hf E%first_where_true%Hf. unfold valid_part in E. by apply andb_true_iff in E as [E%negb_true_iff%String.eqb_neq _].
Qed.

Lemma public_valid p : public_part p = true → valid_part p = true.
Proof. by intros [? _]%andb_true_iff. Qed.

Lemma first_nonempty_cons s l :
  first_nonempty (s :: l) = if (s =? "")%string then first_nonempty l else s.
Proof. unfold first_nonempty. rewrite first_where_cons. by destruct (s =? "")%string. Qed.

(** ** Properties *)

(** X-Forwarded-For: the loop returns the first public entry, flagged public;
    without one it returns the first valid entry (or nothing), not flagged. *)
Theorem extractFromXFFWithStatus_spec headerVal :
  extractFromXFFWithStatus headerVal = xff_spec (Split headerVal ",").
Proof. by apply xff_loop_spec. Qed.

(** [GetClientIP] takes the first non-empty candidate of the documented
    priority order, in which public addresses of the forwarding headers come
    before private ones and before the peer address. *)
Theorem GetClientIP_priority r :
  GetClientIP (Some r) = first_nonempty (client_candidates r).
Proof.
  unfold GetClientIP, client_candidates.
  rewrite first_nonempty_cons. destruct (CleanIP _ =? "")%string; [|done]. simpl negb. cbv iota.
  set (xff := Header r "X-Forwarded-For"). set (real := CleanIP (Header r "X-Real-IP")).
  assert ((if negb (xff =? "")%string then extractFromXFFWithStatus xff else ("", false))
          = xff_spec (Split xff ",")) as ->.
  { destruct (xff =? "")%string eqn:E; [|apply extractFromXFFWithStatus_spec].
    by apply String.eqb_eq in E as ->. }
  unfold xff_spec. rewrite !first_nonempty_cons.
  destruct (first_where public_part _) as [p|] eqn:Ep.
  { apply (part_nonempty _ _ _ public_valid), String.eqb_neq in Ep. simpl. by rewrite Ep. }
  rewrite andb_false_r. simpl from_option at 1. simpl ("" =? "")%string. cbv iota.
  destruct (IsPublicIP (ParseIP real)) eqn:Epub, (real =? "")%string eqn:Er;
    cbn [negb andb]; try done;
    destruct (from_option CleanIP "" _ =? "")%string eqn:Ef; rewrite ?Er, ?Ef;
    cbn [negb andb]; rewrite ?Er, ?Ef; try done;
    destruct (RemoteAddr r =? "")%string eqn:E1; cbn [negb];
    try (apply String.eqb_eq in E1; rewrite E1; done);
    by destruct (CleanIP (RemoteAddr r) =? "")%string.
Qed.
End Spec.

(** An anonymous visitor sees only the first two octets of an IPv4 address. *)
Theorem MaskIP_v4 a b c d :
  is_octet a → is_octet b → is_octet c → is_octet d →
  MaskIP (v4_string [a; b; c; d]) = Itoa a +:+ "." +:+ Itoa b +:+ ".***.***".
Proof.
  intros Ha Hb Hc Hd. unfold MaskIP.
  rewrite TrimSpace_printable by (apply v4_string_printable; auto 6).
  rewrite ParseIP_v4_string by done.
  destruct (v4_string [a; b; c; d] =? "")%string eqn:E; [|done].
  apply String.eqb_eq in E. pose proof (ParseIP_v4_string a b c d Ha Hb Hc Hd) as P.
  by rewrite E in P.
Qed.

Lemma MaskIP_v4_witness : MaskIP "203.0.113.77" = "203.0.***.***".
Proof.
  change "203.0.113.77" with (v4_string [203; 0; 113; 77]%Z).
  rewrite MaskIP_v4; [done|unfold is_octet; lia..].
Defined.
