(* ===== verification/RouteClass.v ===== *)
(** * Route classification ([host/internal/ipgeo/classifier.go]) and address lookup ([ipgeo.go])

    The name given to a traced route from the addresses and AS numbers of its
    hops, the AS path shown beside it, and the cached lookup that supplies the AS
    numbers. HTTP is a parameter: what a GET of a URL answers. *)
From S2P Require Import Prelude GoStrings GoNet GoFloat GoJson Model IpUtil.

Record HopMeta := mkHopMeta { hm_IP : string; hm_ASNumber : string; hm_ASOrg : string; hm_ISP : string }.

(** ** Address ranges *)

Definition has_any (ip : string) (ps : list string) : bool := existsb (HasPrefix ip) ps.

Definition isCN2IP (ip : string) : bool := has_any ip ["59.43."; "2605:9d80:"].

Definition isCTGNetIP (ip : string) : bool :=
  has_any ip ["203.22.182."; "203.22.178."; "203.22.179."; "203.128.224."; "69.194."; "2400:9380:"].

Definition is163IP (ip : string) : bool :=
  has_any ip ["202.97."; "202.96."; "219.141."; "219.142."; "106.37."; "240e:"].

Definition is9929IP (ip : string) : bool := has_any ip ["210.14."; "210.51."; "210.78."; "218.105."].

(** The regular expression [re10099]: its alternatives, with [162.219.(3[2-9]|85).]
    and [203.160.(66|75).] written out. *)
Definition re10099 : list string :=
  ["103.214."; "103.228.68."; "103.239.176."; "118.26.151.";
   "162.219.32."; "162.219.33."; "162.219.34."; "162.219.35."; "162.219.36."; "162.219.37.";
   "162.219.38."; "162.219.39."; "162.219.85."; "162.245.124."; "202.77.23.";
   "203.160.66."; "203.160.75."; "2401:8a00:"].

Definition is10099IP (ip : string) : bool := has_any ip re10099.

Definition is4837IP (ip : string) : bool := has_any ip ["219.158."; "2408:"].
Definition isCMIN2IP (ip : string) : bool := has_any ip ["2402:4f00:f000:"].
Definition isCMIIP (ip : string) : bool := has_any ip ["223.120."; "223.119."].
Definition isCMNETIP (ip : string) : bool := has_any ip ["221.183."; "111.24."; "111.13."; "2409:8080:"].

Definition inferASNFromIP (ip : string) : string :=
  if HasPrefix ip "59.43." then "4809"
  else if has_any ip ["203.22.182."; "203.22.178."; "203.128.224."] then "23764"
  else if has_any ip ["202.97."; "202.96."; "219.141."; "240e:"] then "4134"
  else if has_any ip ["219.158."; "2408:"] then "4837"
  else if has_any ip ["223.120."; "223.119."] then "58453"
  else if has_any ip ["221.183."; "111.24."; "2409:8080:"] then "9808"
  else if HasPrefix ip "2402:4f00:f000:" then "58807"
  else if is10099IP ip then "10099"
  else if is9929IP ip then "9929"
  else if has_any ip ["101.4."; "202.112."] then "4538"
  else "".

Definition cleanASN (raw : string) : string :=
  let raw := TrimSpace raw in
  let raw := TrimPrefix raw "AS" in
  let raw := TrimPrefix raw "as" in
  raw.

(** ** [ClassifyRoute] *)

(** The hops that answered, with their AS numbers: [ips] and [asns] in step. *)
Definition hop_asn (h : HopMeta) (ip : string) : string :=
  let asn := cleanASN (hm_ASNumber h) in
  if (asn =? "")%string then inferASNFromIP ip else asn.

Definition visible (hops : list HopMeta) : list (string * string) :=
  omap (λ h,
    let ip := TrimSpace (hm_IP h) in
    if (ip =? "")%string || (ip =? "*")%string then None else Some (ip, hop_asn h ip)) hops.

Definition asn_is (asn : string) (l : list string) : bool := existsb (String.eqb asn) l.

Record telecom := mkTelecom {
  hasCN2 : bool; hasCN2Core : bool; has163 : bool; hasCTGNet : bool; cn2HopIndex : Z; last163Index : Z
}.

Definition telecom_step (i : Z) (hop : string * string) (s : telecom) : telecom :=
  let '(ip, asn) := hop in
  let s :=
    if isCN2IP ip || asn_is asn ["4809"] then
      mkTelecom true (hasCN2Core s || HasPrefix ip "59.43.") (has163 s) (hasCTGNet s)
        (if (cn2HopIndex s =? -1)%Z then i else cn2HopIndex s) (last163Index s)
    else s in
  let s :=
    if isCTGNetIP ip || asn_is asn ["23764"] then
      mkTelecom (hasCN2 s) (hasCN2Core s) (has163 s) true (cn2HopIndex s) (last163Index s)
    else s in
  if is163IP ip || asn_is asn ["4134"; "4847"] then
    mkTelecom (hasCN2 s) (hasCN2Core s) true (hasCTGNet s) (cn2HopIndex s) i
  else s.

(** [for i, ip := range ips] *)
Fixpoint range_loop {S} (f : Z → string * string → S → S) (i : Z) (l : list (string * string)) (s : S) : S :=
  match l with
  | [] => s
  | x :: l => range_loop f (i + 1) l (f i x s)
  end.

Definition telecom_name (l : list (string * string)) : option string :=
  let s := range_loop telecom_step 0 l (mkTelecom false false false false (-1) (-1)) in
  if hasCN2 s then
    if has163 s && (cn2HopIndex s <? last163Index s)%Z then Some "电信 CN2 GT"
    else if hasCN2Core s then Some "电信 CN2 GIA"
    else Some "电信 CN2"
  else if hasCTGNet s then if has163 s then Some "电信 CTGNet->163" else Some "电信 CTGNet"
  else if has163 s then Some "电信 163"
  else None.

Record unicom := mkUnicom {
  has9929 : bool; has10099 : bool; has4837 : bool; first10099 : Z; first9929 : Z; first4837 : Z
}.

Definition unicom_step (i : Z) (hop : string * string) (s : unicom) : unicom :=
  let '(ip, asn) := hop in
  let s :=
    if is9929IP ip || asn_is asn ["9929"] then
      mkUnicom true (has10099 s) (has4837 s) (first10099 s)
        (if (first9929 s =? -1)%Z then i else first9929 s) (first4837 s)
    else s in
  let s :=
    if is10099IP ip || asn_is asn ["10099"] then
      mkUnicom (has9929 s) true (has4837 s)
        (if (first10099 s =? -1)%Z then i else first10099 s) (first9929 s) (first4837 s)
    else s in
  if is4837IP ip || asn_is asn ["4837"; "4808"] then
    mkUnicom (has9929 s) (has10099 s) true (first10099 s) (first9929 s)
      (if (first4837 s =? -1)%Z then i else first4837 s)
  else s.

Definition unicom_name (l : list (string * string)) : option string :=
  let s := range_loop unicom_step 0 l (mkUnicom false false false (-1) (-1) (-1)) in
  if has10099 s then
    if has9929 s && (first10099 s <? first9929 s)%Z then Some "联通 10099->9929"
    else if has4837 s && (first10099 s <? first4837 s)%Z then Some "联通 10099->4837"
    else Some "联通 10099"
  else if has9929 s then Some "联通 9929 (A网)"
  else if has4837 s then Some "联通 4837 (169)"
  else None.

Record mobile := mkMobile {
  hasCMIN2 : bool; hasCMI : bool; hasCMNET : bool; firstCMIN2 : Z; firstCMI : Z
}.

Definition mobile_step (i : Z) (hop : string * string) (s : mobile) : mobile :=
  let '(ip, asn) := hop in
  let s :=
    if isCMIN2IP ip || asn_is asn ["58807"] then
      mkMobile true (hasCMI s) (hasCMNET s) (if (firstCMIN2 s =? -1)%Z then i else firstCMIN2 s) (firstCMI s)
    else s in
  let s :=
    if isCMIIP ip || asn_is asn ["58453"] then
      mkMobile (hasCMIN2 s) true (hasCMNET s) (firstCMIN2 s) (if (firstCMI s =? -1)%Z then i else firstCMI s)
    else s in
  if isCMNETIP ip || asn_is asn ["9808"] then
    mkMobile (hasCMIN2 s) (hasCMI s) true (firstCMIN2 s) (firstCMI s)
  else s.

Definition mobile_name (l : list (string * string)) : option string :=
  let s := range_loop mobile_step 0 l (mkMobile false false false (-1) (-1)) in
  if hasCMIN2 s then
    if hasCMI s && (firstCMIN2 s <? firstCMI s)%Z then Some "移动 CMIN2->CMI"
    else if hasCMNET s then Some "移动 CMIN2->CMNET"
    else Some "移动 CMIN2"
  else if hasCMI s then if hasCMNET s then Some "移动 CMI->CMNET" else Some "移动 CMI"
  else if hasCMNET s then Some "移动 CMNET"
  else None.

Fixpoint education_name (l : list (string * string)) : option string :=
  match l with
  | [] => None
  | (ip, asn) :: l =>
      if asn_is asn ["4538"] || has_any ip ["202.112."; "101.4."] then Some "教育网 CERNET"
      else if asn_is asn ["23910"; "23911"] || has_any ip ["2001:da8:"; "2001:250:"] then Some "教育网 CERNET2"
      else education_name l
  end.

Definition transits : list (string * string) :=
  [("1299", "Arelion (Telia)"); ("2914", "NTT"); ("174", "Cogent"); ("3257", "GTT");
   ("6453", "Tata Communications"); ("3356", "Lumen (Level3)"); ("6939", "Hurricane Electric (HE)");
   ("13335", "Cloudflare")].

Definition assoc (k : string) (l : list (string * string)) : option string :=
  snd <$> List.find (λ e, (fst e =? k)%string) l.

Fixpoint transit_name (l : list (string * string)) : option string :=
  match l with
  | [] => None
  | (_, asn) :: l => match assoc asn transits with Some n => Some n | None => transit_name l end
  end.

(** The parameters [targetHost] and [targetISP] are unused. *)
Definition ClassifyRoute (hops : list HopMeta) (targetHost targetISP : string) : string :=
  match hops with
  | [] => "Unknown"
  | _ =>
      let l := visible hops in
      match l with
      | [] => "Timeout / Hidden"
      | _ =>
          match telecom_name l with
          | Some n => n
          | None =>
              match unicom_name l with
              | Some n => n
              | None =>
                  match mobile_name l with
                  | Some n => n
                  | None =>
                      match education_name l with
                      | Some n => n
                      | None => default "Standard IP Transit" (transit_name l)
                      end
                  end
              end
          end
      end
  end.

(** ** [GenerateASPath] *)

Definition as_names : list (string * string) :=
  [("4809", "CN2"); ("4134", "Chinanet 163"); ("23764", "CTGNet"); ("9929", "China Unicom 9929");
   ("10099", "CUG 10099"); ("4837", "China Unicom 4837"); ("58807", "CMIN2"); ("58453", "CMI");
   ("9808", "China Mobile"); ("4538", "CERNET"); ("23910", "CERNET2"); ("23911", "CERNET2");
   ("13335", "Cloudflare"); ("15169", "Google"); ("8075", "Microsoft"); ("16509", "Amazon AWS");
   ("20940", "Akamai"); ("54113", "Fastly"); ("1299", "Arelion"); ("2914", "NTT"); ("174", "Cogent");
   ("3257", "GTT"); ("6453", "Tata"); ("3356", "Lumen"); ("6939", "HE")].

Definition simplifyASName (asn org isp : string) : string :=
  match assoc asn as_names with
  | Some n => n
  | None =>
      let raw := if (org =? "")%string then isp else org in
      let raw := TrimSpace raw in
      if (20 <? slen raw)%nat then
        match Fields raw with
        | f :: _ => f
        | [] => raw
        end
      else raw
  end.

Fixpoint as_nodes (hops : list HopMeta) (lastASN : string) : list ASNode :=
  match hops with
  | [] => []
  | h :: hops =>
      let ip := TrimSpace (hm_IP h) in
      if (ip =? "")%string || (ip =? "*")%string then as_nodes hops lastASN
      else
        let asn := hop_asn h ip in
        if (asn =? "")%string || (asn =? "*")%string || (asn =? "0")%string then as_nodes hops lastASN
        else
          let fullASN := "AS" +:+ asn in
          if (fullASN =? lastASN)%string then as_nodes hops lastASN
          else mkASNode fullASN (simplifyASName asn (hm_ASOrg h) (hm_ISP h)) :: as_nodes hops fullASN
  end.

Definition node_text (n : ASNode) : string :=
  if negb (an_Name n =? "")%string then an_ASN n +:+ " (" +:+ an_Name n +:+ ")" else an_ASN n.

Definition GenerateASPath (hops : list HopMeta) : string * list ASNode :=
  match as_nodes hops "" with
  | [] => ("", [])
  | nodes => (Join (node_text <$> nodes) " -> ", nodes)
  end.

(** ** [Lookup] *)

Record GeoInfo := mkGeo {
  g_IP : string; g_ASNumber : string; g_ASOrg : string; g_ISP : string; g_Country : string;
  g_CountryCode : string; g_City : string
}.

Definition no_geo : GeoInfo := mkGeo "" "" "" "" "" "" "".

(** A GET: [None] is a transport error; otherwise the status and the body, when it
    is JSON. *)
Class Http := http_get : string → option (Z * option json).

Section Lookup.
Context `{Http}.

(** The body of a 200 answer. *)
Definition get_ok (url : string) : option (option json) :=
  match http_get url with
  | Some (status, body) => if (status =? 200)%Z then Some body else None
  | None => None
  end.

Record nextTraceResponse := mkNxt {
  nx_Asnumber : string; nx_Owner : string; nx_Isp : string; nx_Country : string;
  nx_CountryCode : string; nx_City : string
}.

Definition dec_nextTrace (j : json) : option nextTraceResponse :=
  o ← members j;
  a ← field "asnumber" dec_string "" o;
  w ← field "owner" dec_string "" o;
  i ← field "isp" dec_string "" o;
  c ← field "country" dec_string "" o;
  cc ← field "country_code" dec_string "" o;
  ct ← field "city" dec_string "" o;
  Some (mkNxt a w i c cc ct).

Definition geo_of_nxt (n : nextTraceResponse) : GeoInfo :=
  mkGeo "" (nx_Asnumber n) (nx_Owner n) (nx_Isp n) (nx_Country n) (nx_CountryCode n) (nx_City n).

Definition nxtrace_url (ip : string) : string := "https://api.nxtrace.org/v1/ip/" +:+ ip.
Definition leo_url (ip : string) : string := "https://api.leo.moe/ip?ip=" +:+ ip.
Definition ipapi_url (ip : string) : string :=
  "http://ip-api.com/json/" +:+ ip +:+ "?fields=status,country,countryCode,city,isp,org,as".

(** The answer, and the URLs that were asked. *)
Definition queryNextTrace (ipStr : string) : GeoInfo * list string :=
  match get_ok (nxtrace_url ipStr) with
  | Some body =>
      (match body ≫= dec_nextTrace with Some nxt => geo_of_nxt nxt | None => no_geo end, [nxtrace_url ipStr])
  | None =>
      (match get_ok (leo_url ipStr) with
       | Some body =>
           match body ≫= dec_nextTrace with
           | Some nxt =>
               if negb (nx_Asnumber nxt =? "")%string || negb (nx_Owner nxt =? "")%string
               then geo_of_nxt nxt else no_geo
           | None => no_geo
           end
       | None => no_geo
       end, [nxtrace_url ipStr; leo_url ipStr])
  end.

Record ipApiResponse := mkIpApi {
  ia_Status : string; ia_Country : string; ia_CountryCode : string; ia_City : string; ia_ISP : string;
  ia_Org : string; ia_AS : string
}.

Definition dec_ipApi (j : json) : option ipApiResponse :=
  o ← members j;
  s ← field "status" dec_string "" o;
  c ← field "country" dec_string "" o;
  cc ← field "countryCode" dec_string "" o;
  ct ← field "city" dec_string "" o;
  i ← field "isp" dec_string "" o;
  g ← field "org" dec_string "" o;
  a ← field "as" dec_string "" o;
  Some (mkIpApi s c cc ct i g a).

Definition queryIPApi (ipStr : string) : GeoInfo * list string :=
  (match get_ok (ipapi_url ipStr) with
   | Some body =>
       match body ≫= dec_ipApi with
       | Some r =>
           if negb (ia_Status r =? "success")%string then no_geo
           else
             let asNum := match Fields (ia_AS r) with
                          | p :: _ => if HasPrefix p "AS" then p else ""
                          | [] => ""
                          end in
             mkGeo "" asNum (ia_Org r) (ia_ISP r) (ia_Country r) (ia_CountryCode r) (ia_City r)
       | None => no_geo
       end
   | None => no_geo
   end, [ipapi_url ipStr]).

Definition geo_ip (ip : string) (g : GeoInfo) : GeoInfo :=
  mkGeo ip (g_ASNumber g) (g_ASOrg g) (g_ISP g) (g_Country g) (g_CountryCode g) (g_City g).

(** The cache after the lookup, the answer, and the URLs asked. *)
Definition Lookup (ipStr : string) (cache : gmap string GeoInfo) : gmap string GeoInfo * GeoInfo * list string :=
  let ipStr := TrimSpace ipStr in
  if (ipStr =? "")%string || (ipStr =? "*")%string then (cache, geo_ip ipStr no_geo, [])
  else
    match cache !! ipStr with
    | Some info => (cache, info, [])
    | None =>
        match ParseIP ipStr with
        | None => (cache, geo_ip ipStr no_geo, [])
        | Some parsed =>
            if isPrivateOrReserved parsed then
              let info := mkGeo ipStr "*" "Private / LAN" "Local Network" "Local" "" "" in
              (<[ipStr := info]> cache, info, [])
            else
              let '(info, urls) := queryNextTrace ipStr in
              let '(info, urls) :=
                if (g_ASNumber info =? "")%string && (g_ISP info =? "")%string then
                  let '(info, more) := queryIPApi ipStr in (info, urls ++ more)
                else (info, urls) in
              let info := geo_ip ipStr info in
              (<[ipStr := info]> cache, info, urls)
        end
    end.
End Lookup.

(** ** The classification as a table

    The first row whose condition holds on the visible hops names the route. *)

Definition hop := (string * string)%type.
Definition kind (inIP : string → bool) (asns : list string) (h : hop) : bool := inIP h.1 || asn_is h.2 asns.

Definition k_cn2 : hop → bool := kind isCN2IP ["4809"].
Definition k_core (h : hop) : bool := k_cn2 h && HasPrefix h.1 "59.43.".
Definition k_ctg : hop → bool := kind isCTGNetIP ["23764"].
Definition k_163 : hop → bool := kind is163IP ["4134"; "4847"].
Definition k_9929 : hop → bool := kind is9929IP ["9929"].
Definition k_10099 : hop → bool := kind is10099IP ["10099"].
Definition k_4837 : hop → bool := kind is4837IP ["4837"; "4808"].
Definition k_cmin2 : hop → bool := kind isCMIN2IP ["58807"].
Definition k_cmi : hop → bool := kind isCMIIP ["58453"].
Definition k_cmnet : hop → bool := kind isCMNETIP ["9808"].

(** Some [g] hop comes after the first [f] hop. *)
Fixpoint after (f g : hop → bool) (l : list hop) : bool :=
  match l with
  | [] => false
  | x :: l => if f x then existsb g l else after f g l
  end.

(** The first [g] hop comes after the first [f] hop. *)
Fixpoint first_after (f g : hop → bool) (l : list hop) : bool :=
  match l with
  | [] => false
  | x :: l => if f x then negb (g x) && existsb g l else if g x then false else first_after f g l
  end.

Definition route_table : list ((list hop → bool) * string) :=
  [(after k_cn2 k_163, "电信 CN2 GT");
   (existsb k_core, "电信 CN2 GIA");
   (existsb k_cn2, "电信 CN2");
   (λ l, existsb k_ctg l && existsb k_163 l, "电信 CTGNet->163");
   (existsb k_ctg, "电信 CTGNet");
   (existsb k_163, "电信 163");
   (first_after k_10099 k_9929, "联通 10099->9929");
   (first_after k_10099 k_4837, "联通 10099->4837");
   (existsb k_10099, "联通 10099");
   (existsb k_9929, "联通 9929 (A网)");
   (existsb k_4837, "联通 4837 (169)");
   (first_after k_cmin2 k_cmi, "移动 CMIN2->CMI");
   (λ l, existsb k_cmin2 l && existsb k_cmnet l, "移动 CMIN2->CMNET");
   (existsb k_cmin2, "移动 CMIN2");
   (λ l, existsb k_cmi l && existsb k_cmnet l, "移动 CMI->CMNET");
   (existsb k_cmi, "移动 CMI");
   (existsb k_cmnet, "移动 CMNET")].

Definition table_name (l : list hop) : option string :=
  snd <$> List.find (λ r : (list hop → bool) * string, fst r l) route_table.

(** ** The loops and the table agree *)

Fixpoint first_idx (f : hop → bool) (i : Z) (l : list hop) : Z :=
  match l with [] => (-1)%Z | x :: l => if f x then i else first_idx f (i + 1) l end.
Fixpoint last_idx (f : hop → bool) (i : Z) (l : list hop) (d : Z) : Z :=
  match l with [] => d | x :: l => last_idx f (i + 1) l (if f x then i else d) end.

Lemma first_idx_ge f i l : (0 <= i)%Z → existsb f l = true → (i <= first_idx f i l)%Z.
Proof.
  revert i. induction l as [|x l IH]; intros i Hi; simpl; [done|].
  destruct (f x); simpl; [lia|]. intros E. specialize (IH (i + 1)%Z ltac:(lia) E). lia.
Qed.

Lemma first_idx_none f i l : existsb f l = false → first_idx f i l = (-1)%Z.
Proof.
  revert i. induction l as [|x l IH]; intros i; simpl; [done|]. destruct (f x); [done|]. apply IH.
Qed.

Lemma last_idx_some f i l d : existsb f l = true → (i <= last_idx f i l d)%Z.
Proof.
  revert i d. induction l as [|x l IH]; intros i d; simpl; [done|].
  destruct (existsb f l) eqn:E; [intros _; specialize (IH (i + 1)%Z (if f x then i else d) eq_refl); lia|].
  rewrite orb_false_r. intros ->.
  assert (Hn : ∀ j e, last_idx f j l e = e).
  { clear -E. induction l as [|y l IH]; intros j e; simpl in *; [done|]. apply orb_false_iff in E as [-> ?]. by apply IH. }
  rewrite Hn. lia.
Qed.

Lemma last_idx_none f i l d : existsb f l = false → last_idx f i l d = d.
Proof.
  revert i d. induction l as [|x l IH]; intros i d; simpl; [done|].
  intros [-> ?]%orb_false_iff. by apply IH.
Qed.

Lemma after_existsb f g l : after f g l = true → existsb f l = true ∧ existsb g l = true.
Proof.
  induction l as [|x l IH]; simpl; [done|]. destruct (f x).
  - intros ->. split; [done|]. by rewrite orb_true_r.
  - intros [-> ->]%IH. split; [done|]. by rewrite orb_true_r.
Qed.

Lemma after_idx f g : ∀ l i d, (0 <= i)%Z → (d < i)%Z → existsb f l = true →
  existsb g l && (first_idx f i l <? last_idx g i l d)%Z = after f g l.
Proof.
  induction l as [|x l IH]; intros i d Hi Hd; simpl; [done|]. destruct (f x) eqn:Ef; simpl.
  - intros _. destruct (existsb g l) eqn:Eg.
    + rewrite orb_true_r. simpl. apply Z.ltb_lt. pose proof (last_idx_some g (i + 1) l (if g x then i else d) Eg). lia.
    + rewrite last_idx_none by done. destruct (g x); simpl; [apply Z.ltb_irrefl|done].
  - intros E. destruct (existsb g l) eqn:Eg.
    + rewrite orb_true_r. rewrite <- (IH (i + 1)%Z (if g x then i else d)); [done|lia| |done].
      destruct (g x); lia.
    + destruct (after f g l) eqn:Ea; [by apply after_existsb in Ea as [_ ?]; congruence|].
      rewrite last_idx_none by done. pose proof (first_idx_ge f (i + 1) l ltac:(lia) E).
      destruct (g x); simpl; [apply Z.ltb_ge; lia|done].
Qed.

Lemma first_after_existsb f g l : first_after f g l = true → existsb f l = true.
Proof.
  induction l as [|x l IH]; simpl; [done|]. destruct (f x); [done|]. by destruct (g x).
Qed.

Lemma first_after_idx f g : ∀ l i, (0 <= i)%Z → existsb f l = true →
  existsb g l && (first_idx f i l <? first_idx g i l)%Z = first_after f g l.
Proof.
  induction l as [|x l IH]; intros i Hi; simpl; [done|]. destruct (f x) eqn:Ef; simpl.
  - intros _. destruct (g x) eqn:Eg; simpl; [apply Z.ltb_irrefl|].
    destruct (existsb g l) eqn:E; [|done]. simpl. apply Z.ltb_lt.
    pose proof (first_idx_ge g (i + 1) l ltac:(lia) E). lia.
  - intros E. destruct (g x) eqn:Eg; simpl.
    + apply Z.ltb_ge. pose proof (first_idx_ge f (i + 1) l ltac:(lia) E). lia.
    + apply IH; [lia|done].
Qed.

(** The index a loop records first, given what it had recorded. *)
Definition keep_first (f : hop → bool) (i : Z) (l : list hop) (d : Z) : Z :=
  if (d =? -1)%Z then first_idx f i l else d.

Lemma keep_first_cons f i x l d :
  (0 <= i)%Z → keep_first f (i + 1) l (if f x then if (d =? -1)%Z then i else d else d) = keep_first f i (x :: l) d.
Proof.
  intros Hi. unfold keep_first. simpl. destruct (f x); [|done].
  destruct (Z.eqb_spec d (-1)) as [->|Hd].
  - destruct (Z.eqb_spec i (-1)); [lia|done].
  - by apply Z.eqb_neq in Hd as ->.
Qed.

Lemma telecom_loop_spec l : ∀ i s, (0 <= i)%Z →
  range_loop telecom_step i l s =
  mkTelecom (hasCN2 s || existsb k_cn2 l) (hasCN2Core s || existsb k_core l) (has163 s || existsb k_163 l)
    (hasCTGNet s || existsb k_ctg l) (keep_first k_cn2 i l (cn2HopIndex s)) (last_idx k_163 i l (last163Index s)).
Proof.
  induction l as [|[ip asn] l IH]; intros i [a b c d e f] Hi.
  - simpl. rewrite !orb_false_r. unfold keep_first. simpl. by destruct (Z.eqb_spec e (-1)) as [->|].
  - cbn [range_loop]. rewrite IH by lia. cbn [existsb last_idx]. rewrite <- (keep_first_cons k_cn2) by done.
    change (k_core (ip, asn)) with ((isCN2IP ip || asn_is asn ["4809"]) && HasPrefix ip "59.43.").
    change (k_cn2 (ip, asn)) with (isCN2IP ip || asn_is asn ["4809"]).
    change (k_ctg (ip, asn)) with (isCTGNetIP ip || asn_is asn ["23764"]).
    change (k_163 (ip, asn)) with (is163IP ip || asn_is asn ["4134"; "4847"]).
    unfold telecom_step. cbn [fst snd hasCN2 hasCN2Core has163 hasCTGNet cn2HopIndex last163Index].
    destruct (isCN2IP ip || asn_is asn ["4809"]), (isCTGNetIP ip || asn_is asn ["23764"]),
      (is163IP ip || asn_is asn ["4134"; "4847"]);
      cbn [fst snd hasCN2 hasCN2Core has163 hasCTGNet cn2HopIndex last163Index andb];
      by rewrite ?orb_true_r, ?orb_false_r, ?orb_true_l, ?orb_false_l, <- ?orb_assoc.
Qed.

Lemma unicom_loop_spec l : ∀ i s, (0 <= i)%Z →
  range_loop unicom_step i l s =
  mkUnicom (has9929 s || existsb k_9929 l) (has10099 s || existsb k_10099 l) (has4837 s || existsb k_4837 l)
    (keep_first k_10099 i l (first10099 s)) (keep_first k_9929 i l (first9929 s)) (keep_first k_4837 i l (first4837 s)).
Proof.
  induction l as [|[ip asn] l IH]; intros i [a b c d e f] Hi.
  - simpl. rewrite !orb_false_r. unfold keep_first. simpl.
    destruct (Z.eqb_spec d (-1)) as [->|], (Z.eqb_spec e (-1)) as [->|], (Z.eqb_spec f (-1)) as [->|]; done.
  - cbn [range_loop]. rewrite IH by lia. cbn [existsb]. rewrite <- !keep_first_cons by done.
    change (k_9929 (ip, asn)) with (is9929IP ip || asn_is asn ["9929"]).
    change (k_10099 (ip, asn)) with (is10099IP ip || asn_is asn ["10099"]).
    change (k_4837 (ip, asn)) with (is4837IP ip || asn_is asn ["4837"; "4808"]).
    unfold unicom_step. cbn [fst snd has9929 has10099 has4837 first10099 first9929 first4837].
    destruct (is9929IP ip || asn_is asn ["9929"]), (is10099IP ip || asn_is asn ["10099"]),
      (is4837IP ip || asn_is asn ["4837"; "4808"]);
      cbn [fst snd has9929 has10099 has4837 first10099 first9929 first4837];
      by rewrite ?orb_true_r, ?orb_false_r, ?orb_true_l, ?orb_false_l.
Qed.

Lemma mobile_loop_spec l : ∀ i s, (0 <= i)%Z →
  range_loop mobile_step i l s =
  mkMobile (hasCMIN2 s || existsb k_cmin2 l) (hasCMI s || existsb k_cmi l) (hasCMNET s || existsb k_cmnet l)
    (keep_first k_cmin2 i l (firstCMIN2 s)) (keep_first k_cmi i l (firstCMI s)).
Proof.
  induction l as [|[ip asn] l IH]; intros i [a b c d e] Hi.
  - simpl. rewrite !orb_false_r. unfold keep_first. simpl.
    destruct (Z.eqb_spec d (-1)) as [->|], (Z.eqb_spec e (-1)) as [->|]; done.
  - cbn [range_loop]. rewrite IH by lia. cbn [existsb]. rewrite <- !keep_first_cons by done.
    change (k_cmin2 (ip, asn)) with (isCMIN2IP ip || asn_is asn ["58807"]).
    change (k_cmi (ip, asn)) with (isCMIIP ip || asn_is asn ["58453"]).
    change (k_cmnet (ip, asn)) with (isCMNETIP ip || asn_is asn ["9808"]).
    unfold mobile_step. cbn [fst snd hasCMIN2 hasCMI hasCMNET firstCMIN2 firstCMI].
    destruct (isCMIN2IP ip || asn_is asn ["58807"]), (isCMIIP ip || asn_is asn ["58453"]),
      (isCMNETIP ip || asn_is asn ["9808"]);
      cbn [fst snd hasCMIN2 hasCMI hasCMNET firstCMIN2 firstCMI];
      by rewrite ?orb_true_r, ?orb_false_r, ?orb_true_l, ?orb_false_l.
Qed.

Lemma core_has_cn2 l : existsb k_core l = true → existsb k_cn2 l = true.
Proof.
  intros (x & Hx & E)%existsb_exists. apply existsb_exists. exists x. split; [done|].
  by apply andb_true_iff in E as [? _].
Qed.

Lemma keep_first_start f l : keep_first f 0 l (-1) = first_idx f 0 l.
Proof. done. Qed.

Lemma after_full f g l :
  existsb f l && (existsb g l && (first_idx f 0 l <? last_idx g 0 l (-1))%Z) = after f g l.
Proof.
  destruct (existsb f l) eqn:E; simpl; [by apply after_idx|].
  destruct (after f g l) eqn:Ea; [|done]. apply after_existsb in Ea as [? _]. congruence.
Qed.

Lemma first_after_full f g l :
  existsb f l && (existsb g l && (first_idx f 0 l <? first_idx g 0 l)%Z) = first_after f g l.
Proof.
  destruct (existsb f l) eqn:E; simpl; [by apply first_after_idx|].
  destruct (first_after f g l) eqn:Ea; [|done]. apply first_after_existsb in Ea. congruence.
Qed.

(** ** Properties *)

(** C18. The three carrier loops with their flags and indices compute the table:
    a route with some visible hop is named by the first row that holds on its
    visible hops, in the precedence Telecom, Unicom, Mobile, then by its first
    academic hop, then by its first known transit carrier, and otherwise is
    standard transit; without visible hops it is hidden. *)
Theorem ClassifyRoute_table hops targetHost targetISP :
  ClassifyRoute hops targetHost targetISP =
  match hops, visible hops with
  | [], _ => "Unknown"
  | _, [] => "Timeout / Hidden"
  | _, l =>
      match table_name l, education_name l with
      | Some n, _ => n
      | None, Some n => n
      | None, None => default "Standard IP Transit" (transit_name l)
      end
  end.
Proof.
  unfold ClassifyRoute. destruct hops as [|h hops]; [done|]. destruct (visible (h :: hops)) as [|x v]; [done|].
  generalize (x :: v) as l. intros l. unfold telecom_name, unicom_name, mobile_name, table_name, route_table.
  rewrite telecom_loop_spec, unicom_loop_spec, mobile_loop_spec by done.
  cbn [hasCN2 hasCN2Core has163 hasCTGNet cn2HopIndex last163Index has9929 has10099 has4837 first10099
       first9929 first4837 hasCMIN2 hasCMI hasCMNET firstCMIN2 firstCMI orb List.find fst].
  rewrite !keep_first_start, <- after_full, <- !first_after_full.
  destruct (existsb k_core l) eqn:Ec; [rewrite (core_has_cn2 l Ec)|];
    repeat first
      [ reflexivity
      | match goal with |- context [existsb ?f l] => destruct (existsb f l) end; simpl
      | match goal with |- context [(?a <? ?b)%Z] => destruct (a <? b)%Z end; simpl ].
Qed.

(** The AS numbers of the visible hops that have one. *)
Definition known_asns (hops : list HopMeta) : list string :=
  omap (λ x : hop, if (x.2 =? "")%string || (x.2 =? "*")%string || (x.2 =? "0")%string then None
                   else Some ("AS" +:+ x.2)) (visible hops).

(** A list without its immediate repetitions. *)
Fixpoint squeeze (last : string) (l : list string) : list string :=
  match l with
  | [] => []
  | x :: l => if (x =? last)%string then squeeze last l else x :: squeeze x l
  end.

Lemma as_nodes_squeeze hops last : an_ASN <$> as_nodes hops last = squeeze last (known_asns hops).
Proof.
  revert last. induction hops as [|h hops IH]; intros last; [done|].
  unfold known_asns, visible. cbn [as_nodes omap list_omap].
  destruct ((TrimSpace (hm_IP h) =? "")%string || (TrimSpace (hm_IP h) =? "*")%string); [apply IH|].
  cbn [omap list_omap fst snd]. set (a := hop_asn h (TrimSpace (hm_IP h))).
  destruct ((a =? "")%string || (a =? "*")%string || (a =? "0")%string); [apply IH|]. cbn [squeeze].
  destruct ("AS" +:+ a =? last)%string; [apply IH|]. cbn. f_equal. apply IH.
Qed.

Lemma squeeze_elem last l x : x ∈ squeeze last l ∨ x = last ↔ x ∈ l ∨ x = last.
Proof.
  revert last. induction l as [|y l IH]; intros last; simpl; [done|].
  destruct (String.eqb_spec y last) as [->|Hne]; rewrite ?elem_of_cons.
  - rewrite IH. tauto.
  - specialize (IH y). tauto.
Qed.

Lemma squeeze_distinct last l : ∀ i x y,
  (last :: squeeze last l) !! i = Some x → (last :: squeeze last l) !! S i = Some y → x ≠ y.
Proof.
  revert last. induction l as [|z l IH]; intros last i x y; simpl; [done|].
  destruct (String.eqb_spec z last) as [->|Hne]; [apply IH|].
  destruct i as [|i]; simpl; [by intros [= <-] [= <-] ?|]. apply (IH z i x y).
Qed.

Lemma known_asns_nonempty hops x : x ∈ known_asns hops → x ≠ "".
Proof.
  unfold known_asns. rewrite list_elem_of_omap. intros (e & _ & He). by destruct (_ || _); simplify_eq/=.
Qed.

Lemma as_nodes_nonempty hops last x : x ∈ an_ASN <$> as_nodes hops last → x ≠ "".
Proof.
  revert last. induction hops as [|h hops IH]; intros last; cbn [as_nodes].
  - intros Hin. by apply not_elem_of_nil in Hin.
  - repeat case_match; try apply IH. cbn. intros [->|Hin]%elem_of_cons; [done|by eapply IH].
Qed.

Lemma GenerateASPath_eq hops :
  GenerateASPath hops = (Join (node_text <$> as_nodes hops "") " -> ", as_nodes hops "").
Proof. unfold GenerateASPath. by destruct (as_nodes hops ""). Qed.

(** The AS path lists exactly the known AS numbers of the visible hops, in
    order, never the same one twice in a row, and its text joins the nodes. *)
Theorem GenerateASPath_spec hops :
  let '(text, nodes) := GenerateASPath hops in
  an_ASN <$> nodes = squeeze "" (known_asns hops) ∧
  (∀ asn, asn ∈ an_ASN <$> nodes ↔ asn ∈ known_asns hops) ∧
  (∀ i x y, (an_ASN <$> nodes) !! i = Some x → (an_ASN <$> nodes) !! S i = Some y → x ≠ y) ∧
  text = Join (node_text <$> nodes) " -> ".
Proof.
  rewrite GenerateASPath_eq. cbv zeta. rewrite as_nodes_squeeze.
  assert (Hs : ∀ asn, asn ∈ squeeze "" (known_asns hops) → asn ≠ "").
  { intros asn Hin. assert (asn ∈ an_ASN <$> as_nodes hops "") as Hn by by rewrite as_nodes_squeeze.
    by eapply as_nodes_nonempty. }
  split_and!; [done| | |done].
  - intros asn. pose proof (squeeze_elem "" (known_asns hops) asn) as Hq. split; intros Hin.
    + destruct (proj1 Hq (or_introl Hin)) as [?|Hx]; [done|]. by destruct (Hs asn Hin).
    + destruct (proj2 Hq (or_introl Hin)) as [?|Hx]; [done|]. by destruct (known_asns_nonempty hops asn Hin).
  - intros i x y Hx Hy. exact (squeeze_distinct "" _ (S i) x y Hx Hy).
Qed.

(** A lookup asks the network only about a well-formed public address that
    is not cached, so private addresses never leave the Host; asking again
    answers the same from the cache; and no other cache entry changes. *)
Theorem Lookup_cached `{Http} ip cache :
  let '(cache', info, urls) := Lookup ip cache in
  (urls ≠ [] → cache !! TrimSpace ip = None ∧
     ∃ a, ParseIP (TrimSpace ip) = Some a ∧ isPrivateOrReserved a = false) ∧
  Lookup ip cache' = (cache', info, []) ∧
  (∀ k, k ≠ TrimSpace ip → cache' !! k = cache !! k).
Proof.
  unfold Lookup. set (s := TrimSpace ip).
  destruct ((s =? "")%string || (s =? "*")%string) eqn:E1; [done|].
  destruct (cache !! s) as [info|] eqn:E2; [rewrite E2; done|].
  destruct (ParseIP s) as [a|] eqn:E3; [|rewrite E2; done].
  destruct (isPrivateOrReserved a) eqn:E4.
  { rewrite lookup_insert_eq. split_and!; [done|done|]. intros k ?. by rewrite lookup_insert_ne. }
  destruct (queryNextTrace s) as [i1 u1].
  destruct (if _ && _ then _ else _) as [i2 u2].
  rewrite lookup_insert_eq. split_and!; [by eauto|done|]. intros k ?. by rewrite lookup_insert_ne.
Qed.

(** ** Tests *)

Definition test_hop (ip : string) : HopMeta := mkHopMeta ip "" "" "".

Example ClassifyRoute_tests :
  ClassifyRoute [test_hop "59.43.1.1"; test_hop "202.97.1.1"] "" "" = "电信 CN2 GT" ∧
  ClassifyRoute [test_hop "202.97.1.1"; test_hop "59.43.1.1"] "" "" = "电信 CN2 GIA" ∧
  ClassifyRoute [test_hop "162.219.85.1"; test_hop "210.51.0.1"] "" "" = "联通 10099->9929" ∧
  ClassifyRoute [test_hop "*"] "" "" = "Timeout / Hidden" ∧
  ClassifyRoute [mkHopMeta "1.1.1.1" "AS13335" "" ""] "" "" = "Cloudflare" ∧
  fst (GenerateASPath [mkHopMeta "1.1.1.1" "AS13335" "" ""; test_hop "223.120.1.1"; test_hop "223.119.9.9"])
    = "AS13335 (Cloudflare) -> AS58453 (CMI)".
Proof. by vm_compute. Qed.
