(* ===== verification/Socks5.v ===== *)
(** * The SOCKS5 entrance of the tunnel client ([tunnel/cmd/tunnel/socks5.go])

    The greeting, the request and what follows, on the bytes a client sends; a
    string is what the connection gives before it ends or the deadline passes. *)
From S2P Require Import Prelude GoStrings GoNet GoEncoding IpUtil.

Definition socksVersion : ascii := "005".
Definition socksNoAuth : ascii := "000".
Definition socksNoAccept : ascii := "255".
Definition socksCmdConnect : ascii := "001".
Definition socksAtypIPv4 : ascii := "001".
Definition socksAtypDomain : ascii := "003".
Definition socksAtypIPv6 : ascii := "004".

Definition socksReplyOK : ascii := "000".
Definition socksReplyHostUnreachable : ascii := "004".
Definition socksReplyCmdNotSupported : ascii := "007".
Definition socksReplyAtypNotSupported : ascii := "008".

(** [io.ReadFull] of [n] bytes. *)
Definition read_full (n : nat) (s : string) : option (string * string) :=
  if (slen s <? n)%nat then None else Some (str_take n s, str_drop n s).

(** The bytes of an address. *)
Fixpoint octets (s : string) : list Z :=
  match s with
  | EmptyString => []
  | String c s => byte_of c :: octets s
  end.

(** Result: what is written to the client, and the input after the greeting if it
    was accepted. [write_ok]: the client takes the answer. *)
Definition socksNegotiate (write_ok : bool) (input : string) : string * option string :=
  match read_full 2 input with
  | Some (String v (String n _), rest) =>
      if negb (Ascii.eqb v socksVersion) then ("", None)
      else
        match read_full (Z.to_nat (byte_of n)) rest with
        | None => ("", None)
        | Some (methods, rest) =>
            if negb (bool_decide (IndexByte methods socksNoAuth ≠ None))
            then (String socksVersion (String socksNoAccept ""), None)
            else (String socksVersion (String socksNoAuth ""), if write_ok then Some rest else None)
        end
  | _ => ("", None)
  end.

Definition socksReadAddr (input : string) (atyp : ascii) : option (string * string) :=
  let host :=
    if Ascii.eqb atyp socksAtypIPv4 then '(buf, rest) ← read_full 4 input; Some (IPString (octets buf), rest)
    else if Ascii.eqb atyp socksAtypIPv6 then '(buf, rest) ← read_full 16 input; Some (IPString (octets buf), rest)
    else if Ascii.eqb atyp socksAtypDomain then
      match input with
      | String n rest => read_full (Z.to_nat (byte_of n)) rest
      | EmptyString => None
      end
    else None in
  '(host, rest) ← host;
  match read_full 2 rest with
  | Some (String hi (String lo _), rest) =>
      let port := (byte_of hi * 256 + byte_of lo)%Z in
      if (host =? "")%string || (port =? 0)%Z then None else Some (JoinHostPort host (Itoa port), rest)
  | _ => None
  end.

Definition socksWriteReply (reply : ascii) : string :=
  String socksVersion (String reply (String "000" (String socksAtypIPv4 (bytes (repeat 0%N 6))))).

(** What is written to the client, and the target with the input after it. *)
Definition socksReadRequest (input : string) : string * option (string * string) :=
  match read_full 4 input with
  | Some (String v (String cmd (String _ (String atyp _))), rest) =>
      if negb (Ascii.eqb v socksVersion) then ("", None)
      else if negb (Ascii.eqb cmd socksCmdConnect) then (socksWriteReply socksReplyCmdNotSupported, None)
      else
        match socksReadAddr rest atyp with
        | None => (socksWriteReply socksReplyAtypNotSupported, None)
        | Some r => ("", Some r)
        end
  | _ => ("", None)
  end.

(** How far a connection came: the target that was dialled, and, if the relay
    began, the client's bytes that the target gets - those already buffered first,
    then what the relay reads. *)
Record served := mkServed { sv_client : string; sv_dialed : option string; sv_upstream : option string }.

(** [dial]: the outcome of [dialer.Dial]; [writes]: whether the client still takes
    the three answers; [buffered]: how much of the input had been read ahead. *)
Definition handleSOCKS5 (dial : string → bool) (greeted reply_ok : bool) (buffered : nat) (input : string) : served :=
  match socksNegotiate greeted input with
  | (out, None) => mkServed out None None
  | (out, Some rest) =>
      match socksReadRequest rest with
      | (out', None) => mkServed (out +:+ out') None None
      | (out', Some (target, rest)) =>
          if negb (dial target) then mkServed (out +:+ out' +:+ socksWriteReply socksReplyHostUnreachable) (Some target) None
          else
            mkServed (out +:+ out' +:+ socksWriteReply socksReplyOK) (Some target)
              (if reply_ok then Some (str_take buffered rest +:+ str_drop buffered rest) else None)
      end
  end.

(** ** What a client sends (RFC 1928) *)

Inductive address :=
  | IPv4 (bytes4 : string)
  | IPv6 (bytes16 : string)
  | Domain (name : string).

Definition atyp (a : address) : ascii :=
  match a with IPv4 _ => socksAtypIPv4 | IPv6 _ => socksAtypIPv6 | Domain _ => socksAtypDomain end.
Definition addr_bytes (a : address) : string :=
  match a with IPv4 b => b | IPv6 b => b | Domain n => String (chr (Z.of_nat (slen n))) n end.
Definition host_of (a : address) : string :=
  match a with IPv4 b => IPString (octets b) | IPv6 b => IPString (octets b) | Domain n => n end.
Definition addr_ok (a : address) : Prop :=
  match a with
  | IPv4 b => slen b = 4
  | IPv6 b => slen b = 16
  | Domain n => (1 <= slen n <= 255)%nat
  end.

Definition greeting (methods : string) : string := String socksVersion (String (chr (Z.of_nat (slen methods))) methods).
Definition connect_request (cmd rsv : ascii) (a : address) (port : Z) : string :=
  String socksVersion (String cmd (String rsv (String (atyp a) (addr_bytes a +:+ String (chr (port / 256)) (String (chr (port mod 256)) ""))))).

(** ** Lemmas *)

Lemma read_full_app n a b : slen a = n → read_full n (a +:+ b) = Some (a, b).
Proof.
  intros <-. unfold read_full. rewrite slen_app. destruct (Nat.ltb_spec (slen a + slen b) (slen a)); [lia|].
  by rewrite str_take_app, str_drop_app.
Qed.

Lemma read_full_split n s a b : read_full n s = Some (a, b) → s = a +:+ b.
Proof. unfold read_full. destruct (_ <? _)%nat; [done|]. intros [= <- <-]. by rewrite str_take_drop. Qed.

Lemma byte_of_len n : (n <= 255)%nat → Z.to_nat (byte_of (chr (Z.of_nat n))) = n.
Proof. intros Hn. rewrite byte_of_chr by lia. lia. Qed.

(** *** The text of an address *)

Definition addr_char (c : ascii) : bool :=
  (is_digit c || ((97 <=? byte_of c) && (byte_of c <=? 102))%Z || Ascii.eqb c ":" || Ascii.eqb c ".").

Lemma hex_digit_char d : (0 <= d < 16)%Z → addr_char (hex_digit d) = true.
Proof.
  intros Hd. assert (Hall : forallb (λ n, addr_char (hex_digit (Z.of_nat n))) (seq 0 16) = true) by by vm_compute.
  rewrite forallb_forall in Hall. specialize (Hall (Z.to_nat d)). rewrite Z2Nat.id in Hall by lia. apply Hall, in_seq. lia.
Qed.

Lemma hex_digits_char f n acc : all_bytes addr_char acc = true → all_bytes addr_char (hex_digits f n acc) = true.
Proof.
  revert n acc. induction f as [|f IH]; intros n acc Ha; [done|]. cbn [hex_digits].
  assert (Hc : all_bytes addr_char (String (hex_digit (n mod 16)) acc) = true).
  { cbn [all_bytes]. by rewrite hex_digit_char by (apply Z.mod_pos_bound; lia). }
  destruct (n <? 16)%Z; [done|]. by apply IH.
Qed.

Lemma Join_ne x y l sep : sep ≠ "" → Join (x :: y :: l) sep ≠ "".
Proof. intros Hs. rewrite Join_cons. destruct x; [|done]. by destruct sep. Qed.

Lemma octets_ok s : Forall is_octet (octets s) ∧ length (octets s) = slen s.
Proof.
  induction s as [|c s [IH1 IH2]]; [done|]. cbn. split; [|by rewrite IH2]. constructor; [|done].
  pose proof (byte_of_range c). unfold is_octet. lia.
Qed.

Lemma v6_string_char ip : all_bytes addr_char (v6_string ip) = true.
Proof.
  assert (Hj : ∀ ws, all_bytes addr_char (Join (FormatHex <$> ws) ":") = true).
  { intros ws. apply Join_all; [|by vm_compute]. apply Forall_fmap, Forall_true. intros n. by apply hex_digits_char. }
  unfold v6_string. destruct (best_run _ _ _ _) as [st len]. destruct (len =? 0)%nat; [apply Hj|].
  rewrite all_bytes_app, Hj. change ("::" +:+ ?x) with (String ":" (String ":" x)). cbn [all_bytes].
  rewrite Hj. by vm_compute.
Qed.

Lemma v4_string_char l : Forall is_octet l → all_bytes addr_char (v4_string l) = true.
Proof.
  intros Hl. apply Join_all; [|by vm_compute]. apply Forall_fmap. eapply Forall_impl; [exact Hl|]. intros b Hb.
  eapply (all_bytes_impl is_digit); [intros c Hc; unfold addr_char; by rewrite Hc|by apply Itoa_octet_digits].
Qed.

Lemma IPString_char ip : Forall is_octet ip → all_bytes addr_char (IPString ip) = true.
Proof.
  intros Hl. unfold IPString, To4. destruct (length ip =? 4)%nat; [by apply v4_string_char|].
  destruct (_ && _); [|apply v6_string_char]. apply v4_string_char. by apply Forall_drop.
Qed.

Lemma IPString_ne ip : length ip = 4 ∨ length ip = 16 → IPString ip ≠ "".
Proof.
  intros Hl. unfold IPString, To4.
  assert (H4 : ∀ l : list Z, length l = 4 → v4_string l ≠ "").
  { intros l E. destruct l as [|x [|y l]]; try done. by apply Join_ne. }
  destruct Hl as [E|E]; rewrite E; cbn [Nat.eqb]; [by apply H4|]. cbn [andb].
  case_bool_decide; [apply H4; by rewrite length_drop, E|].
  assert (Hw : ∀ l : list Z, length l = 16 → ∃ x y r, words16 l = x :: y :: r).
  { intros l El. destruct l as [|? [|? [|? [|? l]]]]; try done. by do 3 eexists. }
  destruct (Hw ip E) as (x & y & r & Ew). unfold v6_string. rewrite Ew. destruct (best_run _ _ _ _) as [st len].
  destruct (len =? 0)%nat; [by apply Join_ne|]. destruct (Join _ _); done.
Qed.

Lemma addr_char_host s : all_bytes addr_char s = true → host_ok s ∧ all_bytes printable s = true.
Proof.
  intros Hs. split; [split; (eapply all_bytes_no_byte; [|exact Hs]); by vm_compute|].
  eapply all_bytes_impl; [|exact Hs]. intros c Hc. destruct c as [[][][][][][][][]]; vm_compute in Hc |- *; done.
Qed.

(** A name that an address may carry: no brackets, no control bytes, no spaces. *)
Definition plain_host (a : address) : Prop :=
  match a with Domain n => host_ok n ∧ all_bytes printable n = true | _ => True end.

Lemma host_of_ok a : addr_ok a → host_of a ≠ "" ∧ (plain_host a → host_ok (host_of a) ∧ all_bytes printable (host_of a) = true).
Proof.
  destruct a as [b|b|n]; cbn; intros Ha.
  - destruct (octets_ok b) as [O1 O2]. split; [apply IPString_ne; left; lia|]. intros _. by apply addr_char_host, IPString_char.
  - destruct (octets_ok b) as [O1 O2]. split; [apply IPString_ne; right; lia|]. intros _. by apply addr_char_host, IPString_char.
  - split; [|done]. by destruct n; [cbn in Ha; lia|].
Qed.

(** *** The request *)

Lemma port_bytes port : (0 <= port <= 65535)%Z →
  (byte_of (chr (port / 256)) * 256 + byte_of (chr (port mod 256)))%Z = port.
Proof.
  intros Hp. assert (0 <= port / 256 < 256)%Z by (split; [apply Z.div_pos; lia|apply Z.div_lt_upper_bound; lia]).
  pose proof (Z.mod_pos_bound port 256). rewrite !byte_of_chr by lia. pose proof (Z.div_mod port 256). lia.
Qed.

Lemma read_addr a port rest :
  addr_ok a → (1 <= port <= 65535)%Z →
  socksReadAddr (addr_bytes a +:+ String (chr (port / 256)) (String (chr (port mod 256)) rest)) (atyp a)
  = Some (JoinHostPort (host_of a) (Itoa port), rest).
Proof.
  intros Ha Hp. pose proof (proj1 (host_of_ok a Ha)) as Hne. apply String.eqb_neq in Hne. unfold socksReadAddr.
  set (tail := String _ (String _ rest)).
  assert (Hh : (if Ascii.eqb (atyp a) socksAtypIPv4 then '(buf, r) ← read_full 4 (addr_bytes a +:+ tail); Some (IPString (octets buf), r)
    else if Ascii.eqb (atyp a) socksAtypIPv6 then '(buf, r) ← read_full 16 (addr_bytes a +:+ tail); Some (IPString (octets buf), r)
    else if Ascii.eqb (atyp a) socksAtypDomain then
      match addr_bytes a +:+ tail with
      | String n r => read_full (Z.to_nat (byte_of n)) r
      | EmptyString => None
      end
    else None) = Some (host_of a, tail)).
  { destruct a as [b|b|n]; cbn [atyp addr_bytes host_of addr_ok] in *.
    - change (Ascii.eqb socksAtypIPv4 socksAtypIPv4) with true. cbn iota. by rewrite (read_full_app 4).
    - change (Ascii.eqb socksAtypIPv6 socksAtypIPv4) with false. change (Ascii.eqb socksAtypIPv6 socksAtypIPv6) with true.
      cbn iota. by rewrite (read_full_app 16).
    - change (Ascii.eqb socksAtypDomain socksAtypIPv4) with false. change (Ascii.eqb socksAtypDomain socksAtypIPv6) with false.
      change (Ascii.eqb socksAtypDomain socksAtypDomain) with true. cbn iota. rewrite str_app_cons. rewrite byte_of_len by lia.
      by apply read_full_app. }
  rewrite Hh. cbn [mbind option_bind]. subst tail.
  change (String (chr (port / 256)) (String (chr (port mod 256)) rest)) with (String (chr (port / 256)) (String (chr (port mod 256)) "") +:+ rest).
  rewrite (read_full_app 2) by done. rewrite port_bytes by lia. rewrite Hne, (proj2 (Z.eqb_neq port 0)) by lia. done.
Qed.

Lemma negotiate_ok methods rest :
  (slen methods <= 255)%nat → IndexByte methods socksNoAuth ≠ None →
  socksNegotiate true (greeting methods +:+ rest) = (String socksVersion (String socksNoAuth ""), Some rest).
Proof.
  intros Hl Hm. unfold socksNegotiate, greeting. rewrite !str_app_cons.
  change (String socksVersion (String (chr (Z.of_nat (slen methods))) (methods +:+ rest)))
    with (String socksVersion (String (chr (Z.of_nat (slen methods))) "") +:+ (methods +:+ rest)).
  rewrite (read_full_app 2) by done. change (Ascii.eqb socksVersion socksVersion) with true. cbn [negb].
  rewrite byte_of_len, (read_full_app (slen methods)) by done. by rewrite (bool_decide_eq_true_2 _ Hm).
Qed.

Lemma socksNegotiate_out w input :
  fst (socksNegotiate w input) ∈ [""; String socksVersion (String socksNoAccept ""); String socksVersion (String socksNoAuth "")] ∧
  ∀ rest, snd (socksNegotiate w input) = Some rest →
    fst (socksNegotiate w input) = String socksVersion (String socksNoAuth "") ∧ ∃ pre, input = pre +:+ rest.
Proof.
  unfold socksNegotiate. destruct (read_full 2 input) as [[h rest]|] eqn:E; [|split; [by left|done]]. apply read_full_split in E as ->.
  destruct h as [|v [|n h]]; try (split; [by left|done]). destruct (negb (Ascii.eqb v socksVersion)); [split; [by left|done]|].
  destruct (read_full _ rest) as [[m r]|] eqn:E2; [|split; [by left|done]]. apply read_full_split in E2 as ->.
  destruct (negb _); [split; [by right; left|done]|]. split; [by right; right; left|]. cbn. intros r' Hr'. split; [done|].
  destruct w; [|done]. injection Hr' as <-. exists (String v (String n h) +:+ m). by rewrite str_app_assoc.
Qed.

Lemma socksReadAddr_ok input at_ t rest :
  socksReadAddr input at_ = Some (t, rest) → ∃ h p pre, t = JoinHostPort h (Itoa p) ∧ h ≠ "" ∧ (1 <= p <= 65535)%Z ∧ input = pre +:+ rest.
Proof.
  unfold socksReadAddr. match goal with |- (mbind _ ?x = _ → _) => set (host := x) end.
  assert (Hh : ∀ h r, host = Some (h, r) → ∃ pre, input = pre +:+ r).
  { subst host. intros h r. destruct (Ascii.eqb _ socksAtypIPv4); [|destruct (Ascii.eqb _ socksAtypIPv6); [|destruct (Ascii.eqb _ socksAtypDomain); [|done]]].
    - destruct (read_full 4 input) as [[b r']|] eqn:E; [|done]. cbn. intros [= _ <-]. apply read_full_split in E. by exists b.
    - destruct (read_full 16 input) as [[b r']|] eqn:E; [|done]. cbn. intros [= _ <-]. apply read_full_split in E. by exists b.
    - destruct input as [|n s]; [done|]. intros E%read_full_split. exists (String n h). by rewrite E. }
  destruct host as [[h r]|]; [|done]. cbn [mbind option_bind]. destruct (Hh h r eq_refl) as [pre ->].
  destruct (read_full 2 r) as [[q r']|] eqn:E; [|done]. apply read_full_split in E as ->. destruct q as [|hi [|lo q]]; try done.
  destruct (String.eqb_spec h ""); [done|]. pose proof (byte_of_range hi). pose proof (byte_of_range lo).
  destruct (Z.eqb_spec (byte_of hi * 256 + byte_of lo) 0); [done|]. cbn [orb]. intros [= <- <-].
  exists h, (byte_of hi * 256 + byte_of lo)%Z, (pre +:+ String hi (String lo q)). split_and!; try done; try lia. by rewrite str_app_assoc.
Qed.

Lemma socksReadRequest_out input :
  match socksReadRequest input with
  | (out, None) => out ∈ [""; socksWriteReply socksReplyCmdNotSupported; socksWriteReply socksReplyAtypNotSupported]
  | (out, Some (t, rest)) => out = "" ∧ ∃ h p pre, t = JoinHostPort h (Itoa p) ∧ h ≠ "" ∧ (1 <= p <= 65535)%Z ∧ input = pre +:+ rest
  end.
Proof.
  unfold socksReadRequest. destruct (read_full 4 input) as [[h rest]|] eqn:E; [|by left].
  pose proof (read_full_split _ _ _ _ E) as Ei.
  destruct h as [|v [|c [|r [|a h]]]]; try by left. destruct (negb (Ascii.eqb v _)); [by left|].
  destruct (negb (Ascii.eqb c _)); [by right; left|]. destruct (socksReadAddr rest a) as [[t r']|] eqn:Ea; [|by right; right; left].
  apply socksReadAddr_ok in Ea as (h' & p & pre & -> & Hh & Hp & ->). split; [done|].
  exists h', p, (String v (String c (String r (String a h))) +:+ pre). split_and!; try done; try lia. by rewrite str_app_assoc.
Qed.

Lemma handleSOCKS5_protocol dial reply_ok buffered methods rsv a port rest :
  (slen methods <= 255)%nat → IndexByte methods socksNoAuth ≠ None → addr_ok a → (1 <= port <= 65535)%Z →
  let target := JoinHostPort (host_of a) (Itoa port) in
  handleSOCKS5 dial true reply_ok buffered (greeting methods +:+ (connect_request socksCmdConnect rsv a port +:+ rest)) =
    mkServed (String socksVersion (String socksNoAuth (socksWriteReply (if dial target then socksReplyOK else socksReplyHostUnreachable))))
      (Some target) (if dial target && reply_ok then Some rest else None).
Proof.
  intros Hm Hno Ha Hp target. unfold handleSOCKS5. rewrite negotiate_ok by done.
  assert (Hr : socksReadRequest (connect_request socksCmdConnect rsv a port +:+ rest) = ("", Some (target, rest))).
  { unfold socksReadRequest, connect_request. rewrite !str_app_cons, str_app_assoc, !str_app_cons.
    set (tail := addr_bytes a +:+ _).
    change (String socksVersion (String socksCmdConnect (String rsv (String (atyp a) tail))))
      with (String socksVersion (String socksCmdConnect (String rsv (String (atyp a) ""))) +:+ tail).
    rewrite (read_full_app 4) by done. change (Ascii.eqb socksVersion socksVersion) with true.
    change (Ascii.eqb socksCmdConnect socksCmdConnect) with true. cbn [negb].
    subst tail. change ("" +:+ rest) with rest. by rewrite read_addr. }
  rewrite Hr. destruct (dial target); cbn [negb andb]; [|done]. by rewrite str_take_drop.
Qed.

Lemma dialed_target dial reply_ok buffered methods rsv a port rest :
  (slen methods <= 255)%nat → IndexByte methods socksNoAuth ≠ None → addr_ok a → (1 <= port <= 65535)%Z →
  sv_dialed (handleSOCKS5 dial true reply_ok buffered (greeting methods +:+ (connect_request socksCmdConnect rsv a port +:+ rest)))
  = Some (JoinHostPort (host_of a) (Itoa port)).
Proof. intros. by rewrite handleSOCKS5_protocol. Qed.

(** ** Properties *)

(** C21. The exchange with a client that follows the protocol: it is answered with
    "no authentication", the address and port it names - IPv4, IPv6 or a name - are
    what is dialled, it is told whether that worked, and if so everything it sent
    after the request reaches the target, first what had already been read ahead. *)
Theorem socks_connects dial reply_ok buffered methods rsv a port rest :
  (slen methods <= 255)%nat → IndexByte methods socksNoAuth ≠ None → addr_ok a → (1 <= port <= 65535)%Z →
  let target := JoinHostPort (host_of a) (Itoa port) in
  handleSOCKS5 dial true reply_ok buffered (greeting methods +:+ (connect_request socksCmdConnect rsv a port +:+ rest)) =
    mkServed (String socksVersion (String socksNoAuth (socksWriteReply (if dial target then socksReplyOK else socksReplyHostUnreachable))))
      (Some target) (if dial target && reply_ok then Some rest else None).
Proof. apply handleSOCKS5_protocol. Qed.

(** Whatever bytes a client sends: a target is only dialled after the answer "no
    authentication" was given, it always has a host and a port from 1 to 65535, the
    client is sent at most two bytes and one reply of ten, and the target gets only
    the client's own bytes after the request; every refusal of a request is answered
    before the connection is closed, except a broken or foreign one. *)
Theorem socks_bounds dial greeted reply_ok buffered input :
  let r := handleSOCKS5 dial greeted reply_ok buffered input in
  (slen (sv_client r) <= 12)%nat ∧
  (∀ t, sv_dialed r = Some t →
     greeted = true ∧ (∃ h p, t = JoinHostPort h (Itoa p) ∧ h ≠ "" ∧ (1 <= p <= 65535)%Z) ∧
     sv_client r = String socksVersion (String socksNoAuth (socksWriteReply (if dial t then socksReplyOK else socksReplyHostUnreachable)))) ∧
  (∀ u, sv_upstream r = Some u → ∃ t pre, sv_dialed r = Some t ∧ dial t = true ∧ input = pre +:+ u) ∧
  (sv_dialed r = None →
     sv_client r ∈ [""; String socksVersion (String socksNoAccept ""); String socksVersion (String socksNoAuth "");
                    String socksVersion (String socksNoAuth (socksWriteReply socksReplyCmdNotSupported));
                    String socksVersion (String socksNoAuth (socksWriteReply socksReplyAtypNotSupported))]).
Proof.
  cbv zeta. unfold handleSOCKS5. destruct (socksNegotiate_out greeted input) as [Ho Hr].
  assert (Hg : ∀ rest, snd (socksNegotiate greeted input) = Some rest → greeted = true).
  { unfold socksNegotiate. intros rest. by repeat case_match. }
  destruct (socksNegotiate greeted input) as [out [rest|]]; cbn [fst snd] in *.
  2: { split_and!; [|done|done|].
       - eapply (proj1 (Forall_forall (λ o, slen o <= 12)%nat _)); [|exact Ho]. repeat constructor; vm_compute; lia.
       - intros _. cbn [sv_client]. rewrite !elem_of_cons in Ho. rewrite !elem_of_cons. destruct Ho as [?|[?|[?|Ho]]]; [auto..|by apply not_elem_of_nil in Ho]. }
  destruct (Hr rest eq_refl) as [-> [pre ->]]. rewrite (Hg rest eq_refl) in *.
  pose proof (socksReadRequest_out rest) as Hq. destruct (socksReadRequest rest) as [out' [[t r]|]].
  - destruct Hq as (-> & h & p & pre' & -> & Hh & Hp & ->). set (t := JoinHostPort h (Itoa p)).
    destruct (dial t) eqn:Ed; cbn [negb sv_client sv_dialed sv_upstream].
    + split_and!; [vm_compute; lia| | |done].
      * intros t' [= <-]. rewrite Ed. split_and!; [done|by exists h, p|done].
      * intros u. destruct reply_ok; [|done]. intros [= <-]. rewrite str_take_drop. exists t, (pre +:+ pre'). by rewrite str_app_assoc.
    + split_and!; [vm_compute; lia| |done|done]. intros t' [= <-]. rewrite Ed. split_and!; [done|by exists h, p|done].
  - cbn [sv_client sv_dialed sv_upstream]. split_and!; [|done|done|].
    + eapply (proj1 (Forall_forall (λ o, slen (String socksVersion (String socksNoAuth "") +:+ o) <= 12)%nat _)); [|exact Hq].
      repeat constructor; vm_compute; lia.
    + intros _. rewrite !elem_of_cons in Hq. rewrite !elem_of_cons. destruct Hq as [->|[->|[->|Hq]]]; [auto 9..|by apply not_elem_of_nil in Hq].
Qed.

(** ** Witnesses *)

Lemma socks_connects_witness :
  handleSOCKS5 (λ t, (t =? "[2001:db8::1]:8443")%string) true true 1
    (greeting (bytes [2; 0]%N) +:+ (connect_request socksCmdConnect "000" (IPv6 (bytes [32; 1; 13; 184; 0; 0; 0; 0; 0; 0; 0; 0; 0; 0; 0; 1]%N)) 8443 +:+ "GET"))
  = mkServed (String socksVersion (String socksNoAuth (socksWriteReply socksReplyOK))) (Some "[2001:db8::1]:8443") (Some "GET").
Proof. rewrite socks_connects; [reflexivity|cbn; lia|discriminate|reflexivity|lia]. Defined.

(** UDP ASSOCIATE and an unknown address type. *)
Example socks_refusals :
  handleSOCKS5 (λ _, true) true true 0 (greeting (bytes [0]%N) +:+ connect_request "003" "000" (Domain "a") 80)
    = mkServed (String socksVersion (String socksNoAuth (socksWriteReply socksReplyCmdNotSupported))) None None ∧
  handleSOCKS5 (λ _, true) true true 0 (greeting (bytes [0]%N) +:+ bytes [5; 1; 0; 9; 1; 2]%N)
    = mkServed (String socksVersion (String socksNoAuth (socksWriteReply socksReplyAtypNotSupported))) None None ∧
  handleSOCKS5 (λ _, true) true true 0 (greeting (bytes [2]%N)) = mkServed (String socksVersion (String socksNoAccept "")) None None.
Proof. by vm_compute. Qed.
