(* ===== verification/Dialer.v ===== *)
(** * The dialer of the tunnel client ([tunnel/cmd/tunnel/dialer.go])

    A tunnel is a WebSocket to the Host whose first message names the target. The
    dialer keeps the open ones in a table for the console. Tunnels are shared by
    the relays, the keepalive, the console and the shutdown, so they live in a
    heap; a step is one critical section of one of these goroutines. *)
From S2P Require Import Prelude GoStrings GoNet GoEncoding GoJson.

Definition tunnelPath : string := "/api/proxy/tunnel".
Definition ErrUnauthorized : string := "credential rejected or expired; issue a new one in the web UI".

(** ** Addresses *)

(** Error texts leave out the quoted argument. *)
Definition buildTunnelURL `{UrlParse} (serverURL : string) : result string :=
  let raw := TrimSpace serverURL in
  if (raw =? "")%string then Err "server URL is required"
  else
    let raw := if negb (Contains raw "://") then "https://" +:+ raw else raw in
    match url_parse raw with
    | Err e => Err ("invalid server URL: " +:+ e)
    | Ok (u_Scheme, u_Host) =>
        if (u_Host =? "")%string then Err "server URL has no host"
        else
          let? scheme :=
            (if (u_Scheme =? "http")%string || (u_Scheme =? "ws")%string then Ok "ws"
             else if (u_Scheme =? "https")%string || (u_Scheme =? "wss")%string then Ok "wss"
             else Err "unsupported server URL scheme") in
          Ok (scheme +:+ "://" +:+ u_Host +:+ tunnelPath)
    end.

Definition splitTarget (addr : string) : result (string * string) :=
  let addr := TrimSpace addr in
  if (addr =? "")%string then Err "empty target"
  else if negb (Contains addr ":") then Ok (addr, "443")
  else
    match SplitHostPort addr with
    | Err e => Err ("invalid target: " +:+ e)
    | Ok (host, port) =>
        if (host =? "")%string || (port =? "")%string then Err "invalid target" else Ok (host, port)
    end.

(** The address [Dial] asks the probe for. *)
Definition dial_target (addr : string) : result string :=
  let? (host, port) := splitTarget addr in Ok (JoinHostPort host port).

(** ** The first messages *)

Record tunnelRequest := mkRequest { q_Target : string }.
Record tunnelReply := mkReply { y_OK : bool; y_Error : string }.

Definition enc_request (r : tunnelRequest) : json := JObj [("target", JStr (q_Target r))].
Definition dec_request : decoder tunnelRequest := λ old j,
  o ← members j; t ← field "target" dec_string (q_Target old) o; Some (mkRequest t).
Definition enc_reply (r : tunnelReply) : json :=
  JObj (omit_str "error" (y_Error r) ++ [("ok", JBool (y_OK r))]).
Definition dec_reply : decoder tunnelReply := λ old j,
  o ← members j; ok ← field "ok" dec_bool (y_OK old) o; e ← field "error" dec_string (y_Error old) o; Some (mkReply ok e).

(** ** State *)

(** Why a connection ended. *)
Inductive close_error := CloseEOF | CloseNetClosed | CloseOther (msg : string).

Definition closeReason (e : option close_error) : option string :=
  match e with
  | None | Some CloseEOF | Some CloseNetClosed => None
  | Some (CloseOther m) => Some m
  end.

(** [t_conn]: the tunnel was handed out. [t_released]: its connection was closed
    and [once] has fired; [t_forgotten]: the hook [onClose] has run to its end. *)
Record Tunnel := mkTunnel {
  t_ID : Z; t_Target : string; t_Tx : Z; t_Rx : Z;
  t_conn : bool; t_released : bool; t_done : bool; t_closed : bool; t_err : option string;
  t_forgotten : bool
}.

(** [handshaking]: dials between the upgrade and the reply. [closers]: the hooks
    under way, with the reason still to be noted or none. [sweeping]: what the
    loops of [CloseAll] have still to close. *)
Record Dialer := mkDialer {
  wsURL : string; auth : string; insecure : bool;
  tunnels : gmap Z nat; nextID : Z; objs : list Tunnel;
  handshaking : list nat; closers : list (nat * option (option string)); sweeping : list nat
}.

Definition NewDialer `{UrlParse} (serverURL username password : string) (insecure : bool) : result Dialer :=
  let? wsURL := buildTunnelURL serverURL in
  Ok (mkDialer wsURL ("Basic " +:+ B64Encode (username +:+ ":" +:+ password)) insecure ∅ 0 [] [] [] []).

Definition URL (d : Dialer) : string := wsURL d.

(** Updates of the fields that change. *)
Definition set_tables (tb : gmap Z nat) (os : list Tunnel) (d : Dialer) : Dialer :=
  mkDialer (wsURL d) (auth d) (insecure d) tb (nextID d) os (handshaking d) (closers d) (sweeping d).
Definition set_lists (hs : list nat) (cl : list (nat * option (option string))) (sw : list nat) (d : Dialer) : Dialer :=
  mkDialer (wsURL d) (auth d) (insecure d) (tunnels d) (nextID d) (objs d) hs cl sw.
Definition on_tunnel (p : nat) (f : Tunnel → Tunnel) (d : Dialer) : Dialer :=
  set_tables (tunnels d) (alter f p (objs d)) d.

(** [t.Done()], [t.Bytes()] *)
Definition Done (t : Tunnel) : bool * option string := (t_closed t, t_err t).
Definition Bytes (t : Tunnel) : Z * Z := (t_Tx t, t_Rx t).

(** ** dialTarget *)

Inductive upgrade := Upgraded | Answered (status : Z) (err : string) | Unreachable (err : string).

(** Why the dial fails before there is a tunnel. *)
Definition upgrade_error (d : Dialer) (u : upgrade) : option string :=
  match u with
  | Upgraded => None
  | Answered status err =>
      if (status =? 407)%Z then Some ErrUnauthorized
      else Some ("tunnel handshake failed (HTTP " +:+ Itoa status +:+ "): " +:+ err)
  | Unreachable err => Some ("cannot reach " +:+ wsURL d +:+ ": " +:+ err)
  end.

Definition dial_upgraded (target : string) (d : Dialer) : Dialer :=
  let id := wrap64 (nextID d + 1) in
  mkDialer (wsURL d) (auth d) (insecure d) (tunnels d) id
    (objs d ++ [mkTunnel id target 0 0 false false false false None false])
    (handshaking d ++ [length (objs d)]) (closers d) (sweeping d).

(** [countedConn.Close]: the hook runs once. *)
Definition release (t : Tunnel) : Tunnel :=
  mkTunnel (t_ID t) (t_Target t) (t_Tx t) (t_Rx t) (t_conn t) true (t_done t) (t_closed t) (t_err t) (t_forgotten t).
Definition Close (p : nat) (e : option close_error) (d : Dialer) : Dialer :=
  match objs d !! p with
  | Some t =>
      if t_released t then d
      else set_lists (handshaking d) (closers d ++ [(p, Some (closeReason e))]) (sweeping d) (on_tunnel p release d)
  | None => d
  end.

(** The hook: its two critical sections. *)
Definition mark_closed (err : option string) (t : Tunnel) : Tunnel :=
  mkTunnel (t_ID t) (t_Target t) (t_Tx t) (t_Rx t) (t_conn t) (t_released t) true true
    (match t_err t with None => err | Some _ => t_err t end) (t_forgotten t).
Definition forgotten (t : Tunnel) : Tunnel :=
  mkTunnel (t_ID t) (t_Target t) (t_Tx t) (t_Rx t) (t_conn t) (t_released t) (t_done t) (t_closed t) (t_err t) true.
Definition forget (p : nat) (d : Dialer) : Dialer :=
  match objs d !! p with
  | Some t => set_tables (delete (t_ID t) (tunnels d)) (alter forgotten p (objs d)) d
  | None => d
  end.

(** The exchange after the upgrade: [sent] is the error of writing the request,
    [reply] what was read. *)
Definition handed_out (t : Tunnel) : Tunnel :=
  mkTunnel (t_ID t) (t_Target t) (t_Tx t) (t_Rx t) true (t_released t) (t_done t) (t_closed t) (t_err t) (t_forgotten t).

Definition dial_answer (target : string) (sent : option string) (reply : result tunnelReply) : result unit :=
  match sent with
  | Some e => Err e
  | None =>
      match reply with
      | Err e => Err ("no reply from " +:+ target +:+ ": " +:+ e)
      | Ok r =>
          if negb (y_OK r) then
            Err (target +:+ ": " +:+ (if (y_Error r =? "")%string then "probe refused the target" else y_Error r))
          else Ok tt
      end
  end.

Definition dial_finish (p : nat) (sent : option string) (reply : result tunnelReply) (cerr : option close_error)
    (d : Dialer) : Dialer * result nat :=
  match objs d !! p with
  | None => (d, Err "")
  | Some t =>
      match dial_answer (t_Target t) sent reply with
      | Err e => (Close p cerr d, Err e)
      | Ok _ => (set_tables (<[t_ID t := p]> (tunnels d)) (alter handed_out p (objs d)) d, Ok p)
      end
  end.

(** ** The table *)

(** The inner loop of [Tunnels] from index [j] down. *)
Fixpoint sift {A} (key : A → Z) (j : nat) (out : list A) : list A :=
  match j with
  | O => out
  | S i =>
      match out !! i, out !! S i with
      | Some x, Some y => if (key y <? key x)%Z then sift key i (<[S i := x]> (<[i := y]> out)) else out
      | _, _ => out
      end
  end.
Definition sort_by_id {A} (key : A → Z) (out : list A) : list A :=
  foldl (λ out i, sift key i out) out (seq 1 (length out - 1)).

Definition id_of (d : Dialer) (p : nat) : Z := default 0%Z (t_ID <$> objs d !! p).
Definition Tunnels `{MapOrder} (d : Dialer) : list nat :=
  sort_by_id (id_of d) ((λ e : Z * nat, e.2) <$> range_order (map_to_list (tunnels d))).

(** [CloseAll]: the snapshot, and one tunnel of it. *)
Definition sweep `{MapOrder} (d : Dialer) : Dialer := set_lists (handshaking d) (closers d) (sweeping d ++ Tunnels d) d.
Definition swept (t : Tunnel) : Tunnel :=
  mkTunnel (t_ID t) (t_Target t) (t_Tx t) (t_Rx t) (t_conn t) (t_released t) true true (t_err t) (t_forgotten t).
Definition sweep_one (p : nat) (e : option close_error) (d : Dialer) : Dialer :=
  let d := on_tunnel p swept d in
  if from_option t_conn false (objs d !! p) then Close p e d else d.

(** The loop of [CloseAll] run through. *)
Definition CloseAll `{MapOrder} (e : nat → option close_error) (d : Dialer) : Dialer :=
  foldl (λ d p, sweep_one p (e p) d) d (Tunnels d).

(** ** Counting *)

Definition count_rx (n : Z) (t : Tunnel) : Tunnel :=
  if (0 <? n)%Z then mkTunnel (t_ID t) (t_Target t) (t_Tx t) (wrap64 (t_Rx t + n)) (t_conn t) (t_released t) (t_done t) (t_closed t) (t_err t) (t_forgotten t)
  else t.
Definition count_tx (n : Z) (t : Tunnel) : Tunnel :=
  if (0 <? n)%Z then mkTunnel (t_ID t) (t_Target t) (wrap64 (t_Tx t + n)) (t_Rx t) (t_conn t) (t_released t) (t_done t) (t_closed t) (t_err t) (t_forgotten t)
  else t.

(** ** Interleavings *)

Inductive dialer_step `{MapOrder} (d : Dialer) : Dialer → Prop :=
  | step_upgraded target : dialer_step d (dial_upgraded target d)
  | step_finish p sent reply cerr l1 l2 :
      handshaking d = l1 ++ p :: l2 →
      dialer_step d (fst (dial_finish p sent reply cerr (set_lists (l1 ++ l2) (closers d) (sweeping d) d)))
  | step_close p t e : objs d !! p = Some t → t_conn t = true → dialer_step d (Close p e d)
  | step_mark p err l1 l2 :
      closers d = l1 ++ (p, Some err) :: l2 →
      dialer_step d (on_tunnel p (mark_closed err) (set_lists (handshaking d) (l1 ++ (p, None) :: l2) (sweeping d) d))
  | step_forget p l1 l2 :
      closers d = l1 ++ (p, None) :: l2 →
      dialer_step d (forget p (set_lists (handshaking d) (l1 ++ l2) (sweeping d) d))
  | step_CloseAll : dialer_step d (sweep d)
  | step_sweep p e l1 l2 :
      sweeping d = l1 ++ p :: l2 →
      dialer_step d (sweep_one p e (set_lists (handshaking d) (closers d) (l1 ++ l2) d))
  | step_read p n : dialer_step d (on_tunnel p (count_rx n) d)
  | step_write p n : dialer_step d (on_tunnel p (count_tx n) d).

Definition dialer_reachable `{UrlParse} `{MapOrder} (server user pass : string) (insecure : bool) : Dialer → Prop :=
  reachable (λ d, NewDialer server user pass insecure = Ok d) dialer_step.

(** ** The order of the snapshot *)

Section sorting.
Context {A : Type} (key : A → Z).
Let le (x y : A) : Prop := (key x <= key y)%Z.

Lemma sift_spec l : ∀ y r, StronglySorted le l →
  ∃ l', sift key (length l) (l ++ y :: r) = l' ++ r ∧ l' ≡ₚ l ++ [y] ∧ StronglySorted le l'.
Proof.
  induction l as [|x l IH] using rev_ind; intros y r Hs.
  - exists [y]. split_and!; [done|done|by repeat constructor].
  - apply StronglySorted_app in Hs as (Hx & Hl & _). rewrite length_app, Nat.add_1_r, <- app_assoc. cbn [sift app].
    rewrite lookup_app_r, Nat.sub_diag, lookup_app_r, Nat.sub_succ_l, Nat.sub_diag by lia. cbn [lookup list_lookup].
    destruct (Z.ltb_spec (key y) (key x)) as [Hlt|Hge].
    + rewrite insert_app_r_alt, Nat.sub_diag by lia. rewrite insert_app_r_alt, Nat.sub_succ_l, Nat.sub_diag by lia. cbn.
      destruct (IH y (x :: r) Hl) as (l' & -> & Hp & Hs'). exists (l' ++ [x]). split_and!.
      * by rewrite <- app_assoc.
      * rewrite Hp, <- !app_assoc. apply Permutation_app_head. apply Permutation_swap.
      * apply StronglySorted_app. split_and!; [|done|by repeat constructor].
        intros a b Ha Hb. apply list_elem_of_singleton in Hb as ->. rewrite Hp in Ha. unfold le.
        apply elem_of_app in Ha as [Ha|Ha]; [apply Hx; [done|by left]|apply list_elem_of_singleton in Ha as ->; lia].
    + exists ((l ++ [x]) ++ [y]). split_and!; [by rewrite <- !app_assoc|done|].
      apply StronglySorted_app. split_and!; [|apply StronglySorted_app; split_and!; [done|done|by repeat constructor]|by repeat constructor].
      intros a b Ha Hb. apply list_elem_of_singleton in Hb as ->. unfold le.
      apply elem_of_app in Ha as [Ha|Ha]; [|apply list_elem_of_singleton in Ha as ->; lia].
      assert (le a x) by (apply Hx; [done|by left]). unfold le in *. lia.
Qed.

Lemma sort_by_id_loop m : ∀ l r, StronglySorted le l → length r = m →
  ∃ l', foldl (λ out i, sift key i out) (l ++ r) (seq (length l) m) = l' ∧ l' ≡ₚ l ++ r ∧ StronglySorted le l'.
Proof.
  induction m as [|m IH]; intros l r Hs Hm.
  - destruct r; [|done]. cbn. rewrite app_nil_r. by exists l.
  - destruct r as [|y r]; [done|]. cbn [seq foldl]. injection Hm as Hm.
    destruct (sift_spec l y r Hs) as (l1 & -> & Hp & Hs1).
    assert (Hl : length l1 = S (length l)) by (rewrite Hp, length_app; cbn; lia).
    rewrite <- Hl. destruct (IH l1 r Hs1 Hm) as (l' & E & Hp' & Hs'). exists l'. split_and!; [done| |done].
    rewrite Hp', Hp. by rewrite <- app_assoc.
Qed.

Lemma sort_by_id_spec l : sort_by_id key l ≡ₚ l ∧ StronglySorted le (sort_by_id key l).
Proof.
  unfold sort_by_id. destruct l as [|x l]; [split; [done|constructor]|].
  destruct (sort_by_id_loop (length l) [x] l) as (l' & E & Hp & Hs); [by repeat constructor|done|].
  cbn [length app] in E. cbn [length]. rewrite Nat.sub_succ, Nat.sub_0_r, E. done.
Qed.
End sorting.

(** ** The invariant *)

(** How a tunnel's flags hang together. *)
Record tunnel_ok (p : nat) (t : Tunnel) : Prop := {
  to_id : t_ID t = wrap64 (Z.of_nat p + 1);
  to_forgotten : t_forgotten t = true → t_released t = true ∧ t_closed t = true ∧ t_done t = true;
  to_err : t_err t ≠ None → t_closed t = true
}.

Record dialer_inv (d : Dialer) : Prop := {
  di_next : nextID d = wrap64 (Z.of_nat (length (objs d)));
  di_ok p t : objs d !! p = Some t → tunnel_ok p t;
  di_tab id p : tunnels d !! id = Some p → ∃ t, objs d !! p = Some t ∧ t_ID t = id ∧ t_conn t = true ∧ t_forgotten t = false;
  di_home p t : (Z.of_nat (length (objs d)) < 2 ^ 63)%Z →
    objs d !! p = Some t → t_conn t = true → t_forgotten t = false → tunnels d !! t_ID t = Some p;
  di_hs p : p ∈ handshaking d → ∃ t, objs d !! p = Some t ∧ t_conn t = false ∧ t_released t = false ∧ t_forgotten t = false;
  di_hs_nodup : NoDup (handshaking d);
  di_closers p x : (p, x) ∈ closers d → ∃ t, objs d !! p = Some t ∧ t_released t = true ∧ t_forgotten t = false ∧
    (x = None → t_closed t = true ∧ t_done t = true);
  di_closers_nodup : NoDup (closers d).*1;
  di_released p t : objs d !! p = Some t → t_released t = true → t_forgotten t = true ∨ p ∈ (closers d).*1;
  di_failed p t : objs d !! p = Some t → t_conn t = false → t_released t = true ∨ p ∈ handshaking d;
  di_sweeping p : p ∈ sweeping d → ∃ t, objs d !! p = Some t ∧ t_conn t = true
}.

Lemma wrap64_succ z : wrap64 (wrap64 z + 1) = wrap64 (z + 1).
Proof.
  unfold wrap64. f_equal. replace ((z + 2 ^ 63) mod 2 ^ 64 - 2 ^ 63 + 1 + 2 ^ 63)%Z with ((z + 2 ^ 63) mod 2 ^ 64 + 1)%Z by lia.
  rewrite Zplus_mod_idemp_l. f_equal. lia.
Qed.

Lemma id_inj d p q t u :
  dialer_inv d → (Z.of_nat (length (objs d)) < 2 ^ 63)%Z → objs d !! p = Some t → objs d !! q = Some u → t_ID t = t_ID u → p = q.
Proof.
  intros Hi Hl Hp Hq E. rewrite (to_id _ _ (di_ok _ Hi _ _ Hp)), (to_id _ _ (di_ok _ Hi _ _ Hq)) in E.
  apply lookup_lt_Some in Hp, Hq. rewrite !wrap64_small in E by lia. lia.
Qed.

(** Updates that leave alone what the tables depend on. *)
Record touches (f : Tunnel → Tunnel) : Prop := {
  tc_id t : t_ID (f t) = t_ID t;
  tc_conn t : t_conn (f t) = t_conn t;
  tc_released t : t_released (f t) = t_released t;
  tc_forgotten t : t_forgotten (f t) = t_forgotten t;
  tc_closed t : t_closed t = true → t_closed (f t) = true;
  tc_done t : t_done t = true → t_done (f t) = true;
  tc_err t : t_err (f t) ≠ None → t_err t ≠ None ∨ t_closed (f t) = true
}.

Lemma alter_Some {A} (f : A → A) p (l : list A) q x :
  alter f p l !! q = Some x → ∃ y, l !! q = Some y ∧ ((p = q ∧ x = f y) ∨ (p ≠ q ∧ x = y)).
Proof.
  destruct (decide (p = q)) as [->|Hne].
  - rewrite list_lookup_alter_eq. intros (y & ? & ->)%fmap_Some. eauto.
  - rewrite list_lookup_alter_ne by done. eauto.
Qed.
Lemma alter_ex {A} (P : A → Prop) (f : A → A) p (l : list A) q y :
  (∀ x, P x → P (f x)) → l !! q = Some y → P y → ∃ x, alter f p l !! q = Some x ∧ P x.
Proof.
  intros Hf Hq HP. destruct (decide (p = q)) as [->|Hne].
  - rewrite list_lookup_alter_eq, Hq. eexists. split; [done|by apply Hf].
  - rewrite list_lookup_alter_ne by done. eauto.
Qed.

Lemma touch_ok f p t : touches f → tunnel_ok p t → tunnel_ok p (f t).
Proof.
  intros Ht [H1 H2 H3]. destruct Ht as [F1 F2 F3 F4 F5 F6 F7]. split.
  - by rewrite F1.
  - rewrite F4, F3. intros (? & ? & ?)%H2. auto.
  - intros [?|?]%F7; [|done]. auto.
Qed.

Lemma touch_inv f p d : touches f → dialer_inv d → dialer_inv (on_tunnel p f d).
Proof.
  intros Ht Hi. pose proof Ht as [F1 F2 F3 F4 F5 F6 F7]. destruct Hi as [I1 I2 I3 I4 I5 I6 I7 I8 I9 I10 I11].
  split; cbn [nextID objs tunnels handshaking closers sweeping on_tunnel set_tables]; rewrite ?length_alter; try done.
  - intros q t (y & Hy & [[-> ->]|[? ->]])%alter_Some; [apply touch_ok|]; auto.
  - intros id q (t & Hq & <- & Hc & Hf)%I3.
    apply (alter_ex (λ x, t_ID x = t_ID t ∧ t_conn x = true ∧ t_forgotten x = false) _ _ _ _ t); [|done|done].
    intros x (? & ? & ?). by rewrite F1, F2, F4.
  - intros q t Hl (y & Hy & [[-> ->]|[? ->]])%alter_Some; [rewrite F1, F2, F4|]; auto.
  - intros q (t & Hq & H)%I5. apply (alter_ex (λ x, t_conn x = false ∧ t_released x = false ∧ t_forgotten x = false) _ _ _ _ t); [|done|done].
    intros x (? & ? & ?). by rewrite F2, F3, F4.
  - intros q x (t & Hq & H)%I7.
    apply (alter_ex (λ y, t_released y = true ∧ t_forgotten y = false ∧ (x = None → t_closed y = true ∧ t_done y = true)) _ _ _ _ t); [|done|done].
    intros y (? & ? & Hx). rewrite F3, F4. split_and!; [done..|]. intros [??]%Hx. auto.
  - intros q t (y & Hy & [[-> ->]|[? ->]])%alter_Some; [rewrite F3, F4|]; eauto.
  - intros q t (y & Hy & [[-> ->]|[? ->]])%alter_Some; [rewrite F2, F3|]; eauto.
  - intros q (t & Hq & H)%I11. apply (alter_ex (λ x, t_conn x = true) _ _ _ _ t); [|done|done]. intros x. by rewrite F2.
Qed.

Lemma touches_count_rx n : touches (count_rx n).
Proof. unfold count_rx. split; intros t; destruct (_ <? _)%Z; cbn; auto. Qed.
Lemma touches_count_tx n : touches (count_tx n).
Proof. unfold count_tx. split; intros t; destruct (_ <? _)%Z; cbn; auto. Qed.
Lemma touches_swept : touches swept.
Proof. split; intros t; cbn; auto. Qed.
Lemma touches_mark err : touches (mark_closed err).
Proof. split; intros t; cbn; auto. Qed.

Lemma hs_remove l1 l2 (p q : nat) : NoDup (l1 ++ p :: l2) → (q ∈ l1 ++ l2 ↔ q ∈ l1 ++ p :: l2 ∧ q ≠ p) ∧ NoDup (l1 ++ l2).
Proof.
  intros Hn. assert (Hp : l1 ++ p :: l2 ≡ₚ p :: l1 ++ l2) by (by rewrite Permutation_middle).
  rewrite Hp in Hn. apply NoDup_cons in Hn as [Hno Hn]. rewrite Hp, elem_of_cons. split; [|done].
  split; [intros Hq; split; [by right|congruence]|]. intros [[->|?] ?]; done.
Qed.

Lemma dial_upgraded_inv target d : dialer_inv d → dialer_inv (dial_upgraded target d).
Proof.
  intros [I1 I2 I3 I4 I5 I6 I7 I8 I9 I10 I11].
  assert (Hnew : ∀ q t, (objs d ++ [mkTunnel (wrap64 (nextID d + 1)) target 0 0 false false false false None false]) !! q = Some t →
    objs d !! q = Some t ∨ (q = length (objs d) ∧ t = mkTunnel (wrap64 (nextID d + 1)) target 0 0 false false false false None false)).
  { intros q t [?|[? Hq]]%lookup_app_Some; [by left|]. apply list_lookup_singleton_Some in Hq as [Hq <-]. right. split; [lia|done]. }
  assert (Hold : ∀ q t, objs d !! q = Some t → (objs d ++ [mkTunnel (wrap64 (nextID d + 1)) target 0 0 false false false false None false]) !! q = Some t).
  { intros q t Hq. by apply lookup_app_l_Some. }
  split; cbn [nextID objs tunnels handshaking closers sweeping dial_upgraded].
  - rewrite length_app, I1, wrap64_succ. f_equal. cbn. lia.
  - intros q t [Hq|[-> ->]]%Hnew; [auto|]. split; cbn; [|done..]. by rewrite I1, wrap64_succ.
  - intros id q (t & Hq & ?)%I3. exists t. auto.
  - rewrite length_app. intros q t Hl [Hq|[-> ->]]%Hnew; [|done]. apply I4; [cbn in Hl; lia|done].
  - intros q [Hq|Hq]%elem_of_app.
    + destruct (I5 q Hq) as (t & ? & ?). exists t. auto.
    + apply list_elem_of_singleton in Hq as ->. eexists. split; [by rewrite lookup_app_r, Nat.sub_diag by lia|done].
  - apply NoDup_app. split_and!; [done| |by apply NoDup_singleton].
    intros q Hq Hq'. apply list_elem_of_singleton in Hq' as ->. destruct (I5 _ Hq) as (t & Ht & _). apply lookup_lt_Some in Ht. lia.
  - intros q x (t & Hq & ?)%I7. exists t. auto.
  - done.
  - intros q t [Hq|[-> ->]]%Hnew; [eauto|done].
  - intros q t [Hq|[-> ->]]%Hnew Hc; [|right; apply elem_of_app; right; by left].
    destruct (I10 _ _ Hq Hc); [by left|]. right. apply elem_of_app. by left.
  - intros q (t & Hq & ?)%I11. exists t. auto.
Qed.

Lemma Close_inv p t e hs d :
  dialer_inv d → objs d !! p = Some t → (∀ q, q ∈ hs ↔ q ∈ handshaking d ∧ q ≠ p) → NoDup hs →
  dialer_inv (Close p e (set_lists hs (closers d) (sweeping d) d)).
Proof.
  intros [I1 I2 I3 I4 I5 I6 I7 I8 I9 I10 I11] Hp Hhs Hn. unfold Close. cbn [objs set_lists]. rewrite Hp.
  assert (Hd : ∀ q u, objs d !! q = Some u → t_conn u = false → t_released u = true ∨ q ∈ hs ∨ q = p).
  { intros q u Hq Hc. destruct (I10 q u Hq Hc); [by left|]. destruct (decide (q = p)); [auto|]. right; left. by apply Hhs. }
  destruct (t_released t) eqn:Er.
  - split; cbn [nextID objs tunnels handshaking closers sweeping set_lists]; try done.
    + intros q [Hq _]%Hhs. auto.
    + intros q u Hq Hc. destruct (Hd q u Hq Hc) as [?|[?| ->]]; [auto..|]. left. congruence.
  - assert (Hf : t_forgotten t = false).
    { destruct (t_forgotten t) eqn:Ef; [|done]. destruct (to_forgotten _ _ (I2 _ _ Hp) Ef). congruence. }
    split; cbn [nextID objs tunnels handshaking closers sweeping on_tunnel set_tables set_lists]; rewrite ?length_alter; try done.
    + intros q u (y & Hy & [[-> ->]|[? ->]])%alter_Some; [|auto]. destruct (I2 _ _ Hy). split; cbn; auto.
      intros Ef. simplify_eq. congruence.
    + intros id q (u & Hq & <- & Hc & Hfu)%I3.
      apply (alter_ex (λ x, t_ID x = t_ID u ∧ t_conn x = true ∧ t_forgotten x = false) _ _ _ _ u); [|done|done]. done.
    + intros q u Hl (y & Hy & [[-> ->]|[? ->]])%alter_Some; cbn; auto.
    + intros q [(u & Hq & ? & ? & ?)%I5 Hne]%Hhs. exists u. split; [|done]. by rewrite list_lookup_alter_ne.
    + intros q x [(u & Hq & ?)%I7|Hx]%elem_of_app.
      * apply (alter_ex (λ y, t_released y = true ∧ t_forgotten y = false ∧ (x = None → t_closed y = true ∧ t_done y = true)) _ _ _ _ u); [|done|done].
        intros y (? & ? & ?). done.
      * apply list_elem_of_singleton in Hx as [= -> ->]. rewrite list_lookup_alter_eq, Hp. eexists. split_and!; [done|done|done|done].
    + rewrite fmap_app. apply NoDup_app. split_and!; [done| |by apply NoDup_singleton].
      intros q ((q' & x) & -> & Hin)%list_elem_of_fmap Hq. apply list_elem_of_singleton in Hq. cbn in Hq. subst.
      destruct (I7 _ _ Hin) as (u & ? & ? & _). congruence.
    + intros q u. rewrite fmap_app. intros (y & Hy & [[-> ->]|[? ->]])%alter_Some Hr.
      * right. apply elem_of_app. right. by left.
      * destruct (I9 _ _ Hy Hr); [by left|]. right. apply elem_of_app. by left.
    + intros q u (y & Hy & [[-> ->]|[? ->]])%alter_Some Hc; [by left|]. destruct (Hd _ _ Hy Hc) as [?|[?|?]]; [auto..|congruence].
    + intros q (u & Hq & ?)%I11. apply (alter_ex (λ x, t_conn x = true) _ _ _ _ u); done.
Qed.

Lemma Close_handed p t e d : dialer_inv d → objs d !! p = Some t → t_conn t = true → dialer_inv (Close p e d).
Proof.
  intros Hi Hp Hc. replace d with (set_lists (handshaking d) (closers d) (sweeping d) d) by (by destruct d).
  eapply Close_inv; [done|done| |apply Hi]. intros q. split; [|by intros [? _]]. intros Hq. split; [done|]. intros ->.
  destruct (di_hs _ Hi _ Hq) as (u & ? & ? & _). congruence.
Qed.

Lemma mark_inv p err l1 l2 d :
  dialer_inv d → closers d = l1 ++ (p, Some err) :: l2 →
  dialer_inv (on_tunnel p (mark_closed err) (set_lists (handshaking d) (l1 ++ (p, None) :: l2) (sweeping d) d)).
Proof.
  intros Hi Ec. pose proof (touch_inv _ p d (touches_mark err) Hi) as [I1 I2 I3 I4 I5 I6 I7 I8 I9 I10 I11].
  destruct Hi as [_ _ _ _ _ _ J7 J8 _ _ _]. cbn [on_tunnel set_tables nextID objs tunnels handshaking closers sweeping] in *.
  rewrite Ec in *. assert (Hk : (l1 ++ (p, None) :: l2).*1 = (l1 ++ (p, Some err) :: l2).*1 :> list nat) by by rewrite !fmap_app.
  split; cbn [on_tunnel set_tables set_lists nextID objs tunnels handshaking closers sweeping]; try done.
  - intros q x Hin. destruct (decide (q = p)) as [->|Hne].
    + assert (Hx : (p, x) = (p, None)).
      { apply elem_of_app in Hin as [Hin|[Hin|Hin]%elem_of_cons]; [|done|].
        - exfalso. rewrite fmap_app in J8. apply NoDup_app in J8 as (_ & J8 & _).
          apply (J8 p); [apply list_elem_of_fmap; by exists (p, x)|by left].
        - exfalso. rewrite fmap_app in J8. apply NoDup_app in J8 as (_ & _ & J8). cbn in J8.
          apply NoDup_cons in J8 as [J8 _]. apply J8, list_elem_of_fmap. by exists (p, x). }
      injection Hx as ->. destruct (J7 p (Some err)) as (t & Hp & ? & ? & _); [apply elem_of_app; right; by left|].
      rewrite list_lookup_alter_eq, Hp. eexists. split; [done|]. done.
    + destruct (I7 q x) as (t & ? & ?); [|by exists t].
      apply elem_of_app in Hin as [?|[?|?]%elem_of_cons]; apply elem_of_app; [by left|congruence|right; by right].
  - by rewrite Hk.
  - intros q t Hq Hr. rewrite Hk. eauto.
Qed.

Lemma forget_inv p l1 l2 d :
  dialer_inv d → closers d = l1 ++ (p, None) :: l2 →
  dialer_inv (forget p (set_lists (handshaking d) (l1 ++ l2) (sweeping d) d)).
Proof.
  intros Hi Ec. pose proof Hi as [I1 I2 I3 I4 I5 I6 I7 I8 I9 I10 I11]. rewrite Ec in *.
  destruct (I7 p None) as (t & Hp & Hr & Hf & Hx); [apply elem_of_app; right; by left|].
  destruct (Hx eq_refl) as [Hcl Hdo]. clear Hx.
  assert (Hrest : ∀ q x, (q, x) ∈ l1 ++ l2 → (q, x) ∈ l1 ++ (p, None) :: l2 ∧ q ≠ p).
  { intros q x Hin. split; [apply elem_of_app in Hin as [?|?]; apply elem_of_app; [by left|right; by right]|]. intros ->.
    assert (Hn : l1 ++ (p, None) :: l2 ≡ₚ (p, None) :: l1 ++ l2) by (by rewrite Permutation_middle).
    rewrite Hn in I8. cbn in I8. apply NoDup_cons in I8 as [I8 _]. apply I8, list_elem_of_fmap. by exists (p, x). }
  unfold forget. cbn [objs set_lists]. rewrite Hp.
  split; cbn [nextID objs tunnels handshaking closers sweeping set_tables set_lists]; rewrite ?length_alter; try done.
  - intros q u (y & Hy & [[-> ->]|[? ->]])%alter_Some; [|auto]. simplify_eq. destruct (I2 _ _ Hp). split; cbn; auto.
  - intros id q [Hne (u & Hq & <- & Hc & Hfu)%I3]%lookup_delete_Some. destruct (decide (p = q)) as [->|]; [congruence|].
    exists u. by rewrite list_lookup_alter_ne.
  - intros q u Hl (y & Hy & [[-> ->]|[Hne ->]])%alter_Some Hc Hfu; [done|]. rewrite lookup_delete_ne; [auto|].
    intros E. by destruct Hne; eapply (id_inj d).
  - intros q (u & Hq & ? & ? & ?)%I5. exists u. split; [|done]. rewrite list_lookup_alter_ne; [done|]. intros ->. congruence.
  - intros q x [(u & Hq & ?)%I7 Hne]%Hrest. exists u. by rewrite list_lookup_alter_ne.
  - rewrite fmap_app in I8 |- *. cbn in I8. exact (proj2 (hs_remove _ _ _ 0 I8)).
  - intros q u (y & Hy & [[-> ->]|[Hne ->]])%alter_Some Hru; [by left|]. destruct (I9 _ _ Hy Hru) as [?|Hin]; [by left|]. right.
    rewrite fmap_app in Hin |- *. cbn in Hin. apply elem_of_app in Hin as [?|[?|?]%elem_of_cons]; apply elem_of_app; [by left|congruence|by right].
  - intros q u (y & Hy & [[-> ->]|[? ->]])%alter_Some; cbn; eauto.
  - intros q (u & Hq & ?)%I11. apply (alter_ex (λ x, t_conn x = true) _ _ _ _ u); done.
Qed.

Lemma dial_finish_inv p sent reply cerr l1 l2 d :
  dialer_inv d → handshaking d = l1 ++ p :: l2 →
  dialer_inv (fst (dial_finish p sent reply cerr (set_lists (l1 ++ l2) (closers d) (sweeping d) d))).
Proof.
  intros Hi Eh. pose proof Hi as [I1 I2 I3 I4 I5 I6 I7 I8 I9 I10 I11].
  destruct (I5 p) as (t & Hp & Hc & Hr & Hf); [rewrite Eh; apply elem_of_app; right; by left|].
  assert (Hhs : ∀ q, q ∈ l1 ++ l2 ↔ q ∈ handshaking d ∧ q ≠ p) by (intros q; rewrite Eh in *; by apply hs_remove).
  assert (Hn : NoDup (l1 ++ l2)) by (rewrite Eh in I6; by apply (hs_remove l1 l2 p 0)).
  unfold dial_finish. cbn [objs set_lists]. rewrite Hp.
  destruct (dial_answer _ _ _) as [_|e]; cbn [fst]; [|by apply (Close_inv p t)].
  split; cbn [nextID objs tunnels handshaking closers sweeping set_tables set_lists]; rewrite ?length_alter; try done.
  - intros q u (y & Hy & [[-> ->]|[? ->]])%alter_Some; [|auto]. destruct (I2 _ _ Hy). split; cbn; auto.
  - intros id q [[<- <-]|[Hne (u & Hq & <- & ?)%I3]]%lookup_insert_Some.
    + rewrite list_lookup_alter_eq, Hp. eexists. split; [done|]. done.
    + apply (alter_ex (λ x, t_ID x = t_ID u ∧ t_conn x = true ∧ t_forgotten x = false) _ _ _ _ u); [|done|done]. intros x (? & ? & ?). done.
  - intros q u Hl (y & Hy & [[-> ->]|[Hne ->]])%alter_Some Hcu Hfu.
    + simplify_eq. by rewrite lookup_insert_eq.
    + rewrite lookup_insert_ne; [auto|]. intros E. by destruct Hne; eapply (id_inj d).
  - intros q [(u & Hq & ? & ? & ?)%I5 Hne]%Hhs. exists u. by rewrite list_lookup_alter_ne.
  - intros q x (u & Hq & ?)%I7.
    apply (alter_ex (λ y, t_released y = true ∧ t_forgotten y = false ∧ (x = None → t_closed y = true ∧ t_done y = true)) _ _ _ _ u); done.
  - intros q u (y & Hy & [[-> ->]|[? ->]])%alter_Some; cbn; eauto.
  - intros q u (y & Hy & [[-> ->]|[? ->]])%alter_Some; cbn; [done|]. intros Hcu. destruct (I10 _ _ Hy Hcu); [by left|]. right.
    by apply Hhs.
  - intros q (u & Hq & ?)%I11. apply (alter_ex (λ x, t_conn x = true) _ _ _ _ u); done.
Qed.

Lemma elem_of_Tunnels `{MapOrder} d p : p ∈ Tunnels d ↔ ∃ id, tunnels d !! id = Some p.
Proof.
  unfold Tunnels. rewrite (proj1 (sort_by_id_spec _ _)). rewrite list_elem_of_fmap. setoid_rewrite elem_of_range. split.
  - intros ([id q] & -> & Hin%elem_of_map_to_list). by exists id.
  - intros [id Hin]. exists (id, p). split; [done|by apply elem_of_map_to_list].
Qed.

Lemma sweep_inv `{MapOrder} d : dialer_inv d → dialer_inv (sweep d).
Proof.
  intros [I1 I2 I3 I4 I5 I6 I7 I8 I9 I10 I11]. split; cbn [nextID objs tunnels handshaking closers sweeping sweep set_lists]; try done.
  intros q [?|Hq]%elem_of_app; [auto|]. apply elem_of_Tunnels in Hq as [id (t & ? & _ & ? & _)%I3]. by exists t.
Qed.

Lemma sweep_one_inv p e l1 l2 d :
  dialer_inv d → sweeping d = l1 ++ p :: l2 →
  dialer_inv (sweep_one p e (set_lists (handshaking d) (closers d) (l1 ++ l2) d)).
Proof.
  intros [I1 I2 I3 I4 I5 I6 I7 I8 I9 I10 I11] Es.
  assert (Hi : dialer_inv (set_lists (handshaking d) (closers d) (l1 ++ l2) d)).
  { split; cbn [nextID objs tunnels handshaking closers sweeping set_lists]; try done.
    intros q Hq. apply I11. rewrite Es. apply elem_of_app in Hq as [?|?]; apply elem_of_app; [by left|right; by right]. }
  apply (touch_inv _ p _ touches_swept) in Hi. unfold sweep_one.
  destruct (objs (on_tunnel p swept _) !! p) as [t|] eqn:Ep; cbn [from_option]; [|done].
  destruct (t_conn t) eqn:Ec; [|done]. by eapply Close_handed.
Qed.

Lemma dialer_step_inv `{MapOrder} d d' : dialer_inv d → dialer_step d d' → dialer_inv d'.
Proof.
  intros Hi []; [by apply dial_upgraded_inv|by apply dial_finish_inv|by eapply Close_handed|by apply mark_inv|by apply forget_inv|
    by apply sweep_inv|by apply sweep_one_inv|by apply touch_inv; [apply touches_count_rx|]|by apply touch_inv; [apply touches_count_tx|]].
Qed.

Lemma dialer_reachable_inv `{UrlParse} `{MapOrder} server user pass ins d :
  dialer_reachable server user pass ins d → dialer_inv d.
Proof.
  revert d. apply reachable_ind_inv; [|intros ??; apply dialer_step_inv].
  intros d. unfold NewDialer. destruct (buildTunnelURL server); [|done]. cbn. intros [= <-].
  split; cbn; try done; try (by intros * ?%not_elem_of_nil); constructor.
Qed.

(** ** Lemmas on closing everything *)

Lemma Close_objs p e d q t : objs d !! q = Some t →
  ∃ t', objs (Close p e d) !! q = Some t' ∧ t_conn t' = t_conn t ∧ t_closed t' = t_closed t ∧ t_done t' = t_done t ∧
    (t_released t = true ∨ q = p → t_released t' = true).
Proof.
  intros Hq. unfold Close. destruct (objs d !! p) as [u|] eqn:Hp.
  2: { exists t. split_and!; try done. intros [?| ->]; congruence. }
  destruct (t_released u) eqn:Er.
  { exists t. split_and!; try done. intros [?| ->]; congruence. }
  cbn [objs set_lists on_tunnel set_tables]. destruct (decide (p = q)) as [->|Hne].
  - rewrite list_lookup_alter_eq, Hq. eexists. split; [done|]. done.
  - rewrite list_lookup_alter_ne by done. exists t. split_and!; try done. intros [?|?]; congruence.
Qed.

Lemma sweep_one_objs p e d q t : objs d !! q = Some t →
  ∃ t', objs (sweep_one p e d) !! q = Some t' ∧ t_conn t' = t_conn t ∧
    (t_released t = true ∨ (q = p ∧ t_conn t = true) → t_released t' = true) ∧
    (t_closed t = true ∨ q = p → t_closed t' = true) ∧ (t_done t = true ∨ q = p → t_done t' = true).
Proof.
  intros Hq. unfold sweep_one.
  assert (H1 : ∃ t1, objs (on_tunnel p swept d) !! q = Some t1 ∧ t_conn t1 = t_conn t ∧ t_released t1 = t_released t ∧
    (t_closed t = true ∨ q = p → t_closed t1 = true) ∧ (t_done t = true ∨ q = p → t_done t1 = true)).
  { cbn [objs on_tunnel set_tables]. destruct (decide (p = q)) as [->|Hne].
    - rewrite list_lookup_alter_eq, Hq. eexists. split; [done|]. done.
    - rewrite list_lookup_alter_ne by done. exists t. split_and!; try done; intros [?|?]; congruence. }
  destruct H1 as (t1 & Hq1 & Hc & Hr & Hcl & Hdo). destruct (from_option t_conn false _) eqn:Ef.
  - destruct (Close_objs p e _ q t1 Hq1) as (t2 & Hq2 & E1 & E2 & E3 & E4). exists t2. rewrite E1, E2, E3. split_and!; try done.
    intros [?|[? _]]; apply E4; [left; congruence|by right].
  - exists t1. split_and!; try done. intros [?|[-> Htc]]; [congruence|]. rewrite Hq1 in Ef. cbn in Ef. congruence.
Qed.

Lemma sweep_all e l : ∀ d q t, objs d !! q = Some t →
  ∃ t', objs (foldl (λ d p, sweep_one p (e p) d) d l) !! q = Some t' ∧ t_conn t' = t_conn t ∧
    (t_conn t = true → t_released t = true ∨ q ∈ l → t_released t' = true) ∧
    (t_closed t = true ∨ q ∈ l → t_closed t' = true) ∧ (t_done t = true ∨ q ∈ l → t_done t' = true).
Proof.
  induction l as [|p l IH]; intros d q t Hq; cbn [foldl].
  - exists t. split_and!; try done; [intros _|..]; by intros [?|?%not_elem_of_nil].
  - destruct (sweep_one_objs p (e p) d q t Hq) as (t1 & Hq1 & Hc1 & Hr1 & Hcl1 & Hdo1).
    destruct (IH _ q t1 Hq1) as (t2 & Hq2 & Hc2 & Hr2 & Hcl2 & Hdo2). exists t2. rewrite Hc2, Hc1. setoid_rewrite elem_of_cons.
    split_and!; [done|done| | |]; [intros Htc| |]; intros [?|[?|?]]; [apply Hr2; [congruence|]..|apply Hcl2|apply Hcl2|apply Hcl2|apply Hdo2|apply Hdo2|apply Hdo2]; auto.
Qed.

(** ** Properties *)

Section Properties.
Context `{UrlParse} `{MapOrder}.

Lemma dialer_listed d p : dialer_inv d → (Z.of_nat (length (objs d)) < 2 ^ 63)%Z →
  p ∈ Tunnels d ↔ ∃ t, objs d !! p = Some t ∧ t_conn t = true ∧ t_forgotten t = false.
Proof.
  intros Hi Hl. rewrite elem_of_Tunnels. split.
  - intros [id (t & ? & _ & ? & ?)%(di_tab _ Hi)]. by exists t.
  - intros (t & Hp & Hc & Hf). exists (t_ID t). by apply (di_home _ Hi).
Qed.

(** C11. The table of tunnels. After any interleaving of dials, relays, closes and
    [CloseAll]s (fewer than 2^63 dials): the console's snapshot is in strictly
    increasing order of ids and holds exactly the tunnels that were handed out and
    whose closing has not run to its end; while no closing is under way those are
    exactly the open ones, and every other one is marked closed and its keepalive
    told to stop; no dial leaks its connection: one that is not waiting for the
    probe's reply was handed out or closed. *)
Theorem dialer_table server user pass ins d :
  dialer_reachable server user pass ins d → (Z.of_nat (length (objs d)) < 2 ^ 63)%Z →
  StronglySorted (λ p q, id_of d p < id_of d q)%Z (Tunnels d) ∧
  (∀ p, p ∈ Tunnels d ↔ ∃ t, objs d !! p = Some t ∧ t_conn t = true ∧ t_forgotten t = false) ∧
  (closers d = [] → ∀ p t, objs d !! p = Some t → t_conn t = true →
     if t_released t then (¬ (p ∈ Tunnels d) ∧ t_closed t = true ∧ t_done t = true) else (p ∈ Tunnels d)) ∧
  (∀ p t, objs d !! p = Some t → t_conn t = false → t_released t = true ∨ p ∈ handshaking d).
Proof.
  intros Hi%dialer_reachable_inv Hl. split_and!.
  - assert (Hid : ∀ p, p ∈ Tunnels d → ∃ t, objs d !! p = Some t ∧ id_of d p = t_ID t).
    { intros p [id (t & Hp & _)%(di_tab _ Hi)]%elem_of_Tunnels. exists t. unfold id_of. by rewrite Hp. }
    assert (Hnd : NoDup (Tunnels d)).
    { unfold Tunnels. rewrite (proj1 (sort_by_id_spec _ _)), range_order_perm.
      apply NoDup_fmap_2_strong; [|by apply NoDup_map_to_list].
      intros [i p] [j q] (t & Hp & <- & _)%elem_of_map_to_list%(di_tab _ Hi) (u & Hq & <- & _)%elem_of_map_to_list%(di_tab _ Hi) E.
      cbn in E. subst. by simplify_eq. }
    pose proof (proj2 (sort_by_id_spec (id_of d) ((λ e : Z * nat, e.2) <$> range_order (map_to_list (tunnels d))))) as Hs.
    fold (Tunnels d) in Hs. induction Hs as [|p l Hs IH Hall]; [constructor|]. apply NoDup_cons in Hnd as [Hno Hnd].
    constructor; [apply IH; [intros q Hq; apply Hid; by right|done]|]. rewrite Forall_forall in Hall |- *. intros q Hq.
    destruct (Hid p) as (t & Hp & Ep); [by left|]. destruct (Hid q) as (u & Hu & Eq); [by right|]. specialize (Hall q Hq). cbn in Hall.
    destruct (decide (id_of d p = id_of d q)) as [E|]; [|lia]. exfalso. rewrite Ep, Eq in E.
    by rewrite (id_inj d p q t u Hi Hl Hp Hu E) in Hno.
  - intros p. by apply dialer_listed.
  - intros Hq p t Hp Hc. pose proof (dialer_listed d p Hi Hl) as Hli. destruct (t_released t) eqn:Er.
    + destruct (di_released _ Hi _ _ Hp Er) as [Hf|Hin]; [|rewrite Hq in Hin; by apply not_elem_of_nil in Hin].
      destruct (to_forgotten _ _ (di_ok _ Hi _ _ Hp) Hf) as (_ & ? & ?). split_and!; [|done|done].
      intros (u & Hu & _ & Hfu)%Hli. congruence.
    + apply Hli. exists t. split_and!; [done|done|]. destruct (t_forgotten t) eqn:Ef; [|done].
      destruct (to_forgotten _ _ (di_ok _ Hi _ _ Hp) Ef). congruence.
  - apply (di_failed _ Hi).
Qed.

(** Shutting down: the loop of [CloseAll] over its snapshot closes every tunnel
    that had been handed out, whatever closings were under way, marks each closed
    and stops its keepalive. *)
Theorem CloseAll_closes server user pass ins d e :
  dialer_reachable server user pass ins d → (Z.of_nat (length (objs d)) < 2 ^ 63)%Z →
  let d' := CloseAll e d in
  ∀ p t, objs d !! p = Some t → t_conn t = true →
    ∃ t', objs d' !! p = Some t' ∧ t_released t' = true ∧ t_closed t' = true ∧ t_done t' = true.
Proof.
  intros Hi%dialer_reachable_inv Hl d' p t Hp Hc.
  destruct (sweep_all e (Tunnels d) d p t Hp) as (t' & Hp' & Hc' & Hr' & Hcl & Hdo). exists t'.
  assert (Hor : t_forgotten t = true ∨ p ∈ Tunnels d).
  { destruct (t_forgotten t) eqn:Ef; [by left|]. right. apply dialer_listed; [done|done|by exists t]. }
  destruct Hor as [Hf|Hin].
  - destruct (to_forgotten _ _ (di_ok _ Hi _ _ Hp) Hf) as (? & ? & ?). split_and!; auto.
  - split_and!; auto.
Qed.

(** ** Addresses and credentials *)

Lemma splitTarget_Join h p :
  host_ok h → h ≠ "" → all_bytes printable h = true → port_ok p → p ≠ "" → all_bytes printable p = true →
  splitTarget (JoinHostPort h p) = Ok (h, p).
Proof.
  intros Hh Hne Hph Hp Hpne Hpp. unfold splitTarget.
  assert (Hpr : all_bytes printable (JoinHostPort h p) = true).
  { unfold JoinHostPort. by destruct (IndexByte h ":"); rewrite !all_bytes_app, Hph, Hpp. }
  rewrite (TrimSpace_printable _ Hpr).
  assert (Hnil : JoinHostPort h p ≠ "").
  { unfold JoinHostPort. destruct (IndexByte h ":"); [done|]. by destruct h. }
  rewrite (proj2 (String.eqb_neq _ _) Hnil).
  assert (Hc : IndexByte (JoinHostPort h p) ":" ≠ None).
  { change (¬ no_byte ":" (JoinHostPort h p)). unfold JoinHostPort. destruct (IndexByte h ":") eqn:E.
    - rewrite !no_byte_app. intros (_ & H1 & _). unfold no_byte in H1. congruence.
    - rewrite !no_byte_app, no_byte_cons. by intros (_ & [H1 _] & _). }
  rewrite Contains_byte, (bool_decide_eq_true_2 _ Hc). cbn [negb].
  rewrite SplitHostPort_Join by done. by rewrite (proj2 (String.eqb_neq _ _) Hne), (proj2 (String.eqb_neq _ _) Hpne).
Qed.

Lemma dial_target_Join h p :
  host_ok h → h ≠ "" → all_bytes printable h = true → port_ok p → p ≠ "" → all_bytes printable p = true →
  dial_target (JoinHostPort h p) = Ok (JoinHostPort h p).
Proof. intros. unfold dial_target. by rewrite splitTarget_Join. Qed.

Lemma request_roundtrip r : dec_request (mkRequest "") (enc_request r) = Some r.
Proof. by destruct r. Qed.
Lemma reply_roundtrip r : dec_reply (mkReply false "") (enc_reply r) = Some r.
Proof. destruct r as [b e]. unfold enc_reply, dec_reply, omit_str. cbn [y_OK y_Error]. destruct (e =? "")%string eqn:E; [by apply String.eqb_eq in E as ->|reflexivity]. Qed.
End Properties.

(** ** Witnesses *)

(** A parser for URLs of the form [scheme://host/path]. *)
Definition plain_url : UrlParse := λ raw,
  let '(scheme, rest, _) := Cut raw ":" in
  let '(host, _, _) := Cut (str_drop 2 rest) "/" in Ok (scheme, host).

(** Three dials: the first is handed out, the second refused, the third handed
    out and closed by its relay, the hook still to forget it. *)
Definition demo_ok : result tunnelReply := Ok (mkReply true "").
Definition demo_init : Dialer :=
  mkDialer "wss://ping.example.com/api/proxy/tunnel" "Basic anAwYTFiOnMzY3JldA==" false ∅ 0 [] [] [] [].
Definition demo_d3 : Dialer := dial_upgraded "c:443" (dial_upgraded "b:443" (dial_upgraded "a:443" demo_init)).
Definition demo_d4 : Dialer := fst (dial_finish 0 None demo_ok None (set_lists [1; 2] [] [] demo_d3)).
Definition demo_d5 : Dialer := fst (dial_finish 1 None (Ok (mkReply false "")) None (set_lists [2] [] [] demo_d4)).
Definition demo_d6 : Dialer := fst (dial_finish 2 None demo_ok None (set_lists [] (closers demo_d5) [] demo_d5)).
Definition demo_d7 : Dialer := Close 2 (Some CloseEOF) demo_d6.
Definition demo_dials : Dialer := on_tunnel 2 (mark_closed None) (set_lists [] [(1, Some None); (2, None)] [] demo_d7).

Lemma demo_dials_reachable :
  let _ := plain_url in let _ := in_key_order in dialer_reachable "ping.example.com" "jp0a1b" "s3cret" false demo_dials.
Proof.
  intros H1 H2. assert (R3 : dialer_reachable "ping.example.com" "jp0a1b" "s3cret" false demo_d3).
  { do 3 (eapply reach_step; [|apply step_upgraded]). apply reach_init. vm_compute. reflexivity. }
  assert (R4 : dialer_reachable "ping.example.com" "jp0a1b" "s3cret" false demo_d4).
  { eapply reach_step; [exact R3|]. by apply (step_finish demo_d3 0 None demo_ok None [] [1; 2]). }
  assert (R5 : dialer_reachable "ping.example.com" "jp0a1b" "s3cret" false demo_d5).
  { eapply reach_step; [exact R4|]. by apply (step_finish demo_d4 1 None (Ok (mkReply false "")) None [] [2]). }
  assert (R6 : dialer_reachable "ping.example.com" "jp0a1b" "s3cret" false demo_d6).
  { eapply reach_step; [exact R5|]. by apply (step_finish demo_d5 2 None demo_ok None [] []). }
  assert (R7 : dialer_reachable "ping.example.com" "jp0a1b" "s3cret" false demo_d7).
  { eapply reach_step; [exact R6|]. by eapply (step_close demo_d6 2). }
  eapply reach_step; [exact R7|]. by apply (step_mark demo_d7 2 None [(1, Some None)] []).
Qed.

Lemma dialer_table_witness :
  Tunnels (H := in_key_order) demo_dials = [0; 2] ∧
  (2 ∈ Tunnels (H := in_key_order) demo_dials ↔
    ∃ t, objs demo_dials !! 2 = Some t ∧ t_conn t = true ∧ t_forgotten t = false).
Proof.
  split; [vm_compute; reflexivity|].
  apply (dialer_table (H := plain_url) (H0 := in_key_order) _ _ _ _ _ demo_dials_reachable). vm_compute. reflexivity.
Defined.

Lemma CloseAll_closes_witness :
  ∃ t', objs (CloseAll (H := in_key_order) (λ _, None) demo_dials) !! 0 = Some t' ∧
    t_released t' = true ∧ t_closed t' = true ∧ t_done t' = true.
Proof.
  eapply (CloseAll_closes (H := plain_url) (H0 := in_key_order) _ _ _ _ _ (λ _, None) demo_dials_reachable);
    vm_compute; reflexivity.
Defined.

(** The errors of the handshake and the reply. *)
Example dial_errors :
  upgrade_error demo_init (Answered 407 "bad handshake") = Some ErrUnauthorized ∧
  upgrade_error demo_init (Answered 502 "bad handshake") = Some "tunnel handshake failed (HTTP 502): bad handshake" ∧
  dial_answer "b:443" None (Ok (mkReply false "")) = Err "b:443: probe refused the target" ∧
  splitTarget " example.com " = Ok ("example.com", "443") ∧ splitTarget "::1" = Err "invalid target: too many colons in address" ∧
  let _ := plain_url in
  buildTunnelURL " http://h:8080/x " = Ok "ws://h:8080/api/proxy/tunnel" ∧ buildTunnelURL "ftp://h" = Err "unsupported server URL scheme".
Proof. by vm_compute. Qed.
