(* ===== verification/LocalProxy.v ===== *)
(** * The local entrances of the tunnel client ([tunnel/cmd/tunnel]: localproxy.go, forward.go, main.go)

    The SOCKS5 and HTTP proxy on a loopback port, the port forwards, the relay
    between a client and its tunnel, and the process around them. A listener of
    the system is a position in a list that says whether it is open. *)
From S2P Require Import Prelude GoStrings GoNet GoEncoding GoJson Socks5 Dialer.

(** ** Where to listen *)

Definition ensureLoopback (host : string) : result unit :=
  if (host =? "localhost")%string then Ok tt
  else
    match ParseIP host with
    | Some ip => if IsLoopback ip then Ok tt else Err ("refusing to listen on " +:+ host +:+ ": only loopback addresses are allowed")
    | None => Err ("refusing to listen on " +:+ host +:+ ": only loopback addresses are allowed")
    end.

Section Forward.
Context {W : IntSize}.

Definition parsePort (field : string) : result Z :=
  let '(port, err) := Atoi (TrimSpace field) in
  if negb (bool_decide (err = None)) then Err "not a number"
  else if (port <? 1)%Z || (65535 <? port)%Z then Err (Itoa port +:+ " is out of range")
  else Ok port.

(** The local address to listen on and the target. *)
Definition parseForwardSpec (spec : string) : result (string * string) :=
  let spec := TrimSpace spec in
  if (spec =? "")%string then Err "empty forward rule"
  else
    let fields := Split spec ":" in
    let parts :=
      match fields with
      | [localPortField; targetHost; remotePort] => Some ("127.0.0.1", localPortField, targetHost, remotePort)
      | [bindHost; localPortField; targetHost; remotePort] => Some (bindHost, localPortField, targetHost, remotePort)
      | _ => None
      end in
    match parts with
    | None => Err "invalid forward rule: want localPort:host:remotePort"
    | Some (bindHost, localPortField, targetHost, remotePort) =>
        let? _ := ensureLoopback bindHost in
        let? localPort := match parsePort localPortField with Ok p => Ok p | Err e => Err ("invalid local port: " +:+ e) end in
        if (targetHost =? "")%string then Err "invalid forward rule: missing target host"
        else
          let? remotePortNum := match parsePort remotePort with Ok p => Ok p | Err e => Err ("invalid remote port: " +:+ e) end in
          Ok (JoinHostPort bindHost (Itoa localPort), JoinHostPort targetHost (Itoa remotePortNum))
    end.

(** ** Forward rules

    [f_asked] records the address the listener was asked for. *)
Record ForwardRule := mkRule { f_LocalAddr : string; f_Target : string; f_listener : nat; f_asked : string }.
Record Forwarder := mkForwarder { rules : list ForwardRule; f_listeners : list bool; f_log : list string }.

Definition NewForwarder : Forwarder := mkForwarder [] [] [].

(** [listen]: what [net.Listen] answers for an address, the address it bound. *)
Definition Add (listen : string → result string) (spec : string) (f : Forwarder) : Forwarder * result ForwardRule :=
  match parseForwardSpec spec with
  | Err e => (f, Err e)
  | Ok (local, target) =>
      match listen local with
      | Err e => (f, Err e)
      | Ok bound =>
          let rule := mkRule bound target (length (f_listeners f)) local in
          (mkForwarder (rules f ++ [rule]) (f_listeners f ++ [true])
             (f_log f ++ ["forward " +:+ bound +:+ " -> " +:+ target]), Ok rule)
      end
  end.

Definition Rules (f : Forwarder) : list ForwardRule := rules f.

Definition Forwarder_CloseAll (f : Forwarder) : Forwarder :=
  mkForwarder [] (foldl (λ ls r, <[f_listener r := false]> ls) (f_listeners f) (rules f)) (f_log f).

(** [serve] when [Accept] fails: a rule closed on purpose logs nothing. *)
Definition accept_failed (r : ForwardRule) (err : string) (f : Forwarder) : Forwarder :=
  if default false (f_listeners f !! f_listener r)
  then mkForwarder (rules f) (f_listeners f) (f_log f ++ ["forward " +:+ f_LocalAddr r +:+ " stopped: " +:+ err])
  else f.

(** [handle]: the tunnel the connection is relayed to, or a line in the log and
    the client's connection closed. *)
Definition handle (r : ForwardRule) (dial : string → result nat) (f : Forwarder) : Forwarder * option nat :=
  match dial (f_Target r) with
  | Err e => (mkForwarder (rules f) (f_listeners f)
                (f_log f ++ ["forward " +:+ f_LocalAddr r +:+ " -> " +:+ f_Target r +:+ " failed: " +:+ e]), None)
  | Ok p => (f, Some p)
  end.
End Forward.

Inductive forward_step {W : IntSize} (f : Forwarder) : Forwarder → Prop :=
  | step_Add listen spec : forward_step f (fst (Add listen spec f))
  | step_rules_CloseAll : forward_step f (Forwarder_CloseAll f)
  | step_accept_failed r err : r ∈ rules f → forward_step f (accept_failed r err f)
  | step_handle r dial : r ∈ rules f → forward_step f (fst (handle r dial f)).
Definition forwarder_reachable {W : IntSize} : Forwarder → Prop := reachable (λ f, f = NewForwarder) forward_step.

(** ** The proxy's listener

    [Start] holds the lock throughout; [Stop] closes the channel and the listener
    after it. Closing a channel twice panics. *)
Record LocalProxy := mkProxy {
  listener : option nat; addr : string; closed_chan : option nat;
  listeners : list (bool * string); chans : list bool;
  stopping : list (nat * option nat); panicked : bool
}.

Definition NewLocalProxy : LocalProxy := mkProxy None "" None [] [] [] false.
Definition Addr (p : LocalProxy) : string := addr p.
Definition Running (p : LocalProxy) : bool := negb (Addr p =? "")%string.

Definition Start (listen : string → result string) (a : string) (p : LocalProxy) : LocalProxy * result unit :=
  match listener p with
  | Some _ => (p, Err ("already listening on " +:+ addr p))
  | None =>
      let a := if (a =? "")%string then "127.0.0.1:8899" else a in
      match SplitHostPort a with
      | Err e => (p, Err ("invalid listen address: " +:+ e))
      | Ok (host, _) =>
          match ensureLoopback host with
          | Err e => (p, Err e)
          | Ok _ =>
              match listen a with
              | Err e => (p, Err e)
              | Ok bound =>
                  (mkProxy (Some (length (listeners p))) bound (Some (length (chans p)))
                     (listeners p ++ [(true, a)]) (chans p ++ [false]) (stopping p) (panicked p), Ok tt)
              end
          end
      end
  end.

Definition Stop (p : LocalProxy) : LocalProxy :=
  mkProxy None "" None (listeners p) (chans p)
    (match listener p with Some l => stopping p ++ [(l, closed_chan p)] | None => stopping p end) (panicked p).

(** The rest of [Stop]. *)
Definition close_chan (c : nat) (p : LocalProxy) : LocalProxy :=
  mkProxy (listener p) (addr p) (closed_chan p) (listeners p) (<[c := true]> (chans p)) (stopping p)
    (panicked p || default false (chans p !! c)).
Definition stop_rest (l : nat) (c : option nat) (p : LocalProxy) : LocalProxy :=
  let p := match c with Some c => close_chan c p | None => p end in
  mkProxy (listener p) (addr p) (closed_chan p) (alter (λ e, (false, e.2)) l (listeners p)) (chans p) (stopping p) (panicked p).

(** The end of [serve], when [Accept] fails: what is logged. The loop of the listener
    whose channel is [c] is over, and nothing else changes. *)
Definition serve_failed (c : nat) (err : string) (p : LocalProxy) : option string :=
  if default false (chans p !! c) then None else Some ("local proxy stopped: " +:+ err).

Inductive proxy_step (p : LocalProxy) : LocalProxy → Prop :=
  | step_Start listen a : (∀ x y, listen x = Ok y → y ≠ "") → proxy_step p (fst (Start listen a p))
  | step_Stop : proxy_step p (Stop p)
  | step_stop_rest l c l1 l2 :
      stopping p = l1 ++ (l, c) :: l2 →
      proxy_step p (stop_rest l c (mkProxy (listener p) (addr p) (closed_chan p) (listeners p) (chans p) (l1 ++ l2) (panicked p))).
Definition proxy_reachable : LocalProxy → Prop := reachable (λ p, p = NewLocalProxy) proxy_step.

(** ** One connection *)

Inductive protocol := Nothing | SOCKS5 | HTTP.
(** [serveConn] on what the client sends before it ends. *)
Definition serveConn (input : string) : protocol :=
  match input with
  | EmptyString => Nothing
  | String c _ => if Ascii.eqb c socksVersion then SOCKS5 else HTTP
  end.

(** The listener of one connection that [serveHTTP] gives to [http.Serve]; its
    connection reads on from what was buffered. *)
Record singleConnListener := mkSingle { sl_conn : nat; sl_used : bool }.
Definition Accept (l : singleConnListener) : singleConnListener * result nat :=
  if sl_used l then (l, Err "listener closed") else (mkSingle (sl_conn l) true, Ok (sl_conn l)).
(** The loop of [http.Serve], which ends with the first error. *)
Fixpoint http_Serve (fuel : nat) (l : singleConnListener) : list nat * bool :=
  match fuel with
  | O => ([], false)
  | S fuel =>
      match Accept l with
      | (l, Ok c) => let '(cs, ended) := http_Serve fuel l in (c :: cs, ended)
      | (_, Err _) => ([], true)
      end
  end.
Definition serveHTTP (conn : nat) : list nat * bool := http_Serve 2 (mkSingle conn false).

Record Request := mkHttp {
  r_Method : string; r_Host : string; r_URL : option (bool * string);
  r_RequestURI : string; r_Header : list (string * list string)
}.

Inductive answer :=
  | HttpError (status : Z) (msg : string)
  | Forwarded (status : Z) (header : list (string * list string)) (body : string)
  | Established (replayed : string)
  | Dropped.

(** What a handler does with tunnels and requests, in order: [EvDial] a [Dial] and
    what came of it, [EvClose] the closing of a tunnel that is given to nobody,
    [EvSend] a request handed to the HTTP client. *)
Inductive event :=
  | EvDial (target : string) (res : result nat)
  | EvClose (p : nat)
  | EvSend (r : Request).

(** [handleConnect]. [hijack]: whether the connection can be taken over, and how
    that went, with what the server had read ahead; [written]: the client takes the
    answer. *)
Definition handleConnect (r : Request) (dial : string → result nat) (hijacker : bool) (hijack : result string) (written : bool)
    : answer * list event :=
  let target := match r_URL r with Some (_, h) => if (h =? "")%string then r_Host r else h | None => r_Host r end in
  let upstream := dial target in
  let dialled := EvDial target upstream in
  match upstream with
  | Err e => (HttpError 502 e, [dialled])
  | Ok p =>
      if negb hijacker then (HttpError 500 "hijacking not supported", [dialled; EvClose p])
      else
        match hijack with
        | Err _ => (Dropped, [dialled; EvClose p])
        | Ok buffered => if negb written then (Dropped, [dialled; EvClose p]) else (Established buffered, [dialled])
        end
  end.

(** [DialContext]: [cancelled] is the context ending first; a tunnel that then
    arrives is closed. *)
Definition DialContext (cancelled : option string) (network address : string) (dial : string → result nat) : result nat * list event :=
  if negb (bool_decide (network ∈ ["tcp"; "tcp4"; "tcp6"])) then (Err "unsupported network", [])
  else
    let r := dial address in
    match cancelled with
    | Some e => (Err e, EvDial address r :: match r with Ok p => [EvClose p] | Err _ => [] end)
    | None => (r, [EvDial address r])
    end.

(** The HTTP client of [HTTPClient]: for a request, the connections its transport
    asks [DialContext] for (the context's end, network and address), and its answer,
    given what it got. *)
Record HttpClient := mkHttpClient {
  hc_dials : Request → list (option string * string * string);
  hc_answer : Request → list (result nat) → result (Z * list (string * list string) * string)
}.

(** [dial k]: what the [k]-th [Dial] answers. *)
Definition client_Do (client : HttpClient) (dial : nat → string → result nat) (q : Request)
    : result (Z * list (string * list string) * string) * list event :=
  let conns := imap (λ k '(cancelled, network, address), DialContext cancelled network address (dial k)) (hc_dials client q) in
  (hc_answer client q (fst <$> conns), EvSend q :: concat (snd <$> conns)).

(** The request [handleForward] sends on, and its answer. *)
Definition del_header (name : string) (h : list (string * list string)) : list (string * list string) :=
  filter (λ kv, kv.1 ≠ name) h.
Definition outgoing_request (r : Request) : Request :=
  mkHttp (r_Method r) (r_Host r) (r_URL r) "" (del_header "Proxy-Connection" (del_header "Proxy-Authorization" (r_Header r))).
(** [w.Header().Add] of every value. *)
Fixpoint add_header (k v : string) (h : list (string * list string)) : list (string * list string) :=
  match h with
  | [] => [(k, [v])]
  | (k', vs) :: h => if (k =? k')%string then (k', vs ++ [v]) :: h else (k', vs) :: add_header k v h
  end.
Definition add_values (h : list (string * list string)) (kv : string * list string) : list (string * list string) :=
  foldl (λ h v, add_header kv.1 v h) h kv.2.
Definition handleForward (r : Request) (client : HttpClient) (dial : nat → string → result nat) : answer * list event :=
  let '(resp, events) := client_Do client dial (outgoing_request r) in
  match resp with
  | Err e => (HttpError 502 e, events)
  | Ok (status, header, body) => (Forwarded status (foldl add_values [] header) body, events)
  end.

Definition ServeHTTP (r : Request) (dial : nat → string → result nat) (hijacker : bool) (hijack : result string) (written : bool)
    (client : HttpClient) : answer * list event :=
  if (r_Method r =? "CONNECT")%string then handleConnect r (dial 0) hijacker hijack written
  else
    match r_URL r with
    | Some (true, _) => handleForward r client dial
    | _ => (HttpError 400 "this is a proxy; send absolute-form requests or CONNECT", [])
    end.

(** ** relay

    Two copies, one per direction. A side that supports it is half-closed when the
    copy into it ends; both sides are closed when both copies have ended. *)
Record side := mkSide { has_CloseWrite : bool; half_closed : bool; side_closed : bool }.
Record relay := mkRelay { ra : side; rb : side; a_from_b : bool; b_from_a : bool }.

Definition half_close (s : side) : side := if has_CloseWrite s then mkSide true true (side_closed s) else s.
Definition shut (s : side) : side := mkSide (has_CloseWrite s) (half_closed s) true.
Definition relay_end (r : relay) : relay :=
  if a_from_b r && b_from_a r then mkRelay (shut (ra r)) (shut (rb r)) true true else r.
(** The copy into [a] (or into [b]) ends. *)
Definition copy_ended (into_a : bool) (r : relay) : relay :=
  relay_end (if into_a then mkRelay (half_close (ra r)) (rb r) true (b_from_a r)
             else mkRelay (ra r) (half_close (rb r)) (a_from_b r) true).
Definition start_relay (a_cw b_cw : bool) : relay := mkRelay (mkSide a_cw false false) (mkSide b_cw false false) false false.

(** ** main.go *)

Fixpoint firstNonEmpty (values : list string) : string :=
  match values with
  | [] => ""
  | v :: vs => if negb (TrimSpace v =? "")%string then TrimSpace v else firstNonEmpty vs
  end.

Record Flags := mkFlags {
  fl_server : string; fl_credential : string; fl_listen : string; fl_noTUI : bool;
  fl_forward : list string; fl_insecure : bool; fl_version : bool
}.

Inductive session := Headless | Console.
Inductive startup :=
  | Version
  | Exit (code : Z)
  | Run (s : session) (d : Dialer) (p : LocalProxy) (f : Forwarder).

Section Main.
Context {W : IntSize} `{UrlParse}.

(** The loop over [--forward]; the first error ends it. *)
Fixpoint add_rules (listen : string → result string) (specs : list string) (f : Forwarder) : Forwarder * bool :=
  match specs with
  | [] => (f, true)
  | spec :: specs =>
      match Add listen spec f with
      | (f, Ok _) => add_rules listen specs f
      | (f, Err _) => (f, false)
      end
  end.

(** [env_server], [env_credential]: JUSTPING_SERVER and JUSTPING_PROXY_CREDENTIAL. *)
Definition main (fl : Flags) (env_server env_credential : string) (listen : string → result string) : startup :=
  if fl_version fl then Version
  else
    let server := firstNonEmpty [fl_server fl; env_server] in
    let credential := firstNonEmpty [fl_credential fl; env_credential] in
    if (server =? "")%string || (credential =? "")%string then Exit 2
    else
      let '(user, pass, ok) := Cut credential ":" in
      if negb ok || (user =? "")%string || (pass =? "")%string then Exit 2
      else
        match NewDialer server user pass (fl_insecure fl) with
        | Err _ => Exit 1
        | Ok dialer =>
            match (if negb (fl_listen fl =? "")%string then Start listen (fl_listen fl) NewLocalProxy
                   else (NewLocalProxy, Ok tt)) with
            | (_, Err _) => Exit 1
            | (proxy, Ok _) =>
                match add_rules listen (fl_forward fl) NewForwarder with
                | (_, false) => Exit 1
                | (forwarder, true) => Run (if fl_noTUI fl then Headless else Console) dialer proxy forwarder
                end
            end
        end.

(** [runHeadless] returns at once when there is nothing to serve. *)
Definition headless_waits (p : LocalProxy) (f : Forwarder) : bool :=
  negb ((Addr p =? "")%string && (length (Rules f) =? 0)%nat).
End Main.

(** ** Lemmas *)

(** A connection is served once, and the loop ends, however long it is run. *)
Lemma serveHTTP_once n c : http_Serve (2 + n) (mkSingle c false) = ([c], true).
Proof. done. Qed.

(** What the entrances may listen on. *)
Definition loopback (host : string) : Prop := host = "localhost" ∨ ∃ ip, ParseIP host = Some ip ∧ IsLoopback ip = true.

Lemma ensureLoopback_spec host : ensureLoopback host = Ok tt ↔ loopback host.
Proof.
  unfold ensureLoopback, loopback. destruct (String.eqb_spec host "localhost") as [->|Hne]; [split; [by left|done]|].
  destruct (ParseIP host) as [ip|]; [destruct (IsLoopback ip) eqn:E|].
  - split; [|done]. right. by exists ip.
  - split; [done|]. intros [?|(ip' & [= <-] & ?)]; congruence.
  - split; [done|]. by intros [?|(ip & ? & _)].
Qed.

Section ForwardProofs.
Context {W : IntSize}.

Lemma parsePort_ok s p : parsePort s = Ok p → (1 <= p <= 65535)%Z.
Proof.
  unfold parsePort. destruct (Atoi (TrimSpace s)) as [n e]. destruct (negb _); [done|].
  destruct (_ || _) eqn:E; [done|]. intros [= <-]. go_bool. lia.
Qed.

Lemma parsePort_Itoa p : (32 <= int_size)%Z → (1 <= p <= 65535)%Z → parsePort (Itoa p) = Ok p.
Proof.
  intros HW Hp. unfold parsePort. destruct (Itoa_digits p) as [Hd _]; [lia|].
  rewrite TrimSpace_printable by (eapply all_bytes_impl; [exact digit_printable|done]).
  rewrite Atoi_Itoa; [|lia|].
  - cbn. by rewrite (proj2 (Z.ltb_ge p 1)), (proj2 (Z.ltb_ge 65535 p)) by lia.
  - unfold int_max. assert (2 ^ 31 <= 2 ^ (int_size - 1))%Z by (apply Z.pow_le_mono_r; lia). lia.
Qed.

(** The shape of what [parseForwardSpec] lets through. *)
Definition rule_ok (local target : string) : Prop :=
  ∃ host lport thost rport, local = JoinHostPort host (Itoa lport) ∧ loopback host ∧ (1 <= lport <= 65535)%Z ∧
    target = JoinHostPort thost (Itoa rport) ∧ thost ≠ "" ∧ no_byte ":" thost ∧ (1 <= rport <= 65535)%Z.

Lemma parseForwardSpec_ok spec local target : parseForwardSpec spec = Ok (local, target) → rule_ok local target.
Proof.
  unfold parseForwardSpec. destruct (String.eqb_spec (TrimSpace spec) ""); [done|].
  pose proof (Split_Forall (TrimSpace spec) ":") as Hf.
  assert (Hk : ∀ b lp th rp, no_byte ":" th →
    (let? _ := ensureLoopback b in
     let? localPort := match parsePort lp with Ok p => Ok p | Err e => Err ("invalid local port: " +:+ e) end in
     if (th =? "")%string then Err "invalid forward rule: missing target host"
     else
       let? remotePortNum := match parsePort rp with Ok p => Ok p | Err e => Err ("invalid remote port: " +:+ e) end in
       Ok (JoinHostPort b (Itoa localPort), JoinHostPort th (Itoa remotePortNum))) = Ok (local, target) → rule_ok local target).
  { intros b lp th rp Hth. destruct (ensureLoopback b) as [[]|] eqn:Eb; [|done]. apply ensureLoopback_spec in Eb. cbn [result_bind].
    destruct (parsePort lp) as [l|] eqn:El; [|done]. cbn [result_bind]. destruct (String.eqb_spec th ""); [done|].
    destruct (parsePort rp) as [r|] eqn:Er; [|done]. cbn [result_bind]. intros [= <- <-].
    exists b, l, th, r. split_and!; try done; eapply parsePort_ok; done. }
  destruct (Split (TrimSpace spec) ":") as [|a [|b [|c [|d [|e r]]]]]; try done; rewrite !Forall_cons in Hf.
  - by apply Hk; destruct Hf as (? & ? & ?).
  - by apply Hk; destruct Hf as (? & ? & ? & ?).
Qed.

Lemma parseForwardSpec_parts bind lport host rport :
  (32 <= int_size)%Z → loopback bind → no_byte ":" bind → all_bytes printable bind = true → (1 <= lport <= 65535)%Z →
  host ≠ "" → no_byte ":" host → all_bytes printable host = true → (1 <= rport <= 65535)%Z →
  parseForwardSpec (Join [bind; Itoa lport; host; Itoa rport] ":") = Ok (bind +:+ ":" +:+ Itoa lport, host +:+ ":" +:+ Itoa rport) ∧
  parseForwardSpec (Join [Itoa lport; host; Itoa rport] ":") = Ok ("127.0.0.1:" +:+ Itoa lport, host +:+ ":" +:+ Itoa rport).
Proof.
  intros HW Hb Hbn Hbp Hl Hne Hn Hp Hr.
  destruct (Itoa_digits lport) as [Dl Nl]; [lia|]. destruct (Itoa_digits rport) as [Dr Nr]; [lia|].
  assert (Pl : all_bytes printable (Itoa lport) = true) by (eapply all_bytes_impl; [exact digit_printable|done]).
  assert (Pr : all_bytes printable (Itoa rport) = true) by (eapply all_bytes_impl; [exact digit_printable|done]).
  assert (Cl : no_byte ":" (Itoa lport)) by (eapply all_bytes_no_byte; [|exact Dl]; done).
  assert (Cr : no_byte ":" (Itoa rport)) by (eapply all_bytes_no_byte; [|exact Dr]; done).
  assert (J : ∀ h p, no_byte ":" h → JoinHostPort h p = h +:+ ":" +:+ p) by (intros h p E; unfold JoinHostPort; by rewrite E).
  assert (Ht : ∀ l, Forall (λ s, all_bytes printable s = true) l → TrimSpace (Join l ":") = Join l ":").
  { intros l Hf. apply TrimSpace_printable. apply Join_all; done. }
  split; unfold parseForwardSpec; rewrite Ht by (by repeat constructor).
  - rewrite (Split_Join ":") by (done || by repeat constructor).
    destruct (String.eqb_spec (Join [bind; Itoa lport; host; Itoa rport] ":") "") as [E|_].
    { exfalso. rewrite Join_cons in E. by destruct bind. }
    rewrite (proj2 (ensureLoopback_spec bind) Hb). cbn [result_bind]. rewrite !parsePort_Itoa by done. cbn [result_bind].
    rewrite (proj2 (String.eqb_neq _ _) Hne). by rewrite !J.
  - rewrite (Split_Join ":") by (done || by repeat constructor).
    destruct (String.eqb_spec (Join [Itoa lport; host; Itoa rport] ":") "") as [E|_].
    { exfalso. rewrite Join_cons in E. by destruct (Itoa lport). }
    change (ensureLoopback "127.0.0.1") with (Ok (A := ()) tt). cbn [result_bind]. rewrite !parsePort_Itoa by done. cbn [result_bind].
    rewrite (proj2 (String.eqb_neq _ _) Hne). by rewrite !J.
Qed.
End ForwardProofs.

(** ** The invariant of the forward rules *)

Section ForwarderInvariant.
Context {W : IntSize}.

Record forwarder_inv (f : Forwarder) : Prop := {
  fi_ok : Forall (λ r, rule_ok (f_asked r) (f_Target r)) (rules f);
  fi_open r : r ∈ rules f → f_listeners f !! f_listener r = Some true;
  fi_nodup : NoDup (f_listener <$> rules f);
  fi_home l : f_listeners f !! l = Some true → ∃ r, r ∈ rules f ∧ f_listener r = l
}.

Lemma close_listeners rs : ∀ (ls : list bool) l,
  foldl (λ ls r, <[f_listener r := false]> ls) ls rs !! l = Some true → ls !! l = Some true ∧ ∀ r, r ∈ rs → f_listener r ≠ l.
Proof.
  induction rs as [|r rs IH]; intros ls l; cbn [foldl].
  - intros Hl. split; [done|]. by intros r ?%not_elem_of_nil.
  - intros [Hl Hrs]%IH. apply list_lookup_insert_Some in Hl as [(? & ? & _)|[Hne Hl]]; [done|]. split; [done|].
    intros r' [->|?]%elem_of_cons; [done|by apply Hrs].
Qed.

Lemma Add_inv listen spec f : forwarder_inv f → forwarder_inv (fst (Add listen spec f)).
Proof.
  intros Hi. unfold Add. destruct (parseForwardSpec spec) as [[local target]|] eqn:Ep; [|done]. destruct (listen local) as [bound|]; [|done].
  apply parseForwardSpec_ok in Ep. destruct Hi as [H1 H2 H3 H4]. split; cbn [rules f_listeners fst].
  - apply Forall_app. split; [done|]. by repeat constructor.
  - intros r [Hr|Hr]%elem_of_app; [by apply lookup_app_l_Some, H2|]. apply list_elem_of_singleton in Hr as ->. cbn.
    by rewrite lookup_app_r, Nat.sub_diag by lia.
  - rewrite fmap_app. apply NoDup_app. split_and!; [done| |by apply NoDup_singleton].
    intros l (r & -> & Hr)%list_elem_of_fmap Hl. apply list_elem_of_singleton in Hl. apply H2, lookup_lt_Some in Hr. cbn in Hl. lia.
  - intros l [Hl|[Hle Hl]]%lookup_app_Some.
    + destruct (H4 l Hl) as (r & ? & ?). exists r. split; [|done]. apply elem_of_app. by left.
    + apply list_lookup_singleton_Some in Hl as [Hl _]. eexists. split; [apply elem_of_app; right; by left|]. cbn. lia.
Qed.

Lemma Forwarder_CloseAll_closed f l : forwarder_inv f → f_listeners (Forwarder_CloseAll f) !! l ≠ Some true.
Proof.
  intros Hi. cbn. intros [Hl Hno]%close_listeners. destruct (fi_home _ Hi _ Hl) as (r & Hr & ?). by eapply Hno.
Qed.

Lemma forward_step_inv f f' : forwarder_inv f → forward_step f f' → forwarder_inv f'.
Proof.
  intros Hi []; [by apply Add_inv| | |].
  - split; cbn [rules Forwarder_CloseAll]; [constructor|by intros ? ?%not_elem_of_nil|constructor|].
    intros l Hl. by apply Forwarder_CloseAll_closed in Hl.
  - unfold accept_failed. destruct (default false _); destruct Hi; done.
  - unfold handle. destruct (dial _); destruct Hi; done.
Qed.

Lemma forwarder_reachable_inv f : forwarder_reachable f → forwarder_inv f.
Proof.
  revert f. apply reachable_ind_inv; [|intros ??; apply forward_step_inv]. intros f ->.
  split; cbn; try done; try constructor; by intros ? ?%not_elem_of_nil.
Qed.
End ForwarderInvariant.

(** ** The invariant of the proxy's listener *)

Record proxy_inv (p : LocalProxy) : Prop := {
  pi_addr : listener p = None ↔ addr p = "";
  pi_pair : match listener p, closed_chan p with
            | Some l, Some c => listeners p !! l ≠ None ∧ chans p !! c = Some false ∧ (l ∉ (stopping p).*1) ∧ ¬ (Some c ∈ (stopping p).*2)
            | None, None => True
            | _, _ => False
            end;
  pi_loopback l o a : listeners p !! l = Some (o, a) → ∃ host port, SplitHostPort a = Ok (host, port) ∧ loopback host;
  pi_open l a : listeners p !! l = Some (true, a) → listener p = Some l ∨ l ∈ (stopping p).*1;
  pi_stop l c : (l, c) ∈ stopping p → listeners p !! l ≠ None ∧ ∃ k, c = Some k ∧ chans p !! k = Some false;
  pi_nodup : NoDup (stopping p).*2;
  pi_panic : panicked p = false
}.

Lemma Start_inv listen a p :
  (∀ x y, listen x = Ok y → y ≠ "") → proxy_inv p → proxy_inv (fst (Start listen a p)).
Proof.
  intros Hne Hi. unfold Start. destruct (listener p) eqn:El; [done|]. set (a' := if (a =? "")%string then _ else _).
  destruct (SplitHostPort a') as [[host port]|] eqn:Es; [|done]. destruct (ensureLoopback host) as [[]|] eqn:Eb; [|done].
  apply ensureLoopback_spec in Eb. destruct (listen a') as [bound|] eqn:Eli; [|done]. apply Hne in Eli.
  destruct Hi as [I1 I2 I3 I4 I5 I6 I7]. rewrite El in *.
  split; cbn [listener addr closed_chan listeners chans stopping panicked fst]; try done.
  - split_and!.
    + by rewrite lookup_app_r, Nat.sub_diag by lia.
    + by rewrite lookup_app_r, Nat.sub_diag by lia.
    + intros ([l c] & E & Hin)%list_elem_of_fmap. cbn in E. subst. destruct (I5 _ _ Hin) as [Hl _]. apply Hl, lookup_ge_None. lia.
    + intros ([l c] & E & Hin)%list_elem_of_fmap. cbn in E. subst. destruct (I5 _ _ Hin) as (_ & k & [= <-] & Hk).
      apply lookup_lt_Some in Hk. lia.
  - intros l o b [?|[_ Hl]]%lookup_app_Some; [eauto|]. apply list_lookup_singleton_Some in Hl as [_ [= <- <-]]. eauto.
  - intros l b [Hl|[? Hl]]%lookup_app_Some.
    + destruct (I4 _ _ Hl) as [?|?]; [done|by right].
    + apply list_lookup_singleton_Some in Hl as [? _]. left. f_equal. lia.
  - intros l c Hin. destruct (I5 _ _ Hin) as (Hl & k & -> & Hk). split.
    + destruct (listeners p !! l) eqn:E; [|done]. by rewrite (lookup_app_l_Some _ _ _ _ E).
    + exists k. split; [done|]. by apply lookup_app_l_Some.
Qed.

Lemma Stop_inv p : proxy_inv p → proxy_inv (Stop p).
Proof.
  intros [I1 I2 I3 I4 I5 I6 I7]. split; cbn [Stop listener addr closed_chan listeners chans stopping panicked]; try done.
  - intros l a Hl. right. destruct (I4 _ _ Hl) as [El|Hin].
    + rewrite El, fmap_app. apply elem_of_app. right. by left.
    + destruct (listener p); [|done]. rewrite fmap_app. apply elem_of_app. by left.
  - intros l c. destruct (listener p) as [l0|]; [|auto]. intros [?|Hin]%elem_of_app; [auto|].
    apply list_elem_of_singleton in Hin as [= -> ->]. destruct (closed_chan p) as [k|]; [|done]. destruct I2 as (? & ? & _). eauto.
  - destruct (listener p) as [l0|]; [|done]. rewrite fmap_app. apply NoDup_app. split_and!; [done| |by apply NoDup_singleton].
    intros c Hc Hin. apply list_elem_of_singleton in Hin as ->. cbn in Hc. destruct (closed_chan p) as [k|]; [|done].
    by destruct I2 as (_ & _ & _ & I2).
Qed.

Lemma stop_rest_inv l c l1 l2 p :
  proxy_inv p → stopping p = l1 ++ (l, c) :: l2 →
  proxy_inv (stop_rest l c (mkProxy (listener p) (addr p) (closed_chan p) (listeners p) (chans p) (l1 ++ l2) (panicked p))).
Proof.
  intros [I1 I2 I3 I4 I5 I6 I7] Es. rewrite Es in *.
  destruct (I5 l c) as (Hl & k & -> & Hk); [apply elem_of_app; right; by left|].
  assert (Hsub : ∀ x, x ∈ l1 ++ l2 → x ∈ l1 ++ (l, Some k) :: l2).
  { intros x [?|?]%elem_of_app; apply elem_of_app; [by left|right; by right]. }
  assert (Hkn : ∀ x, (x, Some k) ∉ l1 ++ l2).
  { intros x Hin. assert (Hp : l1 ++ (l, Some k) :: l2 ≡ₚ (l, Some k) :: l1 ++ l2) by (by rewrite Permutation_middle).
    rewrite Hp in I6. cbn in I6. apply NoDup_cons in I6 as [I6 _]. apply I6, list_elem_of_fmap. by exists (x, Some k). }
  unfold stop_rest, close_chan. split; cbn [listener addr closed_chan listeners chans stopping panicked]; try done.
  - destruct (listener p) as [l0|], (closed_chan p) as [c0|]; try done. destruct I2 as (H1 & H2 & H3 & H4). split_and!.
    + destruct (decide (l = l0)) as [->|]; [rewrite list_lookup_alter_eq|by rewrite list_lookup_alter_ne].
      by destruct (listeners p !! l0).
    + rewrite list_lookup_insert_ne; [done|]. intros ->. apply H4, list_elem_of_fmap. exists (l, Some c0). split; [done|].
      apply elem_of_app. right. by left.
    + intros ([x y] & -> & Hin%Hsub)%list_elem_of_fmap. apply H3, list_elem_of_fmap. by exists (x, y).
    + intros ([x y] & E & Hin%Hsub)%list_elem_of_fmap. apply H4, list_elem_of_fmap. by exists (x, y).
  - intros x o a. destruct (decide (l = x)) as [->|].
    + rewrite list_lookup_alter_eq. intros ([o' a'] & Hx & [= -> ->])%fmap_Some. eauto.
    + rewrite list_lookup_alter_ne by done. eauto.
  - intros x a. destruct (decide (l = x)) as [->|].
    + rewrite list_lookup_alter_eq. by intros ([o' a'] & Hx & [= <-])%fmap_Some.
    + rewrite list_lookup_alter_ne by done. intros [?|Hin]%I4; [by left|]. right.
      rewrite fmap_app in Hin |- *. cbn in Hin. apply elem_of_app in Hin as [?|[?|?]%elem_of_cons]; apply elem_of_app; [by left|congruence|by right].
  - intros x y Hin. destruct (I5 x y (Hsub _ Hin)) as (Hx & k' & -> & Hk'). split.
    + destruct (decide (l = x)) as [->|]; [rewrite list_lookup_alter_eq|by rewrite list_lookup_alter_ne]. by destruct (listeners p !! x).
    + exists k'. split; [done|]. rewrite list_lookup_insert_ne; [done|]. intros ->. by eapply Hkn.
  - rewrite fmap_app in I6 |- *. cbn in I6. apply NoDup_app in I6 as (? & Hno & [_ ?]%NoDup_cons). apply NoDup_app. split_and!; try done.
    intros x Hx Hx2. apply (Hno x Hx). by right.
  - by rewrite I7, Hk.
Qed.

Lemma proxy_reachable_inv p : proxy_reachable p → proxy_inv p.
Proof.
  revert p. apply reachable_ind_inv.
  - intros p ->. split; cbn; try done; try (by intros * ?%not_elem_of_nil); constructor.
  - intros p p' Hi []; [by apply Start_inv|by apply Stop_inv|by apply stop_rest_inv].
Qed.

(** ** Properties *)

(** C27. Nothing but this machine reaches the tunnels. In every reachable state of the
    forward rules and of the proxy: each address listened on is "localhost" or a
    loopback address, each rule has a local and a remote port from 1 to 65535 and a
    target host; the listeners that are open are exactly those of the rules, or the
    proxy's current one and those being stopped; the proxy reports that it runs
    exactly when it has a listener, no channel is closed twice, and after
    [CloseAll] no rule listens. *)
Theorem local_only {W : IntSize} f p :
  forwarder_reachable f → proxy_reachable p →
  (∀ r, r ∈ rules f → rule_ok (f_asked r) (f_Target r) ∧ f_listeners f !! f_listener r = Some true) ∧
  (∀ l, f_listeners f !! l = Some true → ∃ r, r ∈ rules f ∧ f_listener r = l) ∧
  (∀ l, f_listeners (Forwarder_CloseAll f) !! l ≠ Some true) ∧
  (∀ l o a, listeners p !! l = Some (o, a) → ∃ host port, SplitHostPort a = Ok (host, port) ∧ loopback host) ∧
  (∀ l a, listeners p !! l = Some (true, a) → listener p = Some l ∨ l ∈ (stopping p).*1) ∧
  (Running p = true ↔ listener p ≠ None) ∧ panicked p = false.
Proof.
  intros Hf%forwarder_reachable_inv Hp%proxy_reachable_inv. split_and!.
  - intros r Hr. split; [|by apply fi_open]. exact (proj1 (Forall_forall _ _) (fi_ok _ Hf) r Hr).
  - apply fi_home, Hf.
  - intros l. by apply Forwarder_CloseAll_closed.
  - apply pi_loopback, Hp.
  - apply pi_open, Hp.
  - unfold Running, Addr. rewrite (pi_addr _ Hp). rewrite negb_true_iff. apply String.eqb_neq.
  - apply pi_panic, Hp.
Qed.

(** A forward rule in either of its forms means its parts: the ports in decimal and
    hosts without a colon come back, with 127.0.0.1 where no address to bind is
    given. *)
Theorem forward_spec {W : IntSize} bind lport host rport :
  (32 <= int_size)%Z → loopback bind → no_byte ":" bind → all_bytes printable bind = true → (1 <= lport <= 65535)%Z →
  host ≠ "" → no_byte ":" host → all_bytes printable host = true → (1 <= rport <= 65535)%Z →
  parseForwardSpec (Join [bind; Itoa lport; host; Itoa rport] ":") = Ok (bind +:+ ":" +:+ Itoa lport, host +:+ ":" +:+ Itoa rport) ∧
  parseForwardSpec (Join [Itoa lport; host; Itoa rport] ":") = Ok ("127.0.0.1:" +:+ Itoa lport, host +:+ ":" +:+ Itoa rport).
Proof. apply parseForwardSpec_parts. Qed.

(** *** The HTTP entrance *)

Lemma add_header_new k v h : k ∉ h.*1 → add_header k v h = h ++ [(k, [v])].
Proof.
  induction h as [|[k' vs] h IH]; cbn; [done|]. intros [Hk Hh]%not_elem_of_cons.
  rewrite (proj2 (String.eqb_neq _ _) Hk), IH; done.
Qed.

Lemma add_header_old k v l h : k ∉ h.*1 → add_header k v (h ++ [(k, l)]) = h ++ [(k, l ++ [v])].
Proof.
  induction h as [|[k' vs] h IH]; cbn; [by rewrite String.eqb_refl|]. intros [Hk Hh]%not_elem_of_cons.
  rewrite (proj2 (String.eqb_neq _ _) Hk), IH; done.
Qed.

Lemma add_values_new h k vs : k ∉ h.*1 → add_values h (k, vs) = h ++ (if bool_decide (vs = []) then [] else [(k, vs)]).
Proof.
  intros Hk. unfold add_values. cbn [fst snd]. destruct vs as [|v vs]; cbn; [by rewrite app_nil_r|].
  rewrite add_header_new by done.
  assert (Hv : ∀ l, foldl (λ h v, add_header k v h) (h ++ [(k, l)]) vs = h ++ [(k, l ++ vs)]); [|by apply Hv].
  induction vs as [|w vs IH]; intros l; cbn; [by rewrite app_nil_r|]. rewrite add_header_old, IH by done.
  by rewrite <- (assoc_L (++)).
Qed.

(** A header without repeated keys arrives as it was. *)
Lemma add_values_all hs : ∀ h, NoDup (h ++ hs).*1 → foldl add_values h hs = h ++ filter (λ kv, kv.2 ≠ []) hs.
Proof.
  induction hs as [|[k vs] hs IH]; intros h Hn; cbn [foldl]; [by rewrite app_nil_r|].
  rewrite fmap_app in Hn. cbn in Hn. assert (Hk : k ∉ h.*1) by (intros Hk; apply NoDup_app in Hn as (_ & Hn & _); apply (Hn _ Hk); by left).
  rewrite add_values_new by done. rewrite IH.
  - rewrite <- (assoc_L (++)). f_equal. rewrite filter_cons. cbn. destruct vs; [rewrite bool_decide_eq_true_2, decide_False by (try (intros Hv; by apply Hv); done)|
      rewrite bool_decide_eq_false_2, decide_True by done]; done.
  - rewrite !fmap_app. case_bool_decide; cbn.
    + rewrite app_nil_r. eapply sublist_NoDup; [exact Hn|]. apply sublist_app; [done|]. by apply sublist_cons.
    + by rewrite <- (assoc_L (++)).
Qed.

(** The tunnels of a request that is sent on. *)
Lemma client_Do_events client dial q :
  ∃ ds, snd (client_Do client dial q) = EvSend q :: ds ∧ (∀ q', EvSend q' ∉ ds) ∧
  (∀ t x, EvDial t x ∈ ds ↔ ∃ k c n, hc_dials client q !! k = Some (c, n, t) ∧ n ∈ ["tcp"; "tcp4"; "tcp6"] ∧ x = dial k t) ∧
  (∀ p, EvClose p ∈ ds ↔ ∃ k e n t, hc_dials client q !! k = Some (Some e, n, t) ∧ n ∈ ["tcp"; "tcp4"; "tcp6"] ∧ dial k t = Ok p).
Proof.
  eexists. split; [done|].
  assert (He : ∀ e, e ∈ concat (snd <$> imap (λ k '(c, n, t), DialContext c n t (dial k)) (hc_dials client q)) ↔
    ∃ k c n t, hc_dials client q !! k = Some (c, n, t) ∧ e ∈ snd (DialContext c n t (dial k))).
  { intros e. rewrite list_elem_of_In, in_concat. setoid_rewrite <- list_elem_of_In. setoid_rewrite list_elem_of_fmap. setoid_rewrite elem_of_lookup_imap. split.
    - intros (l & (y & -> & k & [[c n] t] & -> & Hk) & Hin). eauto 8.
    - intros (k & c & n & t & Hk & Hin). eexists. split; [|exact Hin]. eexists. split; [done|]. by exists k, (c, n, t). }
  unfold DialContext in He. setoid_rewrite He. split_and!.
  - intros q' (k & c & n & t & _ & Hin). destruct (negb _); [by apply elem_of_nil in Hin|]. destruct c, (dial k t); cbn in Hin;
      repeat (apply elem_of_cons in Hin as [?|Hin]; [done|]); by apply elem_of_nil in Hin.
  - intros t x. split.
    + intros (k & c & n & t' & Hk & Hin). case_bool_decide as Hn; cbn in Hin; [|by apply elem_of_nil in Hin].
      exists k, c, n. assert (E : EvDial t x = EvDial t' (dial k t')); [|by injection E as -> ->].
      destruct c; [|by apply list_elem_of_singleton in Hin]. apply elem_of_cons in Hin as [?|Hin]; [done|].
      destruct (dial k t'); [by apply list_elem_of_singleton in Hin|by apply elem_of_nil in Hin].
    + intros (k & c & n & Hk & Hn & ->). exists k, c, n, t. split; [done|]. rewrite bool_decide_eq_true_2 by done. cbn [negb].
      destruct c; apply list_elem_of_here.
  - intros p. split.
    + intros (k & c & n & t & Hk & Hin). case_bool_decide as Hn; cbn in Hin; [|by apply elem_of_nil in Hin].
      destruct c as [e|]; [|by apply list_elem_of_singleton in Hin]. exists k, e, n, t.
      apply elem_of_cons in Hin as [?|Hin]; [done|]. destruct (dial k t) eqn:Ed; [|by apply elem_of_nil in Hin].
      by apply list_elem_of_singleton in Hin as [= ->].
    + intros (k & e & n & t & Hk & Hn & Hd). exists k, (Some e), n, t. split; [done|]. rewrite bool_decide_eq_true_2 by done.
      cbn. rewrite Hd. apply elem_of_cons. right. by apply list_elem_of_singleton.
Qed.

(** C40. What an HTTP client of the local proxy gets. CONNECT dials exactly the target
    the request names (the host of its URL, else its Host header), once, and the
    tunnel is the client's when the connection could be taken over and the answer
    written, and is closed otherwise; a dial that fails is answered with 502. A
    request in absolute form is handed on once, with its method, host, URL and every
    header except the two that are for the proxy, its credentials among them, and is
    answered with the status, header and body that came back, or 502; the only
    tunnels are those that the HTTP client dials, and those that arrive after it gave
    up are closed. Anything else is refused, and nothing dialled or sent. *)
Theorem http_entrance r dial hijacker hijack written client :
  let '(a, es) := ServeHTTP r dial hijacker hijack written client in
  (r_Method r = "CONNECT" →
     let target := match r_URL r with Some (_, h) => if (h =? "")%string then r_Host r else h | None => r_Host r end in
     (∀ e, dial 0 target = Err e → a = HttpError 502 e ∧ es = [EvDial target (Err e)]) ∧
     (∀ p, dial 0 target = Ok p →
        match hijack with
        | Ok replay =>
            if hijacker && written then a = Established replay ∧ es = [EvDial target (Ok p)]
            else (∀ b, a ≠ Established b) ∧ es = [EvDial target (Ok p); EvClose p]
        | Err _ => (∀ b, a ≠ Established b) ∧ es = [EvDial target (Ok p); EvClose p]
        end)) ∧
  (r_Method r ≠ "CONNECT" → (∀ h, r_URL r ≠ Some (true, h)) → (∃ m, a = HttpError 400 m) ∧ es = []) ∧
  (r_Method r ≠ "CONNECT" → (∃ h, r_URL r = Some (true, h)) →
     ∃ q ds, es = EvSend q :: ds ∧ (∀ q', EvSend q' ∉ ds) ∧
       r_Method q = r_Method r ∧ r_Host q = r_Host r ∧ r_URL q = r_URL r ∧
       (∀ k vs, (k, vs) ∈ r_Header q ↔ (k, vs) ∈ r_Header r ∧ k ≠ "Proxy-Authorization" ∧ k ≠ "Proxy-Connection") ∧
       (∀ t x, EvDial t x ∈ ds ↔ ∃ k c n, hc_dials client q !! k = Some (c, n, t) ∧ n ∈ ["tcp"; "tcp4"; "tcp6"] ∧ x = dial k t) ∧
       (∀ p, EvClose p ∈ ds ↔ ∃ k e n t, hc_dials client q !! k = Some (Some e, n, t) ∧ n ∈ ["tcp"; "tcp4"; "tcp6"] ∧ dial k t = Ok p) ∧
       match fst (client_Do client dial q) with
       | Err e => a = HttpError 502 e
       | Ok (status, header, body) =>
           ∃ header', a = Forwarded status header' body ∧ (NoDup header.*1 → header' = filter (λ kv, kv.2 ≠ []) header)
       end).
Proof.
  unfold ServeHTTP. destruct (String.eqb_spec (r_Method r) "CONNECT") as [Em|Em].
  - unfold handleConnect. set (t := match r_URL r with Some _ => _ | None => _ end).
    cbv zeta. destruct (dial 0 t) as [p|e].
    2: { split; [|done]. intros _. split; [by intros ? [= <-]|done]. }
    destruct hijacker, hijack as [b|e], written; cbn [negb]; (split; [|done]); intros _;
      (split; [done|]); by intros ? [= <-].
  - destruct (r_URL r) as [[[] h]|] eqn:Eu.
    2, 3: split; [done|]; split; [intros _ _; split; [by eexists|done]|]; by intros _ [? ?].
    unfold handleForward. destruct (client_Do_events client dial (outgoing_request r)) as (ds & Es & H1 & H2 & H3).
    destruct (client_Do client dial (outgoing_request r)) as [resp es] eqn:Ec. cbn in Es. subst es.
    destruct resp as [[[status header] body]|e]; (split; [done|]); (split; [by intros _ Hu; destruct (Hu h)|]); intros _ _;
      exists (outgoing_request r), ds; rewrite Ec; (split_and!; try done);
      try (intros k vs; cbn; unfold del_header; rewrite !list_elem_of_filter; cbn; tauto).
    eexists. split; [done|]. intros Hn. by rewrite add_values_all.
Qed.

(** ** Witnesses *)

(** A system that binds what it is asked for. *)
Definition bind_all (a : string) : result string := Ok a.

Definition demo_rules : Forwarder :=
  let _ := int64_size in
  fst (Add bind_all "0.0.0.0:80:h:80" (fst (Add bind_all "127.0.0.2:8080:example.com:443" (fst (Add bind_all "5432:db:5432" NewForwarder))))).
Definition demo_proxy : LocalProxy := fst (Start bind_all "[::1]:1080" (Stop (fst (Start bind_all "" NewLocalProxy)))).

Lemma demo_rules_reachable : let _ := int64_size in forwarder_reachable demo_rules.
Proof. intros ?. do 3 (eapply reach_step; [|apply step_Add]). by apply reach_init. Qed.
Lemma demo_proxy_reachable : proxy_reachable demo_proxy.
Proof.
  assert (R1 : proxy_reachable (fst (Start (λ _, Ok "127.0.0.1:8899") "" NewLocalProxy))).
  { eapply reach_step; [by apply reach_init|]. apply step_Start. by intros x y [= <-]. }
  assert (R2 : proxy_reachable (Stop (fst (Start bind_all "" NewLocalProxy)))).
  { eapply reach_step; [exact R1|apply step_Stop]. }
  eapply reach_step; [exact R2|]. change demo_proxy with (fst (Start (λ _, Ok "[::1]:1080") "[::1]:1080" (Stop (fst (Start bind_all "" NewLocalProxy))))).
  apply step_Start. by intros x y [= <-].
Qed.

Lemma local_only_witness :
  (f_asked <$> rules demo_rules) = ["127.0.0.1:5432"; "127.0.0.2:8080"] ∧
  stopping demo_proxy = [(0, Some 0)] ∧ (Running demo_proxy = true ↔ listener demo_proxy ≠ None).
Proof.
  split; [vm_compute; reflexivity|]. split; [vm_compute; reflexivity|].
  apply (local_only (W := int64_size) demo_rules demo_proxy demo_rules_reachable demo_proxy_reachable).
Defined.

Lemma forward_spec_witness :
  let _ := int64_size in parseForwardSpec "localhost:8080:example.com:443" = Ok ("localhost:8080", "example.com:443").
Proof.
  intros W. refine (proj1 (forward_spec (W := W) "localhost" 8080 "example.com" 443 _ _ _ _ _ _ _ _ _)); try done; by left.
Defined.

(** A client that dials the request's host and gives back what it was asked for. *)
Definition echo_client : HttpClient :=
  mkHttpClient (λ q, [(None, "tcp", r_Host q); (Some "late", "tcp", "spare:80")])
    (λ q conns, match conns with Ok _ :: _ => Ok (200%Z, [("Via", [r_Method q])], "ok") | _ => Err "no tunnel" end).
Definition demo_get : Request :=
  mkHttp "GET" "a:80" (Some (true, "a:80")) "http://a:80/" [("Accept", ["*"]); ("Proxy-Authorization", ["Basic eA=="])].

Example http_forwarded :
  ServeHTTP demo_get (λ k _, Ok k) true (Ok "") true echo_client =
  (Forwarded 200 [("Via", ["GET"])] "ok",
   [EvSend (mkHttp "GET" "a:80" (Some (true, "a:80")) "" [("Accept", ["*"])]); EvDial "a:80" (Ok 0); EvDial "spare:80" (Ok 1); EvClose 1]).
Proof. by vm_compute. Qed.

(** A relative request. *)
Lemma http_entrance_witness :
  let '(a, es) := ServeHTTP (mkHttp "GET" "a" None "/" []) (λ _ _, Err "") true (Ok "") true echo_client in
  (∃ m, a = HttpError 400 m) ∧ es = [].
Proof.
  pose proof (http_entrance (mkHttp "GET" "a" None "/" []) (λ _ _, Err "") true (Ok "") true echo_client) as H.
  destruct (ServeHTTP _ _ _ _ _ _) as [a es]. apply (proj1 (proj2 H)); done.
Defined.

(** A relay whose client stopped sending keeps its tunnel: the tunnel cannot be
    half-closed, and nothing is closed until the other direction ends as well. *)
Example relay_waits :
  let r := copy_ended false (start_relay true false) in
  rb r = rb (start_relay true false) ∧ side_closed (ra r) = false ∧ side_closed (rb (copy_ended true r)) = true.
Proof. by vm_compute. Qed.

(** Two rules of the command line, one of them not local. *)
Example forward_refused :
  let _ := int64_size in
  parseForwardSpec "0.0.0.0:80:h:80" = Err "refusing to listen on 0.0.0.0: only loopback addresses are allowed" ∧
  parseForwardSpec "80:h:0" = Err "invalid remote port: 0 is out of range" ∧
  parseForwardSpec "::1:80:h:80" = Err "invalid forward rule: want localPort:host:remotePort".
Proof. by vm_compute. Qed.

(** After an error of [Accept] nothing listens any more, and the console still shows
    the proxy as running and refuses to start it again. *)
Example accept_error_stops :
  serve_failed 1 "too many open files" demo_proxy = Some "local proxy stopped: too many open files" ∧
  Running demo_proxy = true ∧ snd (Start bind_all "" demo_proxy) = Err "already listening on [::1]:1080".
Proof. by vm_compute. Qed.
