(* ===== verification/TunnelUi.v ===== *)
(** * The console of the tunnel client ([tunnel/cmd/tunnel/ui.go])

    The state the terminal shows, what each message and key press does to it, and
    the text of the view. The toolkit is a parameter: how a style renders a text,
    and what a key is called; so is how a duration is printed. *)
From S2P Require Import Prelude GoStrings GoNet GoEncoding GoFloat Dialer LocalProxy.

Inductive inputMode := modeNone | modeTarget | modeRequest | modeListen | modeForward.
#[export] Instance inputMode_eq_dec : EqDecision inputMode.
Proof. solve_decision. Defined.

(** ** The log *)

Record logBuffer := mkLogs { lines : list string; max : Z }.
Definition newLogBuffer (max : Z) : logBuffer := mkLogs [] max.
(** [stamp]: the time of day. *)
Definition add (stamp text : string) (b : logBuffer) : logBuffer :=
  mkLogs (push_bounded (max b) (lines b) (stamp +:+ "  " +:+ text)) (max b).
Definition tail (n : Z) (b : logBuffer) : list string :=
  if (zlen (lines b) <=? n)%Z then lines b else drop (Z.to_nat (zlen (lines b) - n)) (lines b).
Definition clear (b : logBuffer) : logBuffer := mkLogs [] (max b).
Definition empty (b : logBuffer) : bool := (length (lines b) =? 0)%nat.

(** ** Messages *)

Record requestResult := mkReqResult {
  rq_url : string; rq_status : Z; rq_duration : Z; rq_headers : list string; rq_body : string; rq_err : option string
}.

Inductive keyType := KeyEsc | KeyCtrlC | KeyEnter | KeyBackspace | KeySpace | KeyRunes | KeyOther.
(** [k_runes]: the code points typed; [k_name]: the name of the key. *)
Record keyMsg := mkKey { k_type : keyType; k_runes : list Z; k_name : string }.

Inductive msg :=
  | WindowSize (w h : Z)
  | Tick
  | TargetResult (addr : string) (err : option string)
  | ListenResult (addr : string) (err : option string)
  | RequestResult (r : requestResult)
  | Key (k : keyMsg)
  | OtherMsg.

(** What the program is asked to do next. *)
Inductive cmd :=
  | NoCmd
  | TickCmd
  | Quit
  | StartListen (addr : string)
  | OpenTunnel (addr : string)
  | DoRequest (url : string)
  | ReportStopped.

(** The input is kept as its code points. *)
Record model := mkModel {
  dialer : Dialer; proxy : LocalProxy; forwarder : Forwarder; logs : logBuffer;
  server : string; user : string;
  mode : inputMode; input : list Z; prompt : string;
  reqs : list requestResult; reqMax : Z; width : Z; height : Z
}.

Definition newModel (server user : string) (d : Dialer) (p : LocalProxy) (f : Forwarder) (logs : logBuffer) : model :=
  mkModel d p f logs server user modeNone [] "" [] 20 0 0.

Definition set_mode (md : inputMode) (p : string) (inp : list Z) (m : model) : model :=
  mkModel (dialer m) (proxy m) (forwarder m) (logs m) (server m) (user m) md inp p (reqs m) (reqMax m) (width m) (height m).
Definition set_logs (l : logBuffer) (m : model) : model :=
  mkModel (dialer m) (proxy m) (forwarder m) l (server m) (user m) (mode m) (input m) (prompt m) (reqs m) (reqMax m) (width m) (height m).
Definition set_reqs (r : list requestResult) (m : model) : model :=
  mkModel (dialer m) (proxy m) (forwarder m) (logs m) (server m) (user m) (mode m) (input m) (prompt m) r (reqMax m) (width m) (height m).
Definition set_size (w h : Z) (m : model) : model :=
  mkModel (dialer m) (proxy m) (forwarder m) (logs m) (server m) (user m) (mode m) (input m) (prompt m) (reqs m) (reqMax m) w h.
Definition set_parts (d : Dialer) (p : LocalProxy) (f : Forwarder) (m : model) : model :=
  mkModel d p f (logs m) (server m) (user m) (mode m) (input m) (prompt m) (reqs m) (reqMax m) (width m) (height m).

Definition log (stamp text : string) (m : model) : model := set_logs (add stamp text (logs m)) m.

(** [string(runes)]: UTF-8; what is no code point becomes U+FFFD. *)
Definition cont (z : Z) : string := String (chr (128 + z mod 64)) "".
Definition utf8 (r : Z) : string :=
  if (r <? 0)%Z || (1114111 <? r)%Z || ((55296 <=? r) && (r <=? 57343))%Z then bytes [239; 191; 189]%N
  else if (r <? 128)%Z then String (chr r) ""
  else if (r <? 2048)%Z then String (chr (192 + r / 64)) "" +:+ cont r
  else if (r <? 65536)%Z then String (chr (224 + r / 4096)) "" +:+ cont (r / 64) +:+ cont r
  else String (chr (240 + r / 262144)) "" +:+ cont (r / 4096) +:+ cont (r / 64) +:+ cont r.
Definition runes_string (l : list Z) : string := foldr (λ r s, utf8 r +:+ s) "" l.
Definition runes_of (s : string) : list Z := byte_of <$> String.list_ascii_of_string s.

(** [time.Duration.String]. *)
Class DurationText := duration_text : Z → string.

(** [d.Round(time.Millisecond)]: halves away from zero. *)
Definition round_ms (d : Z) : Z :=
  let r := Z.rem d 1000000 in
  if (d <? 0)%Z then (if (- r + - r <? 1000000)%Z then d - r else d - 1000000 - r)%Z
  else (if (r + r <? 1000000)%Z then d - r else d + 1000000 - r)%Z.

Section Update.
Context {W : IntSize} `{MapOrder} `{DurationText}.

(** What the system answers while a key is handled: [net.Listen], the error of
    closing the listener, those of closing tunnels. *)
Variables (stamp : string) (listen : string → result string) (close_listener : option string) (close_tunnel : nat → option close_error).

Definition submit (md : inputMode) (value : string) (m : model) : model * cmd :=
  match md with
  | modeListen => (log stamp ("starting local proxy on " +:+ value) m, StartListen value)
  | modeTarget => (log stamp ("opening tunnel to " +:+ value) m, OpenTunnel value)
  | modeRequest => (log stamp ("requesting " +:+ value) m, DoRequest value)
  | modeForward =>
      let '(f, r) := Add listen value (forwarder m) in
      let m := set_parts (dialer m) (proxy m) f m in
      match r with
      | Err e => (log stamp ("forward failed: " +:+ e) m, NoCmd)
      | Ok rule =>
          let text := "forward " +:+ f_LocalAddr rule +:+ " -> " +:+ f_Target rule in
          (log stamp text (log stamp text m), NoCmd)
      end
  | modeNone => (m, NoCmd)
  end.

(** [Stop] together with its rest. *)
Definition stop_proxy (p : LocalProxy) : LocalProxy :=
  match listener p with
  | None => Stop p
  | Some l =>
      let q := Stop p in
      stop_rest l (closed_chan p) (mkProxy (LocalProxy.listener q) (addr q) (closed_chan q) (listeners q) (chans q) (stopping p) (panicked q))
  end.

Definition toggleLocalProxy (m : model) : model * cmd :=
  if Running (proxy m) then
    let m := set_parts (dialer m) (stop_proxy (proxy m)) (forwarder m) m in
    match close_listener with
    | Some e => (log stamp ("stop failed: " +:+ e) m, NoCmd)
    | None => (m, ReportStopped)
    end
  else (set_mode modeListen "listen address" (runes_of "127.0.0.1:8899") m, NoCmd).

Definition handleKey (k : keyMsg) (m : model) : model * cmd :=
  if negb (bool_decide (mode m = modeNone)) then
    match k_type k with
    | KeyEsc | KeyCtrlC => (set_mode modeNone (prompt m) [] m, NoCmd)
    | KeyEnter =>
        let value := TrimSpace (runes_string (input m)) in
        let md := mode m in
        let m := set_mode modeNone (prompt m) [] m in
        if (value =? "")%string then (m, NoCmd) else submit md value m
    | KeyBackspace =>
        (set_mode (mode m) (prompt m) (take (length (input m) - 1) (input m)) m, NoCmd)
    | KeySpace => (set_mode (mode m) (prompt m) (input m ++ [32%Z]) m, NoCmd)
    | KeyRunes => (set_mode (mode m) (prompt m) (input m ++ k_runes k) m, NoCmd)
    | KeyOther => (m, NoCmd)
    end
  else if (k_name k =? "q")%string || (k_name k =? "ctrl+c")%string then (m, Quit)
  else if (k_name k =? "t")%string then (set_mode modeTarget "target host:port" [] m, NoCmd)
  else if (k_name k =? "r")%string then (set_mode modeRequest "request URL" (runes_of "https://") m, NoCmd)
  else if (k_name k =? "l")%string then toggleLocalProxy m
  else if (k_name k =? "f")%string then (set_mode modeForward "localPort:host:port" [] m, NoCmd)
  else if (k_name k =? "x")%string then
    let n := Z.of_nat (length (Tunnels (dialer m))) in
    let m := set_parts (CloseAll close_tunnel (dialer m)) (proxy m) (forwarder m) m in
    (log stamp ("closed " +:+ Itoa n +:+ " tunnel(s)") m, NoCmd)
  else if (k_name k =? "c")%string then (set_reqs [] (set_logs (clear (logs m)) m), NoCmd)
  else (m, NoCmd).

Definition Update (x : msg) (m : model) : model * cmd :=
  match x with
  | WindowSize w h => (set_size w h m, NoCmd)
  | Tick => (m, TickCmd)
  | TargetResult a (Some e) => (log stamp ("open " +:+ a +:+ " failed: " +:+ e) m, NoCmd)
  | TargetResult a None => (log stamp ("tunnel open to " +:+ a) m, NoCmd)
  | ListenResult _ (Some e) => (log stamp ("local proxy failed: " +:+ e) m, NoCmd)
  | ListenResult a None =>
      (log stamp (if (a =? "")%string then "local proxy stopped"
                  else "local proxy listening on " +:+ a +:+ " (export https_proxy=http://" +:+ a +:+ ")") m, NoCmd)
  | RequestResult r =>
      let m := set_reqs (push_bounded (reqMax m) (reqs m) r) m in
      (log stamp (match rq_err r with
                  | Some e => "request failed: " +:+ e
                  | None => rq_url r +:+ " -> " +:+ Itoa (rq_status r) +:+ " in " +:+ duration_text (round_ms (rq_duration r))
                  end) m, NoCmd)
  | Key k => handleKey k m
  | OtherMsg => (m, NoCmd)
  end.
End Update.

(** ** The commands, which answer with a message *)

Definition openTunnel (dial : string → result nat) (a : string) : msg :=
  TargetResult a (match dial a with Ok _ => None | Err e => Some e end).
Definition startListen (listen : string → result string) (p : LocalProxy) (a : string) : LocalProxy * msg :=
  match Start listen a p with
  | (p, Err e) => (p, ListenResult "" (Some e))
  | (p, Ok _) => (p, ListenResult (Addr p) None)
  end.

(** An answer of the HTTP client: its status, header lookup and body, and whether
    reading the body failed. *)
Record response := mkResponse { rs_status : Z; rs_header : string → string; rs_body : string; rs_read_err : option string }.
Definition doRequest (new_request : option string) (do : result response) (elapsed : Z) (url : string) : msg :=
  RequestResult
    match new_request with
    | Some e => mkReqResult url 0 0 [] "" (Some e)
    | None =>
        match do with
        | Err e => mkReqResult url 0 elapsed [] "" (Some e)
        | Ok resp =>
            match rs_read_err resp with
            | Some e => mkReqResult url 0 elapsed [] "" (Some e)
            | None =>
                mkReqResult url (rs_status resp) elapsed
                  (omap (λ k, let v := rs_header resp k in if (v =? "")%string then None else Some (k +:+ ": " +:+ v))
                     ["Server"; "Content-Type"; "Content-Length"])
                  (TrimSpace (str_take (Z.to_nat 16384) (rs_body resp))) None
            end
        end
    end.

(** ** The view *)

Definition spaces (n : nat) : string := String.concat "" (repeat " " n).
Definition pad (s : string) (n : nat) : string := if (n <=? slen s)%nat then s else s +:+ spaces (n - slen s).
Definition padRight (s : string) (n : nat) : string := if (n <=? slen s)%nat then str_take n s else s +:+ spaces (n - slen s).

(** [%.1f] of a non-negative number: its exact value rounded to tenths, halves to
    even. *)
Definition half_even (num den : Z) : Z :=
  let q := (num / den)%Z in let r := (num mod den)%Z in
  if (2 * r <? den)%Z then q else if (den <? 2 * r)%Z then (q + 1)%Z else if Z.even q then q else (q + 1)%Z.
Definition fixed1 (f : float) : string :=
  let show (t : Z) := Itoa (t / 10) +:+ "." +:+ Itoa (t mod 10) in
  match f with
  | S754_finite _ m e => show (if (0 <=? e)%Z then 10 * Z.pos m * 2 ^ e else half_even (10 * Z.pos m) (2 ^ (- e)))%Z
  | _ => show 0%Z
  end.

Definition humanBytes (n : Z) : string :=
  if (1048576 <=? n)%Z then fixed1 (fdiv (F_of_Z n) (F_of_Z 1048576)) +:+ "MB"
  else if (1024 <=? n)%Z then fixed1 (fdiv (F_of_Z n) (F_of_Z 1024)) +:+ "KB"
  else Itoa n +:+ "B".

Definition newline : string := String "010" "".
Definition truncateLines (s : string) (max : nat) : string :=
  let lines := Split s "010" in
  if (length lines <=? max)%nat then s else Join (take max lines) newline +:+ newline +:+ bytes [226; 128; 166]%N.

Inductive style := titleStyle | labelStyle | valueStyle | okStyle | errStyle | warnStyle | borderStyle | helpStyle | headStyle.
Class Render := render : style → string → string.

Definition frameWidth (m : model) : Z := if ((0 <? width m) && (width m <? 120))%Z then width m else 100%Z.

Section View.
Context `{Render} `{MapOrder} `{DurationText}.

Definition line (s : string) : string := " " +:+ s +:+ newline.
Definition none_line : string := line (render labelStyle "none").

Definition statusBlock (m : model) : string :=
  let rows :=
    [("Server", server m); ("Endpoint", URL (dialer m)); ("Credential", user m +:+ " (10 min TTL, re-issue when it expires)");
     ("Local proxy", if Running (proxy m) then render okStyle "ON" +:+ "  " +:+ Addr (proxy m) else render labelStyle "OFF")] in
  String.concat "" ((λ r : string * string, line (render labelStyle (pad r.1 12) +:+ " " +:+ render valueStyle r.2)) <$> rows).

Definition forwardsBlock (m : model) : string :=
  match Rules (forwarder m) with
  | [] => none_line
  | rs => String.concat "" ((λ r, line (render valueStyle (f_LocalAddr r) +:+ " " +:+ render labelStyle "->" +:+ " " +:+ f_Target r)) <$> rs)
  end.

Definition tunnel_columns (t : Tunnel) : string :=
  padRight (Itoa (t_ID t)) 3 +:+ padRight (t_Target t) 34 +:+
  padRight (humanBytes (fst (Bytes t))) 10 +:+ padRight (humanBytes (snd (Bytes t))) 10.
Definition tunnel_status (t : Tunnel) : string :=
  let '(closed, err) := Done t in
  match err with
  | Some _ => render errStyle "error"
  | None => if closed then render labelStyle "closed" else render okStyle "open"
  end.
Definition tunnelsBlock (m : model) : string :=
  match omap (λ p, objs (dialer m) !! p) (Tunnels (dialer m)) with
  | [] => none_line
  | ts =>
      " " +:+ render labelStyle (padRight "#" 3 +:+ padRight "target" 34 +:+ padRight "tx" 10 +:+ padRight "rx" 10) +:+ "status" +:+ newline +:+
      String.concat "" ((λ t, line (tunnel_columns t +:+ tunnel_status t)) <$> ts)
  end.

Definition body_lines (s : string) : list string := Split (truncateLines s 12) "010".
Definition requestsBlock (m : model) : string :=
  match last (reqs m) with
  | None => none_line
  | Some r =>
      match rq_err r with
      | Some e => line (render errStyle (rq_url r +:+ ": " +:+ e))
      | None =>
          line (render valueStyle (rq_url r) +:+ "  " +:+ render (if (400 <=? rq_status r)%Z then errStyle else okStyle) (Itoa (rq_status r)) +:+
                "  " +:+ render labelStyle (duration_text (round_ms (rq_duration r)))) +:+
          String.concat "" ((λ h, line (render labelStyle h)) <$> rq_headers r) +:+
          (if (rq_body r =? "")%string then "" else String.concat "" (line <$> body_lines (rq_body r)))
      end
  end.

Definition available (m : model) : Z := if (30 <? height m)%Z then Z.max 4 (height m - 30) else 6.
Definition logBlock (m : model) : string :=
  if empty (logs m) then line (render labelStyle "no activity yet")
  else String.concat "" (line <$> tail (available m) (logs m)).

Definition View (m : model) : string :=
  let section (name block : string) := render headStyle name +:+ newline +:+ block +:+ newline in
  render titleStyle "JustPing Tunnel" +:+ newline +:+
  render borderStyle (String.concat "" (repeat (bytes [226; 148; 128]%N) (Z.to_nat (frameWidth m)))) +:+ newline +:+
  statusBlock m +:+ newline +:+
  section "Forwards" (forwardsBlock m) +:+ section "Tunnels" (tunnelsBlock m) +:+
  section "Requests" (requestsBlock m) +:+ section "Log" (logBlock m) +:+
  (if bool_decide (mode m = modeNone)
   then render helpStyle "[t] tunnel  [f] forward port  [r] request  [l] mixed proxy  [x] close tunnels  [c] clear  [q] quit" +:+ newline
   else render warnStyle ("> " +:+ prompt m +:+ ": ") +:+ runes_string (input m) +:+ bytes [226; 150; 143]%N +:+ newline +:+
        render helpStyle ("enter confirm " +:+ bytes [194; 183]%N +:+ " esc cancel") +:+ newline).
End View.

(** ** Runs of the console

    Between messages the goroutines of the tunnels move the shared parts. *)

Inductive ui_step {W : IntSize} `{MapOrder} `{DurationText} (m : model) : model → Prop :=
  | step_Update stamp listen cl ct x : ui_step m (fst (Update stamp listen cl ct x m))
  | step_background d p f : ui_step m (set_parts d p f m)
  | step_background_log stamp text : ui_step m (log stamp text m).
Definition ui_reachable {W : IntSize} `{MapOrder} `{DurationText} (srv usr : string) : model → Prop :=
  reachable (λ m, ∃ d p f, m = newModel srv usr d p f (newLogBuffer 200)) ui_step.

(** ** Lemmas *)

Lemma slen_spaces n : slen (spaces n) = n.
Proof.
  unfold spaces. induction n as [|[|n] IH]; [done..|].
  change (slen (" " +:+ "" +:+ String.concat "" (repeat " " (S n))) = S (S n)). by rewrite !slen_app, IH.
Qed.

Lemma slen_take n s : (n <= slen s)%nat → slen (str_take n s) = n.
Proof. revert s. induction n as [|n IH]; intros [|c s]; cbn; intros Hn; [done|done|lia|]. by rewrite IH by lia. Qed.

Lemma slen_padRight s n : slen (padRight s n) = n.
Proof.
  unfold padRight. destruct (Nat.leb_spec n (slen s)); [by apply slen_take|]. rewrite slen_app, slen_spaces. lia.
Qed.

Lemma Join_snoc l x sep : l ≠ [] → Join (l ++ [x]) sep = Join l sep +:+ sep +:+ x.
Proof.
  intros Hl. induction l as [|y l IH]; [done|]. destruct l as [|z l]; [done|].
  change ((y :: z :: l) ++ [x]) with (y :: z :: (l ++ [x])). rewrite !Join_cons. change (z :: (l ++ [x])) with ((z :: l) ++ [x]).
  rewrite IH by done. by rewrite !str_app_assoc.
Qed.

Lemma body_lines_bound s : (length (body_lines s) <= 13)%nat.
Proof.
  unfold body_lines, truncateLines. destruct (Nat.leb_spec (length (Split s "010")) 12) as [Hl|Hl]; [lia|].
  pose proof (Split_Forall s "010") as Hf. destruct (Split s "010") as [|x ls] eqn:E; [cbn in Hl; lia|].
  rewrite <- Join_snoc by done. change newline with (String "010" ""). rewrite Split_Join.
  - rewrite length_app, length_take. cbn [length]. lia.
  - by destruct (take 12 (x :: ls)).
  - apply Forall_app. split; [by apply Forall_take|]. by repeat constructor.
Qed.

Lemma tail_bound n b : (0 <= n)%Z → (zlen (tail n b) <= n)%Z.
Proof. unfold tail, zlen. intros Hn. destruct (Z.leb_spec (Z.of_nat (length (lines b))) n); [lia|]. rewrite length_drop. lia. Qed.

(** The prompt each mode shows. *)
Definition prompt_of (md : inputMode) : string :=
  match md with
  | modeTarget => "target host:port" | modeRequest => "request URL" | modeListen => "listen address"
  | modeForward => "localPort:host:port" | modeNone => ""
  end.

Record ui_inv (m : model) : Prop := {
  ui_max : max (logs m) = 200%Z;
  ui_logs : (zlen (lines (logs m)) <= 200)%Z;
  ui_reqMax : reqMax m = 20%Z;
  ui_reqs : (zlen (reqs m) <= 20)%Z;
  ui_prompt : mode m ≠ modeNone → prompt m = prompt_of (mode m)
}.

Section Invariant.
Context {W : IntSize} `{MapOrder} `{DurationText}.

Lemma log_inv stamp text m : ui_inv m → ui_inv (log stamp text m).
Proof.
  intros [H1 H2 H3 H4 H5]. split; cbn [log set_logs logs reqs reqMax mode prompt add max lines]; try done.
  rewrite H1, push_bounded_len by lia. lia.
Qed.
Lemma set_mode_inv md inp m : ui_inv m → ui_inv (set_mode md (prompt_of md) inp m).
Proof. by intros []. Qed.
Lemma close_prompt_inv m : ui_inv m → ui_inv (set_mode modeNone (prompt m) [] m).
Proof. by intros []. Qed.
Lemma edit_inv inp m : ui_inv m → ui_inv (set_mode (mode m) (prompt m) inp m).
Proof. by intros []. Qed.
Lemma set_parts_inv d p f m : ui_inv m → ui_inv (set_parts d p f m).
Proof. by intros []. Qed.
Lemma push_req_inv r m : ui_inv m → ui_inv (set_reqs (push_bounded (reqMax m) (reqs m) r) m).
Proof.
  intros [H1 H2 H3 H4 H5]. split; cbn [set_reqs logs reqs reqMax mode prompt]; try done.
  rewrite H3, push_bounded_len by lia. lia.
Qed.
Lemma clear_inv m : ui_inv m → ui_inv (set_reqs [] (set_logs (clear (logs m)) m)).
Proof. intros []. by split. Qed.

Lemma Update_inv stamp listen cl ct x m : ui_inv m → ui_inv (fst (Update stamp listen cl ct x m)).
Proof.
  intros Hi. destruct x as [w h| |a [e|]|a [e|]|r|k|]; cbn [Update fst]; try by apply log_inv; try done.
  - by destruct Hi.
  - done.
  - by apply log_inv, push_req_inv.
  - unfold handleKey. destruct (negb _).
    + destruct (k_type k); cbn [fst]; [by apply close_prompt_inv|by apply close_prompt_inv| |by apply edit_inv..|done].
      set (m' := set_mode modeNone (prompt m) [] m). assert (Hi' : ui_inv m') by by apply close_prompt_inv.
      destruct (_ =? "")%string; [done|]. destruct (mode m); cbn [submit fst]; [done|by apply log_inv..|].
      destruct (Add _ _ _) as [f [r|e]]; cbn [fst]; by repeat apply log_inv; apply set_parts_inv.
    + repeat case_match; cbn [fst]; try done.
      * by apply (set_mode_inv modeTarget).
      * by apply (set_mode_inv modeRequest).
      * unfold toggleLocalProxy. destruct (Running _); [destruct cl; cbn [fst]; [apply log_inv|]; by apply set_parts_inv|].
        by apply (set_mode_inv modeListen).
      * by apply (set_mode_inv modeForward).
      * by apply log_inv, set_parts_inv.
      * by apply clear_inv.
  - done.
Qed.

Lemma ui_reachable_inv srv usr m : ui_reachable srv usr m → ui_inv m.
Proof.
  revert m. apply reachable_ind_inv.
  - intros m (d & p & f & ->). by split.
  - intros m m' Hi []; [by apply Update_inv|by apply set_parts_inv|by apply log_inv].
Qed.
End Invariant.

(** ** Properties *)

(** What the console keeps and draws is bounded, in every reachable state: at most
    200 lines of log and 20 requests, of which the view shows at most
    max(6, height - 30) lines and 13 lines of body; a tunnel's columns always take
    57 bytes, whatever its target and counters; a rule across the screen is never
    empty nor wider than 119; and an open prompt is the one of its mode. *)
Theorem console_bounds {W : IntSize} `{MapOrder} `{DurationText} srv usr m :
  ui_reachable srv usr m →
  (zlen (lines (logs m)) <= 200)%Z ∧ (zlen (reqs m) <= 20)%Z ∧
  (zlen (tail (available m) (logs m)) <= Z.max 6 (height m - 30))%Z ∧
  (∀ r, r ∈ reqs m → (length (body_lines (rq_body r)) <= 13)%nat) ∧
  (∀ t, slen (tunnel_columns t) = 57) ∧
  (1 <= frameWidth m <= 119)%Z ∧
  (mode m ≠ modeNone → prompt m = prompt_of (mode m)).
Proof.
  intros Hi%ui_reachable_inv. assert (Hw : (1 <= frameWidth m <= 119)%Z).
  { unfold frameWidth. destruct ((0 <? width m) && (width m <? 120))%Z eqn:E; [go_bool|]; lia. }
  split_and!; try apply Hw.
  - apply ui_logs, Hi.
  - apply ui_reqs, Hi.
  - etrans; [apply tail_bound; unfold available; destruct (Z.ltb_spec 30 (height m)); lia|].
    unfold available. destruct (Z.ltb_spec 30 (height m)); lia.
  - intros r _. apply body_lines_bound.
  - intros t. unfold tunnel_columns. by rewrite !slen_app, !slen_padRight.
  - apply ui_prompt, Hi.
Qed.

Definition type_key (c : ascii) : msg := Key (mkKey KeyRunes [byte_of c] (String c "")).
Definition press_all {W : IntSize} `{MapOrder} `{DurationText} (xs : list msg) (m : model) : model :=
  foldl (λ m x, fst (Update "" (λ _, Err "") None (λ _, None) x m)) m xs.

Lemma utf8_ascii c : printable c = true → utf8 (byte_of c) = String c "".
Proof. intros Hc. destruct c as [[][][][][][][][]]; vm_compute in Hc |- *; done. Qed.

Lemma runes_ascii s : all_bytes printable s = true → runes_string (runes_of s) = s.
Proof.
  induction s as [|c s IH]; [done|]. cbn [all_bytes]. intros [Hc Hs]%andb_true_iff.
  unfold runes_of, runes_string in *. cbn [String.list_ascii_of_string fmap list_fmap foldr]. rewrite utf8_ascii by done.
  cbn. f_equal. by apply IH.
Qed.

Lemma typed {W : IntSize} `{MapOrder} `{DurationText} s : ∀ m, mode m ≠ modeNone →
  press_all (type_key <$> String.list_ascii_of_string s) m = set_mode (mode m) (prompt m) (input m ++ runes_of s) m.
Proof.
  induction s as [|c s IH]; intros m Hm.
  - cbn. rewrite app_nil_r. by destruct m.
  - cbn [String.list_ascii_of_string fmap list_fmap]. unfold press_all in *. cbn [foldl].
    replace (fst (Update "" (λ _, Err "") None (λ _, None) (type_key c) m)) with (set_mode (mode m) (prompt m) (input m ++ [byte_of c]) m).
    + rewrite IH by done. cbn. by rewrite <- app_assoc.
    + unfold type_key. cbn [Update handleKey]. unfold handleKey. by rewrite bool_decide_eq_false_2.
Qed.

(** The keyboard. From the idle console, [t], [r] or [f], a text and Enter run that
    command with that text (the request's after its "https://"), a rule being added
    at once, and the console is idle again; while a prompt is open no other key
    quits, starts or closes anything; Escape and Ctrl-C abandon it; and only [q] and
    Ctrl-C on the idle console quit. *)
Theorem console_keys {W : IntSize} `{MapOrder} `{DurationText} stamp listen cl ct m s k :
  all_bytes printable s = true → s ≠ "" →
  (mode m = modeNone →
     let enter name := Update stamp listen cl ct (Key (mkKey KeyEnter [] "enter"))
                         (press_all (Key (mkKey KeyRunes [] name) :: (type_key <$> String.list_ascii_of_string s)) m) in
     snd (enter "t") = OpenTunnel s ∧ snd (enter "r") = DoRequest ("https://" +:+ s) ∧
     forwarder (fst (enter "f")) = fst (Add listen s (forwarder m)) ∧
     Forall (λ n, mode (fst (enter n)) = modeNone ∧ dialer (fst (enter n)) = dialer m ∧ proxy (fst (enter n)) = proxy m) ["t"; "r"; "f"]) ∧
  (mode m ≠ modeNone → k_type k ≠ KeyEnter →
     let '(m', c) := Update stamp listen cl ct (Key k) m in
     c = NoCmd ∧ dialer m' = dialer m ∧ proxy m' = proxy m ∧ forwarder m' = forwarder m ∧ logs m' = logs m ∧ reqs m' = reqs m ∧
     (k_type k = KeyEsc ∨ k_type k = KeyCtrlC → mode m' = modeNone ∧ input m' = [])) ∧
  (snd (Update stamp listen cl ct (Key k) m) = Quit → mode m = modeNone ∧ (k_name k = "q" ∨ k_name k = "ctrl+c")).
Proof.
  intros Hs Hne. split_and!.
  - intros Hm enter. assert (Htrim : TrimSpace s = s) by by apply TrimSpace_printable.
    assert (Hgo : ∀ name md inp, md ≠ modeNone →
      fst (handleKey "" (λ _, Err "") None (λ _, None) (mkKey KeyRunes [] name) m) = set_mode md (prompt_of md) inp m →
      enter name = (let value := TrimSpace (runes_string (inp ++ runes_of s)) in
                    let m1 := set_mode modeNone (prompt_of md) [] m in
                    if (value =? "")%string then (m1, NoCmd) else submit stamp listen md value m1)).
    { intros name md inp Hmd E. unfold enter, press_all. cbn [foldl]. cbn [Update]. rewrite E.
      change (foldl _ ?a ?l) with (press_all l a). rewrite typed by done. cbn [set_mode mode prompt input].
      unfold handleKey. cbn [set_mode mode prompt input k_type]. by rewrite bool_decide_eq_false_2. }
    assert (Et : enter "t" = submit stamp listen modeTarget s (set_mode modeNone (prompt_of modeTarget) [] m)).
    { rewrite (Hgo "t" modeTarget []); [|done|unfold handleKey; by rewrite (bool_decide_eq_true_2 _ Hm)].
      cbn [app]. rewrite (runes_ascii _ Hs), Htrim. cbv zeta. by rewrite (proj2 (String.eqb_neq _ _) Hne). }
    assert (Er : enter "r" = submit stamp listen modeRequest ("https://" +:+ s) (set_mode modeNone (prompt_of modeRequest) [] m)).
    { rewrite (Hgo "r" modeRequest (runes_of "https://")); [|done|unfold handleKey; by rewrite (bool_decide_eq_true_2 _ Hm)].
      assert (Eh : runes_of "https://" ++ runes_of s = runes_of ("https://" +:+ s)) by done.
      rewrite Eh, runes_ascii, TrimSpace_printable by done. done. }
    assert (Ef : enter "f" = submit stamp listen modeForward s (set_mode modeNone (prompt_of modeForward) [] m)).
    { rewrite (Hgo "f" modeForward []); [|done|unfold handleKey; by rewrite (bool_decide_eq_true_2 _ Hm)].
      cbn [app]. rewrite (runes_ascii _ Hs), Htrim. cbv zeta. by rewrite (proj2 (String.eqb_neq _ _) Hne). }
    rewrite !Forall_cons, Et, Er, Ef. cbn [submit].
    change (forwarder (set_mode modeNone (prompt_of modeForward) [] m)) with (forwarder m).
    destruct (Add listen s (forwarder m)) as [f [r|e]]; cbn; split_and!; try done; constructor.
  - intros Hm Hk. cbn [Update]. unfold handleKey. rewrite (bool_decide_eq_false_2 _ Hm). cbn [negb].
    destruct (k_type k) eqn:Ek; try done; cbn; split_and!; try done; by intros [?|?].
  - cbn [Update]. unfold handleKey. destruct (decide (mode m = modeNone)) as [Hm|Hm].
    + rewrite (bool_decide_eq_true_2 _ Hm). cbn [negb].
      destruct (String.eqb_spec (k_name k) "q") as [Eq|]; [auto|]. destruct (String.eqb_spec (k_name k) "ctrl+c") as [Eq|]; [auto|]. cbn [orb].
      unfold toggleLocalProxy. repeat case_match; done.
    + rewrite (bool_decide_eq_false_2 _ Hm). cbn [negb]. destruct (k_type k); try done.
      destruct (_ =? "")%string; [done|]. unfold submit. repeat case_match; done.
Qed.

(** ** Witnesses *)

(** Unstyled text; durations in milliseconds. *)
Definition plain_render : Render := λ _ s, s.
Definition ms_text : DurationText := λ d, Itoa (d / 1000000) +:+ "ms".

Definition demo_ui : model := newModel "ping.example.com" "jp0a1b" demo_dials demo_proxy demo_rules (newLogBuffer 200).

Lemma demo_ui_reachable :
  let _ := int64_size in let _ := in_key_order in let _ := ms_text in ui_reachable "ping.example.com" "jp0a1b" demo_ui.
Proof. intros ? ? ?. apply reach_init. by exists demo_dials, demo_proxy, demo_rules. Qed.

Lemma console_bounds_witness :
  let _ := plain_render in
  tunnelsBlock (H0 := in_key_order) demo_ui =
    " #  target                            tx        rx        status" +:+ newline +:+
    " 1  a:443                             0B        0B        open" +:+ newline +:+
    " 3  c:443                             0B        0B        closed" +:+ newline ∧
  (1 <= frameWidth demo_ui)%Z.
Proof.
  intros ?. split; [vm_compute; reflexivity|].
  destruct (console_bounds (W := int64_size) (H := in_key_order) (H0 := ms_text) _ _ _ demo_ui_reachable) as (_ & _ & _ & _ & _ & [Hw _] & _).
  exact Hw.
Defined.

Lemma console_keys_witness :
  let _ := int64_size in let _ := in_key_order in let _ := ms_text in
  snd (Update "12:00:00" bind_all None (λ _, None) (Key (mkKey KeyEnter [] "enter"))
         (press_all (Key (mkKey KeyRunes [] "t") :: (type_key <$> String.list_ascii_of_string "q:443")) demo_ui)) = OpenTunnel "q:443".
Proof.
  intros W H1 H2.
  exact (proj1 (proj1 (console_keys "12:00:00" bind_all None (λ _, None) demo_ui "q:443" (mkKey KeyOther [] "") eq_refl ltac:(discriminate)) eq_refl)).
Defined.

Example human_bytes :
  humanBytes 1023 = "1023B" ∧ humanBytes 1024 = "1.0KB" ∧ humanBytes 1331 = "1.3KB" ∧ humanBytes 1048575 = "1024.0KB" ∧
  humanBytes 5000000 = "4.8MB" ∧ humanBytes 1600000 = "1.5MB" ∧ round_ms 1500000 = 2000000%Z ∧ round_ms 1499999 = 1000000%Z.
Proof. by vm_compute. Qed.

(** One more row makes the log shorter: from 30 rows, 6 lines, to 31, 4. *)
Example log_shrinks : available (set_size 80 30 demo_ui) = 6%Z ∧ available (set_size 80 31 demo_ui) = 4%Z.
Proof. by vm_compute. Qed.
