(* ===== verification/Version.v ===== *)
(** * Version strings ([shared/version/version.go])

    Normalisation, display and ordering of the semver-like version strings that
    the Host and the probe exchange, over any width of [int]. The probe's
    [updater/version.go] only renames these functions. *)
From S2P Require Import Prelude GoStrings.

Section Version.
Context {W : IntSize}.

(** ** The package *)

Definition Unknown : string := "unknown".
Definition Dev : string := "dev".

Definition Clean (v : string) : string :=
  let v := TrimSpace v in
  let v := TrimPrefix v "v" in
  let v := TrimPrefix v "V" in
  v.

Definition IsUnknown (v : string) : bool :=
  let clean := Clean v in
  (clean =? "")%string || (clean =? Unknown)%string || (clean =? Dev)%string.

Definition Display (v : string) : string :=
  let raw := TrimSpace v in
  if (raw =? "")%string then ""
  else
    let clean := Clean raw in
    match clean with
    | "" => raw
    | String c _ => if is_digit c then "v" +:+ clean else raw
    end.

(** [n, _ = strconv.Atoi(parts[i])] when [i] is in range, else 0. *)
Definition component (parts : list string) (i : nat) : Z :=
  match parts !! i with
  | Some p => fst (Atoi p)
  | None => 0%Z
  end.

(** The loop over the numeric components, [n] of them left from index [i]. *)
Fixpoint core_loop (parts1 parts2 : list string) (n i : nat) : option Z :=
  match n with
  | O => None
  | S n =>
      let n1 := component parts1 i in
      let n2 := component parts2 i in
      if (n2 <? n1)%Z then Some 1%Z
      else if (n1 <? n2)%Z then Some (-1)%Z
      else core_loop parts1 parts2 n (S i)
  end.

Definition core_parts (v : string) : list string :=
  Split (hd "" (Split v "-")) ".".

Definition has_pre (v : string) : bool := Contains v "-".

Definition Compare (v1 v2 : string) : Z :=
  let v1 := Clean v1 in
  let v2 := Clean v2 in
  if (v1 =? v2)%string then 0%Z
  else
    let parts1 := core_parts v1 in
    let parts2 := core_parts v2 in
    match core_loop parts1 parts2 (Nat.max (length parts1) (length parts2)) 0 with
    | Some r => r
    | None =>
        if has_pre v1 && negb (has_pre v2) then (-1)%Z
        else if negb (has_pre v1) && has_pre v2 then 1%Z
        else StrCompare v1 v2
    end.

Definition AtLeast (v min : string) : bool :=
  if IsUnknown v || IsUnknown min then false
  else (0 <=? Compare v min)%Z.

Definition IsNewer (latest current : string) : bool :=
  if (Clean latest =? "")%string then false
  else if IsUnknown current then true
  else (0 <? Compare latest current)%Z.

(** ** The order behind [Compare]

    Two cleaned versions are ordered by their numeric components, then a
    version without a pre-release suffix is the newer one, then bytewise. *)

Fixpoint core_cmp (n i : nat) (p1 p2 : list string) : comparison :=
  match n with
  | O => Eq
  | S n => cmp_then (cmp_on (λ p, component p i) Z.compare) (core_cmp n (S i)) p1 p2
  end.

Definition pre_key (v : string) : Z := if has_pre v then 0%Z else 1%Z.

Definition version_cmp (n : nat) : string → string → comparison :=
  cmp_then (cmp_on core_parts (core_cmp n 0))
    (cmp_then (cmp_on pre_key Z.compare) str_cmp).

Definition core_len (v : string) : nat := length (core_parts (Clean v)).


#[export] Instance core_cmp_total n i : TotalCmp (core_cmp n i).
Proof.
  revert i. induction n as [|n IH]; intros i; simpl.
  - split; [done..|]. by intros k x y z <-.
  - change (TotalCmp (cmp_then (cmp_on (λ p, component p i) Z.compare) (core_cmp n (S i)))).
    apply _.
Qed.

#[export] Instance version_cmp_total n : TotalCmp (version_cmp n).
Proof. unfold version_cmp. apply _. Qed.

Lemma core_loop_cmp p1 p2 n i :
  core_loop p1 p2 n i =
  match core_cmp n i p1 p2 with Eq => None | r => Some (cmp_int r) end.
Proof.
  revert i. induction n as [|n IH]; intros i; [done|]. simpl. unfold cmp_then, cmp_on.
  rewrite IH.
  destruct (Z.compare_spec (component p1 i) (component p2 i)) as [E|L|L].
  - rewrite E, !Z.ltb_irrefl. done.
  - destruct (Z.ltb_spec (component p2 i) (component p1 i)); [lia|].
    by destruct (Z.ltb_spec (component p1 i) (component p2 i)); [|lia].
  - by destruct (Z.ltb_spec (component p2 i) (component p1 i)); [|lia].
Qed.

(** Components past the end of both versions are zero, so looking further
    changes nothing. *)
Lemma core_cmp_beyond n i p1 p2 :
  (Nat.max (length p1) (length p2) <= i)%nat → core_cmp n i p1 p2 = Eq.
Proof.
  revert i. induction n as [|n IH]; intros i Hi; [done|]. simpl. unfold cmp_then, cmp_on, component.
  rewrite !lookup_ge_None_2 by lia. simpl. apply IH. lia.
Qed.

Lemma core_cmp_more m n i p1 p2 :
  (Nat.max (length p1) (length p2) <= i + n)%nat →
  core_cmp (n + m) i p1 p2 = core_cmp n i p1 p2.
Proof.
  revert i. induction n as [|n IH]; intros i Hi; simpl.
  - apply core_cmp_beyond. lia.
  - unfold cmp_then, cmp_on. rewrite IH by lia. done.
Qed.

Lemma Compare_cmp n v1 v2 :
  (Nat.max (core_len v1) (core_len v2) <= n)%nat →
  Compare v1 v2 = cmp_int (version_cmp n (Clean v1) (Clean v2)).
Proof.
  unfold core_len. intros Hn. unfold Compare. destruct (_ =? _)%string eqn:E.
  { apply String.eqb_eq in E as ->. by rewrite cmp_refl. }
  rewrite core_loop_cmp. unfold version_cmp. unfold cmp_then at 1. unfold cmp_on at 1.
  set (k := Nat.max _ _) in *. replace n with (k + (n - k))%nat by lia.
  rewrite core_cmp_more by lia.
  destruct (core_cmp k 0 _ _); [|done..]. unfold cmp_then, cmp_on, pre_key, StrCompare.
  by destruct (has_pre (Clean v1)), (has_pre (Clean v2)).
Qed.

Lemma cmp_int_le r : (0 <= cmp_int r)%Z ↔ r ≠ Lt.
Proof. destruct r; simpl; split; intros; try done; lia. Qed.

Lemma Compare_opp v1 v2 : Compare v2 v1 = (- Compare v1 v2)%Z.
Proof.
  set (n := Nat.max (core_len v1) (core_len v2)).
  rewrite !(Compare_cmp n) by lia. rewrite (cmp_opp (c := version_cmp n) (Clean v1)). by destruct (version_cmp _ _ _).
Qed.

Lemma Compare_ge_trans v1 v2 v3 :
  (0 <= Compare v1 v2)%Z → (0 <= Compare v2 v3)%Z → (0 <= Compare v1 v3)%Z.
Proof.
  set (n := Nat.max (core_len v1) (Nat.max (core_len v2) (core_len v3))).
  rewrite !(Compare_cmp n), !cmp_int_le by lia. intros H1 H2 H3.
  assert (∀ a b, version_cmp n a b ≠ Lt → version_cmp n b a ≠ Gt) as F.
  { intros a b. rewrite (cmp_opp (c := version_cmp n) a b). by destruct (version_cmp n a b). }
  apply (cmp_not_gt_trans (version_cmp n) (Clean v3) (Clean v2) (Clean v1)); [by apply F..|].
  by rewrite (cmp_opp (c := version_cmp n) (Clean v1) (Clean v3)), H3.
Qed.

Lemma Compare_zero v1 v2 : Compare v1 v2 = 0%Z ↔ Clean v1 = Clean v2.
Proof.
  split; [|intros E; unfold Compare; by rewrite E, String.eqb_refl].
  rewrite (Compare_cmp (Nat.max (core_len v1) (core_len v2))) by lia.
  unfold version_cmp, cmp_then, cmp_on. destruct (core_cmp _ _ _ _); [|done..].
  destruct (Z.compare _ _); [|done..].
  destruct (str_cmp _ _) eqn:E; [|done..]. intros _. by apply str_cmp_eq.
Qed.

Lemma AtLeast_mono v v' min :
  IsUnknown v' = false → (0 <= Compare v' v)%Z → AtLeast v min = true → AtLeast v' min = true.
Proof.
  unfold AtLeast. intros Hk Hc. destruct (IsUnknown v || IsUnknown min) eqn:E; [done|].
  apply orb_false_iff in E as [_ ->]. rewrite Hk. simpl. intros H%Z.leb_le. apply Z.leb_le.
  by apply (Compare_ge_trans _ v).
Qed.

(** ** Properties *)

(** [Compare] is a total preorder on version strings: swapping the operands
    negates the result, the result is 0 exactly on strings that clean to the
    same text, and "at least as new" is transitive. *)
Theorem Compare_total_order :
  (∀ v1 v2, Compare v2 v1 = (- Compare v1 v2)%Z) ∧
  (∀ v1 v2, Compare v1 v2 = 0%Z ↔ Clean v1 = Clean v2) ∧
  (∀ v1 v2 v3, (0 <= Compare v1 v2)%Z → (0 <= Compare v2 v3)%Z → (0 <= Compare v1 v3)%Z).
Proof.
  repeat split; [apply Compare_opp|apply Compare_zero|apply Compare_zero|apply Compare_ge_trans].
Qed.

(** The displayed form of a version is displayed as itself. *)
Lemma Display_tests :
  Display "v1.2.1" = "v1.2.1" ∧ Display "1.2.1" = "v1.2.1" ∧ Display "dev" = "dev" ∧
  Display " V2.0 " = "v2.0" ∧ Display "" = "".
Proof. done. Qed.
End Version.

(** The cases of [TestVersionComparison]. *)
Example Compare_tests :
  let cmp := Compare (W := int64_size) in
  (cmp "v1.0.0" "1.0.0", cmp "v1.0.1" "1.0.0", cmp "1.0.0" "1.0.1", cmp "v2.0.0" "v1.9.9",
   cmp "1.10.0" "1.9.0", cmp "1.0.0-rc1" "1.0.0", cmp "1.0.0" "1.0.0-rc1")
  = (0, 1, -1, 1, 1, -1, 1)%Z.
Proof. vm_compute. done. Qed.
