(* ===== verification/Feature.v ===== *)
(** * Capability gating ([host/internal/feature])

    The registry of probe capabilities with the first release of each, and the
    ladder that decides how a probe can be forced to restart. *)
From S2P Require Import Prelude GoStrings Version.

Section Feature.
Context {W : IntSize}.

(** ** [feature.go] *)

Definition Traceroute : string := "traceroute".
Definition RouteOverride : string := "route_override".
Definition Proxy : string := "proxy".
Definition UpdateCheck : string := "update_check".
Definition SoftExit : string := "soft_exit".

Record FeatureDef := mkDef { def_Key : string; def_Name : string; def_MinVersion : string }.

Definition registry : list FeatureDef :=
  [mkDef Traceroute "Route tracing" "1.0.7";
   mkDef RouteOverride "Per-probe route override" "1.0.10";
   mkDef Proxy "HTTPS proxy tunnel" "1.0.12";
   mkDef UpdateCheck "Manual update check" "1.0.13";
   mkDef SoftExit "Graceful restart for forced updates" "1.2.1"].

Definition All : list FeatureDef := registry.

Fixpoint min_version_in (defs : list FeatureDef) (key : string) : string * bool :=
  match defs with
  | [] => ("", false)
  | d :: defs => if (def_Key d =? key)%string then (def_MinVersion d, true)
                 else min_version_in defs key
  end.
Definition MinVersion (key : string) : string * bool := min_version_in registry key.

Definition Supports (agentVersion : string) (key : string) : bool :=
  let '(min, tracked) := MinVersion key in
  if negb tracked || IsUnknown min || IsUnknown agentVersion then true
  else AtLeast agentVersion min.

Fixpoint unsupported_in (defs : list FeatureDef) (agentVersion : string) : list string :=
  match defs with
  | [] => []
  | d :: defs =>
      if negb (Supports agentVersion (def_Key d))
      then def_Key d :: unsupported_in defs agentVersion
      else unsupported_in defs agentVersion
  end.
Definition Unsupported (agentVersion : string) : list string :=
  unsupported_in registry agentVersion.

(** ** [legacy.go] *)

Definition LegacyCrashMinVersion : string := "1.0.3".
Definition LegacyCrashPacketCount : Z := Z.shiftl 1 50.
Definition LegacyCrashIntervalSec : Z := 9223372037.

Inductive ForceRestartMode :=
  | ForceRestartSoftExit
  | ForceRestartCrash
  | ForceRestartUnsupported.

#[export] Instance ForceRestartMode_eq_dec : EqDecision ForceRestartMode.
Proof. solve_decision. Defined.

Definition sixtyFourBitArchs : list string :=
  ["amd64"; "arm64"; "mips64"; "mips64le"; "ppc64"; "ppc64le"; "riscv64"; "s390x"].

Definition is_64bit (arch : string) : bool := existsb (String.eqb arch) sixtyFourBitArchs.

Definition ForceRestartModeFor (agentVersion agentArch : string) : ForceRestartMode :=
  if Supports agentVersion SoftExit then ForceRestartSoftExit
  else if negb (AtLeast agentVersion LegacyCrashMinVersion) then ForceRestartUnsupported
  else if negb (is_64bit agentArch) then ForceRestartUnsupported
  else ForceRestartCrash.

(** The ladder "best to worst" of the source's comment, as a rank. *)
Definition mode_rank (m : ForceRestartMode) : Z :=
  match m with
  | ForceRestartUnsupported => 0
  | ForceRestartCrash => 1
  | ForceRestartSoftExit => 2
  end.

(** ** Facts *)

Lemma Supports_known v key min :
  MinVersion key = (min, true) → IsUnknown min = false → IsUnknown v = false →
  Supports v key = AtLeast v min.
Proof. intros H1 H2 H3. unfold Supports. by rewrite H1, H2, H3. Qed.

Lemma AtLeast_unfold v min :
  IsUnknown v = false → IsUnknown min = false → AtLeast v min = (0 <=? Compare v min)%Z.
Proof. intros H1 H2. unfold AtLeast. by rewrite H1, H2. Qed.

(** ** Properties *)

(** Capabilities are never lost by upgrading: what a probe of a known
    version supports, every probe at least as new (and of a known version)
    supports too. *)
Theorem Supports_mono v v' key :
  IsUnknown v = false → IsUnknown v' = false → (0 <= Compare v' v)%Z →
  Supports v key = true → Supports v' key = true.
Proof.
  intros Hv Hv' Hc. unfold Supports. destruct (MinVersion key) as [min tracked].
  rewrite Hv, Hv'. destruct (negb tracked || IsUnknown min || false); [done|].
  by apply AtLeast_mono.
Qed.

(** The restart ladder, for probes of a known version: soft exit exactly from
    1.2.1 on, the crash exactly for 64-bit builds in 1.0.3 .. 1.2.1, and nothing
    otherwise. *)
Theorem ForceRestartModeFor_ladder v arch :
  IsUnknown v = false →
  ForceRestartModeFor v arch =
    if (0 <=? Compare v "1.2.1")%Z then ForceRestartSoftExit
    else if (0 <=? Compare v "1.0.3")%Z && is_64bit arch then ForceRestartCrash
    else ForceRestartUnsupported.
Proof.
  intros Hv. unfold ForceRestartModeFor.
  rewrite (Supports_known v SoftExit "1.2.1") by done.
  unfold LegacyCrashMinVersion. rewrite !AtLeast_unfold by done.
  destruct (0 <=? Compare v "1.2.1")%Z; [done|].
  by destruct (0 <=? Compare v "1.0.3")%Z, (is_64bit arch).
Qed.

(** Upgrading a probe never worsens the way it can be restarted. *)
Theorem ForceRestartModeFor_mono v v' arch :
  IsUnknown v = false → IsUnknown v' = false → (0 <= Compare v' v)%Z →
  (mode_rank (ForceRestartModeFor v arch) <= mode_rank (ForceRestartModeFor v' arch))%Z.
Proof.
  intros Hv Hv' Hc. unfold ForceRestartModeFor.
  destruct (Supports v SoftExit) eqn:E1.
  { rewrite (Supports_known v) with (min := "1.2.1") in E1 by done.
    rewrite (Supports_known v' SoftExit "1.2.1") by done. by rewrite (AtLeast_mono v v'). }
  destruct (AtLeast v LegacyCrashMinVersion) eqn:E2.
  - rewrite (AtLeast_mono v v') by done.
    destruct (Supports v' SoftExit), (is_64bit arch); simpl; lia.
  - simpl. destruct (Supports v' SoftExit), (AtLeast v' LegacyCrashMinVersion), (is_64bit arch); simpl; lia.
Qed.

End Feature.

(** On a 64-bit Host, an unrecognised version that is not one of the
    placeholders is not assumed to support soft exit, whatever the architecture:
    it is at the bottom of the ladder and every capability is reported missing. *)
Theorem unrecognised_version_unsupported :
  let _ := int64_size in
  (∀ arch, ForceRestartModeFor "nightly" arch = ForceRestartUnsupported) ∧
  Unsupported "nightly" = def_Key <$> registry.
Proof. split; [intros arch|]; vm_compute; done. Qed.

(** ** Witnesses *)

Lemma Supports_mono_witness :
  let _ := int64_size in
  IsUnknown "1.0.12" = false ∧ Supports "v1.1.0" Proxy = true.
Proof.
  intros w. split; [done|].
  apply (Supports_mono "1.0.12" "v1.1.0"); vm_compute; done.
Defined.

Lemma ForceRestartModeFor_ladder_witness :
  let _ := int64_size in
  ForceRestartModeFor "v1.1.0" "arm64" = ForceRestartCrash.
Proof. intros w. rewrite ForceRestartModeFor_ladder; vm_compute; done. Defined.

Lemma ForceRestartModeFor_mono_witness :
  let _ := int64_size in
  (mode_rank (ForceRestartModeFor "1.1.0" "arm64") <= mode_rank (ForceRestartModeFor "1.2.1" "arm64"))%Z.
Proof. intros w. apply ForceRestartModeFor_mono; vm_compute; done. Defined.
