(* ===== verification/Hub.v ===== *)
(** * The Host's hub of probe connections ([host/internal/ws]: hub.go, conn.go,
      proxy.go, restart.go, update.go)

    Which connection serves which probe, the queues of outgoing messages, the
    target lists probes are sent, and the update and forced-restart requests.
    A connection is shared by the hub, its two pumps and callers that wait on
    it, so connections live in a heap. What a method does after it released the
    hub's lock is a step of its own. *)
From S2P Require Import Prelude GoStrings GoFloat GoJson Protocol Feature Model.

Definition send_capacity : nat := 256.

(** [Send] is a channel: [ac_send_closed] tells whether it was closed. *)
Record AgentConn := mkConn {
  ac_AgentID : string;
  ac_RemoteIP : string;
  ac_Version : string;
  ac_Arch : string;
  ac_Send : list Payload;
  ac_send_closed : bool;
  ac_closed : bool;
  ac_gone : bool
}.

(** What the hub does outside itself: marks a probe offline in the database and
    drops its proxy tunnels. *)
Inductive hub_effect :=
  | MarkOffline (agentID : string)
  | DropTunnels (agentID : string).

(** [leaving] holds the calls of [Unregister] and [Disconnect] that released the
    lock and have not closed their connection yet; [calls] and [effects] are
    history: the messages [SendToAgent] was asked to send, and the effects. *)
Record Hub := mkHub {
  agents : gmap string nat;
  hconns : list AgentConn;
  updates : gmap string AgentUpdateStatus;
  leaving : list (string * option nat);
  calls : list (string * Payload);
  effects : list hub_effect
}.

Definition NewHub : Hub := mkHub ∅ [] ∅ [] [] [].

(** ** Connections *)

(** [Close]; [None] would be a second close of [Send]. *)
Definition conn_close (ac : AgentConn) : option AgentConn :=
  if ac_closed ac then
    Some (mkConn (ac_AgentID ac) (ac_RemoteIP ac) (ac_Version ac) (ac_Arch ac) (ac_Send ac)
            (ac_send_closed ac) true true)
  else if ac_send_closed ac then None
  else Some (mkConn (ac_AgentID ac) (ac_RemoteIP ac) (ac_Version ac) (ac_Arch ac) (ac_Send ac) true true true).

(** [SafeSend]: [None] would be a send on a closed channel; the string is the error. *)
Definition SafeSend (msg : Payload) (ac : AgentConn) : option (AgentConn * option string) :=
  if ac_closed ac then Some (ac, Some "connection closed")
  else if ac_send_closed ac then None
  else if (length (ac_Send ac) <? send_capacity)%nat then
    Some (mkConn (ac_AgentID ac) (ac_RemoteIP ac) (ac_Version ac) (ac_Arch ac) (ac_Send ac ++ [msg])
            (ac_send_closed ac) (ac_closed ac) (ac_gone ac), None)
  else Some (ac, Some "send buffer full").

(** [writePump] takes the next message. *)
Definition pump_next (ac : AgentConn) : AgentConn :=
  mkConn (ac_AgentID ac) (ac_RemoteIP ac) (ac_Version ac) (ac_Arch ac) (tail (ac_Send ac))
    (ac_send_closed ac) (ac_closed ac) (ac_gone ac).

(** ** [SendWait]: retries with a back-off until a deadline

    Times in nanoseconds. At attempt [k] the connection is [view k]; the sleep
    after it lasts [slack k] longer than asked. *)
Definition maxBackoff : Z := 32000000.

Fixpoint SendWait_loop (fuel : nat) (view : nat → AgentConn) (slack : nat → Z) (k : nat)
    (now deadline backoff : Z) : option (nat * option string) :=
  match fuel with
  | O => None
  | S fuel =>
      if ac_closed (view k) then Some (k, Some "connection closed")
      else if (length (ac_Send (view k)) <? send_capacity)%nat then Some (k, None)
      else
        let remaining := (deadline - now)%Z in
        if (remaining <=? 0)%Z then Some (k, Some "send timeout")
        else
          let sleep := if (remaining <? backoff)%Z then remaining else backoff in
          let backoff :=
            if (backoff <? maxBackoff)%Z then
              let b := (backoff * 2)%Z in if (maxBackoff <? b)%Z then maxBackoff else b
            else backoff in
          SendWait_loop fuel view slack (S k) (now + sleep + slack k)%Z deadline backoff
  end.

(** The attempt that decided, and the error. *)
Definition SendWait (fuel : nat) (timeout now : Z) (view : nat → AgentConn) (slack : nat → Z) :=
  SendWait_loop fuel view slack 0 now (now + timeout)%Z 2000000.

(** ** The hub *)

Definition set_conn (p : nat) (ac : AgentConn) (h : Hub) : Hub :=
  mkHub (agents h) (<[p := ac]> (hconns h)) (updates h) (leaving h) (calls h) (effects h).

Definition close_conn (p : nat) (h : Hub) : Hub :=
  match hconns h !! p ≫= conn_close with
  | Some ac => set_conn p ac h
  | None => h
  end.

Definition Register (agentID : string) (p : nat) (h : Hub) : Hub :=
  let h := match agents h !! agentID with
           | Some old => close_conn old h
           | None => h
           end in
  mkHub (<[agentID := p]> (agents h)) (hconns h) (updates h) (leaving h) (calls h) (effects h).

(** [Unregister] under the lock; what follows the unlock is [leave]. *)
Definition Unregister (agentID : string) (p : nat) (h : Hub) : Hub :=
  if bool_decide (agents h !! agentID = Some p) then
    mkHub (delete agentID (agents h)) (hconns h) (updates h) (leaving h ++ [(agentID, Some p)])
      (calls h) (effects h)
  else h.

Definition Disconnect (agentID : string) (h : Hub) : Hub :=
  mkHub (delete agentID (agents h)) (hconns h) (updates h) (leaving h ++ [(agentID, agents h !! agentID)])
    (calls h) (effects h).

(** After the unlock: close, mark offline, drop the tunnels. *)
Definition leave (agentID : string) (p : option nat) (h : Hub) : Hub :=
  let h := match p with Some p => close_conn p h | None => h end in
  mkHub (agents h) (hconns h) (updates h) (leaving h) (calls h)
    (effects h ++ [MarkOffline agentID; DropTunnels agentID]).

Definition liveProbe (agentID : string) (h : Hub) : option AgentConn :=
  p ← agents h !! agentID; hconns h !! p.

Definition Online (agentID : string) (h : Hub) : bool := bool_decide (is_Some (agents h !! agentID)).

(** [SendToAgent]: an unknown probe is not an error. *)
Definition SendToAgent (agentID : string) (msg : Payload) (h : Hub) : Hub * option string :=
  let h := mkHub (agents h) (hconns h) (updates h) (leaving h) (calls h ++ [(agentID, msg)]) (effects h) in
  match agents h !! agentID with
  | None => (h, None)
  | Some p =>
      match hconns h !! p ≫= SafeSend msg with
      | Some (ac, err) => (set_conn p ac h, err)
      | None => (h, None)
      end
  end.

(** ** Target lists *)

Definition splitIDList (raw : string) : gset string :=
  list_to_set (List.filter (λ id, negb (id =? "")%string) (TrimSpace <$> Split raw ",")).

Definition buildTargetConfigsWithOverrides (targets : list Target) (disabledRoute paused : string) : list TargetConfig :=
  let disabledMap := splitIDList disabledRoute in
  let pausedMap := splitIDList paused in
  omap (λ t,
    if bool_decide (tg_ID t ∈ pausedMap) then None
    else Some (mkTargetConfig (tg_ID t) (tg_Name t) (tg_Host t) (tg_PacketCount t) (tg_IntervalSec t)
                 (tg_DisableRoute t || bool_decide (tg_ID t ∈ disabledMap)))) targets.

Section Sync.
Context `{MapOrder}.

(** The agents table, for the override columns; [None] is a failed query. *)
Definition buildTargetConfigs (row : string → option Agent) (agentID : string) (targets : list Target) : list TargetConfig :=
  let '(disabledRoute, paused) :=
    if negb (agentID =? "")%string then
      match row agentID with
      | Some ag => (ag_DisabledRouteTargets ag, ag_PausedTargets ag)
      | None => ("", "")
      end
    else ("", "") in
  buildTargetConfigsWithOverrides targets disabledRoute paused.

(** [targets] is the query of the enabled targets, or its error. *)
Definition SyncSingleAgent (targets : option (list Target)) (row : string → option Agent) (agentID : string) (h : Hub) : Hub :=
  match targets with
  | None => h
  | Some ts => fst (SendToAgent agentID (PTargetSync (mkTargetSync (buildTargetConfigs row agentID ts))) h)
  end.

Definition BroadcastTargetSync (targets : option (list Target)) (row : string → option Agent) (h : Hub) : Hub :=
  match targets with
  | None => h
  | Some ts =>
      foldl (λ h id, fst (SendToAgent id (PTargetSync (mkTargetSync (buildTargetConfigs row id ts))) h)) h
        (range_order (map_to_list (agents h))).*1
  end.

(** ** Updates *)

Definition ErrAgentOffline : string := "agent is offline".
Definition ErrNativeUnsupported : string := "agent predates the update_check message; restart it instead".
Definition ErrRestartUnsupported : string :=
  "probe cannot be force-restarted; use the update check for native probes, or reinstall it".

Context {W : IntSize}.

Definition RequestUpdateCheck (agentID : string) (h : Hub) : Hub * option string :=
  match liveProbe agentID h with
  | None => (h, Some ErrAgentOffline)
  | Some ac =>
      if negb (Supports (ac_Version ac) UpdateCheck) then (h, Some ErrNativeUnsupported)
      else SendToAgent agentID PUpdateCheck h
  end.

Record UpdateBroadcast := mkUB { ub_Triggered : nat; ub_Skipped : nat; ub_Unreachable : nat }.

(** The snapshot of the connected probes. *)
Definition snapshot (h : Hub) : list (string * AgentConn) :=
  omap (λ e : string * nat, ac ← hconns h !! e.2; Some (e.1, ac)) (range_order (map_to_list (agents h))).

Definition update_one (acc : Hub * UpdateBroadcast) (p : string * AgentConn) : Hub * UpdateBroadcast :=
  let '(h, r) := acc in
  if negb (Supports (ac_Version p.2) UpdateCheck)
  then (h, mkUB (ub_Triggered r) (S (ub_Skipped r)) (ub_Unreachable r))
  else
    match SendToAgent p.1 PUpdateCheck h with
    | (h, Some _) => (h, mkUB (ub_Triggered r) (ub_Skipped r) (S (ub_Unreachable r)))
    | (h, None) => (h, mkUB (S (ub_Triggered r)) (ub_Skipped r) (ub_Unreachable r))
    end.

Definition BroadcastUpdateCheck (h : Hub) : Hub * UpdateBroadcast :=
  foldl update_one (h, mkUB 0 0 0) (snapshot h).

Definition RecordUpdateStatus (now : Z) (agentID : string) (res : UpdateResultPayload) (h : Hub) : Hub :=
  if (agentID =? "")%string then h
  else
    mkHub (agents h) (hconns h)
      (<[agentID := mkUpdateStatus (ur_CurrentVersion res) (ur_LatestVersion res) (ur_Updating res) (ur_Error res) now]>
         (updates h))
      (leaving h) (calls h) (effects h).

(** ** Forced restarts *)

Definition legacyCrashTargetSync : TargetSyncPayload :=
  mkTargetSync [mkTargetConfig "justping-force-update" "Force update (legacy)" "127.0.0.1"
                  LegacyCrashPacketCount LegacyCrashIntervalSec false].

Definition sendCrash (agentID : string) (h : Hub) : Hub * option string :=
  SendToAgent agentID (PTargetSync legacyCrashTargetSync) h.

(** [left]: whether the connection went away before the timeout; [meanwhile]:
    what others did to the hub while the request waited. *)
Definition RequestRestart (agentID : string) (left : bool) (meanwhile : Hub → Hub) (h : Hub)
    : Hub * option ForceRestartMode * option string :=
  match liveProbe agentID h with
  | None => (h, None, Some ErrAgentOffline)
  | Some ac =>
      match ForceRestartModeFor (ac_Version ac) (ac_Arch ac) with
      | ForceRestartSoftExit =>
          match SendToAgent agentID PSoftExit h with
          | (h, Some err) => (h, Some ForceRestartSoftExit, Some err)
          | (h, None) =>
              let h := meanwhile h in
              if left then (h, Some ForceRestartSoftExit, None)
              else let '(h, err) := sendCrash agentID h in (h, Some ForceRestartCrash, err)
          end
      | ForceRestartCrash =>
          let '(h, err) := sendCrash agentID h in (h, Some ForceRestartCrash, err)
      | ForceRestartUnsupported => (h, Some ForceRestartUnsupported, Some ErrRestartUnsupported)
      end
  end.

Record RestartBroadcast := mkRB {
  rb_SoftExit : nat; rb_Escalated : nat; rb_Crash : nat; rb_Unsupported : nat; rb_Unreachable : nat
}.

Definition add_soft (n : nat) (r : RestartBroadcast) : RestartBroadcast :=
  mkRB (rb_SoftExit r + n) (rb_Escalated r) (rb_Crash r) (rb_Unsupported r) (rb_Unreachable r).
Definition add_escalated (r : RestartBroadcast) : RestartBroadcast :=
  mkRB (rb_SoftExit r) (S (rb_Escalated r)) (rb_Crash r) (rb_Unsupported r) (rb_Unreachable r).
Definition add_crash (r : RestartBroadcast) : RestartBroadcast :=
  mkRB (rb_SoftExit r) (rb_Escalated r) (S (rb_Crash r)) (rb_Unsupported r) (rb_Unreachable r).
Definition add_unsupported (r : RestartBroadcast) : RestartBroadcast :=
  mkRB (rb_SoftExit r) (rb_Escalated r) (rb_Crash r) (S (rb_Unsupported r)) (rb_Unreachable r).
Definition add_unreachable (r : RestartBroadcast) : RestartBroadcast :=
  mkRB (rb_SoftExit r) (rb_Escalated r) (rb_Crash r) (rb_Unsupported r) (S (rb_Unreachable r)).

(** The first loop of [BroadcastRestart]: the hub, the counts, who is waited for. *)
Definition restart_one (acc : Hub * RestartBroadcast * list string) (p : string * AgentConn)
    : Hub * RestartBroadcast * list string :=
  let '(h, r, waiting) := acc in
  match ForceRestartModeFor (ac_Version p.2) (ac_Arch p.2) with
  | ForceRestartSoftExit =>
      match SendToAgent p.1 PSoftExit h with
      | (h, Some _) => (h, add_unreachable r, waiting)
      | (h, None) => (h, r, waiting ++ [p.1])
      end
  | ForceRestartCrash =>
      match sendCrash p.1 h with
      | (h, Some _) => (h, add_unreachable r, waiting)
      | (h, None) => (h, add_crash r, waiting)
      end
  | ForceRestartUnsupported => (h, add_unsupported r, waiting)
  end.

Definition escalate_one (acc : Hub * RestartBroadcast) (id : string) : Hub * RestartBroadcast :=
  let '(h, r) := acc in
  match sendCrash id h with
  | (h, Some _) => (h, add_unreachable r)
  | (h, None) => (h, add_escalated r)
  end.

(** The polls of [awaitSoftExits]: [n] more before the deadline fires; [gone k id]
    tells whether the connection had gone at poll [k]. *)
Fixpoint await_polls (n k : nat) (gone : nat → string → bool) (pending : list string) (r : RestartBroadcast)
    : RestartBroadcast * list string :=
  let remaining := List.filter (λ id, negb (gone k id)) pending in
  let r := add_soft (length pending - length remaining) r in
  match remaining, n with
  | [], _ => (r, [])
  | _, O => (r, remaining)
  | _, S n => await_polls n (S k) gone remaining r
  end.

Definition awaitSoftExits (n : nat) (gone : nat → string → bool) (meanwhile : Hub → Hub) (waiting : list string)
    (h : Hub) (r : RestartBroadcast) : Hub * RestartBroadcast :=
  match waiting with
  | [] => (h, r)
  | _ =>
      let '(r, stragglers) := await_polls n 0 gone waiting r in
      foldl escalate_one (meanwhile h, r) stragglers
  end.

Definition BroadcastRestart (n : nat) (gone : nat → string → bool) (meanwhile : Hub → Hub) (h : Hub)
    : Hub * RestartBroadcast :=
  let '(h, r, waiting) := foldl restart_one (h, mkRB 0 0 0 0 0, []) (snapshot h) in
  awaitSoftExits n gone meanwhile waiting h r.
End Sync.

(** ** Interleavings *)

Definition new_conn (agentID remoteIP version arch : string) : AgentConn :=
  mkConn agentID remoteIP version arch [] false false false.

Inductive step (h : Hub) : Hub → Prop :=
  (* HandleWebSocket: a fresh connection is registered *)
  | step_register agentID remoteIP version arch :
      step h (Register agentID (length (hconns h))
                (mkHub (agents h) (hconns h ++ [new_conn agentID remoteIP version arch]) (updates h)
                   (leaving h) (calls h) (effects h)))
  (* readPump ends *)
  | step_unregister p ac : hconns h !! p = Some ac → step h (Unregister (ac_AgentID ac) p h)
  (* token rotation, deletion *)
  | step_disconnect agentID : step h (Disconnect agentID h)
  | step_leave agentID p l1 l2 :
      leaving h = l1 ++ (agentID, p) :: l2 →
      step h (leave agentID p (mkHub (agents h) (hconns h) (updates h) (l1 ++ l2) (calls h) (effects h)))
  (* writePump ends, or a report of a deleted probe *)
  | step_close p : step h (close_conn p h)
  | step_pump p ac : hconns h !! p = Some ac → step h (set_conn p (pump_next ac) h)
  | step_send agentID msg : step h (fst (SendToAgent agentID msg h))
  (* a reply queued on a connection directly *)
  | step_queue p ac ac' err msg :
      hconns h !! p = Some ac → SafeSend msg ac = Some (ac', err) → step h (set_conn p ac' h)
  | step_status now agentID res : step h (RecordUpdateStatus now agentID res h).

Definition hub_reachable : Hub → Prop := reachable (λ h, h = NewHub) step.

(** ** Invariant *)

Record conn_ok (ac : AgentConn) : Prop := {
  conn_chan : ac_send_closed ac = ac_closed ac;
  conn_gone : ac_gone ac = ac_closed ac;
  conn_queue : (length (ac_Send ac) <= send_capacity)%nat
}.

Record inv (h : Hub) : Prop := {
  inv_agents id p : agents h !! id = Some p → ∃ ac, hconns h !! p = Some ac ∧ ac_AgentID ac = id;
  inv_conns : Forall conn_ok (hconns h);
  inv_owned p ac : hconns h !! p = Some ac → ac_closed ac = false →
    agents h !! ac_AgentID ac = Some p ∨ (ac_AgentID ac, Some p) ∈ leaving h
}.

Lemma NewHub_inv : inv NewHub.
Proof. split; simpl; [intros ? ?; by rewrite lookup_empty|constructor|done]. Qed.

(** Replacing a connection by one of the same probe that is not newly open. *)
Lemma set_conn_inv p ac ac' h :
  inv h → hconns h !! p = Some ac → ac_AgentID ac' = ac_AgentID ac →
  (ac_closed ac' = false → ac_closed ac = false) → conn_ok ac' → inv (set_conn p ac' h).
Proof.
  intros [Ha Hc Ho] Hp Hid Hcl Hok.
  assert (Hlk : ∀ q, <[p:=ac']> (hconns h) !! q = if decide (p = q) then Some ac' else hconns h !! q).
  { intros q. case_decide; [subst; rewrite list_lookup_insert_eq; [done|by eapply lookup_lt_Some]|].
    by rewrite list_lookup_insert_ne. }
  split; simpl.
  - intros id q Hq. destruct (Ha _ _ Hq) as (a & Haq & ?). rewrite Hlk. case_decide; [|by eauto].
    subst. exists ac'. split; [done|]. congruence.
  - by apply Forall_insert.
  - intros q a. rewrite Hlk. case_decide; [|by apply Ho]. intros [= <-] Hop. subst.
    rewrite Hid. by apply Ho; [|apply Hcl].
Qed.

Lemma conn_close_ok ac : conn_ok ac →
  ∃ ac', conn_close ac = Some ac' ∧ ac_AgentID ac' = ac_AgentID ac ∧ ac_closed ac' = true ∧ conn_ok ac'.
Proof.
  intros [H1 H2 H3]. unfold conn_close. rewrite H1. destruct (ac_closed ac) eqn:E;
    (eexists; split_and!; [done..|]; by split).
Qed.

Lemma SafeSend_ok msg ac : conn_ok ac →
  ∃ ac' err, SafeSend msg ac = Some (ac', err) ∧ ac_AgentID ac' = ac_AgentID ac ∧
    ac_closed ac' = ac_closed ac ∧ conn_ok ac'.
Proof.
  intros Hok. pose proof Hok as [H1 H2 H3]. unfold SafeSend. rewrite H1. destruct (ac_closed ac) eqn:E; [by eauto 10|].
  destruct (Nat.ltb_spec (length (ac_Send ac)) send_capacity); [|by eauto 10].
  eexists _, _. split; [done|]. simpl. split_and!; [done|done|]. split; simpl; [congruence..|].
  rewrite length_app. simpl. lia.
Qed.

Lemma close_conn_inv p h : inv h → inv (close_conn p h).
Proof.
  intros Hi. unfold close_conn. destruct (hconns h !! p) as [ac|] eqn:E; simpl; [|done].
  destruct (conn_close_ok ac) as (ac' & -> & ? & ? & ?); [by apply (Forall_lookup_1 _ _ _ _ (inv_conns _ Hi) E)|].
  eapply set_conn_inv; [done..| |done]. congruence.
Qed.

Lemma close_conn_length p h : length (hconns (close_conn p h)) = length (hconns h).
Proof. unfold close_conn. destruct (_ ≫= _); simpl; by rewrite ?length_insert. Qed.

Lemma close_conn_agents p h : agents (close_conn p h) = agents h ∧ leaving (close_conn p h) = leaving h.
Proof. unfold close_conn. by destruct (_ ≫= _). Qed.

(** A closed connection is closed. *)
Lemma close_conn_closed p h q ac :
  inv h → hconns (close_conn p h) !! q = Some ac → ac_closed ac = false → q ≠ p ∧ hconns h !! q = Some ac.
Proof.
  intros Hi. unfold close_conn. destruct (hconns h !! p) as [a|] eqn:E; simpl.
  - destruct (conn_close_ok a) as (a' & -> & _ & Hcl & _); [by apply (Forall_lookup_1 _ _ _ _ (inv_conns _ Hi) E)|].
    simpl. intros Hq Hop. destruct (decide (p = q)) as [->|Hne].
    + rewrite list_lookup_insert_eq in Hq by (by eapply lookup_lt_Some). simplify_eq. congruence.
    + by rewrite list_lookup_insert_ne in Hq.
  - intros Hq _. split; [|done]. intros ->. congruence.
Qed.

Lemma app_conn_inv h ac :
  inv h → conn_ok ac → ac_closed ac = true →
  inv (mkHub (agents h) (hconns h ++ [ac]) (updates h) (leaving h) (calls h) (effects h)).
Proof.
  intros [Ha Hc Ho] Hok Hcl. split; simpl.
  - intros id q Hq. destruct (Ha _ _ Hq) as (a & ? & ?). exists a. by rewrite (lookup_app_l_Some _ _ _ a).
  - apply Forall_app. split; [done|by constructor].
  - intros q a [Hq|[_ Hq]]%lookup_app_Some Hop; [by apply Ho|].
    apply list_lookup_singleton_Some in Hq as [_ <-]. congruence.
Qed.

Lemma register_inv agentID remoteIP version arch h :
  inv h →
  inv (Register agentID (length (hconns h))
         (mkHub (agents h) (hconns h ++ [new_conn agentID remoteIP version arch]) (updates h)
            (leaving h) (calls h) (effects h))).
Proof.
  intros Hi. set (p := length (hconns h)). set (h0 := mkHub _ _ _ _ _ _).
  pose proof Hi as [Ha Hc Ho].
  assert (Hfresh : ∀ id q, agents h !! id = Some q → (q < p)%nat).
  { intros id q Hq. destruct (Ha _ _ Hq) as (a & ? & _). by eapply lookup_lt_Some. }
  assert (H0c : Forall conn_ok (hconns h0)).
  { apply Forall_app. split; [done|]. constructor; [|constructor]. split; simpl; [done..|unfold send_capacity; lia]. }
  assert (Hcl : ∀ old q, old = q → (∀ a, hconns h0 !! q = Some a → ∃ a', conn_close a = Some a' ∧
      ac_AgentID a' = ac_AgentID a ∧ ac_closed a' = true ∧ conn_ok a')).
  { intros old q _ a Hq. apply conn_close_ok. by eapply Forall_lookup_1. }
  unfold Register. change (agents h0) with (agents h). destruct (agents h !! agentID) as [old|] eqn:Eo.
  - assert (Hold : (old < p)%nat) by by eapply Hfresh.
    destruct (Ha _ _ Eo) as (a & Hqa & Hida).
    assert (H0a : hconns h0 !! old = Some a) by by apply lookup_app_l_Some.
    destruct (Hcl old old eq_refl a H0a) as (a' & Hca & Hida' & Hcla & Hoka).
    unfold close_conn. rewrite H0a. cbn [mbind option_bind]. rewrite Hca. split; simpl.
    + intros id q [[<- <-]|[Hne Hq]]%lookup_insert_Some.
      * exists (new_conn agentID remoteIP version arch). rewrite list_lookup_insert_ne by lia.
        by rewrite lookup_app_r, Nat.sub_diag by done.
      * destruct (Ha _ _ Hq) as (b & Hb & Hidb). exists b. split; [|done]. rewrite list_lookup_insert_ne.
        -- by apply lookup_app_l_Some.
        -- intros ->. congruence.
    + by apply Forall_insert.
    + intros q b Hq Hop. destruct (decide (old = q)) as [->|Hne].
      { rewrite list_lookup_insert_eq in Hq; [congruence|]. rewrite length_app. lia. }
      rewrite list_lookup_insert_ne in Hq by done. apply lookup_app_Some in Hq as [Hq|[Hge Hq]].
      * destruct (Ho _ _ Hq Hop) as [Hag|]; [|by right]. left.
        rewrite lookup_insert_ne; [done|]. intros E. rewrite <- E in Hag. congruence.
      * apply list_lookup_singleton_Some in Hq as [? <-]. left. simpl. rewrite lookup_insert_eq. f_equal. lia.
  - split; simpl.
    + intros id q [[<- <-]|[Hne Hq]]%lookup_insert_Some.
      * eexists. rewrite lookup_app_r, Nat.sub_diag by done. done.
      * destruct (Ha _ _ Hq) as (b & Hb & Hidb). exists b. split; [|done]. by apply lookup_app_l_Some.
    + done.
    + intros q b [Hq|[Hge Hq]]%lookup_app_Some Hop.
      * destruct (Ho _ _ Hq Hop) as [Hag|]; [|by right]. left.
        rewrite lookup_insert_ne; [done|]. intros E. rewrite <- E in Hag. congruence.
      * apply list_lookup_singleton_Some in Hq as [? <-]. left. simpl. rewrite lookup_insert_eq. f_equal. lia.
Qed.

Lemma remove_inv id q h :
  inv h → agents h !! id = q →
  inv (mkHub (delete id (agents h)) (hconns h) (updates h) (leaving h ++ [(id, q)]) (calls h) (effects h)).
Proof.
  intros [Ha Hc Ho] Hq. split; simpl; [|done|].
  - intros i p [_ Hp]%lookup_delete_Some. by apply Ha.
  - intros p ac Hp Hop. destruct (Ho _ _ Hp Hop) as [Hag|Hl].
    + destruct (decide (ac_AgentID ac = id)) as [<-|Hne].
      * right. apply elem_of_app. right. rewrite Hag in Hq. subst. by left.
      * left. by rewrite lookup_delete_ne.
    + right. apply elem_of_app. by left.
Qed.

Lemma SendToAgent_inv id msg h : inv h → inv (fst (SendToAgent id msg h)).
Proof.
  intros Hi. unfold SendToAgent. set (h0 := mkHub _ _ _ _ _ _).
  assert (Hi0 : inv h0) by (by destruct Hi; split).
  change (agents h0) with (agents h). change (hconns h0) with (hconns h).
  destruct (agents h !! id) as [p|]; [|exact Hi0]. destruct (hconns h !! p) as [ac|] eqn:E; simpl; [|exact Hi0].
  destruct (SafeSend_ok msg ac) as (ac' & err & -> & ? & ? & ?); [by apply (Forall_lookup_1 _ _ _ _ (inv_conns _ Hi) E)|].
  simpl. eapply set_conn_inv; [done..| |done]. congruence.
Qed.

Lemma leave_inv id p l1 l2 h :
  inv h → leaving h = l1 ++ (id, p) :: l2 →
  inv (leave id p (mkHub (agents h) (hconns h) (updates h) (l1 ++ l2) (calls h) (effects h))).
Proof.
  intros Hi E. set (h0 := mkHub _ _ _ _ _ _).
  assert (Hgen : ∀ hc, Forall conn_ok hc → (∀ q a, hconns h !! q = Some a → ∃ b, hc !! q = Some b ∧ ac_AgentID b = ac_AgentID a) →
     (∀ q a, hc !! q = Some a → ac_closed a = false → hconns h !! q = Some a ∧ p ≠ Some q) →
     inv (mkHub (agents h) hc (updates h) (l1 ++ l2) (calls h) (effects h ++ [MarkOffline id; DropTunnels id]))).
  { intros hc Hc Hk Ho. split; simpl; [|done|].
    - intros i q Hq. destruct (inv_agents _ Hi _ _ Hq) as (a & Ha & <-). by apply Hk.
    - intros q a Hq Hop. destruct (Ho _ _ Hq Hop) as [Hq' Hne].
      destruct (inv_owned _ Hi _ _ Hq' Hop) as [|Hl]; [by left|]. right.
      rewrite E in Hl. apply elem_of_app in Hl as [|[Heq|]%elem_of_cons]; apply elem_of_app; [by left| |by right].
      injection Heq as _ <-. done. }
  pose proof (inv_conns _ Hi) as Hconns. unfold leave.
  destruct p as [p|]; [|apply Hgen; [done|by eauto|done]].
  unfold close_conn. simpl. destruct (hconns h !! p) as [a|] eqn:Ep; simpl.
  - destruct (conn_close_ok a) as (a' & -> & Hid & Hcl & Hok); [by apply (Forall_lookup_1 _ _ _ _ Hconns Ep)|].
    assert (Hlt : (p < length (hconns h))%nat) by by eapply lookup_lt_Some.
    simpl. apply Hgen.
    + by apply Forall_insert.
    + intros q b Hq. destruct (decide (p = q)) as [->|Hne].
      * exists a'. rewrite list_lookup_insert_eq by done. split; [done|]. congruence.
      * exists b. by rewrite list_lookup_insert_ne.
    + intros q b Hq Hop. destruct (decide (p = q)) as [->|Hne].
      * rewrite list_lookup_insert_eq in Hq by done. simplify_eq. congruence.
      * rewrite list_lookup_insert_ne in Hq by done. split; [done|congruence].
  - apply Hgen; [done|by eauto|]. intros q b Hq Hop. split; [done|congruence].
Qed.

Lemma hub_step_inv h h' : inv h → step h h' → inv h'.
Proof.
  intros Hi Hs. destruct Hs as [id ip v a|p ac Hp|id|id p l1 l2 E|p|p ac Hp|id msg|p ac ac' err msg Hp Hsend|now id res].
  - by apply register_inv.
  - unfold Unregister. case_bool_decide; [|done]. by apply remove_inv.
  - by apply remove_inv.
  - by apply leave_inv.
  - by apply close_conn_inv.
  - pose proof (Forall_lookup_1 _ _ _ _ (inv_conns _ Hi) Hp) as [? ? Hq].
    eapply set_conn_inv; [done..|]. split; simpl; [done..|]. destruct (ac_Send ac); simpl in *; lia.
  - by apply SendToAgent_inv.
  - pose proof (Forall_lookup_1 _ _ _ _ (inv_conns _ Hi) Hp) as Hok.
    destruct (SafeSend_ok msg ac Hok) as (a & e & Hs & ? & ? & ?). rewrite Hsend in Hs. simplify_eq.
    eapply set_conn_inv; [done..| |done]. congruence.
  - unfold RecordUpdateStatus. destruct (id =? "")%string; [done|]. by destruct Hi; split.
Qed.

Lemma hub_inv h : hub_reachable h → inv h.
Proof. apply reachable_ind_inv; [|apply hub_step_inv]. intros ? ->. apply NewHub_inv. Qed.

(** ** Properties *)

(** C10. Connections of probes, under every interleaving of registrations,
    disconnections, pumps and sends: a registered connection is the named
    probe's; an open connection is the registered one of its probe, unless a
    call that removed it is about to close it, so that a probe has at most one
    open connection besides those; no message is ever sent on a closed channel,
    and at most 256 are queued. *)
Theorem hub_connections h :
  hub_reachable h →
  (∀ id p, agents h !! id = Some p → ∃ ac, hconns h !! p = Some ac ∧ ac_AgentID ac = id) ∧
  (∀ p ac, hconns h !! p = Some ac → ac_closed ac = false →
     agents h !! ac_AgentID ac = Some p ∨ (ac_AgentID ac, Some p) ∈ leaving h) ∧
  (∀ p ac, hconns h !! p = Some ac →
     (length (ac_Send ac) <= send_capacity)%nat ∧ ac_gone ac = ac_closed ac ∧
     ∀ msg, SafeSend msg ac ≠ None ∧ conn_close ac ≠ None).
Proof.
  intros Hi%hub_inv. split_and!; [apply Hi..|].
  intros p ac Hp. pose proof (Forall_lookup_1 _ _ _ _ (inv_conns _ Hi) Hp) as Hok.
  split_and!; [apply Hok..|]. intros msg. split.
  - by destruct (SafeSend_ok msg ac Hok) as (? & ? & -> & _).
  - by destruct (conn_close_ok ac Hok) as (? & -> & _).
Qed.

Section Broadcast.
Context `{MapOrder} {W : IntSize}.

Definition rb_total (r : RestartBroadcast) : nat :=
  rb_SoftExit r + rb_Escalated r + rb_Crash r + rb_Unsupported r + rb_Unreachable r.

Lemma restart_one_total h r w p :
  let '(_, r', w') := restart_one (h, r, w) p in
  (rb_total r' + length w' = S (rb_total r + length w))%nat.
Proof.
  unfold restart_one. destruct (ForceRestartModeFor _ _).
  - destruct (SendToAgent _ _ _) as [h' [|]]; unfold rb_total; simpl; rewrite ?length_app; simpl; lia.
  - destruct (sendCrash _ _) as [h' [|]]; unfold rb_total; simpl; lia.
  - unfold rb_total; simpl; lia.
Qed.

Lemma restart_loop_total ps h r w :
  let '(_, r', w') := foldl restart_one (h, r, w) ps in
  (rb_total r' + length w' = rb_total r + length w + length ps)%nat.
Proof.
  revert h r w. induction ps as [|p ps IH]; intros h r w; cbn [foldl]; [simpl; lia|].
  pose proof (restart_one_total h r w p) as E. destruct (restart_one (h, r, w) p) as [[h1 r1] w1].
  specialize (IH h1 r1 w1). destruct (foldl restart_one (h1, r1, w1) ps) as [[h2 r2] w2]. simpl. lia.
Qed.

Lemma filter_len {A} (f : A → bool) l : (length (List.filter f l) <= length l)%nat.
Proof. induction l as [|x l IH]; simpl; [lia|]. destruct (f x); simpl; lia. Qed.

Lemma await_polls_total n : ∀ k gone pending r,
  let '(r', rest) := await_polls n k gone pending r in
  (rb_total r' + length rest = rb_total r + length pending)%nat.
Proof.
  induction n as [|n IH]; intros k gone pending r; cbn [await_polls];
    pose proof (filter_len (λ id, negb (gone k id)) pending);
    set (rem := List.filter _ pending) in *.
  - destruct rem; unfold rb_total; simpl in *; lia.
  - destruct rem as [|x rem'] eqn:E; [unfold rb_total; simpl in *; lia|].
    specialize (IH (S k) gone (x :: rem') (add_soft (length pending - length (x :: rem')) r)).
    destruct (await_polls _ _ _ _ _) as [r' rest]. unfold rb_total in *. simpl in *. lia.
Qed.

Lemma escalate_total l : ∀ h r,
  (rb_total (snd (foldl escalate_one (h, r) l)) = rb_total r + length l)%nat.
Proof.
  induction l as [|id l IH]; intros h r; cbn [foldl]; [simpl; lia|].
  unfold escalate_one at 2. destruct (sendCrash id h) as [h' [|]]; rewrite IH; unfold rb_total; simpl; lia.
Qed.

(** A broadcast restart accounts for every connected probe exactly once: the
    five counters add up to the number of probes connected when it started,
    whenever the probes leave and whatever else happens to the hub meanwhile. *)
Theorem BroadcastRestart_accounts n gone meanwhile h :
  rb_total (snd (BroadcastRestart n gone meanwhile h)) = length (snapshot h).
Proof.
  unfold BroadcastRestart. pose proof (restart_loop_total (snapshot h) h (mkRB 0 0 0 0 0) []) as E.
  destruct (foldl restart_one _ _) as [[h1 r1] w1]. unfold awaitSoftExits.
  destruct w1 as [|x w]; [unfold rb_total in *; simpl in *; lia|].
  pose proof (await_polls_total n 0 gone (x :: w) r1) as E2.
  destruct (await_polls n 0 gone (x :: w) r1) as [r2 rest]. rewrite escalate_total.
  unfold rb_total in *. simpl in *. lia.
Qed.
End Broadcast.

(** ** [SendWait] *)

Lemma SendWait_loop_done fuel view slack k now deadline :
  (∀ j, 0 <= slack j)%Z → (deadline - now <= (Z.of_nat fuel - 1) * maxBackoff)%Z → (1 <= fuel)%nat →
  SendWait_loop fuel view slack k now deadline maxBackoff ≠ None.
Proof.
  intros Hs. revert k now. induction fuel as [|fuel IH]; intros k now Hf Hfuel; [lia|].
  cbn [SendWait_loop]. destruct (ac_closed (view k)); [done|]. destruct (_ <? send_capacity)%nat; [done|].
  destruct (Z.leb_spec (deadline - now) 0); [done|]. rewrite Z.ltb_irrefl.
  specialize (Hs k) as Hk. destruct fuel as [|fuel]; [unfold maxBackoff in *; lia|].
  apply IH; [|lia]. unfold maxBackoff in *. destruct (Z.ltb_spec (deadline - now) 32000000); lia.
Qed.

Lemma SendWait_loop_spec fuel : ∀ view slack k now deadline backoff r err,
  SendWait_loop fuel view slack k now deadline backoff = Some (r, err) →
  (k <= r)%nat ∧
  (∀ j, (k <= j < r)%nat → ac_closed (view j) = false ∧ (send_capacity <= length (ac_Send (view j)))%nat) ∧
  match err with
  | None => ac_closed (view r) = false ∧ (length (ac_Send (view r)) < send_capacity)%nat
  | Some e => e = "connection closed" ∧ ac_closed (view r) = true ∨
              e = "send timeout" ∧ ac_closed (view r) = false ∧ (send_capacity <= length (ac_Send (view r)))%nat
  end.
Proof.
  induction fuel as [|fuel IH]; intros view slack k now deadline backoff r err; cbn [SendWait_loop]; [done|].
  destruct (ac_closed (view k)) eqn:Ec.
  { intros [= <- <-]. split_and!; [lia|intros j ?; lia|by left]. }
  destruct (Nat.ltb_spec (length (ac_Send (view k))) send_capacity).
  { intros [= <- <-]. split_and!; [lia|intros j ?; lia|done|done]. }
  destruct (_ <=? 0)%Z.
  { intros [= <- <-]. split_and!; [lia|intros j ?; lia|by right]. }
  intros (Hr & Hj & He)%IH. split_and!; [lia| |done].
  intros j ?. destruct (decide (j = k)) as [->|]; [done|]. apply Hj. lia.
Qed.

Lemma SendWait_step fuel view slack k t deadline b b' :
  (∀ j, 0 <= slack j)%Z → (0 < b)%Z →
  (if (b <? maxBackoff)%Z then if (maxBackoff <? b * 2)%Z then maxBackoff else (b * 2)%Z else b) = b' →
  (∀ t', (t <= t')%Z → SendWait_loop fuel view slack (S k) t' deadline b' ≠ None) →
  SendWait_loop (S fuel) view slack k t deadline b ≠ None.
Proof.
  intros Hs Hb Eb Hn. cbn [SendWait_loop]. destruct (ac_closed _); [done|].
  destruct (_ <? _)%nat; [done|]. destruct (Z.leb_spec (deadline - t) 0); [done|]. rewrite Eb. apply Hn.
  specialize (Hs k). destruct (_ <? b)%Z; lia.
Qed.

(** Four sleeps of 2, 4, 8 and 16 ms, then 32 ms each. *)
Lemma SendWait_done fuel view slack now timeout :
  (∀ j, 0 <= slack j)%Z → (timeout <= (Z.of_nat fuel - 1) * maxBackoff)%Z → (1 <= fuel)%nat →
  SendWait (S (S (S (S fuel)))) timeout now view slack ≠ None.
Proof.
  intros Hs Hf Hl. unfold SendWait.
  apply (SendWait_step _ _ _ _ _ _ _ 4000000%Z); [done|lia|done|intros t1 ?].
  apply (SendWait_step _ _ _ _ _ _ _ 8000000%Z); [done|lia|done|intros t2 ?].
  apply (SendWait_step _ _ _ _ _ _ _ 16000000%Z); [done|lia|done|intros t3 ?].
  apply (SendWait_step _ _ _ _ _ _ _ maxBackoff); [done|lia|done|intros t4 ?].
  apply SendWait_loop_done; [done|lia|done].
Qed.

Lemma SendWait_spec fuel timeout now view slack :
  SendWait fuel timeout now view slack ≠ None →
  ∃ r err, SendWait fuel timeout now view slack = Some (r, err) ∧
  (∀ j, (j < r)%nat → ac_closed (view j) = false ∧ (send_capacity <= length (ac_Send (view j)))%nat) ∧
  match err with
  | None => ac_closed (view r) = false ∧ (length (ac_Send (view r)) < send_capacity)%nat
  | Some e => e = "connection closed" ∧ ac_closed (view r) = true ∨
              e = "send timeout" ∧ ac_closed (view r) = false ∧ (send_capacity <= length (ac_Send (view r)))%nat
  end.
Proof.
  destruct (SendWait fuel timeout now view slack) as [[r err]|] eqn:E; [|done]. intros _.
  exists r, err. split; [done|]. apply SendWait_loop_spec in E as (_ & Hj & He). split; [|done].
  intros j ?. apply Hj. lia.
Qed.

(** [SendWait] with the hub's five-second timeout ends after at most 165
    attempts however the queue behaves and however long the sleeps overrun; it
    queues the message at the first attempt that finds the connection open with
    room, and errs only if the connection is closed or the queue was full at
    every attempt. *)
Theorem SendWait_terminates now view slack :
  (∀ j, 0 <= slack j)%Z →
  ∃ r err, SendWait 165 5000000000 now view slack = Some (r, err) ∧
  (∀ j, (j < r)%nat → ac_closed (view j) = false ∧ (send_capacity <= length (ac_Send (view j)))%nat) ∧
  match err with
  | None => ac_closed (view r) = false ∧ (length (ac_Send (view r)) < send_capacity)%nat
  | Some e => e = "connection closed" ∧ ac_closed (view r) = true ∨
              e = "send timeout" ∧ ac_closed (view r) = false ∧ (send_capacity <= length (ac_Send (view r)))%nat
  end.
Proof.
  intros Hs. apply SendWait_spec. apply (SendWait_done 161); [done| |lia].
  unfold maxBackoff. lia.
Qed.

(** ** Witnesses *)

(** A probe that reconnected: its first connection was closed by the second. *)
Definition demo_hub : Hub :=
  Register "a1" 1 (mkHub {["a1" := 0]} [new_conn "a1" "192.0.2.1" "1.2.1" "amd64"; new_conn "a1" "192.0.2.1" "1.2.1" "amd64"]
    ∅ [] [] []).

Lemma demo_hub_reachable : hub_reachable demo_hub.
Proof.
  assert (R0 : hub_reachable NewHub) by by apply reach_init.
  pose proof (reach_step _ _ _ _ R0 (step_register _ "a1" "192.0.2.1" "1.2.1" "amd64")) as R1.
  pose proof (reach_step _ _ _ _ R1 (step_register _ "a1" "192.0.2.1" "1.2.1" "amd64")) as R2.
  exact R2.
Qed.

Lemma hub_connections_witness :
  (∀ id p, agents demo_hub !! id = Some p → ∃ ac, hconns demo_hub !! p = Some ac ∧ ac_AgentID ac = id) ∧
  (∀ p ac, hconns demo_hub !! p = Some ac → ac_closed ac = false →
     agents demo_hub !! ac_AgentID ac = Some p ∨ (ac_AgentID ac, Some p) ∈ leaving demo_hub) ∧
  (∀ p ac, hconns demo_hub !! p = Some ac →
     (length (ac_Send ac) <= send_capacity)%nat ∧ ac_gone ac = ac_closed ac ∧
     ∀ msg, SafeSend msg ac ≠ None ∧ conn_close ac ≠ None).
Proof. exact (hub_connections demo_hub demo_hub_reachable). Defined.

Lemma SendWait_terminates_witness :
  let ac := new_conn "a1" "" "" "" in
  ∃ r err, SendWait 165 5000000000 0 (λ _, ac) (λ _, 0%Z) = Some (r, err) ∧
  (∀ j, (j < r)%nat → ac_closed ac = false ∧ (send_capacity <= length (ac_Send ac))%nat) ∧
  match err with
  | None => ac_closed ac = false ∧ (length (ac_Send ac) < send_capacity)%nat
  | Some e => e = "connection closed" ∧ ac_closed ac = true ∨
              e = "send timeout" ∧ ac_closed ac = false ∧ (send_capacity <= length (ac_Send ac))%nat
  end.
Proof. intros ac. apply (SendWait_terminates 0 (λ _, ac) (λ _, 0%Z)). intros. lia. Defined.
