(* ===== verification/Ingest.v ===== *)
(** * What a probe's messages do on the Host ([host/internal/ws]: handler.go, conn.go)

    The registration handshake, the dispatch of incoming messages, and the
    storing of ping and traceroute reports. The database is its tables; uuids,
    the clock and the answers of the lookup services are inputs. *)
From S2P Require Import Prelude GoStrings GoNet GoFloat GoJson Protocol Model IpUtil RouteClass.

Definition minute : Z := (60 * 1000000000)%Z.
Definition hour : Z := (60 * minute)%Z.

Record Db := mkDb {
  db_agents : list Agent;
  db_targets : list Target;
  db_metrics : list PingMetric;
  db_traces : list TracerouteRecord
}.

(** [Updates] of the online columns of one agent. *)
Definition touch (agentID : string) (now : Z) (a : Agent) : Agent :=
  if (ag_ID a =? agentID)%string then
    mkAgent (ag_ID a) (ag_Name a) (ag_Token a) (ag_PublicIP a) (ag_OS a) (ag_Arch a) (ag_Version a) (ag_Tags a)
      (ag_DisabledRouteTargets a) (ag_PausedTargets a) true now
  else a.

Definition touch_agent (agentID : string) (now : Z) (db : Db) : Db :=
  mkDb (touch agentID now <$> db_agents db) (db_targets db) (db_metrics db) (db_traces db).

(** ** [HandleWebSocket]: the handshake *)

Inductive handshake :=
  | Rejected (msg : string)
  | Registered (agent : Agent).

Definition register_row (remoteIP : string) (now : Z) (req : RegisterRequest) (a : Agent) : Agent :=
  mkAgent (ag_ID a)
    (if (ag_Name a =? "")%string || (ag_Name a =? "New Agent")%string then
       if negb (rr_Hostname req =? "")%string then rr_Hostname req else ag_Name a
     else ag_Name a)
    (ag_Token a) remoteIP (rr_OS req) (rr_Arch req) (rr_Version req) (ag_Tags a)
    (ag_DisabledRouteTargets a) (ag_PausedTargets a) true now.

(** [initial] is the first message, [None] when it could not be read; the result
    carries the row [Save] writes. A lookup that fails is treated as one that finds
    no row. *)
Definition HandleWebSocket (db_ok : bool) (remoteIP : string) (now : Z) (initial : option Envelope) (db : Db) : handshake :=
  match initial with
  | None => Rejected "First message must be register_request"
  | Some env =>
      if negb (env_Type env =? TypeRegisterRequest)%string then Rejected "First message must be register_request"
      else
        match decode (A := RegisterRequest) (env_Payload env) with
        | None => Rejected "Invalid register payload"
        | Some req =>
            if (rr_Token req =? "")%string then Rejected "Invalid register payload"
            else
              match (if db_ok then List.find (λ a, (ag_Token a =? rr_Token req)%string) (db_agents db) else None) with
              | None => Rejected "Invalid or revoked agent token"
              | Some a => Registered (register_row remoteIP now req a)
              end
        end
  end.

(** ** Reports *)

(** A report's instant, or [now] when it is missing or implausible. *)
Definition plausible (now ts : Z) : Z :=
  if (ts =? 0)%Z || (now + 5 * minute <? ts)%Z || (ts <? now - 48 * hour)%Z then now else ts.

(** The statements that fail while a message is handled: the count of the probe's
    rows, the query of the enabled targets, the insertion, the update of the
    probe's online columns. *)
Record Faults := mkFaults { f_count : bool; f_targets : bool; f_insert : bool; f_touch : bool }.
Definition no_faults : Faults := mkFaults false false false false.

Definition set_online (fl : Faults) (agentID : string) (now : Z) (db : Db) : Db :=
  if f_touch fl then db else touch_agent agentID now db.

(** The rows made of a report. *)
Definition metric_rows (agentID : string) (now : Z) (validTargets : list string) (results : list SinglePingResult) : list PingMetric :=
  omap (λ r,
    if negb (bool_decide (pr_TargetID r ∈ validTargets)) then None
    else Some (mkMetric agentID (pr_TargetID r) (plausible now (pr_Timestamp r)) (pr_PacketsSent r)
                 (pr_PacketsRecv r) (pr_LossPct r) (pr_MinRTT r) (pr_MaxRTT r) (pr_AvgRTT r)
                 (pr_Jitter r) (pr_StdDev r) (pr_ErrorMsg r))) results.

Section Columns.
Context `{Columns}.

(** [CreateInBatches], whose error is dropped: one statement, or a transaction of
    several, so a value that a column refuses loses all the rows. *)
Definition CreateInBatches (fail : bool) (rows : list PingMetric) (db : Db) : Db :=
  if fail then db
  else match mapM stored_metric rows with
       | Some rows => mkDb (db_agents db) (db_targets db) (db_metrics db ++ rows) (db_traces db)
       | None => db
       end.

Definition persistPingReport (agentID : string) (now : Z) (fl : Faults) (report : PingReportPayload) (db : Db) : Db :=
  match pp_Results report with
  | [] => db
  | results =>
      let validTargets := if f_targets fl then [] else tg_ID <$> List.filter tg_Enabled (db_targets db) in
      let metrics := metric_rows agentID now validTargets results in
      set_online fl agentID now (CreateInBatches (f_insert fl) metrics db)
  end.
End Columns.

Section Trace.
Context `{Columns} `{Http}.

(** One hop, looked up unless it did not answer. *)
Definition enrich_hop (h : TracerouteHop) (cache : gmap string GeoInfo) : EnrichedHop * gmap string GeoInfo :=
  let eh geo := mkEnriched (hop_TTL h) (hop_IP h) (hop_Hostname h) (hop_RTTs h) (hop_AvgRTT h) (hop_LossPct h)
                  (g_ASNumber geo) (g_ASOrg geo) (g_ISP geo) (g_Country geo) (g_CountryCode geo) (g_City geo) in
  if negb (hop_IP h =? "")%string && negb (hop_IP h =? "*")%string then
    let '(cache, geo, _) := Lookup (hop_IP h) cache in (eh geo, cache)
  else (eh no_geo, cache).

Fixpoint enrich_hops (hs : list TracerouteHop) (cache : gmap string GeoInfo) : list EnrichedHop * gmap string GeoInfo :=
  match hs with
  | [] => ([], cache)
  | h :: hs =>
      let '(eh, cache) := enrich_hop h cache in
      let '(ehs, cache) := enrich_hops hs cache in
      (eh :: ehs, cache)
  end.

Definition hop_meta (h : EnrichedHop) : HopMeta := mkHopMeta (eh_IP h) (eh_ASNumber h) (eh_ASOrg h) (eh_ISP h).

Definition persistTracerouteReport (uuid agentID : string) (now : Z) (fl : Faults) (report : TracerouteReportPayload)
    (cache : gmap string GeoInfo) (db : Db) : Db * gmap string GeoInfo :=
  if bool_decide (tr_Hops report = []) && (tr_TargetHost report =? "")%string then (db, cache)
  else
    let '(enrichedHops, cache) := enrich_hops (tr_Hops report) cache in
    let hopMetas := hop_meta <$> enrichedHops in
    let routePath := ClassifyRoute hopMetas (tr_TargetHost report) "" in
    let '(asPath, asNodes) := GenerateASPath hopMetas in
    let rec := mkTraceRecord uuid agentID (tr_TargetID report) (tr_TargetHost report) (tr_ResolvedIP report)
                 (plausible now (tr_Timestamp report)) (tr_DurationMs report) (tr_Reached report)
                 (zlen enrichedHops) routePath asPath asNodes enrichedHops in
    let db := match stored_trace rec with
              | Some rec => if f_insert fl then db else mkDb (db_agents db) (db_targets db) (db_metrics db) (db_traces db ++ [rec])
              | None => db
              end in
    (set_online fl agentID now db, cache).
End Trace.

(** ** [handleIncomingMessage] *)

(** What the connection does besides the database: answer, close, or hand on. *)
Inductive reaction :=
  | NoReaction
  | Ack
  | CloseConnection
  | Trace (report : TracerouteReportPayload)
  | UpdateReported (res : UpdateResultPayload)
  | ToProxy (env : Envelope).

Section Dispatch.
Context {W : IntSize} {TT : TimeText} `{Columns}.

Definition handleIncomingMessage (agentID : string) (now : Z) (fl : Faults) (env : Envelope) (db : Db)
    : Db * reaction :=
  if (env_Type env =? TypeHeartbeat)%string then (set_online fl agentID now db, Ack)
  else if (env_Type env =? TypePingReport)%string then
    match decode (A := PingReportPayload) (env_Payload env) with
    | None => (db, NoReaction)
    | Some report =>
        if f_count fl || negb (existsb (λ a, (ag_ID a =? agentID)%string) (db_agents db)) then (db, CloseConnection)
        else (persistPingReport agentID now fl report db, NoReaction)
    end
  else if (env_Type env =? TypeTracerouteReport)%string then
    match decode (A := TracerouteReportPayload) (env_Payload env) with
    | None => (db, NoReaction)
    | Some report => (db, Trace report)
    end
  else if (env_Type env =? TypeUpdateResult)%string then
    match decode (A := UpdateResultPayload) (env_Payload env) with
    | None => (db, NoReaction)
    | Some res => (db, UpdateReported res)
    end
  else if (env_Type env =? TypeProxyOpenResult)%string || (env_Type env =? TypeProxyData)%string ||
          (env_Type env =? TypeProxyClose)%string then (db, ToProxy env)
  else (db, NoReaction).
End Dispatch.

(** ** Lemmas *)

Lemma plausible_bounds now ts : (now - 48 * hour <= plausible now ts <= now + 5 * minute)%Z.
Proof.
  unfold plausible, hour, minute. destruct (_ || _) eqn:E; [lia|]. go_bool. lia.
Qed.

Lemma plausible_id now ts :
  (ts ≠ 0 → now - 48 * hour <= ts <= now + 5 * minute → plausible now ts = ts)%Z.
Proof.
  intros H0 H1. unfold plausible.
  rewrite (proj2 (Z.eqb_neq ts 0)), (proj2 (Z.ltb_ge (now + 5 * minute) ts)), (proj2 (Z.ltb_ge ts (now - 48 * hour)))
    by lia. done.
Qed.

Lemma enabled_target db i :
  i ∈ tg_ID <$> List.filter tg_Enabled (db_targets db) ↔
  ∃ t, t ∈ db_targets db ∧ tg_Enabled t = true ∧ tg_ID t = i.
Proof.
  rewrite list_elem_of_fmap. setoid_rewrite list_elem_of_In. setoid_rewrite filter_In.
  split; [intros (t & -> & ? & ?)|intros (t & ? & ? & <-)]; eauto 6.
Qed.

Lemma metric_rows_targets agentID now valid l :
  pm_TargetID <$> metric_rows agentID now valid l = List.filter (λ i, bool_decide (i ∈ valid)) (pr_TargetID <$> l).
Proof.
  unfold metric_rows. induction l as [|x l IH]; [done|]. cbn [omap list_omap fmap list_fmap List.filter].
  destruct (bool_decide _); cbn [negb]; [|exact IH]. cbn. f_equal. exact IH.
Qed.

Lemma metric_rows_sound agentID now valid l m :
  m ∈ metric_rows agentID now valid l →
  pm_AgentID m = agentID ∧ (now - 48 * hour <= pm_Timestamp m <= now + 5 * minute)%Z ∧ pm_TargetID m ∈ valid.
Proof.
  intros (x & _ & Hx)%list_elem_of_omap. destruct (bool_decide _) eqn:E; [|done]. simplify_eq/=. go_bool.
  split_and!; [done|apply plausible_bounds..|done].
Qed.

Section Shape.
Context `{Columns}.

Lemma set_online_same fl agentID now db :
  db_targets (set_online fl agentID now db) = db_targets db ∧ db_metrics (set_online fl agentID now db) = db_metrics db ∧
  db_traces (set_online fl agentID now db) = db_traces db.
Proof. unfold set_online. by destruct (f_touch fl). Qed.

(** The measurements of a database to which a report was added. *)
Lemma persist_metrics agentID now fl claimed r rs db :
  db_metrics (persistPingReport agentID now fl (mkPingReport claimed (r :: rs)) db) =
  db_metrics db ++ (if f_insert fl then [] else
    default [] (mapM stored_metric (metric_rows agentID now
      (if f_targets fl then [] else tg_ID <$> List.filter tg_Enabled (db_targets db)) (r :: rs)))).
Proof.
  unfold persistPingReport. cbn [pp_Results]. set (rows := metric_rows _ _ _ _).
  rewrite (proj1 (proj2 (set_online_same _ _ _ _))). unfold CreateInBatches.
  destruct (f_insert fl); [by rewrite app_nil_r|]. destruct (mapM _ rows); cbn; by rewrite ?app_nil_r.
Qed.

(** What a report adds, whatever fails. *)
Lemma persist_shape agentID now fl report db :
  let db' := persistPingReport agentID now fl report db in
  db_targets db' = db_targets db ∧ db_traces db' = db_traces db ∧
  ∃ ms, db_metrics db' = db_metrics db ++ ms ∧
  Forall (λ m, ∃ row, stored_metric row = Some m ∧ pm_AgentID row = agentID ∧
               (now - 48 * hour <= pm_Timestamp row <= now + 5 * minute)%Z ∧
               (∃ t, t ∈ db_targets db ∧ tg_Enabled t = true ∧ tg_ID t = pm_TargetID row)) ms ∧
  (fl = no_faults → ms = default [] (mapM stored_metric
     (metric_rows agentID now (tg_ID <$> List.filter tg_Enabled (db_targets db)) (pp_Results report)))).
Proof.
  cbv zeta. unfold persistPingReport. destruct (pp_Results report) as [|r rs].
  { split_and!; [done..|]. exists []. rewrite app_nil_r. by split_and!. }
  generalize (r :: rs). intros l. set (valid := if f_targets fl then [] else _).
  destruct (set_online_same fl agentID now (CreateInBatches (f_insert fl) (metric_rows agentID now valid l) db)) as (-> & -> & ->).
  unfold CreateInBatches. destruct (f_insert fl) eqn:Ei.
  { split_and!; [done..|]. exists []. rewrite app_nil_r. split_and!; [done..|]. by intros ->. }
  destruct (mapM stored_metric _) as [ms|] eqn:Em; cbn.
  - split_and!; [done..|]. exists ms. split; [done|]. split.
    + apply Forall_forall. intros m Hm. apply mapM_Some in Em.
      apply list_elem_of_lookup in Hm as [i Hi]. destruct (Forall2_lookup_r _ _ _ _ _ Em Hi) as (row & Hrow%list_elem_of_lookup_2 & Es).
      exists row. split; [done|]. apply metric_rows_sound in Hrow as (-> & Hb & Hv). split_and!; [done|apply Hb..|].
      unfold valid in Hv. destruct (f_targets fl); [by apply not_elem_of_nil in Hv|by apply enabled_target].
    + intros ->. cbn in valid. unfold valid in Em. by rewrite Em.
  - split_and!; [done..|]. exists []. rewrite app_nil_r. split_and!; [done..|]. intros ->. cbn in valid. unfold valid in Em. by rewrite Em.
Qed.
End Shape.

(** ** Properties *)

Section Properties.
Context {W : IntSize} {TT : TimeText} `{Columns}.

(** Stored measurements are trustworthy: whatever a ping report says, and whatever
    fails, each row the Host adds holds what its columns make of a row that is
    attributed to the connection's own probe, names a target that exists and is
    enabled, and carries a time between 48 hours ago and five minutes ahead. When
    nothing fails and the columns take all the values, every reported result of an
    enabled target is stored, in order; a single value they refuse loses the
    report. A report from a deleted probe stores nothing and closes the connection. *)
Theorem ping_report_ingest agentID now fl env db :
  env_Type env = TypePingReport →
  let '(db', reaction) := handleIncomingMessage agentID now fl env db in
  db_targets db' = db_targets db ∧ db_traces db' = db_traces db ∧
  ∃ ms, db_metrics db' = db_metrics db ++ ms ∧
  Forall (λ m, ∃ row, stored_metric row = Some m ∧ pm_AgentID row = agentID ∧
               (now - 48 * hour <= pm_Timestamp row <= now + 5 * minute)%Z ∧
               (∃ t, t ∈ db_targets db ∧ tg_Enabled t = true ∧ tg_ID t = pm_TargetID row)) ms ∧
  match decode (A := PingReportPayload) (env_Payload env) with
  | Some report =>
      if existsb (λ a, (ag_ID a =? agentID)%string) (db_agents db) then
        fl = no_faults →
        let rows := metric_rows agentID now (tg_ID <$> List.filter tg_Enabled (db_targets db)) (pp_Results report) in
        pm_TargetID <$> rows =
          List.filter (λ i, bool_decide (i ∈ tg_ID <$> List.filter tg_Enabled (db_targets db))) (pr_TargetID <$> pp_Results report) ∧
        ms = default [] (mapM stored_metric rows)
      else ms = [] ∧ reaction = CloseConnection
  | None => ms = []
  end.
Proof.
  intros Ht. unfold handleIncomingMessage. rewrite Ht. cbn [String.eqb Ascii.eqb Bool.eqb].
  change (TypePingReport =? TypeHeartbeat)%string with false. change (TypePingReport =? TypePingReport)%string with true.
  cbv iota. destruct (decode (env_Payload env)) as [report|].
  2: { split_and!; [done..|]. exists []. by rewrite app_nil_r. }
  destruct (existsb _ (db_agents db)); cbn [negb].
  2: { rewrite orb_true_r. split_and!; [done..|]. exists []. by rewrite app_nil_r. }
  rewrite orb_false_r. destruct (f_count fl) eqn:Ec.
  { split_and!; [done..|]. exists []. rewrite app_nil_r. split_and!; [done..|]. by intros ->. }
  destruct (persist_shape agentID now fl report db) as (E1 & E2 & ms & E3 & Hms & Hok). split_and!; [done..|].
  exists ms. split_and!; [done..|]. intros Hf. split; [apply metric_rows_targets|by apply Hok].
Qed.

(** Registration: a probe is let in only when its first message is a
    well-formed register request whose non-empty token belongs to a row of the
    agents table; the row keeps its id, token, tags and overrides, and a name
    the operator chose. *)
Theorem registration_authenticates db_ok remoteIP now initial db a' :
  HandleWebSocket db_ok remoteIP now initial db = Registered a' →
  ∃ env req a, initial = Some env ∧ env_Type env = TypeRegisterRequest ∧
    decode (A := RegisterRequest) (env_Payload env) = Some req ∧ rr_Token req ≠ "" ∧
    a ∈ db_agents db ∧ ag_Token a = rr_Token req ∧
    ag_ID a' = ag_ID a ∧ ag_Token a' = ag_Token a ∧ ag_Tags a' = ag_Tags a ∧
    ag_DisabledRouteTargets a' = ag_DisabledRouteTargets a ∧ ag_PausedTargets a' = ag_PausedTargets a ∧
    (ag_Name a ≠ "" → ag_Name a ≠ "New Agent" → ag_Name a' = ag_Name a) ∧
    ag_Version a' = rr_Version req ∧ ag_PublicIP a' = remoteIP.
Proof.
  unfold HandleWebSocket. destruct initial as [env|]; [|done].
  destruct (String.eqb_spec (env_Type env) TypeRegisterRequest) as [Et|]; [|done]. cbn [negb].
  destruct (decode (env_Payload env)) as [req|] eqn:Ed; [|done].
  destruct (String.eqb_spec (rr_Token req) "") as [|Hne]; [done|].
  destruct db_ok; [|done]. destruct (List.find _ _) as [a|] eqn:Ef; [|done]. apply find_some in Ef as [Hin Hk].
  apply String.eqb_eq in Hk. intros [= <-]. exists env, req, a. simpl.
  split_and!; try done; [by apply list_elem_of_In|].
  intros H1%String.eqb_neq H2%String.eqb_neq. by rewrite H1, H2.
Qed.
End Properties.

Section TraceProperties.
Context `{Columns} `{Http}.

Lemma enrich_hops_shape hs cache :
  let '(ehs, _) := enrich_hops hs cache in
  (λ e, (eh_TTL e, eh_IP e, eh_RTTs e)) <$> ehs = (λ h, (hop_TTL h, hop_IP h, hop_RTTs h)) <$> hs.
Proof.
  revert cache. induction hs as [|h hs IH]; intros cache; simpl; [done|].
  destruct (enrich_hop h cache) as [eh c1] eqn:E. specialize (IH c1).
  destruct (enrich_hops hs c1) as [ehs c2]. cbn. rewrite IH. f_equal.
  unfold enrich_hop in E. destruct (_ && _); [destruct (Lookup _ _) as [[? ?] ?]|]; by simplify_eq.
Qed.

(** The record made of a report, before its columns take it. *)
Definition route_of (agentID : string) (now : Z) (report : TracerouteReportPayload) (rec : TracerouteRecord) : Prop :=
  trc_AgentID rec = agentID ∧ (now - 48 * hour <= trc_Timestamp rec <= now + 5 * minute)%Z ∧
  (λ e, (eh_TTL e, eh_IP e, eh_RTTs e)) <$> trc_Hops rec
    = (λ h, (hop_TTL h, hop_IP h, hop_RTTs h)) <$> tr_Hops report ∧
  trc_HopCount rec = zlen (tr_Hops report) ∧
  trc_RoutePath rec = ClassifyRoute (hop_meta <$> trc_Hops rec) (tr_TargetHost report) "" ∧
  (trc_ASPath rec, trc_ASNodes rec) = GenerateASPath (hop_meta <$> trc_Hops rec).

(** What a traceroute adds, whatever fails. *)
Lemma traceroute_shape uuid agentID now fl report cache db :
  let '(db', _) := persistTracerouteReport uuid agentID now fl report cache db in
  db_metrics db' = db_metrics db ∧ db_targets db' = db_targets db ∧
  ∃ recs, db_traces db' = db_traces db ++ recs ∧
  Forall (λ r, ∃ row, stored_trace row = Some r ∧ route_of agentID now report row) recs ∧
  (tr_Hops report ≠ [] ∨ tr_TargetHost report ≠ "" →
   ∃ row, route_of agentID now report row ∧ recs = if f_insert fl then [] else option_list (stored_trace row)).
Proof.
  unfold persistTracerouteReport. destruct (bool_decide (tr_Hops report = []) && _) eqn:Eb.
  { apply andb_prop in Eb as [Eb%bool_decide_eq_true Eh%String.eqb_eq].
    split_and!; [done..|]. exists []. rewrite app_nil_r. split_and!; [done..|]. by intros [?|?]. }
  pose proof (enrich_hops_shape (tr_Hops report) cache) as Hs.
  destruct (enrich_hops (tr_Hops report) cache) as [ehs c]. destruct (GenerateASPath _) as [p n] eqn:Eg.
  set (rec := mkTraceRecord _ _ _ _ _ _ _ _ _ _ _ _ _).
  match goal with |- context [set_online fl agentID now ?d] => destruct (set_online_same fl agentID now d) as (-> & -> & ->) end.
  assert (Hr : route_of agentID now report rec).
  { split_and!; cbn; try done; try apply plausible_bounds.
    apply (f_equal length) in Hs. rewrite !length_fmap in Hs. unfold zlen. by rewrite Hs. }
  split; [by destruct (stored_trace rec), (f_insert fl)|]. split; [by destruct (stored_trace rec), (f_insert fl)|].
  exists (if f_insert fl then [] else option_list (stored_trace rec)).
  split; [destruct (stored_trace rec), (f_insert fl); cbn; by rewrite ?app_nil_r|].
  split; [|intros _; by exists rec]. destruct (f_insert fl); [done|]. destruct (stored_trace rec) eqn:E; [|done].
  apply Forall_singleton. by exists rec.
Qed.

(** A stored route: a report with hops or a target makes one record, of the
    connection's probe, at a plausible time, with the reported hops in order and as
    many as it counts, classified and summarised from them; unless the insertion
    fails or a column refuses a value, what the columns hold of it is added. *)
Theorem traceroute_ingest uuid agentID now fl report cache db :
  tr_Hops report ≠ [] ∨ tr_TargetHost report ≠ "" →
  let '(db', _) := persistTracerouteReport uuid agentID now fl report cache db in
  db_metrics db' = db_metrics db ∧ db_targets db' = db_targets db ∧
  ∃ rec, route_of agentID now report rec ∧
  db_traces db' = db_traces db ++ (if f_insert fl then [] else option_list (stored_trace rec)).
Proof.
  intros Hne. pose proof (traceroute_shape uuid agentID now fl report cache db) as Hs.
  destruct (persistTracerouteReport _ _ _ _ _ _ _) as [db' c]. destruct Hs as (? & ? & recs & E & _ & Hr).
  destruct (Hr Hne) as (row & Hrow & ->). eauto 6.
Qed.
End TraceProperties.

(** ** Witnesses *)

Definition demo_db : Db :=
  mkDb [mkAgent "a1" "New Agent" "tok" "" "" "" "" "" "" "" false 0]
    [mkTarget "t1" "One" "1.1.1.1" 20 30 "" true false; mkTarget "t2" "Two" "2.2.2.2" 20 30 "" false false] [] [].

Definition demo_result (id : string) : SinglePingResult :=
  mkPing id "1.1.1.1" 0 20 19 fzero fzero fzero fzero fzero fzero "".

Definition demo_ping_env : Envelope :=
  mkEnvelope TypePingReport
    (enc_PingReport (TT := binary_time) (mkPingReport "other" [demo_result "t1"; demo_result "t2"; demo_result "t9"])).

Lemma ping_report_ingest_witness :
  let _ := int64_size in let _ := binary_time in let _ := simple_columns in
  let '(db', _) := handleIncomingMessage "a1" (100 * hour) no_faults demo_ping_env demo_db in
  (pm_TargetID <$> db_metrics db' = ["t1"]) ∧ db_targets db' = db_targets demo_db.
Proof.
  intros ? ? ?. pose proof (ping_report_ingest "a1" (100 * hour) no_faults demo_ping_env demo_db eq_refl) as H.
  destruct (handleIncomingMessage _ _ _ _ _) as [db' r] eqn:E. destruct H as (Ht & _ & _). split; [|exact Ht].
  assert (db' = fst (handleIncomingMessage "a1" (100 * hour) no_faults demo_ping_env demo_db)) as -> by (by rewrite E).
  vm_compute. reflexivity.
Defined.

Definition demo_register : Envelope :=
  mkEnvelope TypeRegisterRequest (enc_RegisterRequest (mkRegisterRequest "tok" "host1" "linux" "amd64" "1.2.1")).

Lemma registration_authenticates_witness :
  ∃ a', HandleWebSocket true "203.0.113.9" 7 (Some demo_register) demo_db = Registered a' ∧ ag_Name a' = "host1" ∧
  ∃ env req a, Some demo_register = Some env ∧ env_Type env = TypeRegisterRequest ∧
    decode (A := RegisterRequest) (env_Payload env) = Some req ∧ rr_Token req ≠ "" ∧
    a ∈ db_agents demo_db ∧ ag_Token a = rr_Token req ∧
    ag_ID a' = ag_ID a ∧ ag_Token a' = ag_Token a ∧ ag_Tags a' = ag_Tags a ∧
    ag_DisabledRouteTargets a' = ag_DisabledRouteTargets a ∧ ag_PausedTargets a' = ag_PausedTargets a ∧
    (ag_Name a ≠ "" → ag_Name a ≠ "New Agent" → ag_Name a' = ag_Name a) ∧
    ag_Version a' = rr_Version req ∧ ag_PublicIP a' = "203.0.113.9".
Proof.
  eexists. split; [vm_compute; reflexivity|]. split; [reflexivity|].
  apply (registration_authenticates true "203.0.113.9" 7 (Some demo_register) demo_db). vm_compute. reflexivity.
Defined.

Definition no_http : Http := λ _, None.

Definition demo_trace_report : TracerouteReportPayload :=
  mkTraceReport "x" "t1" "example.com" "1.1.1.1" 0 12 true
    [mkHop 1 "192.168.0.1" "" [] fzero fzero; mkHop 2 "59.43.9.9" "" [] fzero fzero].

Lemma traceroute_ingest_witness :
  let _ := no_http in let _ := simple_columns in
  let '(db', _) := persistTracerouteReport "u" "a1" (100 * hour) no_faults demo_trace_report ∅ demo_db in
  db_metrics db' = db_metrics demo_db ∧ db_targets db' = db_targets demo_db ∧
  ∃ rec, route_of "a1" (100 * hour) demo_trace_report rec ∧
  db_traces db' = db_traces demo_db ++ option_list (stored_trace rec).
Proof. intros ? ?. apply (traceroute_ingest "u" "a1" (100 * hour) no_faults demo_trace_report). left. discriminate. Defined.
