(* ===== verification/Public.v ===== *)
(** * What visitors see ([host/internal/api]: public.go, public_metrics.go, public_traceroute.go, agent_quality.go)

    The queries of the dashboard, on the tables of [Ingest]. The database is a
    parameter where it computes: an average, the order of texts, the order of rows
    that compare equal ([GoSort]). *)
From S2P Require Import Prelude GoStrings GoNet GoFloat FloatBounds Model RouteClass IpUtil Ingest.

Class Sql := {
  sql_avg : list float → float;
  text_cmp : string → string → comparison;
  text_cmp_total :: TotalCmp text_cmp;
  text_cmp_eq a b : text_cmp a b = Eq → a = b
}.
(** [ORDER BY] a comparison, ascending or descending in each key. *)
Definition before {A} (c : A → A → comparison) (x y : A) : bool := match c x y with Lt => true | _ => false end.
Definition desc {A} (c : A → A → comparison) (x y : A) : comparison := c y x.
Definition cmp_bool (x y : bool) : comparison := Z.compare (Z.b2z x) (Z.b2z y).

(** [COALESCE(AVG(x), 0)] *)
Definition avg_or_zero `{Sql} (l : list float) : float := match l with [] => fzero | _ => sql_avg l end.

(** [int(f)]: what a value that does not fit becomes is up to the machine. *)
Class FloatToInt := wild_int : float → Z.
Definition int_of {W : IntSize} `{FloatToInt} (f : float) : Z :=
  if fnan f || finf f then wild_int f
  else let z := F_trunc f in if ((int_min <=? z) && (z <=? int_max))%Z then z else wild_int f.

(** ** agent_quality.go *)

Record AgentQuality := mkQuality {
  q_AvgRTT : float; q_Jitter : float; q_LossPct : float; q_Score : Z; q_Grade : string; q_Status : string
}.

Definition round2 (f : float) : float := fdiv (fround (fmul f (F_of_Z 100))) (F_of_Z 100).

Definition quality_score (rtt jitter loss : float) : float :=
  let score := fsub (F_of_Z 100) (fmul loss (F_of_Z 3)) in
  let score := if flt (F_of_Z 5) jitter then fsub score (fmul (fsub jitter (F_of_Z 5)) (F_dec 5 1)) else score in
  let score := if flt (F_of_Z 100) rtt then fsub score (fmul (fsub rtt (F_of_Z 100)) (F_dec 1 1)) else score in
  if flt score fzero then fzero else score.

Definition calculateAgentQuality {W : IntSize} `{FloatToInt} (rtt jitter loss : float) (isOnline : bool) : AgentQuality :=
  if negb isOnline then mkQuality fzero fzero fzero 0 "Offline" "offline"
  else
    let finalScore := int_of (fround (quality_score rtt jitter loss)) in
    let '(grade, status) :=
      if fle (F_of_Z 20) loss || (finalScore <? 40)%Z then ("F", "critical")
      else if fle (F_of_Z 5) loss || (finalScore <? 60)%Z then ("C", "degraded")
      else if fle (F_of_Z 15) jitter || (finalScore <? 75)%Z then ("B", "fair")
      else if (finalScore <? 90)%Z then ("A", "good")
      else ("A+", "excellent") in
    mkQuality (round2 rtt) (round2 jitter) (round2 loss) finalScore grade status.

Section Queries.
Context {W : IntSize} `{Sql} `{FloatToInt} `{GoSort}.

Definition getRecentAgentMetrics (now : Z) (agentID : string) (db : Db) : float * float * float :=
  let ms := List.filter (λ m, (pm_AgentID m =? agentID)%string && (now - 15 * minute <=? pm_Timestamp m)%Z) (db_metrics db) in
  (avg_or_zero (pm_AvgRTT <$> ms), avg_or_zero (pm_Jitter <$> ms), avg_or_zero (pm_LossPct <$> ms)).

(** ** public.go *)

Record Summary := mkSummary {
  sm_TotalAgents : Z; sm_OnlineAgents : Z; sm_TotalTargets : Z; sm_AvgRTT : float; sm_AvgLoss : float
}.
Definition getPublicSummary (now : Z) (db : Db) : Summary :=
  let ms := List.filter (λ m, now - hour <=? pm_Timestamp m)%Z (db_metrics db) in
  mkSummary (zlen (db_agents db)) (zlen (List.filter ag_IsOnline (db_agents db))) (zlen (List.filter tg_Enabled (db_targets db)))
    (avg_or_zero (pm_AvgRTT <$> ms)) (avg_or_zero (pm_LossPct <$> ms)).

Record AgentItem := mkAgentItem {
  ai_ID : string; ai_Name : string; ai_PublicIP : string; ai_OS : string; ai_Arch : string; ai_Version : string;
  ai_Tags : string; ai_IsOnline : bool; ai_LastSeenAt : Z; ai_Quality : AgentQuality
}.
Definition agent_order : Agent → Agent → comparison := cmp_then (cmp_on ag_IsOnline (desc cmp_bool)) (cmp_on ag_Name text_cmp).
Definition getPublicAgents (now : Z) (isAdmin : bool) (db : Db) : list AgentItem :=
  (λ a,
     let ip := if isAdmin then ag_PublicIP a else MaskIP (ag_PublicIP a) in
     let '(rtt, jitter, loss) := getRecentAgentMetrics now (ag_ID a) db in
     mkAgentItem (ag_ID a) (ag_Name a) ip (ag_OS a) (ag_Arch a) (ag_Version a) (ag_Tags a) (ag_IsOnline a) (ag_LastSeenAt a)
       (calculateAgentQuality rtt jitter loss (ag_IsOnline a))) <$> sort_slice (before agent_order) (db_agents db).

Record TargetItem := mkTargetItem {
  ti_ID : string; ti_Name : string; ti_Host : string; ti_PacketCount : Z; ti_IntervalSec : Z; ti_Tags : string
}.
Definition getPublicTargets (isAdmin : bool) (db : Db) : list TargetItem :=
  (λ t, mkTargetItem (tg_ID t) (tg_Name t) (if isAdmin then tg_Host t else MaskHost (tg_Host t))
          (tg_PacketCount t) (tg_IntervalSec t) (tg_Tags t))
  <$> sort_slice (before (cmp_on tg_Name text_cmp)) (List.filter tg_Enabled (db_targets db)).

(** ** public_metrics.go *)

Record MatrixCell := mkCell {
  mc_AgentID : string; mc_TargetID : string; mc_Timestamp : Z; mc_AvgRTT : float; mc_MinRTT : float; mc_MaxRTT : float;
  mc_Jitter : float; mc_LossPct : float; mc_Status : string
}.

Definition cell_status (m : PingMetric) : string :=
  if fle (F_of_Z 50) (pm_LossPct m) || fle (F_of_Z 300) (pm_AvgRTT m) then "critical"
  else if flt (F_of_Z 5) (pm_LossPct m) || flt (F_of_Z 30) (pm_Jitter m) || flt (F_of_Z 150) (pm_AvgRTT m) then "warning"
  else "healthy".

(** [SELECT DISTINCT ON (agent_id, target_id) ... ORDER BY agent_id, target_id,
    timestamp DESC]: the first row of every pair. *)
Definition pair_of (m : PingMetric) : string * string := (pm_AgentID m, pm_TargetID m).
Definition matrix_order : PingMetric → PingMetric → comparison :=
  cmp_then (cmp_on pm_AgentID text_cmp) (cmp_then (cmp_on pm_TargetID text_cmp) (cmp_on pm_Timestamp (desc Z.compare))).
Fixpoint distinct_on (seen : list (string * string)) (ms : list PingMetric) : list PingMetric :=
  match ms with
  | [] => []
  | m :: ms =>
      if bool_decide (pair_of m ∈ seen) then distinct_on seen ms else m :: distinct_on (pair_of m :: seen) ms
  end.

Definition getPublicMatrix (dberr : option string) (now : Z) (db : Db) : result (list MatrixCell) :=
  match dberr with
  | Some e => Err e
  | None =>
      let recent := List.filter (λ m, now - 10 * minute <=? pm_Timestamp m)%Z (db_metrics db) in
      Ok ((λ m, mkCell (pm_AgentID m) (pm_TargetID m) (pm_Timestamp m) (pm_AvgRTT m) (pm_MinRTT m) (pm_MaxRTT m)
                  (pm_Jitter m) (pm_LossPct m) (cell_status m)) <$> distinct_on [] (sort_slice (before matrix_order) recent))
  end.

Record MetricPoint := mkPoint {
  mp_Timestamp : Z; mp_AvgRTT : float; mp_MinRTT : float; mp_MaxRTT : float; mp_Jitter : float; mp_LossPct : float;
  mp_PacketsSent : Z; mp_PacketsRecv : Z; mp_ErrorMsg : string
}.

(** The query parameter [range]; absent is "1h". *)
Definition range_duration (timeRange : string) : Z :=
  if (timeRange =? "6h")%string then 6 * hour
  else if (timeRange =? "24h")%string then 24 * hour
  else if (timeRange =? "7d")%string then 7 * 24 * hour
  else hour.

Definition metric_matches (targetID agentID timeRange : string) (now : Z) (m : PingMetric) : bool :=
  (now - range_duration timeRange <=? pm_Timestamp m)%Z &&
  ((targetID =? "")%string || (pm_TargetID m =? targetID)%string) &&
  ((agentID =? "")%string || (pm_AgentID m =? agentID)%string).
Definition metrics_limit : nat := Z.to_nat 10000.

Definition metric_point (isAdmin : bool) (m : PingMetric) : MetricPoint :=
  mkPoint (pm_Timestamp m) (pm_AvgRTT m) (pm_MinRTT m) (pm_MaxRTT m) (pm_Jitter m) (pm_LossPct m) (pm_PacketsSent m) (pm_PacketsRecv m)
    (if isAdmin then pm_ErrorMsg m else if negb (pm_ErrorMsg m =? "")%string then "Ping failed" else "").
Definition getPublicMetrics (dberr : option string) (isAdmin : bool) (targetID agentID timeRange : string) (now : Z) (db : Db)
    : result (list MetricPoint) :=
  match dberr with
  | Some e => Err e
  | None =>
      Ok (metric_point isAdmin <$>
            take metrics_limit (sort_slice (before (cmp_on pm_Timestamp Z.compare))
                                  (List.filter (metric_matches targetID agentID timeRange now) (db_metrics db))))
  end.
End Queries.

(** ** public_traceroute.go *)

(** [fixMissingRoutePath]: the record, and the update it sends to the database. *)
Definition route_missing (rec : TracerouteRecord) : bool := (trc_RoutePath rec =? "")%string || (trc_RoutePath rec =? "Unknown")%string.
Definition as_missing (rec : TracerouteRecord) : bool := (trc_ASPath rec =? "")%string || (length (trc_ASNodes rec) =? 0)%nat.

Definition with_routes (path asPath : string) (nodes : list ASNode) (rec : TracerouteRecord) : TracerouteRecord :=
  mkTraceRecord (trc_ID rec) (trc_AgentID rec) (trc_TargetID rec) (trc_TargetHost rec) (trc_ResolvedIP rec) (trc_Timestamp rec)
    (trc_DurationMs rec) (trc_Reached rec) (trc_HopCount rec) path asPath nodes (trc_Hops rec).

Definition fixMissingRoutePath (rec : TracerouteRecord) : TracerouteRecord * bool :=
  match trc_Hops rec with
  | [] => (rec, false)
  | hops =>
      let hopMetas := hop_meta <$> hops in
      let path := if route_missing rec then ClassifyRoute hopMetas (trc_TargetHost rec) "" else trc_RoutePath rec in
      let '(asPath, nodes) := if as_missing rec then GenerateASPath hopMetas else (trc_ASPath rec, trc_ASNodes rec) in
      (with_routes path asPath nodes rec,
       (route_missing rec || as_missing rec) && negb (trc_ID rec =? "")%string)
  end.

(** The update of the row, whenever it is carried out. *)
Definition save_routes (rec : TracerouteRecord) (db : Db) : Db :=
  mkDb (db_agents db) (db_targets db) (db_metrics db)
    ((λ r, if (trc_ID r =? trc_ID rec)%string then with_routes (trc_RoutePath rec) (trc_ASPath rec) (trc_ASNodes rec) r else r) <$> db_traces db).

(** The record as it is answered, and the table once the update is carried out. *)
Definition repaired (rec : TracerouteRecord) (db : Db) : Db * TracerouteRecord :=
  let '(r, update) := fixMissingRoutePath rec in (if update then save_routes r db else db, r).

(** [a.Sub(b)] saturates. *)
Definition time_sub (a b : Z) : Z := Z.max (- 2 ^ 63) (Z.min (2 ^ 63 - 1) (a - b)).
Definition diffDuration (a b : Z) : Z := let d := time_sub a b in if (d <? 0)%Z then wrap64 (- d) else d.

(** GORM adds a condition to the statement it was called on, and the statement
    keeps it: whether a query derived earlier sees it. *)
Class GormChain := chain_keeps : bool.

(** [time.UnixMilli], in nanoseconds since Go's zero time. *)
Definition UnixMilli (ms : Z) : Z := (62135596800 * 1000000000 + ms * 1000000)%Z.

Inductive trace_response := TraceFound (rec : TracerouteRecord) | TraceError (code : Z) (msg : string).

Section Traces.
Context `{GoSort} `{Sql} `{GormChain}.
Variable rfc3339 : string → option Z.

Definition by_time_desc : TracerouteRecord → TracerouteRecord → comparison := cmp_on trc_Timestamp (desc Z.compare).
(** [First] adds the primary key to the order. *)
Definition newest_first : TracerouteRecord → TracerouteRecord → comparison := cmp_then by_time_desc (cmp_on trc_ID text_cmp).

Definition find_trace (id : string) (db : Db) : option TracerouteRecord := List.find (λ r, (trc_ID r =? id)%string) (db_traces db).
Definition found (rec : TracerouteRecord) (db : Db) : Db * trace_response :=
  let '(db, r) := repaired rec db in (db, TraceFound r).
Definition getPublicTracerouteByID (id : string) (db : Db) : Db * trace_response :=
  match find_trace id db with
  | Some rec => found rec db
  | None => (db, TraceError 404 "Traceroute record not found")
  end.

(** The instant asked for; 0 is Go's zero time. *)
Definition target_time (timeStr : string) : Z :=
  match Atoi (W := int64_size) timeStr with
  | (ms, None) => UnixMilli ms
  | (_, Some _) => default 0%Z (rfc3339 timeStr)
  end.

Fixpoint closest (t : Z) (best : TracerouteRecord) (minDiff : Z) (rs : list TracerouteRecord) : TracerouteRecord :=
  match rs with
  | [] => best
  | r :: rs =>
      let diff := diffDuration (trc_Timestamp r) t in
      if (diff <? minDiff)%Z then closest t r diff rs else closest t best minDiff rs
  end.

Definition in_window (t : Z) (r : TracerouteRecord) : bool :=
  (t - 15 * minute <=? trc_Timestamp r)%Z && (trc_Timestamp r <=? t + 15 * minute)%Z.
Definition trace_matches (agentID targetID : string) (r : TracerouteRecord) : bool :=
  (trc_AgentID r =? agentID)%string && ((targetID =? "")%string || (trc_TargetID r =? targetID)%string).

(** The records looked through for the instant [t]. *)
Definition windowed (agentID targetID : string) (t : Z) (db : Db) : list TracerouteRecord :=
  take 5 (sort_slice (before by_time_desc) (List.filter (λ r, trace_matches agentID targetID r && in_window t r) (db_traces db))).

(** The latest record under a condition. *)
Definition latest (cond : TracerouteRecord → bool) (db : Db) : Db * trace_response :=
  match sort_slice (before newest_first) (List.filter cond (db_traces db)) with
  | r :: _ => found r db
  | [] => (db, TraceError 404 "No traceroute telemetry available")
  end.

Definition getPublicTraceroute (id agentID targetID timeStr : string) (db : Db) : Db * trace_response :=
  if negb (id =? "")%string then getPublicTracerouteByID id db
  else if (agentID =? "")%string then (db, TraceError 400 "agent_id is required")
  else
    let query := trace_matches agentID targetID in
    let t := if (timeStr =? "")%string then 0%Z else target_time timeStr in
    if (t =? 0)%Z then latest query db
    else
      match windowed agentID targetID t db with
      | r :: rs => found (closest t r (diffDuration (trc_Timestamp r) t) rs) db
      | [] => latest (if chain_keeps then (λ r, query r && in_window t r) else query) db
      end.

(** The fields of a summary are those of the repaired record; the hops are left out. *)
Definition trace_summary (r : TracerouteRecord) : TracerouteRecord :=
  mkTraceRecord (trc_ID r) (trc_AgentID r) (trc_TargetID r) (trc_TargetHost r) (trc_ResolvedIP r) (trc_Timestamp r)
    (trc_DurationMs r) (trc_Reached r) (trc_HopCount r) (trc_RoutePath r) (trc_ASPath r) (trc_ASNodes r) [].
Definition getPublicTraceroutes (dberr : option string) (agentID targetID : string) (db : Db) : Db * result (list TracerouteRecord) :=
  match dberr with
  | Some e => (db, Err e)
  | None =>
      let records := take 50 (sort_slice (before by_time_desc)
        (List.filter (λ r, ((agentID =? "")%string || (trc_AgentID r =? agentID)%string) &&
                           ((targetID =? "")%string || (trc_TargetID r =? targetID)%string)) (db_traces db))) in
      (foldl (λ db r, fst (repaired r db)) db records,
       Ok ((λ r, trace_summary (fst (fixMissingRoutePath r))) <$> records))
  end.

(** [AutoBackfillHistoricalTraceroutes], once its updates are carried out; a NULL
    column reads as the empty text. *)
Definition AutoBackfillHistoricalTraceroutes (dberr : bool) (db : Db) : Db :=
  if dberr then db
  else
    foldl (λ db r, fst (repaired r db)) db
      (take 500 (List.filter (λ r, (trc_RoutePath r =? "")%string || (trc_ASPath r =? "")%string) (db_traces db))).
End Traces.

(** ** Lemmas *)

Lemma quality_score_bounds rtt jitter loss :
  valid_binary f_prec f_emax rtt = true → valid_binary f_prec f_emax jitter = true → nonneg loss →
  at_most 100 (quality_score rtt jitter loss) ∧ nonneg (quality_score rtt jitter loss).
Proof.
  intros Hr Hj Hl. unfold quality_score.
  set (s0 := fsub _ (fmul loss _)).
  assert (H0 : at_most 100 s0).
  { subst s0. apply fsub_at_most; [done|by vm_compute|]. by apply (fmul_nonneg loss). }
  set (s1 := if flt (F_of_Z 5) jitter then _ else _).
  assert (H1 : at_most 100 s1).
  { subst s1. destruct (flt (F_of_Z 5) jitter) eqn:E; [|done]. apply fsub_at_most; [done|done|].
    apply (fmul_nonneg (fsub jitter (F_of_Z 5))). by apply (fsub_gt_nonneg _ _ jitter). }
  set (s2 := if flt (F_of_Z 100) rtt then _ else _).
  assert (H2 : at_most 100 s2).
  { subst s2. destruct (flt (F_of_Z 100) rtt) eqn:E; [|done]. apply fsub_at_most; [done|done|].
    apply (fmul_nonneg (fsub rtt (F_of_Z 100))). by apply (fsub_gt_nonneg _ _ rtt). }
  destruct (flt s2 fzero) eqn:E; [done|]. split; [done|]. by destruct s2 as [|[]| |[] ? ?].
Qed.

Lemma distinct_on_spec ms : ∀ seen,
  (∀ m, m ∈ distinct_on seen ms → m ∈ ms ∧ pair_of m ∉ seen) ∧
  NoDup (pair_of <$> distinct_on seen ms) ∧
  (∀ m, m ∈ ms → pair_of m ∈ seen ∨ pair_of m ∈ pair_of <$> distinct_on seen ms).
Proof.
  induction ms as [|x ms IH]; intros seen; cbn [distinct_on].
  - split_and!; [by intros m ?%not_elem_of_nil|constructor|by intros m ?%not_elem_of_nil].
  - case_bool_decide as Hs.
    + destruct (IH seen) as (H1 & H2 & H3). split_and!; [|done|].
      * intros m [? ?]%H1. split; [by right|done].
      * intros m [->|?]%elem_of_cons; [by left|auto].
    + destruct (IH (pair_of x :: seen)) as (H1 & H2 & H3). split_and!.
      * intros m [->|[? Hno]%H1]%elem_of_cons; [split; [by left|done]|]. split; [by right|]. intros ?. apply Hno. by right.
      * cbn. constructor; [|done]. intros (m & E & [_ Hno]%H1)%list_elem_of_fmap. apply Hno. rewrite E. by left.
      * intros m [->|Hm]%elem_of_cons; [right; by left|]. destruct (H3 m Hm) as [[->|?]%elem_of_cons|?]; [right; by left|by left|right; by right].
Qed.

(** Among rows in an order that puts the greater key of a pair first, each pair
    keeps its greatest. *)
Lemma distinct_on_first (R : PingMetric → PingMetric → Prop) ms : ∀ seen,
  StronglySorted R ms → ∀ m x, m ∈ distinct_on seen ms → x ∈ ms → pair_of x = pair_of m → x = m ∨ R m x.
Proof.
  induction ms as [|y ms IH]; intros seen Hs m x; cbn [distinct_on]; [by intros ?%not_elem_of_nil|].
  apply StronglySorted_inv in Hs as [Hs Hall]. rewrite Forall_forall in Hall. case_bool_decide as Hin.
  - intros Hm [->|Hx]%elem_of_cons Ep; [|by eapply IH]. exfalso.
    apply (distinct_on_spec ms seen) in Hm as [_ Hno]. congruence.
  - intros [->|Hm]%elem_of_cons [->|Hx]%elem_of_cons Ep; [by left|right; by apply Hall| |by eapply IH].
    exfalso. apply (distinct_on_spec ms (pair_of y :: seen)) in Hm as [_ Hno]. apply Hno. rewrite <- Ep. by left.
Qed.

Lemma desc_total {A} (c : A → A → comparison) : TotalCmp c → TotalCmp (desc c).
Proof.
  intros Hc. split; unfold desc.
  - apply cmp_refl.
  - intros. apply cmp_opp.
  - intros k x y z H1 H2. by eapply (cmp_trans k z y x).
Qed.
#[export] Instance cmp_bool_total : TotalCmp cmp_bool.
Proof. exact (cmp_on_total Z.b2z Z.compare _). Qed.
#[export] Instance desc_Z_total : TotalCmp (desc Z.compare) := desc_total _ _.
#[export] Instance desc_bool_total : TotalCmp (desc cmp_bool) := desc_total _ _.
#[export] Instance agent_order_total `{Sql} : TotalCmp agent_order.
Proof. unfold agent_order. apply _. Qed.
#[export] Instance matrix_order_total `{Sql} : TotalCmp matrix_order.
Proof. unfold matrix_order. apply _. Qed.
#[export] Instance by_time_desc_total : TotalCmp by_time_desc.
Proof. unfold by_time_desc. apply _. Qed.
#[export] Instance before_weak {A} (c : A → A → comparison) : TotalCmp c → WeakOrder (before c).
Proof.
  intros Hc. unfold before. split.
  - intros x y. rewrite (cmp_opp x y). by destruct (c x y).
  - intros x y z H1 H2. rewrite (cmp_opp x z).
    assert (c x y ≠ Gt) by (rewrite (cmp_opp x y) in H1; by destruct (c x y)).
    assert (c y z ≠ Gt) by (rewrite (cmp_opp y z) in H2; by destruct (c y z)).
    assert (c x z ≠ Gt) by (by eapply cmp_not_gt_trans). by destruct (c x z).
Qed.

(** What a query in an order [c] returns is sorted by it. *)
Lemma ordered `{GoSort} {A} (c : A → A → comparison) `{!TotalCmp c} l :
  StronglySorted (λ x y, c x y ≠ Gt) (sort_slice (before c) l).
Proof.
  eapply StronglySorted_weaken; [|apply (sort_slice_sorted (before c) l), _]. intros x y. unfold before. cbn.
  rewrite (cmp_opp x y). by destruct (c x y).
Qed.

Lemma elem_of_sort `{GoSort} {A} less (l : list A) x : x ∈ sort_slice less l ↔ x ∈ l.
Proof. by rewrite sort_slice_perm. Qed.

Lemma elem_of_bfilter {A} (f : A → bool) l x : x ∈ List.filter f l ↔ x ∈ l ∧ f x = true.
Proof. rewrite !list_elem_of_In. apply filter_In. Qed.

(** The head of a sorted list is not after any other. *)
Lemma sorted_take_drop {A} (R : A → A → Prop) n l x y :
  StronglySorted R l → x ∈ take n l → y ∈ drop n l → R x y.
Proof. rewrite <- (take_drop n l) at 1. intros (H & _ & _)%StronglySorted_app. auto. Qed.

(** The walk through the candidates keeps the smallest difference. *)
Lemma closest_spec t rs : ∀ best,
  let c := closest t best (diffDuration (trc_Timestamp best) t) rs in
  c ∈ best :: rs ∧ ∀ r, r ∈ best :: rs → (diffDuration (trc_Timestamp c) t <= diffDuration (trc_Timestamp r) t)%Z.
Proof.
  induction rs as [|r rs IH]; intros best; cbn [closest].
  - split; [by left|]. intros r [->|?%not_elem_of_nil]%elem_of_cons; [lia|done].
  - cbv zeta in *. destruct (Z.ltb_spec (diffDuration (trc_Timestamp r) t) (diffDuration (trc_Timestamp best) t)) as [Hlt|Hge].
    + destruct (IH r) as [H1 H2]. split; [by right|]. intros x [->|Hx]%elem_of_cons; [|by apply H2].
      etrans; [apply H2; by left|lia].
    + destruct (IH best) as [H1 H2]. split; [apply elem_of_cons in H1 as [->|?]; [by left|right; by right]|].
      intros x [->|[->|Hx]%elem_of_cons]%elem_of_cons; [apply H2; by left| |apply H2; by right].
      etrans; [apply H2; by left|done].
Qed.

Lemma diffDuration_window t r : in_window t r = true → diffDuration (trc_Timestamp r) t = Z.abs (trc_Timestamp r - t).
Proof.
  unfold in_window, diffDuration, time_sub, minute. intros [?%Z.leb_le ?%Z.leb_le]%andb_true_iff.
  rewrite (Z.min_r (2 ^ 63 - 1)), Z.max_r by lia. destruct (Z.ltb_spec (trc_Timestamp r - t) 0); [|lia].
  unfold wrap64. rewrite Z.mod_small by lia. lia.
Qed.

(** ** The repair of a record *)

(** A name the classification may give a route it looked at. *)
Definition real_name (n : string) : bool := negb (n =? "")%string && negb (n =? "Unknown")%string.

Lemma transit_name_real l : from_option real_name true (transit_name l) = true.
Proof.
  induction l as [|[ip asn] l IH]; [done|]. cbn [transit_name]. unfold assoc. destruct (List.find _ transits) as [[k n]|] eqn:E; [|done].
  cbn. apply List.find_some in E as [Hin _]. repeat (destruct Hin as [[= <- <-]|Hin]; [done|]). done.
Qed.

Lemma education_name_real l : from_option real_name true (education_name l) = true.
Proof. induction l as [|[ip asn] l IH]; [done|]. cbn [education_name]. by repeat case_match. Qed.

Lemma ClassifyRoute_real hops th ti : hops ≠ [] → real_name (ClassifyRoute hops th ti) = true.
Proof.
  intros Hne. unfold ClassifyRoute. destruct hops as [|h hops]; [done|]. clear Hne. destruct (visible _) as [|v l]; [done|].
  generalize (v :: l). clear. intros l.
  assert (H1 : from_option real_name true (telecom_name l) = true) by (unfold telecom_name; by repeat case_match).
  assert (H2 : from_option real_name true (unicom_name l) = true) by (unfold unicom_name; by repeat case_match).
  assert (H3 : from_option real_name true (mobile_name l) = true) by (unfold mobile_name; by repeat case_match).
  pose proof (education_name_real l) as H4.
  pose proof (transit_name_real l) as H5.
  destruct (telecom_name l); [done|]. destruct (unicom_name l); [done|]. destruct (mobile_name l); [done|].
  destruct (education_name l); [done|]. by destruct (transit_name l).
Qed.

Lemma as_nodes_head hops n nodes : ∀ last, as_nodes hops last = n :: nodes → ∃ asn, an_ASN n = "AS" +:+ asn.
Proof.
  induction hops as [|h hops IH]; intros last; cbn [as_nodes]; [done|].
  repeat case_match; try apply IH; try done. intros [= <- _]. cbn. eauto.
Qed.

Lemma GenerateASPath_empty hops : fst (GenerateASPath hops) = "" ↔ snd (GenerateASPath hops) = [].
Proof.
  unfold GenerateASPath. destruct (as_nodes hops "") as [|n nodes] eqn:E; [done|]. cbn [fst snd]. split; [|done]. intros Ej. exfalso.
  assert (Hn : node_text n ≠ "").
  { assert (Ha : ∃ asn, an_ASN n = "AS" +:+ asn).
    { by eapply as_nodes_head. }
    destruct Ha as [asn Ha]. unfold node_text. rewrite Ha. by destruct (negb _). }
  rewrite fmap_cons in Ej. destruct (node_text <$> nodes); [done|]. rewrite Join_cons in Ej. by destruct (node_text n).
Qed.

Lemma fix_idle rec : (trc_Hops rec = [] ∨ (route_missing rec = false ∧ as_missing rec = false)) → fixMissingRoutePath rec = (rec, false).
Proof.
  unfold fixMissingRoutePath. intros [->|[-> ->]]; [done|]. destruct (trc_Hops rec) as [|h hs] eqn:E; [done|]. cbn [orb andb].
  unfold with_routes. by destruct rec.
Qed.

(** ** Repairing a route *)

Lemma route_missing_real path asPath nodes rec : real_name path = true → route_missing (with_routes path asPath nodes rec) = false.
Proof. unfold real_name, route_missing. cbn. by destruct (path =? "")%string, (path =? "Unknown")%string. Qed.

(** A record that has what the repair would compute. *)
Lemma fix_done r :
  trc_RoutePath r = ClassifyRoute (hop_meta <$> trc_Hops r) (trc_TargetHost r) "" ∨ route_missing r = false →
  (trc_ASPath r, trc_ASNodes r) = GenerateASPath (hop_meta <$> trc_Hops r) ∨ as_missing r = false →
  fst (fixMissingRoutePath r) = r.
Proof.
  intros Hr Ha. unfold fixMissingRoutePath. destruct (trc_Hops r) as [|h hs] eqn:Eh; [done|]. rewrite <- Eh in *.
  assert (E1 : (if route_missing r then ClassifyRoute (hop_meta <$> trc_Hops r) (trc_TargetHost r) "" else trc_RoutePath r) = trc_RoutePath r).
  { destruct (route_missing r) eqn:E; [|done]. by destruct Hr as [->|?]. }
  assert (E2 : (if as_missing r then GenerateASPath (hop_meta <$> trc_Hops r) else (trc_ASPath r, trc_ASNodes r)) = (trc_ASPath r, trc_ASNodes r)).
  { destruct (as_missing r) eqn:E; [|done]. by destruct Ha as [->|?]. }
  rewrite E1, E2. cbn [fst]. unfold with_routes. by destruct r.
Qed.

(** The repaired record. *)
Lemma fix_shape rec : trc_Hops rec ≠ [] →
  ∃ path asPath nodes, fst (fixMissingRoutePath rec) = with_routes path asPath nodes rec ∧
    path = (if route_missing rec then ClassifyRoute (hop_meta <$> trc_Hops rec) (trc_TargetHost rec) "" else trc_RoutePath rec) ∧
    (asPath, nodes) = (if as_missing rec then GenerateASPath (hop_meta <$> trc_Hops rec) else (trc_ASPath rec, trc_ASNodes rec)).
Proof.
  intros Hne. unfold fixMissingRoutePath. destruct (trc_Hops rec) as [|h hs] eqn:Eh; [done|].
  destruct (if as_missing rec then _ else _) as [asPath nodes]. by eexists _, _, _.
Qed.

Lemma route_missing_fixed rec : trc_Hops rec ≠ [] → route_missing (fst (fixMissingRoutePath rec)) = false.
Proof.
  intros Hne. destruct (fix_shape rec Hne) as (path & asPath & nodes & -> & -> & _). destruct (route_missing rec) eqn:E; [|exact E].
  apply route_missing_real, ClassifyRoute_real. by destruct (trc_Hops rec).
Qed.

Lemma fix_twice rec : fst (fixMissingRoutePath (fst (fixMissingRoutePath rec))) = fst (fixMissingRoutePath rec).
Proof.
  destruct (decide (trc_Hops rec = [])) as [Hn|Hne]; [by rewrite (fix_idle rec), fix_idle by auto|].
  apply fix_done; [right; by apply route_missing_fixed|].
  destruct (fix_shape rec Hne) as (path & asPath & nodes & -> & _ & E). cbn. destruct (as_missing rec) eqn:Em; [by left|].
  right. injection E as -> ->. exact Em.
Qed.

(** What a probe's report adds is what the columns hold of a complete record. *)
Lemma stored_complete `{Columns} `{Http} uuid agentID now fl report cache db r :
  r ∈ db_traces (fst (persistTracerouteReport uuid agentID now fl report cache db)) →
  r ∈ db_traces db ∨ ∃ row, stored_trace row = Some r ∧ fst (fixMissingRoutePath row) = row.
Proof.
  unfold persistTracerouteReport. destruct (_ && _); [by left|]. destruct (enrich_hops _ _) as [hops cache'].
  destruct (GenerateASPath (hop_meta <$> hops)) as [asPath nodes] eqn:Eg. set (row := mkTraceRecord _ _ _ _ _ _ _ _ _ _ _ _ _).
  cbn [fst]. match goal with |- context [set_online fl agentID now ?d] => destruct (set_online_same fl agentID now d) as (_ & _ & ->) end.
  destruct (stored_trace row) as [r'|] eqn:Es; [|by left]. destruct (f_insert fl); [by left|]. cbn. intros [?|Hr]%elem_of_app; [by left|].
  apply list_elem_of_singleton in Hr as ->. right. exists row. split; [exact Es|]. apply fix_done; left; [done|]. cbn. by rewrite Eg.
Qed.

(** ** Properties *)

(** C26. The quality of a probe: for averages that are float64 values and a loss that is
    not negative, the score is between 0 and 100, whatever the round trip and the
    jitter; the grade says A+ exactly for a score from 90 with less than 5% loss
    and 15 ms of jitter, F exactly below 40 or from 20% loss on; grade and status
    are one of six pairs, and an offline probe has none. *)
Theorem quality_bounds {W : IntSize} `{FloatToInt} rtt jitter loss online :
  (8 <= int_size)%Z →
  valid_binary f_prec f_emax rtt = true → valid_binary f_prec f_emax jitter = true → nonneg loss →
  let q := calculateAgentQuality rtt jitter loss online in
  (0 <= q_Score q <= 100)%Z ∧
  (q_Grade q, q_Status q) ∈ [("Offline", "offline"); ("F", "critical"); ("C", "degraded"); ("B", "fair"); ("A", "good"); ("A+", "excellent")] ∧
  (q_Grade q = "Offline" ↔ online = false) ∧
  (online = true →
     (q_Grade q = "A+" ↔ (90 <= q_Score q)%Z ∧ fle (F_of_Z 20) loss = false ∧ fle (F_of_Z 5) loss = false ∧ fle (F_of_Z 15) jitter = false) ∧
     (q_Grade q = "F" ↔ (q_Score q < 40)%Z ∨ fle (F_of_Z 20) loss = true)).
Proof.
  intros HW Hr Hj Hl. unfold calculateAgentQuality. destruct online; cbn [negb].
  2: { cbn. split_and!; try done; try lia. by left. }
  destruct (quality_score_bounds rtt jitter loss Hr Hj Hl) as [Hm Hn].
  destruct (fround_bound 100 _ ltac:(lia) Hm Hn) as (Hs & Hi & Hna). unfold int_of. rewrite Hi, Hna. cbn [orb].
  set (z := F_trunc _) in *. assert (2 ^ 7 <= 2 ^ (int_size - 1))%Z by (apply Z.pow_le_mono_r; lia).
  rewrite (proj2 (Z.leb_le int_min z)), (proj2 (Z.leb_le z int_max)) by (unfold int_min, int_max; lia). cbn [andb].
  destruct (fle (F_of_Z 20) loss) eqn:E1, (Z.ltb_spec z 40); cbn [orb];
    [..|destruct (fle (F_of_Z 5) loss) eqn:E2, (Z.ltb_spec z 60); cbn [orb]; [..|
       destruct (fle (F_of_Z 15) jitter) eqn:E3, (Z.ltb_spec z 75); cbn [orb]; [..|destruct (Z.ltb_spec z 90)]]]; cbn;
    (split_and!; [lia|lia|repeat (first [by left|right])|done|intros _; split; split;
      [intros Hq; first [discriminate Hq|split_and!; first [done|lia]]|intros (? & ? & ? & ?); first [reflexivity|discriminate|lia]|
       intros Hq; first [discriminate Hq|by right|left; lia]|intros [?|?]; first [reflexivity|discriminate|lia]]]).
Qed.

(** What an anonymous visitor is shown: of every probe the address with all but its
    first two groups masked, of every enabled target the host masked, no disabled
    target, and of a failed measurement only that it failed; two IPv4 addresses that
    agree on their first two bytes are shown alike. An administrator is shown the
    same rows in full. *)
Theorem visitors_masked {W : IntSize} `{Sql} `{FloatToInt} `{GoSort} now db :
  (∀ i, i ∈ getPublicAgents now false db → ∃ a, a ∈ db_agents db ∧ ai_ID i = ag_ID a ∧ ai_PublicIP i = MaskIP (ag_PublicIP a)) ∧
  (∀ i, i ∈ getPublicTargets false db → ∃ t, t ∈ db_targets db ∧ tg_Enabled t = true ∧ ti_ID i = tg_ID t ∧ ti_Host i = MaskHost (tg_Host t)) ∧
  (∀ target agent range p ps, getPublicMetrics None false target agent range now db = Ok ps → p ∈ ps →
     mp_ErrorMsg p = "" ∨ mp_ErrorMsg p = "Ping failed") ∧
  (∀ a b c d c' d', is_octet a → is_octet b → is_octet c → is_octet d → is_octet c' → is_octet d' →
     MaskIP (v4_string [a; b; c; d]) = MaskIP (v4_string [a; b; c'; d'])) ∧
  ai_ID <$> getPublicAgents now true db = ai_ID <$> getPublicAgents now false db ∧
  (ti_Host <$> getPublicTargets true db) = tg_Host <$> sort_slice (before (cmp_on tg_Name text_cmp)) (List.filter tg_Enabled (db_targets db)).
Proof.
  split_and!.
  - intros i (a & -> & Ha)%list_elem_of_fmap. apply elem_of_sort in Ha. exists a.
    destruct (getRecentAgentMetrics now (ag_ID a) db) as [[rtt jitter] loss]. done.
  - intros i (t & -> & Ht)%list_elem_of_fmap. apply elem_of_sort, elem_of_bfilter in Ht as [Ht He]. by exists t.
  - intros target agent range p ps [= <-] (m & -> & _)%list_elem_of_fmap. cbn. destruct (negb _); auto.
  - intros. by rewrite !MaskIP_v4.
  - unfold getPublicAgents. rewrite <- !list_fmap_compose. apply list_fmap_ext. intros _ a _. cbn.
    by destruct (getRecentAgentMetrics now (ag_ID a) db) as [[rtt jitter] loss].
  - unfold getPublicTargets. by rewrite <- list_fmap_compose.
Qed.

(** The matrix: exactly one cell for every probe and target with a measurement in
    the last ten minutes, it is the newest of the pair, and its status is the one of
    that measurement. *)
Theorem matrix_cells {W : IntSize} `{Sql} `{GoSort} now db cells :
  getPublicMatrix None now db = Ok cells →
  let recent := List.filter (λ m, now - 10 * minute <=? pm_Timestamp m)%Z (db_metrics db) in
  NoDup ((λ c, (mc_AgentID c, mc_TargetID c)) <$> cells) ∧
  (∀ m, m ∈ recent → ∃ c, c ∈ cells ∧ (mc_AgentID c, mc_TargetID c) = pair_of m ∧ (pm_Timestamp m <= mc_Timestamp c)%Z) ∧
  (∀ c, c ∈ cells → ∃ m, m ∈ recent ∧ pair_of m = (mc_AgentID c, mc_TargetID c) ∧ mc_Timestamp c = pm_Timestamp m ∧ mc_Status c = cell_status m).
Proof.
  intros [= <-] recent. fold recent. set (ms := distinct_on [] _).
  destruct (distinct_on_spec (sort_slice (before matrix_order) recent) []) as (H1 & H2 & H3). fold ms in H1, H2, H3. split_and!.
  - rewrite <- list_fmap_compose. exact H2.
  - intros m Hm. assert (Hs : m ∈ sort_slice (before matrix_order) recent) by by apply elem_of_sort.
    destruct (H3 m Hs) as [?%not_elem_of_nil|(x & Ex & Hx)%list_elem_of_fmap]; [done|].
    eexists. split; [apply list_elem_of_fmap; by exists x|]. split; [done|]. cbn.
    destruct (distinct_on_first (λ a b, matrix_order a b ≠ Gt) _ [] (ordered matrix_order recent) x m Hx Hs Ex) as [->|HR]; [done|].
    unfold pair_of in Ex. injection Ex as Ea Et. unfold matrix_order, cmp_then, cmp_on in HR. rewrite Ea, Et, !cmp_refl in HR.
    unfold desc in HR. destruct (Z.compare_spec (pm_Timestamp m) (pm_Timestamp x)); try done; lia.
  - intros c (m & -> & [Hm _]%H1)%list_elem_of_fmap. exists m. apply elem_of_sort in Hm. done.
Qed.

(** A series: the measurements of the range, probe and target asked for, oldest
    first, at most 10000 of them - the oldest: what is left out is never older
    than what is shown. *)
Theorem metric_points {W : IntSize} `{Sql} `{GoSort} isAdmin target agent range now db ps :
  getPublicMetrics None isAdmin target agent range now db = Ok ps →
  let matching := List.filter (metric_matches target agent range now) (db_metrics db) in
  ∃ shown left_out, ps = metric_point isAdmin <$> shown ∧ matching ≡ₚ shown ++ left_out ∧
    length shown = Nat.min metrics_limit (length matching) ∧
    StronglySorted (λ a b, pm_Timestamp a <= pm_Timestamp b)%Z shown ∧
    ∀ a b, a ∈ shown → b ∈ left_out → (pm_Timestamp a <= pm_Timestamp b)%Z.
Proof.
  intros [= <-] matching. fold matching. set (l := sort_slice _ matching).
  assert (Hp : l ≡ₚ matching) by apply sort_slice_perm.
  assert (Hs : StronglySorted (λ a b, pm_Timestamp a <= pm_Timestamp b)%Z l).
  { eapply StronglySorted_weaken; [|apply (ordered (cmp_on pm_Timestamp Z.compare))]. intros x y. unfold cmp_on. cbn.
    destruct (Z.compare_spec (pm_Timestamp x) (pm_Timestamp y)); try done; lia. }
  exists (take metrics_limit l), (drop metrics_limit l). split_and!; [done| | | |].
  - by rewrite take_drop.
  - by rewrite length_take, Hp.
  - rewrite <- (take_drop metrics_limit l) in Hs. by apply StronglySorted_app in Hs as (_ & ? & _).
  - intros a b. by apply (sorted_take_drop _ metrics_limit l a b Hs).
Qed.

(** The trace of an instant. With records of the probe within a quarter of an hour
    of it, the answer is one of the five newest of them, the closest of these, with
    its route filled in: the closest of all when there are at most five. With none,
    the latest of the probe is the answer only if the condition on the time was not
    kept; as GORM keeps it, there is no answer. *)
Theorem trace_of_instant `{GoSort} `{Sql} `{GormChain} rfc3339 agent target time db :
  agent ≠ "" → time ≠ "" → target_time rfc3339 time ≠ 0%Z →
  let t := target_time rfc3339 time in
  let matching := List.filter (λ r, trace_matches agent target r && in_window t r) (db_traces db) in
  let dist (r : TracerouteRecord) := Z.abs (trc_Timestamp r - t) in
  if bool_decide (matching = []) then
    getPublicTraceroute rfc3339 "" agent target time db
      = if chain_keeps then (db, TraceError 404 "No traceroute telemetry available") else latest (trace_matches agent target) db
  else
    ∃ r newest older, matching ≡ₚ newest ++ older ∧ length newest = Nat.min 5 (length matching) ∧
      (∀ a b, a ∈ newest → b ∈ older → (trc_Timestamp b <= trc_Timestamp a)%Z) ∧
      r ∈ newest ∧ (∀ x, x ∈ newest → (dist r <= dist x)%Z) ∧
      getPublicTraceroute rfc3339 "" agent target time db = found r db.
Proof.
  intros Ha Ht Hz t matching dist. unfold getPublicTraceroute. cbn [String.eqb negb].
  rewrite (proj2 (String.eqb_neq _ _) Ha), (proj2 (String.eqb_neq _ _) Ht). fold t. change (target_time rfc3339 time) with t in Hz.
  rewrite (proj2 (Z.eqb_neq _ _) Hz). cbv zeta.
  unfold windowed. fold matching. set (l := sort_slice (before by_time_desc) matching).
  assert (Hp : l ≡ₚ matching) by apply sort_slice_perm. case_bool_decide as Hm.
  - assert (El : l = []) by (apply Permutation_nil_r; by rewrite Hp, Hm). rewrite El. cbn [take].
    destruct chain_keeps; [|done]. unfold latest. fold matching. rewrite Hm.
    assert (En : sort_slice (before newest_first) [] = []) by (apply Permutation_nil_r, sort_slice_perm). by rewrite En.
  - assert (Hs : StronglySorted (λ a b, trc_Timestamp b <= trc_Timestamp a)%Z l).
    { eapply StronglySorted_weaken; [|apply (ordered by_time_desc)]. intros x y. unfold by_time_desc, cmp_on, desc. cbn.
      destruct (Z.compare_spec (trc_Timestamp y) (trc_Timestamp x)); try done; lia. }
    destruct (take 5 l) as [|r rs] eqn:E5.
    { exfalso. apply Hm. apply Permutation_nil_r. rewrite <- Hp. by destruct l. }
    pose proof (closest_spec t rs r) as [Hin Hmin]. set (c := closest t r _ rs) in *. exists c, (r :: rs), (drop 5 l).
    assert (Hw : ∀ x, x ∈ r :: rs → in_window t x = true).
    { intros x Hx. rewrite <- E5 in Hx. assert (Hx' : x ∈ l) by (rewrite <- (take_drop 5 l); apply elem_of_app; by left).
      rewrite Hp in Hx'. apply elem_of_bfilter in Hx' as [_ Hx']. cbv beta in Hx'. by apply andb_prop in Hx' as [_ ?]. }
    split_and!; [| | |done| |done].
    + by rewrite <- E5, take_drop.
    + by rewrite <- E5, length_take, Hp.
    + intros a b Hx Hy. rewrite <- E5 in Hx. by apply (sorted_take_drop _ 5 l a b Hs).
    + intros x Hx. unfold dist. rewrite <- !diffDuration_window by auto. by apply Hmin.
Qed.

(** Filling in a route: it is done at most once to any effect, it leaves every other
    column and whatever was already there, the names it writes are never the ones
    it looks for, and a record that a probe's report makes does not need it when its
    columns are given it. *)
Theorem route_repair `{Columns} `{Http} uuid agentID now fl report cache db rec :
  let rec' := fst (fixMissingRoutePath rec) in
  fst (fixMissingRoutePath rec') = rec' ∧
  (trc_Hops rec ≠ [] → route_missing rec' = false) ∧
  (route_missing rec = false → trc_RoutePath rec' = trc_RoutePath rec) ∧
  (as_missing rec = false → trc_ASPath rec' = trc_ASPath rec ∧ trc_ASNodes rec' = trc_ASNodes rec) ∧
  with_routes "" "" [] rec' = with_routes "" "" [] rec ∧
  (∀ r, r ∈ db_traces (fst (persistTracerouteReport uuid agentID now fl report cache db)) →
     r ∈ db_traces db ∨ ∃ row, stored_trace row = Some r ∧ fst (fixMissingRoutePath row) = row).
Proof.
  intros rec'. split_and!; [apply fix_twice|apply route_missing_fixed| | | |apply stored_complete].
  - intros Hr. subst rec'. destruct (decide (trc_Hops rec = [])) as [Hn|Hne]; [by rewrite fix_idle by auto|].
    destruct (fix_shape rec Hne) as (path & asPath & nodes & -> & -> & _). by rewrite Hr.
  - intros Ha. subst rec'. destruct (decide (trc_Hops rec = [])) as [Hn|Hne]; [by rewrite fix_idle by auto|].
    destruct (fix_shape rec Hne) as (path & asPath & nodes & -> & _ & E). rewrite Ha in E. by injection E as -> ->.
  - subst rec'. destruct (decide (trc_Hops rec = [])) as [Hn|Hne]; [by rewrite fix_idle by auto|].
    by destruct (fix_shape rec Hne) as (path & asPath & nodes & -> & _).
Qed.

(** ** Witnesses *)

(** Averages are the first value; texts are ordered by their bytes. *)
Definition first_avg : Sql := {| sql_avg l := default fzero (head l); text_cmp := str_cmp; text_cmp_eq := str_cmp_eq |}.
Definition min_int : FloatToInt := λ _, (- 2 ^ 63)%Z.

Lemma quality_bounds_witness :
  let _ := int64_size in let _ := min_int in
  (0 <= q_Score (calculateAgentQuality (F_of_Z 180) (F_of_Z 9) (F_of_Z 2) true) <= 100)%Z ∧
  q_Score (calculateAgentQuality (F_of_Z 180) (F_of_Z 9) (F_of_Z 2) true) = 84%Z.
Proof.
  intros W M. split; [|vm_compute; reflexivity].
  assert (H8 : (8 <= int_size)%Z) by (vm_compute; discriminate).
  assert (Hr : valid_binary f_prec f_emax (F_of_Z 180) = true) by (vm_compute; reflexivity).
  assert (Hj : valid_binary f_prec f_emax (F_of_Z 9) = true) by (vm_compute; reflexivity).
  assert (Hl : nonneg (F_of_Z 2)) by (vm_compute; exact I).
  exact (proj1 (quality_bounds (W := W) (H := M) _ _ _ true H8 Hr Hj Hl)).
Defined.

(** A loss the probe made up takes the score past its bound. *)
Example quality_overflow :
  let _ := int64_size in let _ := min_int in
  q_Score (calculateAgentQuality (F_of_Z 10) (F_of_Z 1) (F_of_Z (-100)) true) = 400%Z.
Proof. by vm_compute. Qed.

Definition demo_metric (agent target : string) (ts : Z) : PingMetric :=
  mkMetric agent target ts 20 20 fzero fzero fzero (F_of_Z 10) fzero fzero "".
Definition demo_trace_at (id : string) (ts : Z) : TracerouteRecord :=
  mkTraceRecord id "a1" "t1" "one.example" "192.0.2.1" ts 10 true 1 "" "" [] [mkEnriched 1 "192.0.2.1" "" [] fzero fzero "" "" "" "" "" ""].
Definition demo_tables : Db :=
  mkDb [] [] [demo_metric "a1" "t1" (100 * minute); demo_metric "a1" "t1" (105 * minute); demo_metric "a1" "t2" (80 * minute)]
    (List.map (λ k, demo_trace_at (Itoa k) (UnixMilli (k * 60000))) [1; 4; 6; 7; 8; 9; 40]%Z).

Lemma matrix_cells_witness :
  let _ := int64_size in let _ := first_avg in let _ := go_insertion_sort in
  ∃ cells, getPublicMatrix None (106 * minute) demo_tables = Ok cells ∧
    NoDup ((λ c, (mc_AgentID c, mc_TargetID c)) <$> cells) ∧ mc_Timestamp <$> cells = [105 * minute]%Z.
Proof.
  intros W S G. eexists. split; [reflexivity|]. split; [|vm_compute; reflexivity].
  refine (proj1 (matrix_cells (W := W) (106 * minute) demo_tables _ _)). reflexivity.
Defined.

Lemma metric_points_witness :
  let _ := int64_size in let _ := first_avg in let _ := go_insertion_sort in
  ∃ shown left_out, getPublicMetrics None true "" "a1" "" (120 * minute) demo_tables = Ok (metric_point true <$> shown) ∧
    List.filter (metric_matches "" "a1" "" (120 * minute)) (db_metrics demo_tables) ≡ₚ shown ++ left_out.
Proof.
  intros W S G.
  destruct (metric_points (W := W) true "" "a1" "" (120 * minute) demo_tables _ eq_refl) as (shown & left_out & E & Hp & _).
  exists shown, left_out. split; [|exact Hp]. rewrite <- E. reflexivity.
Defined.

(** The record closest to the second minute is the first minute's; but six are in the
    window, and only the five newest are looked at. *)
Lemma trace_of_instant_witness :
  let _ := go_insertion_sort in let _ := first_avg in let _ : GormChain := true in
  target_time (λ _, None) "120000" = UnixMilli 120000 ∧
  (∃ r, getPublicTraceroute (λ _, None) "" "a1" "" "120000" demo_tables = found r demo_tables) ∧
  match snd (getPublicTraceroute (λ _, None) "" "a1" "" "120000" demo_tables) with TraceFound r => trc_ID r | _ => "" end = "4".
Proof.
  intros G S C. split; [vm_compute; reflexivity|]. split; [|vm_compute; reflexivity].
  pose proof (trace_of_instant (H0 := S) (H1 := C) (λ _, None) "a1" "" "120000" demo_tables
    ltac:(discriminate) ltac:(discriminate) ltac:(vm_compute; discriminate)) as E.
  cbv zeta in E. rewrite bool_decide_eq_false_2 in E by (vm_compute; discriminate).
  destruct E as (r & _ & _ & _ & _ & _ & _ & _ & E). by exists r.
Defined.

(** Nothing near the instant: the latest record is not found either, unless the
    condition on the time were dropped. *)
Example no_fallback :
  let _ := go_insertion_sort in let _ := first_avg in
  getPublicTraceroute (H1 := true) (λ _, None) "" "a1" "" "6000000" demo_tables = (demo_tables, TraceError 404 "No traceroute telemetry available") ∧
  match snd (getPublicTraceroute (H1 := false) (λ _, None) "" "a1" "" "6000000" demo_tables) with TraceFound r => trc_ID r | _ => "" end = "40".
Proof. by vm_compute. Qed.
