(* ===== verification/Console.v ===== *)
(** * The console's handlers for targets and probes ([host/internal/api]: admin_targets.go, admin_agents.go)

    Each handler is a function of the request and of the server's state, the
    database's tables and the hub. A body that could not be parsed is [None];
    [dberr] is the error of the write, if any. *)
From S2P Require Import Prelude GoStrings GoEncoding GoFloat GoJson Protocol Model Feature IpUtil RouteClass Hub Ingest.

(** GORM leaves the zero value of a column with a default out of an INSERT, and
    the database fills the default in; [Save] writes every column. *)
Class Gorm := {
  insert_bool (dflt value : bool) : bool;
  insert_bool_true dflt : insert_bool dflt true = true;
  insert_bool_zero dflt : insert_bool dflt false = dflt
}.

Record Server := mkServer { sv_db : Db; sv_hub : Hub }.

Inductive response :=
  | Status (code : Z)
  | Failed (code : Z) (error : string).

Definition agent_row (db : Db) (id : string) : option Agent := List.find (λ a, (ag_ID a =? id)%string) (db_agents db).
Definition target_row (db : Db) (id : string) : option Target := List.find (λ t, (tg_ID t =? id)%string) (db_targets db).

Definition enabled_targets (db : Db) : list Target := List.filter tg_Enabled (db_targets db).

Definition set_targets (ts : list Target) (db : Db) : Db := mkDb (db_agents db) ts (db_metrics db) (db_traces db).
Definition set_agents (l : list Agent) (db : Db) : Db := mkDb l (db_targets db) (db_metrics db) (db_traces db).

Section Handlers.
Context `{MapOrder} `{Gorm}.

(** [ws.DefaultHub.BroadcastTargetSync()] and [SyncSingleAgent]. *)
Definition broadcast_sync (sv : Server) : Server :=
  mkServer (sv_db sv) (BroadcastTargetSync (Some (enabled_targets (sv_db sv))) (agent_row (sv_db sv)) (sv_hub sv)).
Definition sync_agent (id : string) (sv : Server) : Server :=
  mkServer (sv_db sv) (SyncSingleAgent (Some (enabled_targets (sv_db sv))) (agent_row (sv_db sv)) id (sv_hub sv)).

(** ** admin_targets.go *)

Record CreateTargetReq := mkCreateTarget {
  ct_Name : string; ct_Host : string; ct_PacketCount : Z; ct_IntervalSec : Z; ct_Tags : string;
  ct_Enabled : option bool; ct_DisableRoute : option bool
}.

Record UpdateTargetReq := mkUpdateTarget {
  ut_Name : option string; ut_Host : option string; ut_PacketCount : option Z; ut_IntervalSec : option Z;
  ut_Tags : option string; ut_Enabled : option bool; ut_DisableRoute : option bool
}.

(** [db.DB.Create]: a second row with the same primary key is refused. *)
Definition insert_target (dberr : option string) (t : Target) (db : Db) : Db * option string :=
  match dberr with
  | Some e => (db, Some e)
  | None =>
      if bool_decide (tg_ID t ∈ tg_ID <$> db_targets db) then (db, Some "duplicate key")
      else
        (set_targets (db_targets db ++
           [mkTarget (tg_ID t) (tg_Name t) (tg_Host t) (tg_PacketCount t) (tg_IntervalSec t) (tg_Tags t)
              (insert_bool true (tg_Enabled t)) (insert_bool false (tg_DisableRoute t))]) db, None)
  end.

Definition adminCreateTarget (uuid : string) (dberr : option string) (req : option CreateTargetReq) (sv : Server)
    : Server * response :=
  match req with
  | None => (sv, Failed 400 "Name and Host are required")
  | Some req =>
      if (ct_Name req =? "")%string || (ct_Host req =? "")%string then (sv, Failed 400 "Name and Host are required")
      else if (0 <? ct_PacketCount req)%Z && (100 <? ct_PacketCount req)%Z then
        (sv, Failed 400 "Packet count cannot exceed 100")
      else
        let pktCount := if (0 <? ct_PacketCount req)%Z then ct_PacketCount req else 20%Z in
        if (0 <? ct_IntervalSec req)%Z && ((ct_IntervalSec req <? 5)%Z || (3600 <? ct_IntervalSec req)%Z) then
          (sv, Failed 400 "Interval must be between 5 and 3600 seconds")
        else
          let interval := if (0 <? ct_IntervalSec req)%Z then ct_IntervalSec req else 30%Z in
          let enabled := default true (ct_Enabled req) in
          let disableRoute := default false (ct_DisableRoute req) in
          let target := mkTarget uuid (TrimSpace (ct_Name req)) (TrimSpace (ct_Host req)) pktCount interval
                          (TrimSpace (ct_Tags req)) enabled disableRoute in
          match insert_target dberr target (sv_db sv) with
          | (db, Some e) => (mkServer db (sv_hub sv), Failed 500 e)
          | (db, None) => (broadcast_sync (mkServer db (sv_hub sv)), Status 201)
          end
  end.

(** [if v != nil && strings.TrimSpace( *v) != ""] *)
Definition set_trimmed (v : option string) (old : string) : string :=
  match v with
  | Some v => if negb (TrimSpace v =? "")%string then TrimSpace v else old
  | None => old
  end.

Definition adminUpdateTarget (id : string) (dberr : option string) (req : option UpdateTargetReq) (sv : Server)
    : Server * response :=
  match target_row (sv_db sv) id with
  | None => (sv, Failed 404 "Target not found")
  | Some target =>
      match req with
      | None => (sv, Failed 400 "Invalid payload format")
      | Some req =>
          if match ut_PacketCount req with Some n => (n <? 1)%Z || (100 <? n)%Z | None => false end then
            (sv, Failed 400 "Packet count must be between 1 and 100")
          else if match ut_IntervalSec req with Some n => (n <? 10)%Z || (3600 <? n)%Z | None => false end then
            (sv, Failed 400 "Interval must be between 10 and 3600 seconds")
          else
            let target := mkTarget (tg_ID target) (set_trimmed (ut_Name req) (tg_Name target))
              (set_trimmed (ut_Host req) (tg_Host target)) (default (tg_PacketCount target) (ut_PacketCount req))
              (default (tg_IntervalSec target) (ut_IntervalSec req))
              (match ut_Tags req with Some s => TrimSpace s | None => tg_Tags target end)
              (default (tg_Enabled target) (ut_Enabled req)) (default (tg_DisableRoute target) (ut_DisableRoute req)) in
            match dberr with
            | Some e => (sv, Failed 500 e)
            | None =>
                let save t := if (tg_ID t =? id)%string then target else t in
                (broadcast_sync (mkServer (set_targets (save <$> db_targets (sv_db sv)) (sv_db sv)) (sv_hub sv)), Status 200)
            end
      end
  end.

Definition adminDeleteTarget (id : string) (dberr : option string) (sv : Server) : Server * response :=
  match dberr with
  | Some e => (sv, Failed 500 e)
  | None =>
      let db := sv_db sv in
      let db := mkDb (db_agents db) (List.filter (λ t, negb (tg_ID t =? id)%string) (db_targets db))
                  (List.filter (λ m, negb (pm_TargetID m =? id)%string) (db_metrics db)) (db_traces db) in
      (broadcast_sync (mkServer db (sv_hub sv)), Status 200)
  end.

(** ** admin_agents.go *)

(** The deduplicating loop of [normalizeTargetIDList]. *)
Fixpoint dedup_ids (seen : list string) (ids : list string) : list string :=
  match ids with
  | [] => []
  | id :: ids =>
      let id := TrimSpace id in
      if (id =? "")%string || existsb (String.eqb id) seen then dedup_ids seen ids
      else id :: dedup_ids (id :: seen) ids
  end.

Definition normalizeTargetIDList (raw : string) : string := Join (dedup_ids [] (Split raw ",")) ",".

(** [hub.Disconnect] as one call: the map entry, then what follows the unlock. *)
Definition disconnect_now (id : string) (h : Hub) : Hub :=
  let p := agents h !! id in
  leave id p (mkHub (delete id (agents h)) (hconns h) (updates h) (leaving h) (calls h) (effects h)).

(** The tokens and ids are unique columns. *)
Definition adminCreateAgent (uuid tokenBytes : string) (dberr : option string) (name : option string) (tags : string)
    (sv : Server) : Server * response :=
  match name with
  | None => (sv, Failed 400 "invalid body")
  | Some name =>
      if (name =? "")%string then (sv, Failed 400 "invalid body")
      else
        let agent := mkAgent uuid (TrimSpace name) (HexEncode tokenBytes) "" "" "" "" (TrimSpace tags) "" "" false 0 in
        match dberr with
        | Some e => (sv, Failed 500 e)
        | None =>
            let db := sv_db sv in
            if existsb (λ a, (ag_ID a =? ag_ID agent)%string || (ag_Token a =? ag_Token agent)%string) (db_agents db)
            then (sv, Failed 500 "duplicate key")
            else (mkServer (set_agents (db_agents db ++ [agent]) db) (sv_hub sv), Status 201)
        end
  end.

Definition save_agent (a' : Agent) (db : Db) : Db :=
  set_agents ((λ a, if (ag_ID a =? ag_ID a')%string then a' else a) <$> db_agents db) db.

Definition adminRotateAgentToken (id tokenBytes : string) (dberr : option string) (sv : Server) : Server * response :=
  match agent_row (sv_db sv) id with
  | None => (sv, Failed 404 "Agent not found")
  | Some a =>
      let agent := mkAgent (ag_ID a) (ag_Name a) (HexEncode tokenBytes) (ag_PublicIP a) (ag_OS a) (ag_Arch a) (ag_Version a)
                     (ag_Tags a) (ag_DisabledRouteTargets a) (ag_PausedTargets a) (ag_IsOnline a) (ag_LastSeenAt a) in
      if existsb (λ b, negb (ag_ID b =? id)%string && (ag_Token b =? ag_Token agent)%string) (db_agents (sv_db sv))
      then (sv, Failed 500 "Failed to rotate token")
      else
        match dberr with
        | Some e => (sv, Failed 500 "Failed to rotate token")
        | None => (mkServer (save_agent agent (sv_db sv)) (disconnect_now (ag_ID agent) (sv_hub sv)), Status 200)
        end
  end.

Record UpdateAgentReq := mkUpdateAgent {
  ua_Name : option string; ua_Tags : option string; ua_DisabledRouteTargets : option string; ua_PausedTargets : option string
}.

Definition adminUpdateAgent (id : string) (dberr : option string) (req : option UpdateAgentReq) (sv : Server)
    : Server * response :=
  match agent_row (sv_db sv) id with
  | None => (sv, Failed 404 "Agent not found")
  | Some a =>
      match req with
      | None => (sv, Failed 400 "invalid body")
      | Some req =>
          let agent := mkAgent (ag_ID a) (set_trimmed (ua_Name req) (ag_Name a)) (ag_Token a) (ag_PublicIP a) (ag_OS a)
            (ag_Arch a) (ag_Version a) (match ua_Tags req with Some s => TrimSpace s | None => ag_Tags a end)
            (match ua_DisabledRouteTargets req with Some s => normalizeTargetIDList s | None => ag_DisabledRouteTargets a end)
            (match ua_PausedTargets req with Some s => normalizeTargetIDList s | None => ag_PausedTargets a end)
            (ag_IsOnline a) (ag_LastSeenAt a) in
          match dberr with
          | Some e => (sv, Failed 500 "Failed to save probe overrides")
          | None => (sync_agent (ag_ID agent) (mkServer (save_agent agent (sv_db sv)) (sv_hub sv)), Status 200)
          end
      end
  end.

Definition adminDeleteAgent (id : string) (sv : Server) : Server * response :=
  let h := disconnect_now id (sv_hub sv) in
  let db := sv_db sv in
  (mkServer (mkDb (List.filter (λ a, negb (ag_ID a =? id)%string) (db_agents db)) (db_targets db)
               (List.filter (λ m, negb (pm_AgentID m =? id)%string) (db_metrics db)) (db_traces db)) h, Status 200).

(** [adminAgentUpdateCheck] and [adminAgentCrashUpdate]. *)
Definition adminAgentUpdateCheck {W : IntSize} (id : string) (sv : Server) : Server * response :=
  match agent_row (sv_db sv) id with
  | None => (sv, Failed 404 "Agent not found")
  | Some a =>
      match RequestUpdateCheck (ag_ID a) (sv_hub sv) with
      | (h, Some e) => (mkServer (sv_db sv) h, Failed 409 e)
      | (h, None) => (mkServer (sv_db sv) h, Status 200)
      end
  end.

Definition adminAgentCrashUpdate {W : IntSize} (id : string) (left : bool) (meanwhile : Hub → Hub) (sv : Server)
    : Server * response :=
  match agent_row (sv_db sv) id with
  | None => (sv, Failed 404 "Agent not found")
  | Some a =>
      match RequestRestart (ag_ID a) left meanwhile (sv_hub sv) with
      | (h, _, Some e) =>
          (mkServer (sv_db sv) h,
           if (e =? ErrAgentOffline)%string || (e =? ErrRestartUnsupported)%string then Failed 409 e else Failed 500 e)
      | (h, _, None) => (mkServer (sv_db sv) h, Status 200)
      end
  end.
End Handlers.

(** ** The tables the handlers keep *)

Record target_sane (t : Target) : Prop := {
  sane_packets : (1 <= tg_PacketCount t <= 100)%Z;
  sane_interval : (5 <= tg_IntervalSec t <= 3600)%Z
}.

Record tables_ok (db : Db) : Prop := {
  ok_target_ids : NoDup (tg_ID <$> db_targets db);
  ok_targets : Forall target_sane (db_targets db);
  ok_agent_ids : NoDup (ag_ID <$> db_agents db);
  ok_tokens : NoDup (ag_Token <$> db_agents db)
}.

(** Everything that writes the two tables; the hub is free to change meanwhile. *)
Inductive server_step `{MapOrder} `{Gorm} (sv : Server) : Server → Prop :=
  | step_create_target uuid dberr req : server_step sv (fst (adminCreateTarget uuid dberr req sv))
  | step_update_target id dberr req : server_step sv (fst (adminUpdateTarget id dberr req sv))
  | step_delete_target id dberr : server_step sv (fst (adminDeleteTarget id dberr sv))
  | step_create_agent uuid bytes dberr name tags : server_step sv (fst (adminCreateAgent uuid bytes dberr name tags sv))
  | step_rotate id bytes dberr : server_step sv (fst (adminRotateAgentToken id bytes dberr sv))
  | step_update_agent id dberr req : server_step sv (fst (adminUpdateAgent id dberr req sv))
  | step_delete_agent id : server_step sv (fst (adminDeleteAgent id sv))
  | step_handshake ip now initial a :
      HandleWebSocket true ip now initial (sv_db sv) = Registered a →
      server_step sv (mkServer (save_agent a (sv_db sv)) (sv_hub sv))
  | step_message {W : IntSize} {TT : TimeText} `{Columns} id now fl env :
      server_step sv (mkServer (fst (handleIncomingMessage id now fl env (sv_db sv))) (sv_hub sv))
  | step_trace `{Columns} `{Http} uuid id now fl report cache :
      server_step sv (mkServer (fst (persistTracerouteReport uuid id now fl report cache (sv_db sv))) (sv_hub sv))
  | step_hub h : server_step sv (mkServer (sv_db sv) h).

Definition server_reachable `{MapOrder} `{Gorm} : Server → Prop :=
  reachable (λ sv, db_targets (sv_db sv) = [] ∧ db_agents (sv_db sv) = []) server_step.

(** ** Lemmas *)

Lemma filter_map_NoDup {A} (f : A → string) (p : A → bool) (l : list A) : NoDup (f <$> l) → NoDup (f <$> List.filter p l).
Proof.
  induction l as [|a l IH]; [done|]. csimpl. intros [Hn Hl]%NoDup_cons. destruct (p a); csimpl; [|by apply IH].
  apply NoDup_cons. split; [|by apply IH]. rewrite list_elem_of_fmap in *. intros (b & E & Hb). apply Hn.
  exists b. split; [done|]. apply list_elem_of_In in Hb. apply filter_In in Hb as [Hb _]. by apply list_elem_of_In.
Qed.

Lemma find_agent db id a : agent_row db id = Some a → a ∈ db_agents db ∧ ag_ID a = id.
Proof. intros [H1 H2%String.eqb_eq]%find_some. split; [by apply list_elem_of_In|done]. Qed.

Lemma find_target db id t : target_row db id = Some t → t ∈ db_targets db ∧ tg_ID t = id.
Proof. intros [H1 H2%String.eqb_eq]%find_some. split; [by apply list_elem_of_In|done]. Qed.

(** Rows with a unique key are determined by it. *)
Lemma key_inj {A} (f : A → string) (l : list A) a b : NoDup (f <$> l) → a ∈ l → b ∈ l → f a = f b → a = b.
Proof.
  induction l as [|c l IH]; [intros _ Ha; by apply elem_of_nil in Ha|]. csimpl. intros [Hn Hl]%NoDup_cons Ha Hb E.
  rewrite list_elem_of_fmap in Hn. apply elem_of_cons in Ha as [->|Ha], Hb as [->|Hb]; try done.
  - exfalso. apply Hn. by exists b.
  - exfalso. apply Hn. by exists a.
  - by apply IH.
Qed.

(** Writing one row by its id: the ids stay, another column stays unique if its
    new value belongs to no other row. *)
Lemma save_ids (l : list Agent) a' : ag_ID <$> ((λ a, if (ag_ID a =? ag_ID a')%string then a' else a) <$> l) = ag_ID <$> l.
Proof. rewrite <- list_fmap_compose. apply list_fmap_ext. intros i a _. simpl. by destruct (String.eqb_spec (ag_ID a) (ag_ID a')). Qed.

Lemma save_tokens (l : list Agent) a' :
  NoDup (ag_ID <$> l) → NoDup (ag_Token <$> l) →
  (∀ b, b ∈ l → ag_ID b ≠ ag_ID a' → ag_Token b ≠ ag_Token a') →
  NoDup (ag_Token <$> ((λ a, if (ag_ID a =? ag_ID a')%string then a' else a) <$> l)).
Proof.
  induction l as [|c l IH]; [done|]. csimpl. intros [Hi Hil]%NoDup_cons [Ht Htl]%NoDup_cons Hf.
  apply NoDup_cons. split; [|apply IH; try done; intros b Hb; apply Hf; by right].
  rewrite <- list_fmap_compose, list_elem_of_fmap. intros (b & E & Hb). cbn in E. rewrite list_elem_of_fmap in Hi, Ht.
  destruct (String.eqb_spec (ag_ID c) (ag_ID a')) as [Ec|Ec], (String.eqb_spec (ag_ID b) (ag_ID a')) as [Eb|Eb].
  - apply Hi. exists b. split; [congruence|done].
  - apply (Hf b); [by right|done|done].
  - apply (Hf c); [left|done|done].
  - apply Ht. by exists b.
Qed.

Lemma save_agent_ok db a a' :
  tables_ok db → a ∈ db_agents db → ag_ID a' = ag_ID a →
  (∀ b, b ∈ db_agents db → ag_ID b ≠ ag_ID a' → ag_Token b ≠ ag_Token a') → tables_ok (save_agent a' db).
Proof.
  intros [H1 H2 H3 H4] Ha Ei Hf. split; cbn; try done; [by rewrite save_ids|by apply save_tokens].
Qed.

Lemma same_token_ok db a a' :
  tables_ok db → a ∈ db_agents db → ag_ID a' = ag_ID a → ag_Token a' = ag_Token a → tables_ok (save_agent a' db).
Proof.
  intros Hd Ha Ei Et. apply (save_agent_ok db a); try done. intros b Hb Hne. rewrite Et. intros E. apply Hne. rewrite Ei.
  by rewrite (key_inj ag_Token _ b a (ok_tokens db Hd) Hb Ha E).
Qed.

Lemma touch_ids (l : list Agent) id now : ag_ID <$> (touch id now <$> l) = ag_ID <$> l ∧ ag_Token <$> (touch id now <$> l) = ag_Token <$> l.
Proof.
  rewrite <- !list_fmap_compose. split; apply list_fmap_ext; intros i a _; unfold touch; simpl; by destruct (_ =? _)%string.
Qed.

Lemma touched_ok db db' id now :
  db_targets db' = db_targets db → db_agents db' = touch id now <$> db_agents db → tables_ok db → tables_ok db'.
Proof.
  intros E1 E2 [H1 H2 H3 H4]. destruct (touch_ids (db_agents db) id now) as [E3 E4].
  split; rewrite ?E1, ?E2, ?E3, ?E4; done.
Qed.

Lemma set_online_ok fl id now db : tables_ok db → tables_ok (set_online fl id now db).
Proof. intros Hd. unfold set_online. destruct (f_touch fl); [done|]. by apply (touched_ok db _ id now). Qed.

Lemma create_target_ok `{MapOrder} `{Gorm} uuid dberr req sv :
  tables_ok (sv_db sv) → tables_ok (sv_db (fst (adminCreateTarget uuid dberr req sv))).
Proof.
  intros Hd. unfold adminCreateTarget. destruct req as [req|]; [|done].
  destruct (_ || _); [done|]. destruct (_ && _) eqn:Ep; [done|]. destruct (_ && (_ || _)) eqn:Ei; [done|].
  unfold insert_target. destruct dberr; [done|]. destruct (bool_decide _) eqn:Hn; [done|]. apply bool_decide_eq_false in Hn.
  cbn. destruct Hd as [H1 H2 H3 H4]. split; cbn; try done.
  - rewrite fmap_app. apply NoDup_app. split_and!; [done| |by apply NoDup_singleton].
    intros x Hx Hx'%list_elem_of_singleton. subst x. done.
  - apply Forall_app. split; [done|]. constructor; [|done]. split; cbn.
    + destruct (Z.ltb_spec 0 (ct_PacketCount req)); [|lia]. cbn in Ep. apply Z.ltb_ge in Ep. lia.
    + destruct (Z.ltb_spec 0 (ct_IntervalSec req)); [|lia]. cbn in Ei. go_bool. lia.
Qed.

Lemma update_target_ok `{MapOrder} `{Gorm} id dberr req sv :
  tables_ok (sv_db sv) → tables_ok (sv_db (fst (adminUpdateTarget id dberr req sv))).
Proof.
  intros Hd. unfold adminUpdateTarget. destruct (target_row (sv_db sv) id) as [t|] eqn:Et; [|done].
  destruct req as [req|]; [|done]. match goal with |- context [if ?b then _ else _] => destruct b eqn:Ep end; [done|].
  match goal with |- context [if ?b then _ else _] => destruct b eqn:Ei end; [done|]. destruct dberr; [done|].
  apply find_target in Et as [Hin Hid]. destruct Hd as [H1 H2 H3 H4]. cbn. split; cbn; try done.
  - eapply (eq_ind _ NoDup H1). rewrite <- list_fmap_compose. apply list_fmap_ext. intros i u _. cbn.
    by destruct (String.eqb_spec (tg_ID u) id) as [->|].
  - rewrite Forall_fmap. eapply Forall_impl; [exact H2|]. intros u Hu. cbn. destruct (tg_ID u =? id)%string; [|done].
    rewrite Forall_forall in H2. destruct (H2 t Hin) as [Hp Hi]. split; cbn.
    + destruct (ut_PacketCount req); cbn; [go_bool; lia|done].
    + destruct (ut_IntervalSec req); cbn; [go_bool; lia|done].
Qed.

Lemma rotate_ok `{MapOrder} `{Gorm} id bytes dberr sv :
  tables_ok (sv_db sv) → tables_ok (sv_db (fst (adminRotateAgentToken id bytes dberr sv))).
Proof.
  intros Hd. unfold adminRotateAgentToken. destruct (agent_row (sv_db sv) id) as [a|] eqn:Ea; [|done].
  apply find_agent in Ea as [Hin Hid]. destruct (existsb _ _) eqn:Ee; [done|]. destruct dberr; [done|].
  apply (save_agent_ok _ a); try done. cbn. intros b Hb Hne Et. apply not_true_iff_false in Ee. apply Ee, existsb_exists.
  exists b. split; [by apply list_elem_of_In|]. cbn. rewrite <- Hid.
  rewrite (proj2 (String.eqb_neq _ _) Hne), (proj2 (String.eqb_eq _ _) Et). done.
Qed.

Lemma create_agent_ok `{MapOrder} `{Gorm} uuid bytes dberr name tags sv :
  tables_ok (sv_db sv) → tables_ok (sv_db (fst (adminCreateAgent uuid bytes dberr name tags sv))).
Proof.
  intros Hd. unfold adminCreateAgent. destruct name as [name|]; [|done]. destruct (_ =? _)%string; [done|].
  destruct dberr; [done|]. destruct (existsb _ _) eqn:Ee; [done|]. cbn. destruct Hd as [H1 H2 H3 H4].
  assert (Hno : ∀ b, b ∈ db_agents (sv_db sv) → ag_ID b ≠ uuid ∧ ag_Token b ≠ HexEncode bytes).
  { intros b Hb. apply not_true_iff_false in Ee. split; intros E; apply Ee, existsb_exists; exists b;
      (split; [by apply list_elem_of_In|]); cbn; rewrite (proj2 (String.eqb_eq _ _) E), ?orb_true_r; done. }
  split; cbn; try done; rewrite fmap_app; apply NoDup_app; (split_and!; [done| |by apply NoDup_singleton]);
    intros x (b & -> & Hb)%list_elem_of_fmap Hx%list_elem_of_singleton; by destruct (Hno b Hb).
Qed.

Lemma server_step_ok `{MapOrder} `{Gorm} sv sv' : tables_ok (sv_db sv) → server_step sv sv' → tables_ok (sv_db sv').
Proof.
  intros Hd Hs. destruct Hs as [uuid dberr req|id dberr req|id dberr|uuid bytes dberr name tags|id bytes dberr|id dberr req|id|ip now initial a E|W TT C id now fl env|C Ht uuid id now fl report cache|h].
  - by apply create_target_ok.
  - by apply update_target_ok.
  - unfold adminDeleteTarget. destruct dberr; [done|]. destruct Hd as [H1 H2 H3 H4]. split; cbn; try done.
    + by apply filter_map_NoDup.
    + apply Forall_forall. intros t Ht. apply list_elem_of_In in Ht. apply filter_In in Ht as [Ht _].
      rewrite Forall_forall in H2. by apply H2, list_elem_of_In.
  - by apply create_agent_ok.
  - by apply rotate_ok.
  - unfold adminUpdateAgent. destruct (agent_row (sv_db sv) id) as [a|] eqn:Ea; [|done]. apply find_agent in Ea as [Hin Hid].
    destruct req; [|done]. destruct dberr; [done|]. by apply (same_token_ok _ a).
  - destruct Hd as [H1 H2 H3 H4]. split; cbn; try done; by apply filter_map_NoDup.
  - unfold HandleWebSocket in E. destruct initial as [env|]; [|done]. destruct (negb _); [done|].
    destruct (decode _) as [req|]; [|done]. destruct (_ =? _)%string; [done|].
    destruct (List.find _ _) as [a0|] eqn:Ef; [|done]. injection E as <-. apply find_some in Ef as [Hin _].
    apply (same_token_ok _ a0); try done. by apply list_elem_of_In.
  - cbn. unfold handleIncomingMessage. destruct (_ =? _)%string; [by apply set_online_ok|].
    destruct (_ =? _)%string.
    { destruct (decode _) as [report|]; [|done]. destruct (_ || _); [done|]. cbn [fst]. unfold persistPingReport.
      destruct (pp_Results report); [done|]. apply set_online_ok. unfold CreateInBatches.
      destruct (f_insert fl); [done|]. destruct (mapM _ _); [by destruct Hd|done]. }
    destruct (_ =? _)%string; [by destruct (decode _)|]. destruct (_ =? _)%string; [by destruct (decode _)|].
    by destruct (_ || _).
  - cbn. unfold persistTracerouteReport. destruct (_ && _); [done|]. destruct (enrich_hops _ _) as [ehs c].
    destruct (GenerateASPath _) as [p n]. cbn [fst]. apply set_online_ok.
    destruct (stored_trace _), (f_insert fl); try done; by destruct Hd.
  - done.
Qed.

(** *** The override lists *)

Lemma dedup_spec ids : ∀ seen x,
  x ∈ dedup_ids seen ids ↔ x ∈ TrimSpace <$> ids ∧ x ≠ "" ∧ x ∉ seen.
Proof.
  induction ids as [|i ids IH]; intros seen x; csimpl.
  { split; [intros H%elem_of_nil; done|intros [H%elem_of_nil _]; done]. }
  destruct ((_ =? _)%string || _) eqn:E.
  - rewrite IH, elem_of_cons. split; [tauto|]. intros ([->|Hx] & Hne & Hns); [|done]. exfalso.
    apply orb_true_iff in E as [E%String.eqb_eq|(y & Hy & Ey%String.eqb_eq)%existsb_exists]; [done|].
    subst y. by apply Hns, list_elem_of_In.
  - go_bool. rewrite !elem_of_cons, IH, elem_of_cons. split.
    + intros [-> |(Hx & Hne & Hns)]; [|tauto]. split_and!; [by left|done|]. intros Hin.
      match goal with H : existsb _ _ = false |- _ => apply not_true_iff_false in H; apply H, existsb_exists end.
      exists (TrimSpace i). split; [by apply list_elem_of_In|apply String.eqb_refl].
    + intros ([->|Hx] & Hne & Hns); [by left|]. destruct (decide (x = TrimSpace i)) as [->|Hd]; [by left|].
      right. split_and!; try done. intros [?|?]; done.
Qed.

Lemma dedup_clean ids : ∀ seen, Forall (no_byte ",") ids →
  Forall (λ x, no_byte "," x ∧ TrimSpace x = x) (dedup_ids seen ids).
Proof.
  induction ids as [|i ids IH]; intros seen Hf; [constructor|]. apply Forall_cons in Hf as [Hi Hf]. csimpl.
  destruct (_ || _); [by apply IH|]. constructor; [|by apply IH]. split; [by apply no_byte_TrimSpace|apply TrimSpace_idemp].
Qed.

Lemma Split_normalized raw : dedup_ids [] (Split raw ",") ≠ [] →
  TrimSpace <$> Split (normalizeTargetIDList raw) "," = dedup_ids [] (Split raw ",").
Proof.
  intros Hne. pose proof (dedup_clean (Split raw ",") [] (Split_Forall raw ",")) as Hc. unfold normalizeTargetIDList.
  rewrite (Split_Join "," _ Hne) by (eapply Forall_impl; [exact Hc|]; by intros x [? _]).
  clear Hne. induction Hc as [|x l [_ Hx] _ IH]; [done|]. csimpl. by rewrite Hx, IH.
Qed.

Lemma splitIDList_elem raw x : x ∈ splitIDList raw ↔ x ∈ TrimSpace <$> Split raw "," ∧ x ≠ "".
Proof.
  unfold splitIDList. rewrite elem_of_list_to_set, !list_elem_of_In, filter_In.
  by destruct (String.eqb_spec x ""); intuition.
Qed.

Lemma dedup_NoDup ids : ∀ seen, NoDup (dedup_ids seen ids).
Proof.
  induction ids as [|i ids IH]; intros seen; csimpl; [constructor|]. destruct (_ || _); [apply IH|].
  apply NoDup_cons. split; [|apply IH]. intros (_ & _ & Hn)%dedup_spec. apply Hn. left.
Qed.

Lemma dedup_id l : ∀ seen,
  NoDup l → Forall (λ x, no_byte "," x ∧ TrimSpace x = x) l → (∀ x, x ∈ l → x ≠ "" ∧ x ∉ seen) → dedup_ids seen l = l.
Proof.
  induction l as [|i l IH]; intros seen Hnd Hc Hs; [done|]. apply NoDup_cons in Hnd as [Hi Hnd].
  apply Forall_cons in Hc as [[_ Ht] Hc]. destruct (Hs i) as [Hne Hns]; [left|]. csimpl. rewrite Ht.
  rewrite (proj2 (String.eqb_neq _ _) Hne). cbn [orb]. destruct (existsb (String.eqb i) seen) eqn:E.
  { apply existsb_exists in E as (y & Hy & Ey%String.eqb_eq). subst y. exfalso. by apply Hns, list_elem_of_In. }
  f_equal. apply IH; [done|done|]. intros x Hx. destruct (Hs x) as [? ?]; [by right|]. split; [done|].
  intros [-> |?]%elem_of_cons; done.
Qed.

Lemma server_tables `{MapOrder} `{Gorm} sv : server_reachable sv → tables_ok (sv_db sv).
Proof.
  apply (reachable_ind_inv _ _ (λ sv, tables_ok (sv_db sv))); [|intros; by eapply server_step_ok].
  intros s [E1 E2]. split; rewrite ?E1, ?E2; constructor.
Qed.

(** After [Disconnect] the probe is not served, and its connection is closed. *)
Lemma disconnect_now_closes id h :
  Online id (disconnect_now id h) = false ∧
  (∀ p ac, agents h !! id = Some p → hconns h !! p = Some ac → ac_send_closed ac = ac_closed ac →
     ∃ ac', hconns (disconnect_now id h) !! p = Some ac' ∧ ac_closed ac' = true).
Proof.
  unfold Online, disconnect_now, leave. split.
  - assert (E : ∀ p h, agents (close_conn p h) = agents h).
    { intros p h'. unfold close_conn. by destruct (_ ≫= conn_close). }
    apply bool_decide_eq_false. destruct (agents h !! id); rewrite ?E; cbn; rewrite ?E; cbn; rewrite lookup_delete_eq; by intros [? ?].
  - intros p ac Hp Hac Hchan. rewrite Hp. unfold close_conn. cbn [hconns]. rewrite Hac. cbn. unfold conn_close.
    assert (Hlt : (p < length (hconns h))%nat) by by eapply lookup_lt_Some.
    destruct (ac_closed ac) eqn:Ec; rewrite ?Hchan; cbn; (eexists; split; [by apply list_lookup_insert_eq|done]).
Qed.

(** ** Properties *)

(** C34. The tables stay sane through everything the Host does: targets have
    different ids, between 1 and 100 packets and an interval between 5 seconds
    and an hour; probes have different ids and different tokens. *)
Theorem console_tables `{MapOrder} `{Gorm} sv :
  server_reachable sv →
  NoDup (tg_ID <$> db_targets (sv_db sv)) ∧
  Forall (λ t, 1 <= tg_PacketCount t <= 100 ∧ 5 <= tg_IntervalSec t <= 3600)%Z (db_targets (sv_db sv)) ∧
  NoDup (ag_ID <$> db_agents (sv_db sv)) ∧ NoDup (ag_Token <$> db_agents (sv_db sv)).
Proof.
  intros [H1 H2 H3 H4]%server_tables. split_and!; try done. eapply Forall_impl; [exact H2|]. by intros t [].
Qed.

(** Saving a probe's override lists changes their spelling only: the stored
    text names exactly the targets the hub would have read from what the
    operator sent, each once, and saving it again changes nothing. *)
Theorem override_lists_normalized raw :
  splitIDList (normalizeTargetIDList raw) = splitIDList raw ∧
  normalizeTargetIDList (normalizeTargetIDList raw) = normalizeTargetIDList raw ∧
  NoDup (dedup_ids [] (Split raw ",")).
Proof.
  pose proof (dedup_NoDup (Split raw ",") []) as Hnd.
  destruct (decide (dedup_ids [] (Split raw ",") = [])) as [E|Hne].
  { split_and!; [|by unfold normalizeTargetIDList; rewrite E|done].
    apply set_eq. intros x. rewrite !splitIDList_elem. unfold normalizeTargetIDList. rewrite E.
    pose proof (dedup_spec (Split raw ",") [] x) as Hx. rewrite E in Hx. split.
    - intros [[->|Hn%elem_of_nil]%elem_of_cons Hb]; done.
    - intros [H1 H2]. exfalso. eapply elem_of_nil, Hx. split_and!; [done|done|]. by intros ?%elem_of_nil. }
  split_and!; [| |done].
  - apply set_eq. intros x. rewrite !splitIDList_elem, (Split_normalized raw Hne), dedup_spec.
    split; [tauto|]. intros [? ?]. split_and!; try done. by intros ?%elem_of_nil.
  - pose proof (dedup_clean (Split raw ",") [] (Split_Forall raw ",")) as Hc.
    unfold normalizeTargetIDList.
    rewrite (Split_Join "," _ Hne) by (eapply Forall_impl; [exact Hc|]; by intros x [? _]).
    f_equal. apply dedup_id; [done|done|]. intros x (_ & ? & _)%dedup_spec. split; [done|]. by intros ?%elem_of_nil.
Qed.

(** C19. Rotating a probe's token takes effect at once: the old token registers no
    longer, the new one registers as the same probe, and the probe's present
    connection is closed and no longer served. *)
Theorem rotation_revokes `{MapOrder} `{Gorm} id bytes a sv db_ok ip now host os arch version :
  tables_ok (sv_db sv) → agent_row (sv_db sv) id = Some a →
  let new := HexEncode bytes in
  let hello token := Some (mkEnvelope TypeRegisterRequest (enc_RegisterRequest (mkRegisterRequest token host os arch version))) in
  new ≠ "" → ag_Token a ≠ "" → (∀ b, b ∈ db_agents (sv_db sv) → ag_Token b ≠ new) →
  let '(sv', r) := adminRotateAgentToken id bytes None sv in
  r = Status 200 ∧
  HandleWebSocket db_ok ip now (hello (ag_Token a)) (sv_db sv') = Rejected "Invalid or revoked agent token" ∧
  (∃ a', HandleWebSocket true ip now (hello new) (sv_db sv') = Registered a' ∧ ag_ID a' = id) ∧
  Online id (sv_hub sv') = false ∧
  (∀ p ac, agents (sv_hub sv) !! id = Some p → hconns (sv_hub sv) !! p = Some ac → ac_send_closed ac = ac_closed ac →
     ∃ ac', hconns (sv_hub sv') !! p = Some ac' ∧ ac_closed ac' = true).
Proof.
  intros Hd Ha new hello Hn Ho Hf. unfold adminRotateAgentToken. rewrite Ha.
  pose proof (find_agent _ _ _ Ha) as [Hin Hid].
  assert (Ht : ∀ b, b ∈ db_agents (sv_db sv) → (ag_Token b =? new)%string = false) by (intros; by apply String.eqb_neq, Hf).
  destruct (existsb _ _) eqn:Ee.
  { apply existsb_exists in Ee as (b & Hb & E). cbn in E. fold new in E.
    rewrite (Ht b) in E by by apply list_elem_of_In. by rewrite andb_false_r in E. }
  cbn [sv_db sv_hub]. set (a1 := mkAgent _ _ _ _ _ _ _ _ _ _ _ _).
  assert (Hdec : ∀ token, decode (A := RegisterRequest) (enc_RegisterRequest (mkRegisterRequest token host os arch version)) =
                    Some (mkRegisterRequest token host os arch version)).
  { intros token. exact (wire_roundtrip (mkRegisterRequest token host os arch version) I). }
  assert (Hhand : ∀ ok token, token ≠ "" → HandleWebSocket ok ip now (hello token) (save_agent a1 (sv_db sv)) =
    match (if ok then List.find (λ a, (ag_Token a =? token)%string) (db_agents (save_agent a1 (sv_db sv))) else None) with
    | None => Rejected "Invalid or revoked agent token"
    | Some a => Registered (register_row ip now (mkRegisterRequest token host os arch version) a)
    end).
  { intros ok token Hne. unfold HandleWebSocket, hello. cbn [env_Type env_Payload]. rewrite Hdec. cbn [rr_Token].
    by rewrite (proj2 (String.eqb_neq _ _) Hne). }
  assert (Hin' : ∀ b, b ∈ db_agents (save_agent a1 (sv_db sv)) → b = a1 ∨ b ∈ db_agents (sv_db sv) ∧ ag_ID b ≠ id).
  { intros b. cbn. intros (b0 & -> & Hb0)%list_elem_of_fmap. rewrite Hid.
    destruct (String.eqb_spec (ag_ID b0) id); [by left|by right]. }
  split_and!; [done| | | |].
  - rewrite Hhand by done. destruct db_ok; [|done]. destruct (List.find _ _) as [b|] eqn:Ef; [|done]. exfalso.
    apply find_some in Ef as [Hb%list_elem_of_In E%String.eqb_eq]. destruct (Hin' b Hb) as [->|[Hb' Hne]].
    + cbn in E. by apply (Hf a Hin).
    + apply Hne. by rewrite (key_inj ag_Token _ b a (ok_tokens _ Hd) Hb' Hin E).
  - rewrite Hhand by done. destruct (List.find _ _) as [b|] eqn:Ef.
    + eexists. split; [done|]. apply find_some in Ef as [Hb%list_elem_of_In E%String.eqb_eq].
      destruct (Hin' b Hb) as [->|[Hb' _]]; [done|]. by destruct (Hf b Hb').
    + exfalso. pose proof (find_none _ _ Ef a1) as Hx. cbn in Hx. fold new in Hx. rewrite String.eqb_refl in Hx.
      discriminate Hx. apply list_elem_of_In. cbn. apply list_elem_of_fmap. exists a. split; [|done]. by rewrite String.eqb_refl.
  - change (ag_ID a1) with (ag_ID a). rewrite Hid. apply disconnect_now_closes.
  - change (ag_ID a1) with (ag_ID a). rewrite Hid. apply disconnect_now_closes.
Qed.

(** What the console is asked and what it stores can differ: a target created
    disabled is stored enabled, because GORM takes the flag for unset. *)
Theorem disabled_target_created_enabled `{MapOrder} `{Gorm} uuid sv :
  uuid ∉ tg_ID <$> db_targets (sv_db sv) →
  let req := mkCreateTarget "web" "web.example" 20 30 "" (Some false) None in
  let '(sv', r) := adminCreateTarget uuid None (Some req) sv in
  r = Status 201 ∧ ∃ t, last (db_targets (sv_db sv')) = Some t ∧ tg_ID t = uuid ∧ tg_Enabled t = true.
Proof.
  intros Hu. cbn [adminCreateTarget]. unfold insert_target. cbn [tg_ID]. rewrite bool_decide_eq_false_2 by done. cbn.
  split; [done|]. rewrite last_snoc. eexists. split; [done|]. cbn. split; [done|]. apply insert_bool_zero.
Qed.

(** ** Witnesses *)

#[export] Program Instance gorm_or : Gorm := {| insert_bool dflt value := value || dflt |}.
Next Obligation. done. Qed.
Next Obligation. done. Qed.

Definition empty_server : Server := mkServer (mkDb [] [] [] []) NewHub.

Definition demo_create : CreateTargetReq := mkCreateTarget "Web" " web.example " 0 60 "" None None.

Definition demo_server : Server :=
  let _ := in_key_order in
  fst (adminCreateAgent "a1" "secret" None (Some "Probe") ""
    (fst (adminCreateTarget "t1" None (Some demo_create) empty_server))).

Lemma demo_server_reachable : let _ := in_key_order in server_reachable demo_server.
Proof.
  intros O. eapply reach_step; [|apply step_create_agent]. eapply reach_step; [|apply step_create_target].
  by apply reach_init.
Qed.

Lemma console_tables_witness :
  NoDup (tg_ID <$> db_targets (sv_db demo_server)) ∧
  Forall (λ t, 1 <= tg_PacketCount t <= 100 ∧ 5 <= tg_IntervalSec t <= 3600)%Z (db_targets (sv_db demo_server)) ∧
  NoDup (ag_ID <$> db_agents (sv_db demo_server)) ∧ NoDup (ag_Token <$> db_agents (sv_db demo_server)).
Proof. exact (console_tables (H := in_key_order) demo_server demo_server_reachable). Defined.

Example override_example :
  normalizeTargetIDList " t2,,t1 , t2" = "t2,t1" ∧ splitIDList "t2,t1" = {["t1"; "t2"]}.
Proof. by vm_compute. Qed.

(** The same server, its probe connected. *)
Definition demo_online_server : Server :=
  mkServer (sv_db demo_server) (Register "a1" 0 (mkHub ∅ [new_conn "a1" "203.0.113.9" "1.2.1" "amd64"] ∅ [] [] [])).

Lemma rotation_revokes_witness :
  let _ := in_key_order in
  let hello token := Some (mkEnvelope TypeRegisterRequest (enc_RegisterRequest (mkRegisterRequest token "h" "linux" "amd64" "1.2.1"))) in
  let '(sv', r) := adminRotateAgentToken "a1" "other" None demo_online_server in
  r = Status 200 ∧
  HandleWebSocket true "203.0.113.9" 5 (hello (HexEncode "secret")) (sv_db sv') = Rejected "Invalid or revoked agent token" ∧
  (∃ a', HandleWebSocket true "203.0.113.9" 5 (hello (HexEncode "other")) (sv_db sv') = Registered a' ∧ ag_ID a' = "a1") ∧
  Online "a1" (sv_hub sv') = false ∧
  (∀ p ac, agents (sv_hub demo_online_server) !! "a1" = Some p → hconns (sv_hub demo_online_server) !! p = Some ac →
     ac_send_closed ac = ac_closed ac → ∃ ac', hconns (sv_hub sv') !! p = Some ac' ∧ ac_closed ac' = true).
Proof.
  intros O. refine (rotation_revokes "a1" "other" _ demo_online_server true "203.0.113.9" 5 "h" "linux" "amd64" "1.2.1" _ eq_refl _ _ _).
  - exact (server_tables (H := in_key_order) demo_server demo_server_reachable).
  - discriminate.
  - discriminate.
  - intros b Hb. vm_compute in Hb. apply elem_of_cons in Hb as [->|Hb]; [discriminate|by apply elem_of_nil in Hb].
Defined.

Lemma disabled_target_created_enabled_witness :
  let _ := in_key_order in
  let req := mkCreateTarget "web" "web.example" 20 30 "" (Some false) None in
  let '(sv', r) := adminCreateTarget "t9" None (Some req) demo_server in
  r = Status 201 ∧ ∃ t, last (db_targets (sv_db sv')) = Some t ∧ tg_ID t = "t9" ∧ tg_Enabled t = true.
Proof.
  intros O. apply (disabled_target_created_enabled "t9" demo_server).
  apply (bool_decide_unpack _). vm_compute. exact I.
Defined.

(** A handshake that read the row before a rotation and saves it after it brings
    the old token back. *)
Example rotation_lost_update :
  let _ := in_key_order in
  let initial := Some (mkEnvelope TypeRegisterRequest
    (enc_RegisterRequest (mkRegisterRequest (HexEncode "secret") "h" "linux" "amd64" "1.2.1"))) in
  match HandleWebSocket true "203.0.113.9" 5 initial (sv_db demo_server) with
  | Registered a =>
      let db := sv_db (fst (adminRotateAgentToken "a1" "other" None demo_server)) in
      ag_Token <$> db_agents db = [HexEncode "other"] ∧ ag_Token <$> db_agents (save_agent a db) = [HexEncode "secret"]
  | Rejected _ => False
  end.
Proof. by vm_compute. Qed.
