(* ===== verification/ConsoleView.v ===== *)
(** * What the console shows of probes ([host/internal/api/admin_agents.go], [admin_targets.go])

    The lists and the broadcasts of the console, and their agreement with what the
    hub does with a request; [Send], which the tunnels use as their bridge. *)
From S2P Require Import Prelude GoStrings GoFloat GoJson Protocol Version Feature Model Hub IpUtil RouteClass Ingest Console.

Section View.
Context {W : IntSize}.
(** [ORDER BY created_at DESC], on a column that is not modelled. *)
Variable newest_first : ∀ {A}, list A → list A.

(** A row as the console gets it: the token is left out of the JSON. *)
Record AgentView := mkAgentView {
  av_Agent : Agent;
  av_UpdateStatus : option AgentUpdateStatus;
  av_UnsupportedFeatures : list string;
  av_ForceRestartMode : ForceRestartMode
}.

(** [UpdateStatuses]: a copy of the map. *)
Definition UpdateStatuses (h : Hub) : gmap string AgentUpdateStatus := updates h.

Definition view_agent (statuses : gmap string AgentUpdateStatus) (a : Agent) : AgentView :=
  mkAgentView a (statuses !! ag_ID a) (Unsupported (ag_Version a)) (ForceRestartModeFor (ag_Version a) (ag_Arch a)).

Definition adminListAgents (sv : Server) : list AgentView :=
  view_agent (UpdateStatuses (sv_hub sv)) <$> newest_first (db_agents (sv_db sv)).

Definition adminListTargets (sv : Server) : list Target := newest_first (db_targets (sv_db sv)).

Definition adminListFeatures : list FeatureDef := All.

Definition adminAllAgentsUpdateCheck `{MapOrder} (sv : Server) : Server * UpdateBroadcast :=
  let '(h, r) := BroadcastUpdateCheck (sv_hub sv) in (mkServer (sv_db sv) h, r).

Definition adminAllAgentsCrashUpdate `{MapOrder} (n : nat) (gone : nat → string → bool) (meanwhile : Hub → Hub) (sv : Server)
    : Server * RestartBroadcast :=
  let '(h, r) := BroadcastRestart n gone meanwhile (sv_hub sv) in (mkServer (sv_db sv) h, r).

(** ** The console and the hub agree *)

Lemma in_unsupported v key : ∀ defs,
  key ∈ unsupported_in defs v ↔ Supports v key = false ∧ ∃ d, d ∈ defs ∧ def_Key d = key.
Proof.
  induction defs as [|d defs IH]; cbn [unsupported_in].
  - split; [by intros ?%not_elem_of_nil|by intros (_ & d & ?%not_elem_of_nil & _)].
  - destruct (Supports v (def_Key d)) eqn:E; cbn [negb]; rewrite ?elem_of_cons, IH.
    + split; [intros (Hs & d' & Hd & <-); split; [done|]; exists d'; split; [by right|done]|].
      intros (Hs & d' & [->|Hd]%elem_of_cons & <-); [by rewrite E in Hs|]. split; [done|]. by exists d'.
    + split.
      * intros [->|(Hs & d' & Hd & <-)]; (split; [done|]); [exists d; split; [by left|done]|exists d'; split; [by right|done]].
      * intros (Hs & d' & [->|Hd]%elem_of_cons & <-); [by left|right]. split; [done|]. by exists d'.
Qed.

(** What the list says of a probe is what a request does with it: while the probe's
    connection carries the version and architecture of its row, an update check is
    refused as unsupported exactly when the list has that capability among the
    missing ones; a restart is refused exactly when the list says unsupported, and
    goes the way the list names unless the soft exit is not obeyed. Rows that are not
    connected are refused as offline, whatever the list says. *)
Theorem listing_agrees sv v :
  (∀ A (l : list A) x, x ∈ newest_first l ↔ x ∈ l) → v ∈ adminListAgents sv →
  let a := av_Agent v in
  a ∈ db_agents (sv_db sv) ∧ av_UpdateStatus v = updates (sv_hub sv) !! ag_ID a ∧
  match liveProbe (ag_ID a) (sv_hub sv) with
  | None =>
      snd (RequestUpdateCheck (ag_ID a) (sv_hub sv)) = Some ErrAgentOffline ∧
      ∀ left meanwhile, RequestRestart (ag_ID a) left meanwhile (sv_hub sv) = (sv_hub sv, None, Some ErrAgentOffline)
  | Some ac =>
      ac_Version ac = ag_Version a → ac_Arch ac = ag_Arch a →
      (UpdateCheck ∈ av_UnsupportedFeatures v → snd (RequestUpdateCheck (ag_ID a) (sv_hub sv)) = Some ErrNativeUnsupported) ∧
      (UpdateCheck ∉ av_UnsupportedFeatures v →
         RequestUpdateCheck (ag_ID a) (sv_hub sv) = SendToAgent (ag_ID a) PUpdateCheck (sv_hub sv)) ∧
      ∀ left meanwhile,
        let '(_, mode, err) := RequestRestart (ag_ID a) left meanwhile (sv_hub sv) in
        (av_ForceRestartMode v = ForceRestartUnsupported → err = Some ErrRestartUnsupported) ∧
        (mode = Some (av_ForceRestartMode v) ∨
         av_ForceRestartMode v = ForceRestartSoftExit ∧ left = false ∧ mode = Some ForceRestartCrash)
  end.
Proof.
  intros Hord Hv a. unfold adminListAgents in Hv. apply list_elem_of_fmap in Hv as (a' & -> & Ha). simpl in a. subst a.
  rewrite Hord in Ha. split; [done|]. split; [done|]. cbn [av_Agent view_agent av_UnsupportedFeatures av_ForceRestartMode].
  unfold RequestUpdateCheck, RequestRestart. destruct (liveProbe (ag_ID a') (sv_hub sv)) as [ac|]; [|done].
  intros Ev Ea. rewrite Ev, Ea. unfold Unsupported. rewrite !in_unsupported.
  assert (Hk : ∃ d, d ∈ registry ∧ def_Key d = UpdateCheck) by (exists (mkDef UpdateCheck "Manual update check" "1.0.13"); split; [by right; right; right; left|done]).
  split_and!.
  - intros [-> _]. done.
  - intros Hn. destruct (Supports (ag_Version a') UpdateCheck) eqn:E; [done|]. by destruct Hn.
  - intros left meanwhile. destruct (ForceRestartModeFor (ag_Version a') (ag_Arch a')) eqn:Em.
    + destruct (SendToAgent _ _ _) as [h [e|]]; [split; [done|by left]|]. destruct left; [split; [done|by left]|].
      destruct (sendCrash _ _). split; [done|]. by right.
    + destruct (sendCrash _ _). split; [done|by left].
    + split; [done|by left].
Qed.
End View.

(** ** The bridge of the tunnels ([host/internal/ws/proxy.go]) *)

(** [Hub.Send]: [view] and [slack] describe the connection and the sleeps during
    [SendWait], whose five seconds are at most 165 attempts. With the error, the
    attempt that queued the message. *)
Definition Send (now : Z) (view : nat → AgentConn) (slack : nat → Z) (agentID : string) (h : Hub) : result unit * option nat :=
  match agents h !! agentID with
  | None => (Err "agent offline", None)
  | Some _ =>
      match SendWait 165 5000000000 now view slack with
      | Some (k, None) => (Ok tt, Some k)
      | Some (_, Some e) => (Err e, None)
      | None => (Err "send timeout", None)
      end
  end.

Lemma attempts_bound fuel view slack : ∀ k now deadline backoff r e,
  SendWait_loop fuel view slack k now deadline backoff = Some (r, e) → (r < k + fuel)%nat.
Proof.
  induction fuel as [|fuel IH]; intros k now deadline backoff r e; cbn [SendWait_loop]; [done|].
  repeat case_match; try (intros [= <- _]; lia); intros Hr%IH; lia.
Qed.

Lemma SendWait_attempts fuel timeout now view slack r e : SendWait fuel timeout now view slack = Some (r, e) → (r < fuel)%nat.
Proof. unfold SendWait. intros Hr%attempts_bound. lia. Qed.

(** The bridge keeps its promise to the tunnels: a message it takes is queued once,
    behind what the connection's queue held; an error means it was not queued. *)
Theorem Send_queues now view slack agentID h msg :
  (∀ j, 0 <= slack j)%Z → (∀ j, ac_closed (view j) = false → ac_send_closed (view j) = false) →
  match Send now view slack agentID h with
  | (Ok _, Some k) =>
      Online agentID h = true ∧ (k < 165)%nat ∧
      ∃ ac, SafeSend msg (view k) = Some (ac, None) ∧ ac_Send ac = ac_Send (view k) ++ [msg]
  | (Err e, None) => Online agentID h = false ∨ e = "connection closed" ∨ e = "send timeout"
  | _ => False
  end.
Proof.
  intros Hs Hc. unfold Send, Online. destruct (agents h !! agentID) as [p|]; [|by left].
  destruct (SendWait_terminates now view slack Hs) as (k & err & E & _ & He). rewrite E.
  destruct err as [e|].
  - right. destruct He as [[-> _]|[-> _]]; [by left|by right].
  - destruct He as [Hcl Hlen]. split; [done|]. split.
    + by apply SendWait_attempts in E.
    + unfold SafeSend. rewrite Hcl, (Hc k Hcl), (proj2 (Nat.ltb_lt _ _) Hlen). by eexists.
Qed.

(** ** Witnesses *)

Definition demo_probe_row (id v arch : string) : Agent := mkAgent id id "tok" "" "linux" arch v "" "" "" true 0.

(** A current probe, one too old for both requests, and one that is not connected. *)
Definition demo_listed : Server :=
  mkServer (mkDb [demo_probe_row "a1" "1.2.1" "amd64"; demo_probe_row "a2" "1.0.2" "arm"; demo_probe_row "a3" "1.2.1" "amd64"] [] [] [])
    (mkHub (<["a1" := 0%nat]> {["a2" := 1%nat]}) [new_conn "a1" "" "1.2.1" "amd64"; new_conn "a2" "" "1.0.2" "arm"] ∅ [] [] []).

Lemma listing_agrees_witness :
  let _ := int64_size in
  snd (RequestUpdateCheck "a2" (sv_hub demo_listed)) = Some ErrNativeUnsupported.
Proof.
  intros W. pose (v := view_agent ∅ (demo_probe_row "a2" "1.0.2" "arm")).
  destruct (listing_agrees (λ _ l, l) demo_listed v) as (_ & _ & Hl); [done|right; left|].
  destruct Hl as (Hu & _); [reflexivity..|]. apply Hu.
  assert (E : av_UnsupportedFeatures v = [Traceroute; RouteOverride; Proxy; UpdateCheck; SoftExit]) by (by vm_compute).
  rewrite E. do 3 right. left.
Defined.

(** A queue that is full at the first attempt. *)
Definition demo_view (j : nat) : AgentConn := mkConn "a1" "" "" "" (replicate (256 - j)%nat PHeartbeatAck) false false false.

Example Send_second_attempt : Send 0 demo_view (λ _, 0%Z) "a1" (sv_hub demo_listed) = (Ok tt, Some 1%nat).
Proof. vm_compute. reflexivity. Qed.
