(* ===== verification/Accounts.v ===== *)
(** * Login, sessions, settings and the whitelist ([host/internal/auth], [host/internal/api]:
      oauth_shared.go, auth.go, setup.go, admin_settings.go, admin_whitelist.go)

    Who may use the console. What an identity provider answers, the JWT library,
    the Unicode part of [strings.ToLower] and the random source are parameters;
    [SetSetting] and the other writes succeed unless an error is given. *)
From S2P Require Import Prelude GoStrings GoEncoding Protocol Model.

(** [strings.ToLower] beyond ASCII. *)
Class UnicodeLower := unicode_lower : string → string.

Definition is_ascii (c : ascii) : bool := (byte_of c <? 128)%Z.
Definition ToLower `{UnicodeLower} (s : string) : string :=
  if all_bytes is_ascii s then map_string lower_ascii s else unicode_lower s.

(** ** Tables *)

Record Accounts := mkAccounts {
  settings : gmap string string;
  whitelist : list EmailWhitelist;
  users : list User;
  next_id : Z
}.

Definition GetSetting (key : string) (st : Accounts) : string := default "" (settings st !! key).
Definition SetSetting (key value : string) (st : Accounts) : Accounts :=
  mkAccounts (<[key := value]> (settings st)) (whitelist st) (users st) (next_id st).

Definition set_whitelist (l : list EmailWhitelist) (st : Accounts) : Accounts :=
  mkAccounts (settings st) l (users st) (next_id st + 1).
Definition set_users (l : list User) (st : Accounts) : Accounts :=
  mkAccounts (settings st) (whitelist st) l (next_id st + 1).

Definition initialized (st : Accounts) : bool := (GetSetting "is_initialized" st =? "true")%string.
Definition whitelisted (email : string) (st : Accounts) : bool :=
  existsb (λ w, (ew_Email w =? email)%string) (whitelist st).

(** [seedBaselineSettings]: on start-up. *)
Definition seedBaselineSettings (envSecret random : string) (st : Accounts) : Accounts :=
  let st := match settings st !! "is_initialized" with Some _ => st | None => SetSetting "is_initialized" "false" st end in
  if negb (envSecret =? "")%string then SetSetting "jwt_secret" envSecret st
  else match settings st !! "jwt_secret" with
       | Some _ => st
       | None => SetSetting "jwt_secret" (HexEncode random) st
       end.

(** ** Identities *)

Record AuthUser := mkAuthUser {
  au_Provider : string; au_ProviderUserID : string; au_Username : string; au_Email : string;
  au_AvatarURL : string; au_VerifiedEmails : list string
}.

Section Identities.
Context `{UnicodeLower}.

Definition GetGravatarURL (email : string) : string :=
  let cleanEmail := TrimSpace (ToLower email) in
  if (cleanEmail =? "")%string then ""
  else "https://www.gravatar.com/avatar/" +:+ HexEncode (Sum256 cleanEmail) +:+ "?d=identicon".

Record GitHubUser := mkGitHubUser { gh_ID : Z; gh_Login : string; gh_Email : string; gh_AvatarURL : string }.
Record GitHubEmail := mkGitHubEmail { ge_Email : string; ge_Primary : bool; ge_Verified : bool }.

(** The loop of [FetchGitHubUserInfo]: the user's address and the verified ones. *)
Definition github_email (acc : string * list string) (e : GitHubEmail) : string * list string :=
  let '(email, verified) := acc in
  if ge_Verified e then
    let clean := ToLower (TrimSpace (ge_Email e)) in
    if negb (clean =? "")%string then (if ge_Primary e then clean else email, verified ++ [clean])
    else acc
  else acc.

Definition FetchGitHubUserInfo (u : GitHubUser) (emails : list GitHubEmail) : GitHubUser * list string :=
  let '(email, verified) := foldl github_email (gh_Email u, []) emails in
  let email := match verified with v :: _ => if (email =? "")%string then v else email | [] => email end in
  (mkGitHubUser (gh_ID u) (gh_Login u) email (gh_AvatarURL u), verified).

Definition github_identity (u : GitHubUser) (emails : list GitHubEmail) : result AuthUser :=
  let '(u, verified) := FetchGitHubUserInfo u emails in
  let primaryEmail := match verified with v :: _ => if (gh_Email u =? "")%string then v else gh_Email u | [] => gh_Email u end in
  if (primaryEmail =? "")%string then Err "no_verified_github_email"
  else Ok (mkAuthUser "github" (Itoa (gh_ID u)) (gh_Login u) primaryEmail (gh_AvatarURL u) verified).

Record googleUserInfo := mkGoogle {
  gi_ID : string; gi_Email : string; gi_VerifiedEmail : bool; gi_Name : string; gi_Picture : string
}.

Definition FetchGoogleUserInfo (info : googleUserInfo) : result AuthUser :=
  if negb (gi_VerifiedEmail info) then Err "google email is not verified"
  else
    let email := ToLower (gi_Email info) in
    Ok (mkAuthUser "google" (gi_ID info) (gi_Name info) email (gi_Picture info) [email]).

(** [ID] is already printed as [fmt.Sprintf("%v")] does, if it was there. *)
Record oidcUserInfo := mkOidc {
  oi_Sub : string; oi_ID : option string; oi_Email : string; oi_EmailVerified : option bool; oi_Name : string;
  oi_PreferredUsername : string; oi_Picture : string; oi_AvatarURL : string
}.

Definition or_else (s t : string) : string := if (s =? "")%string then t else s.

Definition FetchGenericOIDCUserInfo (oidc_name : string) (info : oidcUserInfo) : result AuthUser :=
  match oi_EmailVerified info with
  | Some true =>
      let email := ToLower (TrimSpace (oi_Email info)) in
      if (email =? "")%string then Err "no email found in oidc userinfo"
      else
        let username := or_else (or_else (oi_PreferredUsername info) (oi_Name info)) email in
        let sub := or_else (oi_Sub info) (default "" (oi_ID info)) in
        Ok (mkAuthUser (or_else oidc_name "oidc") sub username email (or_else (oi_Picture info) (oi_AvatarURL info)) [email])
  | _ => Err "oidc email is not verified by provider"
  end.

(** ** [ValidateOAuthState] *)

Definition ValidateOAuthState (cookie : option string) (state : string) : bool :=
  if (state =? "")%string then false
  else match cookie with
       | Some c => if (c =? "")%string then false else (c =? state)%string
       | None => false
       end.

(** ** [handleOAuthLoginSuccess] *)

Definition same_identity (u : AuthUser) (x : User) : bool :=
  (u_Provider x =? au_Provider u)%string && (u_ProviderID x =? au_ProviderUserID u)%string.

(** [Save] of a row that was found; the first row with the identity. *)
Fixpoint save_first (u : AuthUser) (f : User → User) (l : list User) : list User :=
  match l with
  | [] => []
  | x :: l => if same_identity u x then f x :: l else x :: save_first u f l
  end.

Definition refreshed (u : AuthUser) (role : User → string) (now : Z) (x : User) : User :=
  mkUser (u_ID x) (u_Provider x) (u_ProviderID x) (u_GitHubID x) (au_Username u) (u_Email x) (au_AvatarURL u) (role x) now.

Definition new_user (u : AuthUser) (email role : string) (id now : Z) : User :=
  mkUser id (au_Provider u) (au_ProviderUserID u) 0 (au_Username u) email (au_AvatarURL u) role now.

(** The user who becomes the first superadmin. *)
Definition bootstrap_user (u : AuthUser) (now : Z) (st : Accounts) : User * Accounts :=
  match List.find (same_identity u) (users st) with
  | None => let x := new_user u (au_Email u) "superadmin" (next_id st) now in (x, set_users (users st ++ [x]) st)
  | Some x =>
      (refreshed u (λ _, "superadmin") now x, set_users (save_first u (refreshed u (λ _, "superadmin") now) (users st)) st)
  end.

(** Without the errors of the database, which undo the transaction. *)
Definition bootstrapSuperadminTx (u : AuthUser) (now : Z) (st : Accounts) : User * Accounts :=
  let '(user, st) := bootstrap_user u now st in
  let st :=
    if whitelisted (ToLower (au_Email u)) st then st
    else set_whitelist (whitelist st ++ [mkWhitelist (next_id st) (ToLower (au_Email u)) "Initial Superadmin" "system"]) st in
  (user, SetSetting "is_initialized" "true" st).

(** Any error of the lookup counts as no such user ([lookup_ok]); the errors of
    [Create], which the unique index on identities gives when there is one, and of
    [Save] are ignored; an unsaved new user has id 0. *)
Definition upsertAdminUser (u : AuthUser) (matchedEmail : string) (lookup_ok write_ok : bool) (now : Z) (st : Accounts)
    : User * Accounts :=
  match (if lookup_ok then List.find (same_identity u) (users st) else None) with
  | None =>
      if write_ok && negb (existsb (same_identity u) (users st)) then
        let x := new_user u matchedEmail "admin" (next_id st) now in (x, set_users (users st ++ [x]) st)
      else (new_user u matchedEmail "admin" 0 now, st)
  | Some x =>
      let x' := refreshed u u_Role now x in
      (x', if write_ok then set_users (save_first u (refreshed u u_Role now) (users st)) st else st)
  end.

Inductive login_outcome :=
  | LoggedIn (user : User)
  | Refused (redirect : string).

(** [read_ok]: the row of [is_initialized] was read, where any error counts as
    "not initialized"; [tx_err]: the transaction failed; [lookup_ok]: the user could
    be looked up; [token_ok]: signing succeeded. *)
Definition handleOAuthLoginSuccess (u : AuthUser) (now : Z) (read_ok : bool) (tx_err : option string)
    (lookup_ok write_ok token_ok : bool) (st : Accounts) : Accounts * login_outcome :=
  let u := if negb (au_Provider u =? "github")%string && negb (au_Email u =? "")%string then
             mkAuthUser (au_Provider u) (au_ProviderUserID u) (au_Username u) (au_Email u) (GetGravatarURL (au_Email u))
               (au_VerifiedEmails u)
           else u in
  let done user := if token_ok then LoggedIn user else Refused "/login?error=token_generation_failed" in
  match tx_err with
  | Some e => (st, Refused ("/login?error=auth_failed&details=" +:+ e))
  | None =>
      if negb (read_ok && initialized st) then
        let '(user, st) := bootstrapSuperadminTx u now st in (st, done user)
      else
        match List.find (λ e, whitelisted (ToLower e) st) (au_VerifiedEmails u) with
        | None => (st, Refused ("/login?error=email_not_whitelisted&email=" +:+ au_Email u))
        | Some matched =>
            if (matched =? "")%string then (st, Refused ("/login?error=email_not_whitelisted&email=" +:+ au_Email u))
            else let '(user, st) := upsertAdminUser u matched lookup_ok write_ok now st in (st, done user)
        end
  end.
End Identities.

(** ** Sessions *)

Record Claims := mkClaims {
  cl_UserID : Z; cl_GitHubID : Z; cl_Username : string; cl_Email : string; cl_Role : string; cl_ExpiresAt : Z
}.

(** The JWT library: a token parses, under the secret it was signed with, until
    it expires. It asks for the secret ([jwt_keyed]) when the token is well formed and
    of an HMAC method. *)
Class Jwt := {
  jwt_keyed (token : string) : bool;
  jwt_sign (secret : string) (c : Claims) : string;
  jwt_parse (secret : string) (now : Z) (token : string) : option Claims;
  jwt_signed secret c : jwt_keyed (jwt_sign secret c) = true;
  jwt_valid secret now c : (now < cl_ExpiresAt c)%Z → jwt_parse secret now (jwt_sign secret c) = Some c;
  jwt_expired secret now c : (cl_ExpiresAt c <= now)%Z → jwt_parse secret now (jwt_sign secret c) = None
}.

Definition session_ttl : Z := 7 * 24 * 3600.

(** Times in seconds, as the token's; [secret] is the one [GetJWTSecret] gives. *)
Definition GenerateToken `{Jwt} (secret : string) (user : User) (now : Z) : string :=
  jwt_sign secret (mkClaims (u_ID user) (u_GitHubID user) (u_Username user) (u_Email user) (u_Role user) (now + session_ttl)).

(** A setting that cannot be read ([read_ok]) is one that is absent; the error of
    [SetSetting] is ignored. *)
Definition GetJWTSecret (read_ok write_ok : bool) (envSecret random : string) (st : Accounts) : string * Accounts :=
  let secret := if read_ok then GetSetting "jwt_secret" st else "" in
  if negb (secret =? "")%string then (secret, st)
  else if negb (envSecret =? "")%string then (envSecret, st)
  else (HexEncode random, if write_ok then SetSetting "jwt_secret" (HexEncode random) st else st).

Section Access.
Context `{Jwt}.

(** The cookie, [None] if absent, and the Authorization header. [secret] is what
    [GetJWTSecret] answers when the library asks for it; [user_ok]: the user could be
    looked up. The second result is what is left of the tables. *)
Definition extractUser (secret : Accounts → string * Accounts) (user_ok : bool) (now : Z) (cookie : option string) (header : string)
    (st : Accounts) : result User * Accounts :=
  let tokenStr := default "" cookie in
  let tokenStr :=
    if (tokenStr =? "")%string then
      if HasPrefix header "Bearer " then TrimPrefix header "Bearer " else ""
    else tokenStr in
  if (tokenStr =? "")%string then (Err "no auth token provided", st)
  else if negb (jwt_keyed tokenStr) then (Err "invalid token", st)
  else
    let '(secret, st) := secret st in
    match jwt_parse secret now tokenStr with
    | None => (Err "invalid token", st)
    | Some claims =>
        match (if user_ok then List.find (λ x, (u_ID x =? cl_UserID claims)%Z) (users st) else None) with
        | None => (Err "user not found", st)
        | Some user => (Ok user, st)
        end
    end.

Inductive gate :=
  | Pass (user : option User)
  | Stop (status : Z).

Definition AuthRequired (r : result User) : gate := match r with Ok u => Pass (Some u) | Err _ => Stop 401 end.
Definition SuperadminRequired (r : result User) : gate :=
  match r with
  | Err _ => Stop 401
  | Ok u => if negb (u_Role u =? "superadmin")%string then Stop 403 else Pass (Some u)
  end.
Definition OptionalAuth (r : result User) : gate := match r with Ok u => Pass (Some u) | Err _ => Pass None end.
End Access.

(** ** Settings *)

Definition allowedSettingsKeys : list string :=
  ["app_url"; "retention_days"; "github_client_id"; "github_client_secret"; "google_client_id"; "google_client_secret";
   "oidc_client_id"; "oidc_client_secret"; "oidc_auth_url"; "oidc_token_url"; "oidc_userinfo_url"; "oidc_name"].

Definition allowed_key (k : string) : bool := existsb (String.eqb k) allowedSettingsKeys.

Definition mask_value (key value : string) : string :=
  if Contains key "secret" && (4 <? slen value)%nat then
    str_take 2 value +:+ "********" +:+ str_drop (slen value - 2) value
  else value.

Definition adminGetSettings (st : Accounts) : gmap string string :=
  map_imap (λ k v, if allowed_key k then Some (mask_value k v) else None) (settings st).

Definition save_setting (st : Accounts) (kv : string * string) : Accounts :=
  let '(k, v) := kv in
  if negb (allowed_key k) then st
  else if Contains k "secret" && Contains v "********" then st
  else SetSetting k (TrimSpace v) st.

Definition adminSaveSettings `{MapOrder} (req : gmap string string) (st : Accounts) : Accounts :=
  foldl save_setting st (range_order (map_to_list req)).

(** ** Setup *)

Record SetupConfigRequest := mkSetup {
  sc_PrimaryProvider : string; sc_GitHubClientID : string; sc_GitHubClientSecret : string; sc_GoogleClientID : string;
  sc_GoogleClientSecret : string; sc_OIDCClientID : string; sc_OIDCClientSecret : string; sc_OIDCAuthURL : string;
  sc_OIDCTokenURL : string; sc_OIDCUserInfoURL : string; sc_OIDCName : string; sc_AppURL : string
}.

(** [host] is the request's. The result is the redirect, or the status of a refusal. *)
Definition saveSetupConfig (req : option SetupConfigRequest) (host : string) (st : Accounts) : Accounts * (string + Z) :=
  if initialized st then (st, inr 403%Z)
  else
    match req with
    | None => (st, inr 400%Z)
    | Some req =>
        let set k v st := SetSetting k (TrimSpace v) st in
        let appURL := TrimRight (sc_AppURL req) "/" in
        let st := SetSetting "app_url" (if (appURL =? "")%string then "http://" +:+ host else appURL) st in
        let st := if negb (sc_GitHubClientID req =? "")%string && negb (sc_GitHubClientSecret req =? "")%string then
                    set "github_client_secret" (sc_GitHubClientSecret req) (set "github_client_id" (sc_GitHubClientID req) st)
                  else st in
        let st := if negb (sc_GoogleClientID req =? "")%string && negb (sc_GoogleClientSecret req =? "")%string then
                    set "google_client_secret" (sc_GoogleClientSecret req) (set "google_client_id" (sc_GoogleClientID req) st)
                  else st in
        let st := if negb (sc_OIDCClientID req =? "")%string && negb (sc_OIDCClientSecret req =? "")%string then
                    set "oidc_name" (sc_OIDCName req) (set "oidc_userinfo_url" (sc_OIDCUserInfoURL req)
                      (set "oidc_token_url" (sc_OIDCTokenURL req) (set "oidc_auth_url" (sc_OIDCAuthURL req)
                        (set "oidc_client_secret" (sc_OIDCClientSecret req) (set "oidc_client_id" (sc_OIDCClientID req) st)))))
                  else st in
        (st, inl (if (sc_PrimaryProvider req =? "google")%string then "/api/auth/google/login"
                  else if (sc_PrimaryProvider req =? "oidc")%string then "/api/auth/oidc/login"
                  else "/api/auth/github/login"))
    end.

(** ** The whitelist *)

(** A body without an address, or none, is [None]; the status is the answer's. *)
Definition adminCreateWhitelist `{UnicodeLower} (req : option (string * string)) (admin : User) (st : Accounts) : Accounts * Z :=
  match req with
  | None => (st, 400%Z)
  | Some (email, remark) =>
      if (email =? "")%string then (st, 400%Z)
      else
        let email := ToLower (TrimSpace email) in
        if negb (Contains email "@") then (st, 400%Z)
        else if whitelisted email st then (st, 409%Z)
        else (set_whitelist (whitelist st ++ [mkWhitelist (next_id st) email (TrimSpace remark) (u_Username admin)]) st, 201%Z)
  end.

(** [adminDeleteWhitelist] is three statements without a transaction: where a
    request has got to. [cond] is what the database makes of the id of the path: GORM
    takes a number for the key, and any other text for a condition of its own. *)
Inductive deletion :=
  | DelFirst (cond : EmailWhitelist → bool)
  | DelCount (item : EmailWhitelist)
  | DelDelete (item : EmailWhitelist)
  | DelAnswered (status : Z).

(** One statement and what follows it; [db_ok]: it succeeds. A row that cannot be
    read is not found, a count that fails is 0, and the error of [Delete] is ignored. *)
Definition adminDeleteWhitelist (db_ok : bool) (d : deletion) (st : Accounts) : Accounts * deletion :=
  match d with
  | DelFirst cond =>
      match (if db_ok then List.find cond (whitelist st) else None) with
      | None => (st, DelAnswered 404)
      | Some item => (st, DelCount item)
      end
  | DelCount item =>
      let count := if db_ok then zlen (whitelist st) else 0%Z in
      if (count <=? 1)%Z then (st, DelAnswered 400) else (st, DelDelete item)
  | DelDelete item =>
      (if db_ok then set_whitelist (List.filter (λ w, negb (ew_ID w =? ew_ID item)%Z) (whitelist st)) st else st, DelAnswered 200)
  | DelAnswered _ => (st, d)
  end.

(** ** Everything that writes the tables

    All but the deletions, whose statements are steps of [platform_step]. The login
    locks the row of [is_initialized] before it decides. *)

(** [faulty]: the database may fail to read the row of [is_initialized]. *)
Inductive account_step `{UnicodeLower} `{MapOrder} (faulty : bool) (st : Accounts) : Accounts → Prop :=
  | step_login u now read_ok tx_err lookup_ok write_ok token_ok :
      faulty || read_ok = true →
      account_step faulty st (fst (handleOAuthLoginSuccess u now read_ok tx_err lookup_ok write_ok token_ok st))
  | step_settings req : account_step faulty st (adminSaveSettings req st)
  | step_setup req host : account_step faulty st (fst (saveSetupConfig req host st))
  | step_add_email req admin : account_step faulty st (fst (adminCreateWhitelist req admin st))
  | step_seed env random : account_step faulty st (seedBaselineSettings env random st)
  | step_secret read_ok write_ok env random : account_step faulty st (snd (GetJWTSecret read_ok write_ok env random st)).

(** The tables and the deletions that were asked for. [serial]: no deletion counts
    while another one has counted and not deleted yet. *)
Record Platform := mkPlatform { pl_accounts : Accounts; pl_deletions : list deletion }.

Definition counted_item (d : deletion) : option EmailWhitelist := match d with DelDelete item => Some item | _ => None end.

Inductive platform_step `{UnicodeLower} `{MapOrder} (faulty serial : bool) (p : Platform) : Platform → Prop :=
  | plat_accounts st : account_step faulty (pl_accounts p) st → platform_step faulty serial p (mkPlatform st (pl_deletions p))
  | plat_ask cond : platform_step faulty serial p (mkPlatform (pl_accounts p) (pl_deletions p ++ [DelFirst cond]))
  | plat_delete db_ok k d st d' :
      pl_deletions p !! k = Some d → adminDeleteWhitelist db_ok d (pl_accounts p) = (st, d') →
      (serial = true → (∃ item, d = DelCount item) → omap counted_item (pl_deletions p) = []) →
      platform_step faulty serial p (mkPlatform st (<[k := d']> (pl_deletions p))).

(** From the start of the Host on empty tables on: the row that logins lock is there. *)
Definition start_accounts (env random : string) : Accounts := seedBaselineSettings env random (mkAccounts ∅ [] [] 1).

Definition platform_reachable `{UnicodeLower} `{MapOrder} (faulty serial : bool) : Platform → Prop :=
  reachable (λ p, ∃ env random, p = mkPlatform (start_accounts env random) []) (platform_step faulty serial).

Definition accounts_reachable `{UnicodeLower} `{MapOrder} (faulty : bool) (st : Accounts) : Prop :=
  ∃ ds, platform_reachable faulty false (mkPlatform st ds).

(** ** Lemmas *)

Definition superadmins (st : Accounts) : list Z :=
  u_ID <$> List.filter (λ x, (u_Role x =? "superadmin")%string) (users st).

Record accounts_ok (st : Accounts) : Prop := {
  ok_next : (1 <= next_id st)%Z;
  ok_wl_ids : NoDup (ew_ID <$> whitelist st);
  ok_wl_fresh : Forall (λ w, ew_ID w < next_id st)%Z (whitelist st);
  ok_user_ids : NoDup (u_ID <$> users st);
  ok_user_fresh : Forall (λ x, 1 <= u_ID x < next_id st)%Z (users st);
  ok_open : initialized st = true → superadmins st ≠ []
}.

Lemma GetSetting_set_eq k v st : GetSetting k (SetSetting k v st) = v.
Proof. unfold GetSetting. cbn. by rewrite lookup_insert_eq. Qed.

Lemma GetSetting_set_ne k k' v st : k ≠ k' → GetSetting k (SetSetting k' v st) = GetSetting k st.
Proof. intros Hk. unfold GetSetting. cbn. by rewrite lookup_insert_ne. Qed.

(** Writing settings other than [is_initialized]. *)
Lemma settings_ok st st' :
  whitelist st' = whitelist st → users st' = users st → next_id st' = next_id st →
  (initialized st' = true → initialized st = true) → accounts_ok st → accounts_ok st'.
Proof.
  intros E1 E2 E3 E4 [H1 H2 H3 H4 H5 H6]. unfold superadmins in *. split; unfold superadmins; rewrite ?E1, ?E2, ?E3; try done.
  intros Hi. by apply H6, E4.
Qed.

Lemma save_first_ids u f l : (∀ x, u_ID (f x) = u_ID x) → u_ID <$> save_first u f l = u_ID <$> l.
Proof. intros Hf. induction l as [|x l IH]; csimpl; [done|]. destruct (same_identity u x); csimpl; by rewrite ?Hf, ?IH. Qed.

(** A role that an update keeps. *)
Lemma save_first_superadmins u f l :
  (∀ x, u_ID (f x) = u_ID x) → (∀ x, u_Role (f x) = u_Role x) →
  u_ID <$> List.filter (λ x, (u_Role x =? "superadmin")%string) (save_first u f l)
  = u_ID <$> List.filter (λ x, (u_Role x =? "superadmin")%string) l.
Proof.
  intros Hi Hr. induction l as [|x l IH]; [done|]. cbn [save_first]. destruct (same_identity u x); cbn [List.filter].
  - rewrite Hr. destruct (_ =? _)%string; csimpl; by rewrite ?Hi.
  - destruct (_ =? _)%string; csimpl; by rewrite IH.
Qed.

Lemma save_first_some u f l x :
  List.find (same_identity u) l = Some x → (∀ x, u_Role (f x) = "superadmin") →
  List.filter (λ x, (u_Role x =? "superadmin")%string) (save_first u f l) ≠ [].
Proof.
  intros Hf Hr. induction l as [|y l IH]; [done|]. cbn in *. destruct (same_identity u y); cbn.
  - by rewrite Hr.
  - destruct (_ =? _)%string; [done|]. by apply IH.
Qed.

Lemma forall_ids (P : Z → Prop) (l l' : list User) : u_ID <$> l' = u_ID <$> l → Forall (λ x, P (u_ID x)) l → Forall (λ x, P (u_ID x)) l'.
Proof. intros E H. apply (proj1 (Forall_fmap u_ID P l')). rewrite E. by apply (Forall_fmap u_ID P l). Qed.

(** Adding or rewriting users. *)
Lemma set_users_ok st l :
  (u_ID <$> l = u_ID <$> users st ∨ ∃ x, l = users st ++ [x] ∧ u_ID x = next_id st) →
  (initialized st = true → u_ID <$> List.filter (λ x, (u_Role x =? "superadmin")%string) l ≠ []) →
  accounts_ok st → accounts_ok (set_users l st).
Proof.
  intros Hl Hs [H1 H2 H3 H4 H5 H6].
  assert (Hids : NoDup (u_ID <$> l) ∧ Forall (λ x, 1 <= u_ID x < next_id st + 1)%Z l).
  { assert (H5' : Forall (λ x, 1 <= u_ID x < next_id st + 1)%Z (users st)).
    { eapply Forall_impl; [exact H5|]. intros x Hx. cbn in Hx. lia. }
    destruct Hl as [E|(x & -> & Ex)].
    - rewrite E. split; [done|]. by apply (forall_ids (λ i, 1 <= i < next_id st + 1)%Z (users st)).
    - rewrite fmap_app. split.
      + apply NoDup_app. split_and!; [done| |by apply NoDup_singleton].
        intros i (y & -> & Hy)%list_elem_of_fmap Hi%list_elem_of_singleton. rewrite Forall_forall in H5.
        specialize (H5 y Hy). cbn in H5. lia.
      + apply Forall_app. split; [done|]. constructor; [lia|done]. }
  split; cbn; try lia; try done; try apply Hids.
  - eapply Forall_impl; [exact H3|]. intros w Hw. cbn in Hw. lia.
Qed.

(** Adding an address, or removing some of several. *)
Lemma add_email_ok st email remark by_ :
  accounts_ok st → accounts_ok (set_whitelist (whitelist st ++ [mkWhitelist (next_id st) email remark by_]) st).
Proof.
  intros [H1 H2 H3 H4 H5 H6]. split; cbn; try lia; try done.
  - rewrite fmap_app. apply NoDup_app. split_and!; [done| |by apply NoDup_singleton].
    intros i (y & -> & Hy)%list_elem_of_fmap Hi%list_elem_of_singleton. rewrite Forall_forall in H3.
    specialize (H3 y Hy). cbn in *. lia.
  - apply Forall_app. split; [|constructor; [cbn; lia|done]]. eapply Forall_impl; [exact H3|]. intros w Hw. cbn in Hw. lia.
  - eapply Forall_impl; [exact H5|]. intros w Hw. cbn in Hw. lia.
Qed.

Lemma filter_key_length {A} (f : A → Z) (l : list A) i :
  NoDup (f <$> l) → (zlen l <= zlen (List.filter (λ w, negb (f w =? i)%Z) l) + 1)%Z.
Proof.
  induction l as [|w l IH]; [done|]. csimpl. intros [Hn Hnd]%NoDup_cons. unfold zlen in *. csimpl.
  destruct (Z.eqb_spec (f w) i) as [E|Hne]; cbn [negb].
  - assert (List.filter (λ w, negb (f w =? i)%Z) l = l) as ->; [|lia].
    clear IH Hnd. induction l as [|v l IH]; [done|]. cbn. csimpl in Hn. apply not_elem_of_cons in Hn as [Hv Hn].
    rewrite (proj2 (Z.eqb_neq (f v) i)) by congruence. cbn. by rewrite IH.
  - specialize (IH Hnd). cbn [length]. lia.
Qed.

(** *** Settings *)

(** What saving a form makes of one key. *)
Definition saved_value (req : gmap string string) (st : Accounts) (k : string) : option string :=
  match req !! k with
  | Some v =>
      if allowed_key k && negb (Contains k "secret" && Contains v "********") then Some (TrimSpace v)
      else settings st !! k
  | None => settings st !! k
  end.

Lemma save_setting_tables st kv :
  whitelist (save_setting st kv) = whitelist st ∧ users (save_setting st kv) = users st ∧ next_id (save_setting st kv) = next_id st.
Proof. destruct kv as [k v]. unfold save_setting. destruct (negb _); [done|]. by destruct (_ && _). Qed.

Lemma adminSaveSettings_spec `{MapOrder} req st :
  let st' := adminSaveSettings req st in
  (∀ k, settings st' !! k = saved_value req st k) ∧
  whitelist st' = whitelist st ∧ users st' = users st ∧ next_id st' = next_id st.
Proof.
  cbv zeta. unfold adminSaveSettings.
  apply (foldl_map_inv save_setting req (λ s m, (∀ k, settings s !! k = saved_value m st k) ∧
    whitelist s = whitelist st ∧ users s = users st ∧ next_id s = next_id st)).
  - by split_and!.
  - intros s m k v Hk Hm _ (Hs & E1 & E2 & E3). destruct (save_setting_tables s (k, v)) as (-> & -> & ->).
    split_and!; try done. intros k'. unfold saved_value. destruct (decide (k' = k)) as [->|Hne].
    + rewrite lookup_insert_eq. unfold save_setting. specialize (Hs k). unfold saved_value in Hs. rewrite Hm in Hs.
      destruct (allowed_key k); cbn [negb andb]; [|done]. destruct (_ && _); cbn [negb]; [done|]. cbn. apply lookup_insert_eq.
    + rewrite lookup_insert_ne by done. fold (saved_value m st k'). rewrite <- Hs. unfold save_setting.
      destruct (negb _); [done|]. destruct (_ && _); [done|]. cbn. by apply lookup_insert_ne.
Qed.

Lemma save_keeps `{MapOrder} req st k : allowed_key k = false → GetSetting k (adminSaveSettings req st) = GetSetting k st.
Proof.
  intros Hk. unfold GetSetting. destruct (adminSaveSettings_spec req st) as [-> _]. unfold saved_value.
  destruct (req !! k); [|done]. by rewrite Hk.
Qed.

Lemma setup_keeps req host st :
  let st' := fst (saveSetupConfig req host st) in
  whitelist st' = whitelist st ∧ users st' = users st ∧ next_id st' = next_id st ∧
  (∀ k, allowed_key k = false → GetSetting k st' = GetSetting k st).
Proof.
  unfold saveSetupConfig. destruct (initialized st); [done|]. destruct req as [req|]; [|done]. cbv zeta.
  set (P := λ s, whitelist s = whitelist st ∧ users s = users st ∧ next_id s = next_id st ∧
    (∀ k, allowed_key k = false → GetSetting k s = GetSetting k st)).
  assert (Hset : ∀ k v s, allowed_key k = true → P s → P (SetSetting k v s)).
  { intros k v s Hk (E1 & E2 & E3 & E4). split_and!; try done. intros k' Hk'. rewrite GetSetting_set_ne; [by apply E4|].
    intros ->. congruence. }
  cbn [fst]. match goal with |- whitelist ?s = _ ∧ _ => change (P s) end.
  repeat first [apply Hset; [reflexivity|] | match goal with |- P (if ?b then _ else _) => destruct b end]; done.
Qed.

(** *** Steps *)

Lemma superadmins_add st l : superadmins (set_users (users st ++ l) st) = superadmins st ++ (u_ID <$> List.filter (λ x, (u_Role x =? "superadmin")%string) l).
Proof. unfold superadmins. cbn. by rewrite List.filter_app, fmap_app. Qed.

Lemma upsert_spec u email lk ok now st :
  accounts_ok st →
  let '(x, st') := upsertAdminUser u email lk ok now st in
  accounts_ok st' ∧ superadmins st' = superadmins st ∧ settings st' = settings st ∧ whitelist st' = whitelist st ∧
  (u_Role x = "superadmin" → u_ID x ∈ superadmins st).
Proof.
  intros Hi. pose proof (ok_open st Hi) as Ho. unfold upsertAdminUser. destruct (if lk then _ else _) as [y|] eqn:Ef.
  - assert (Hs : u_ID <$> List.filter (λ x, (u_Role x =? "superadmin")%string) (save_first u (refreshed u u_Role now) (users st)) = superadmins st)
      by by apply save_first_superadmins.
    destruct lk; [|done]. apply find_some in Ef as [Hy _]. split_and!.
    + destruct ok; [|done]. apply set_users_ok; [left; by apply save_first_ids| |done].
      rewrite Hs. intros Hinit. by apply Ho.
    + by destruct ok.
    + by destruct ok.
    + by destruct ok.
    + cbn. intros Hr. apply list_elem_of_fmap. exists y. split; [done|]. apply list_elem_of_In, filter_In.
      split; [done|]. by apply String.eqb_eq.
  - destruct (ok && _); [|split_and!; try done; cbn; discriminate]. split_and!; try done.
    + apply set_users_ok; [right; by eexists| |done]. rewrite List.filter_app. cbn. rewrite app_nil_r.
      intros Hinit. by apply Ho.
    + rewrite superadmins_add. cbn. by rewrite app_nil_r.
Qed.

Lemma bootstrap_ok `{UnicodeLower} u now st : accounts_ok st → accounts_ok (snd (bootstrapSuperadminTx u now st)).
Proof.
  intros Hi. unfold bootstrapSuperadminTx.
  assert (Hp : accounts_ok (snd (bootstrap_user u now st)) ∧ superadmins (snd (bootstrap_user u now st)) ≠ [] ∧
    whitelist (snd (bootstrap_user u now st)) = whitelist st).
  { unfold bootstrap_user. destruct (List.find _ _) as [x|] eqn:Ef; cbn [snd].
    - assert (Hs : superadmins (set_users (save_first u (refreshed u (λ _, "superadmin") now) (users st)) st) ≠ []).
      { unfold superadmins. cbn. intros E%fmap_nil_inv. by eapply save_first_some in E. }
      split_and!; [|done|done]. apply set_users_ok; [left; by apply save_first_ids|by intros _|done].
    - assert (Hs : superadmins (set_users (users st ++ [new_user u (au_Email u) "superadmin" (next_id st) now]) st) ≠ []).
      { rewrite superadmins_add. cbn. by destruct (superadmins st). }
      split_and!; [|done|done]. apply set_users_ok; [right; by eexists|by intros _|done]. }
  destruct (bootstrap_user u now st) as [x st1]. cbn [snd] in Hp. destruct Hp as (Hi1 & Hs1 & Ew).
  set (st2 := if whitelisted _ st1 then st1 else _).
  assert (Hp : accounts_ok st2 ∧ superadmins st2 ≠ [] ∧ whitelist st2 ≠ []).
  { subst st2. destruct (whitelisted _ st1) eqn:Ewl.
    - split_and!; [done..|]. intros E. unfold whitelisted in Ewl. by rewrite E in Ewl.
    - split_and!; [by apply add_email_ok|done|]. cbn. by destruct (whitelist st1). }
  destruct Hp as ([H1 H2 H3 H4 H5 H6] & Hs2 & Hw2). cbn [snd]. by split.
Qed.

(** What a login leaves once the platform is initialized. *)
Lemma login_spec `{UnicodeLower} u now tx_err lk ok tok st :
  accounts_ok st → initialized st = true →
  let '(st', r) := handleOAuthLoginSuccess u now true tx_err lk ok tok st in
  accounts_ok st' ∧ superadmins st' = superadmins st ∧ settings st' = settings st ∧ whitelist st' = whitelist st ∧
  match r with
  | LoggedIn x => (∃ e, e ∈ au_VerifiedEmails u ∧ whitelisted (ToLower e) st = true) ∧
                  (u_Role x = "superadmin" → u_ID x ∈ superadmins st)
  | Refused _ => True
  end ∧
  ((∀ e, e ∈ au_VerifiedEmails u → whitelisted (ToLower e) st = false) → st' = st ∧ ∃ to, r = Refused to).
Proof.
  intros Hi Hinit. unfold handleOAuthLoginSuccess. set (u' := if _ && _ then _ else u).
  assert (Ev : au_VerifiedEmails u' = au_VerifiedEmails u) by (unfold u'; by destruct (_ && _)).
  destruct tx_err as [e|]; [split_and!; try done; by eauto|]. rewrite Hinit. cbn [negb]. rewrite Ev.
  destruct (List.find _ _) as [e|] eqn:Ef; [|split_and!; try done; by eauto].
  apply find_some in Ef as [He Hw].
  assert (Hno : (∀ e, e ∈ au_VerifiedEmails u → whitelisted (ToLower e) st = false) → False).
  { intros Hx. rewrite (Hx e) in Hw; [done|by apply list_elem_of_In]. }
  destruct (e =? "")%string; [by split_and!|].
  pose proof (upsert_spec u' e lk ok now st Hi) as Hup. destruct (upsertAdminUser u' e lk ok now st) as [x st1].
  destruct Hup as (U1 & U2 & U3 & U4 & U5). split_and!; try done.
  destruct tok; [|done]. split; [|done]. exists e. split; [by apply list_elem_of_In|done].
Qed.

Lemma SetSetting_ok k v st : k ≠ "is_initialized" → accounts_ok st → accounts_ok (SetSetting k v st).
Proof. intros Hk. apply settings_ok; try done. unfold initialized. by rewrite GetSetting_set_ne. Qed.

Lemma seed_spec env random st :
  accounts_ok st → accounts_ok (seedBaselineSettings env random st) ∧
  superadmins (seedBaselineSettings env random st) = superadmins st ∧
  initialized (seedBaselineSettings env random st) = initialized st ∧
  whitelist (seedBaselineSettings env random st) = whitelist st.
Proof.
  intros Hi. unfold seedBaselineSettings.
  set (st1 := match settings st !! "is_initialized" with Some _ => st | None => SetSetting "is_initialized" "false" st end).
  assert (H1 : accounts_ok st1 ∧ superadmins st1 = superadmins st ∧ initialized st1 = initialized st ∧ whitelist st1 = whitelist st).
  { subst st1. destruct (settings st !! "is_initialized") eqn:E; [done|].
    assert (Ei : initialized st = false) by (unfold initialized, GetSetting; by rewrite E).
    assert (Es : initialized (SetSetting "is_initialized" "false" st) = false).
    { unfold initialized. by rewrite GetSetting_set_eq. }
    split_and!; [|done|by rewrite Ei, Es|done]. apply (settings_ok st); try done. by rewrite Es. }
  clearbody st1. destruct H1 as (H1 & <- & <- & <-).
  assert (Hset : ∀ v, accounts_ok (SetSetting "jwt_secret" v st1) ∧ superadmins (SetSetting "jwt_secret" v st1) = superadmins st1 ∧
    initialized (SetSetting "jwt_secret" v st1) = initialized st1 ∧ whitelist (SetSetting "jwt_secret" v st1) = whitelist st1).
  { intros v. split_and!; [by apply SetSetting_ok|done| |done]. unfold initialized. by rewrite GetSetting_set_ne. }
  destruct (negb (env =? "")%string); [apply Hset|]. by destruct (settings st1 !! "jwt_secret"); [|apply Hset].
Qed.

Lemma remove_ok st item :
  accounts_ok st → accounts_ok (set_whitelist (List.filter (λ w, negb (ew_ID w =? ew_ID item)%Z) (whitelist st)) st).
Proof.
  intros [H1 H2 H3 H4 H5 H6]. split; cbn; try lia; try done.
  - clear -H2. revert H2. generalize (whitelist st). intros l. induction l as [|v l IH]; csimpl; [done|].
    intros [Hn Hnd]%NoDup_cons. destruct (negb _); csimpl; [|by apply IH]. apply NoDup_cons. split; [|by apply IH].
    intros (y & E & Hy)%list_elem_of_fmap. apply Hn, list_elem_of_fmap. exists y. split; [done|].
    apply list_elem_of_In in Hy. apply filter_In in Hy as [Hy _]. by apply list_elem_of_In.
  - apply Forall_forall. intros v Hv. apply list_elem_of_In in Hv. apply filter_In in Hv as [Hv _].
    rewrite Forall_forall in H3. specialize (H3 v ltac:(by apply list_elem_of_In)). cbn in H3. lia.
  - eapply Forall_impl; [exact H5|]. intros x Hx. cbn in Hx. lia.
Qed.

(** Besides deletions the whitelist only grows, and is not empty at the first login. *)
Definition whitelist_grows (st st' : Accounts) : Prop :=
  (∃ l, whitelist st' = whitelist st ++ l) ∧ (initialized st' = true → initialized st = true ∨ whitelist st' ≠ []).

Lemma grows_same st st' : whitelist st' = whitelist st → initialized st' = initialized st → whitelist_grows st st'.
Proof. intros E1 E2. split; [exists []; by rewrite app_nil_r|]. rewrite E2. by left. Qed.

Lemma bootstrap_grows `{UnicodeLower} u now st : whitelist_grows st (snd (bootstrapSuperadminTx u now st)).
Proof.
  unfold bootstrapSuperadminTx.
  assert (Ew : whitelist (snd (bootstrap_user u now st)) = whitelist st).
  { unfold bootstrap_user. by destruct (List.find _ _). }
  destruct (bootstrap_user u now st) as [x st1]. cbn [snd] in Ew |- *. destruct (whitelisted _ st1) eqn:Ewl; cbn.
  - split; [exists []; by rewrite app_nil_r|]. intros _. right. cbn. intros E. unfold whitelisted in Ewl. by rewrite E in Ewl.
  - split; [eexists; cbn; by rewrite Ew|]. intros _. right. cbn. by destruct (whitelist st1).
Qed.

Lemma account_step_ok `{UnicodeLower} `{MapOrder} faulty st st' :
  accounts_ok st → account_step faulty st st' →
  accounts_ok st' ∧ whitelist_grows st st' ∧
  (faulty = false → initialized st = true → initialized st' = true ∧ superadmins st' = superadmins st).
Proof.
  intros Hi Hs. destruct Hs as [u now read_ok tx_err lk ok tok Hf|req|req host|req admin|env random|rd wr env random].
  - destruct (read_ok && initialized st) eqn:Ei.
    + apply andb_true_iff in Ei as [-> Ei]. pose proof (login_spec u now tx_err lk ok tok st Hi Ei) as Hl.
      destruct (handleOAuthLoginSuccess _ _ _ _ _ _ _ _) as [st1 r]. destruct Hl as (L1 & L2 & L3 & L4 & _). cbn.
      assert (E : initialized st1 = initialized st) by (unfold initialized, GetSetting in *; by rewrite L3).
      split; [done|]. split; [by apply grows_same|]. intros _ _. by rewrite E.
    + split_and!.
      * unfold handleOAuthLoginSuccess. set (u' := if _ && _ then _ else u). destruct tx_err; [done|].
        rewrite Ei. cbn [negb]. pose proof (bootstrap_ok u' now st Hi) as Hb. by destruct (bootstrapSuperadminTx u' now st).
      * unfold handleOAuthLoginSuccess. set (u' := if _ && _ then _ else u). destruct tx_err; [by apply grows_same|].
        rewrite Ei. cbn [negb]. pose proof (bootstrap_grows u' now st) as Hb. by destruct (bootstrapSuperadminTx u' now st).
      * intros -> Hinit. cbn in Hf. by rewrite Hf, Hinit in Ei.
  - destruct (adminSaveSettings_spec req st) as (_ & E1 & E2 & E3).
    assert (Ei : initialized (adminSaveSettings req st) = initialized st) by (unfold initialized; by rewrite save_keeps).
    split; [apply (settings_ok st); try done; by rewrite Ei|]. split; [by apply grows_same|]. rewrite Ei. unfold superadmins. by rewrite E2.
  - destruct (setup_keeps req host st) as (E1 & E2 & E3 & E4).
    assert (Ei : initialized (fst (saveSetupConfig req host st)) = initialized st) by (unfold initialized; by rewrite E4).
    split; [apply (settings_ok st); try done; by rewrite Ei|]. split; [by apply grows_same|]. rewrite Ei. unfold superadmins. by rewrite E2.
  - assert (Hsame : accounts_ok st ∧ whitelist_grows st st ∧
      (faulty = false → initialized st = true → initialized st = true ∧ superadmins st = superadmins st)) by (split_and!; [done|by apply grows_same|done]).
    unfold adminCreateWhitelist. destruct req as [[email remark]|]; [|done]. destruct (_ =? _)%string; [done|].
    destruct (negb _); [done|]. destruct (whitelisted _ _); [done|]. split; [by apply add_email_ok|]. split; [|done].
    split; [by eexists|by left].
  - destruct (seed_spec env random st Hi) as (S1 & S2 & S3 & S4). split; [done|]. split; [by apply grows_same|]. by rewrite S2, S3.
  - assert (E : ∀ v, initialized (SetSetting "jwt_secret" v st) = initialized st) by (intros v; unfold initialized; by rewrite GetSetting_set_ne).
    unfold GetJWTSecret. destruct (negb _); [split_and!; [done|by apply grows_same|done]|].
    destruct (negb _); [split_and!; [done|by apply grows_same|done]|]. destruct wr; cbn; [|split_and!; [done|by apply grows_same|done]].
    split; [by apply SetSetting_ok|]. split; [by apply grows_same|]. by rewrite E.
Qed.

(** A statement of a deletion. *)
Lemma delete_ok db_ok d st st' d' :
  accounts_ok st → adminDeleteWhitelist db_ok d st = (st', d') →
  accounts_ok st' ∧ initialized st' = initialized st ∧ superadmins st' = superadmins st ∧
  (whitelist st' = whitelist st ∨
   ∃ item, d = DelDelete item ∧ whitelist st' = List.filter (λ w, negb (ew_ID w =? ew_ID item)%Z) (whitelist st)).
Proof.
  intros Hi. unfold adminDeleteWhitelist. destruct d as [cond|item|item|status].
  - destruct (if db_ok then _ else _); intros [= <- <-]; split_and!; auto.
  - destruct (_ <=? _)%Z; intros [= <- <-]; split_and!; auto.
  - destruct db_ok; intros [= <- <-]; split_and!; auto; [by apply remove_ok|]. right. by exists item.
  - intros [= <- <-]. split_and!; auto.
Qed.

Definition counted_items (p : Platform) : list EmailWhitelist := omap counted_item (pl_deletions p).

Lemma omap_insert {A B} (f : A → option B) l k x y :
  l !! k = Some x → ∃ l1 l2, omap f l = l1 ++ option_list (f x) ++ l2 ∧ omap f (<[k := y]> l) = l1 ++ option_list (f y) ++ l2.
Proof.
  intros Hk. pose proof (lookup_lt_Some _ _ _ Hk) as Hlt. exists (omap f (take k l)), (omap f (drop (S k) l)).
  rewrite insert_take_drop by done. rewrite <- (take_drop_middle l k x Hk) at 1. rewrite !omap_app. cbn.
  split; [destruct (f x)|destruct (f y)]; done.
Qed.

(** What holds when deletions do not overlap. *)
Record serial_ok (p : Platform) : Prop := {
  so_one : (length (counted_items p) <= 1)%nat;
  so_two : counted_items p ≠ [] → (2 <= zlen (whitelist (pl_accounts p)))%Z;
  so_open : initialized (pl_accounts p) = true → whitelist (pl_accounts p) ≠ []
}.

Lemma serial_accounts st st' ds : whitelist_grows st st' → serial_ok (mkPlatform st ds) → serial_ok (mkPlatform st' ds).
Proof.
  intros [[l El] Hw] [S1 S2 S3]. split; cbn in *; [done|..].
  - intros Hc. specialize (S2 Hc). rewrite El. unfold zlen in *. rewrite length_app. lia.
  - intros Hi. destruct (Hw Hi) as [Hi'|?]; [|done]. rewrite El. intros [? _]%app_nil. by apply S3.
Qed.

Lemma serial_delete db_ok k d st d' p :
  accounts_ok (pl_accounts p) → serial_ok p → pl_deletions p !! k = Some d → adminDeleteWhitelist db_ok d (pl_accounts p) = (st, d') →
  ((∃ item, d = DelCount item) → counted_items p = []) → serial_ok (mkPlatform st (<[k := d']> (pl_deletions p))).
Proof.
  intros Hi [S1 S2 S3] Hk E Hser. destruct (omap_insert counted_item (pl_deletions p) k d d' Hk) as (l1 & l2 & El & El').
  unfold counted_items in *. rewrite El in *. unfold adminDeleteWhitelist in E.
  assert (Hsame : st = pl_accounts p → counted_item d = counted_item d' → serial_ok (mkPlatform st (<[k := d']> (pl_deletions p)))).
  { intros -> Ed. split; unfold counted_items; cbn [pl_deletions pl_accounts]; rewrite ?El', <- ?Ed; done. }
  destruct d as [cond|item|item|status].
  - destruct (if db_ok then _ else _); injection E as <- <-; by apply Hsame.
  - destruct (Z.leb_spec (if db_ok then zlen (whitelist (pl_accounts p)) else 0) 1) as [|Hlen]; injection E as <- <-; [by apply Hsame|].
    specialize (Hser (ex_intro _ item eq_refl)). cbn in Hser. apply app_nil in Hser as [-> ->].
    split; unfold counted_items; cbn [pl_deletions pl_accounts]; rewrite ?El'; cbn; [lia| |done]. intros _. destruct db_ok; lia.
  - rewrite !length_app in S1. cbn in S1, S2, El'. assert (l1 = [] ∧ l2 = []) as [-> ->] by (destruct l1, l2; cbn in S1; try lia; done).
    specialize (S2 ltac:(done)). injection E as <- <-.
    split; unfold counted_items; cbn [pl_deletions pl_accounts]; rewrite ?El'; cbn; [lia|done|]. destruct db_ok; [|done].
    intros _ E. pose proof (filter_key_length ew_ID (whitelist (pl_accounts p)) (ew_ID item) (ok_wl_ids _ Hi)) as Hf.
    cbn in E. rewrite E in Hf. unfold zlen in *. cbn in Hf. lia.
  - injection E as <- <-. by apply Hsame.
Qed.

Lemma platform_inv `{UnicodeLower} `{MapOrder} faulty serial p :
  platform_reachable faulty serial p → accounts_ok (pl_accounts p) ∧ (serial = true → serial_ok p).
Proof.
  revert p. apply reachable_ind_inv.
  - intros p (env & random & ->). assert (Hz : accounts_ok (mkAccounts ∅ [] [] 1)) by (by split; try constructor).
    destruct (seed_spec env random _ Hz) as (Hs & _ & Ei & _). split; [done|]. intros _.
    split; cbn; [lia|done|]. unfold start_accounts. rewrite Ei. done.
  - intros p p' [Hi Hser] []; cbn [pl_accounts].
    + destruct (account_step_ok faulty _ _ Hi ltac:(eassumption)) as (? & Hg & _). split; [done|]. intros Ht.
      destruct p as [st0 ds]. by eapply serial_accounts, Hser.
    + split; [done|]. intros Ht. destruct (Hser Ht) as [S1 S2 S3]. unfold counted_items in *.
      split; unfold counted_items; cbn; rewrite ?omap_app; cbn; rewrite ?app_nil_r; done.
    + split; [by eapply delete_ok|]. intros Ht. eapply serial_delete; eauto.
Qed.

Lemma accounts_inv `{UnicodeLower} `{MapOrder} faulty st : accounts_reachable faulty st → accounts_ok st.
Proof. by intros [ds [? _]%platform_inv]. Qed.

(** *** Masked values *)

Lemma Contains_prefix s m : HasPrefix s m = true → Contains s m = true.
Proof. destruct s; intros Hp; cbn [Contains]; by rewrite Hp. Qed.

Lemma Contains_app_mid s m t : Contains (s +:+ (m +:+ t)) m = true.
Proof.
  induction s as [|c s IH]; cbn [String.append].
  - apply Contains_prefix. exact (HasPrefix_app m t).
  - change (HasPrefix (String c (s +:+ (m +:+ t))) m || Contains (s +:+ (m +:+ t)) m = true). rewrite IH. apply orb_true_r.
Qed.

Lemma mask_value_marked key v : Contains key "secret" = true → (4 < slen v)%nat → Contains (mask_value key v) "********" = true.
Proof.
  intros Hk Hv. unfold mask_value. rewrite Hk, (proj2 (Nat.ltb_lt _ _) Hv). cbn [andb].
  apply (Contains_app_mid _ "********").
Qed.

Lemma adminGetSettings_lookup st k :
  adminGetSettings st !! k = (v ← settings st !! k; if allowed_key k then Some (mask_value k v) else None).
Proof. unfold adminGetSettings. by rewrite map_lookup_imap. Qed.

(** Saving the form as it was shown. *)
Lemma save_shown `{MapOrder} st :
  (∀ k v, settings st !! k = Some v → allowed_key k = true → TrimSpace v = v) →
  settings (adminSaveSettings (adminGetSettings st) st) = settings st.
Proof.
  intros Ht. apply map_eq. intros k. destruct (adminSaveSettings_spec (adminGetSettings st) st) as [-> _].
  unfold saved_value. rewrite adminGetSettings_lookup. destruct (settings st !! k) as [v|] eqn:E; [|done].
  cbn [mbind option_bind]. destruct (allowed_key k) eqn:Ek; [|done].
  destruct (Contains k "secret") eqn:Es; [|cbn [andb negb]; unfold mask_value; by rewrite Es, (Ht k)].
  destruct (4 <? slen v)%nat eqn:Ev.
  - by rewrite mask_value_marked by (done || by apply Nat.ltb_lt).
  - unfold mask_value. rewrite Ev, andb_false_r. cbn [andb]. destruct (Contains v _); cbn [negb]; by rewrite ?(Ht k).
Qed.

(** The first login, and every login while the row cannot be read. *)
Lemma bootstrap_spec `{UnicodeLower} u now read_ok lookup_ok write_ok token_ok st :
  read_ok && initialized st = false →
  let '(st', r) := handleOAuthLoginSuccess u now read_ok None lookup_ok write_ok token_ok st in
  initialized st' = true ∧ whitelisted (ToLower (au_Email u)) st' = true ∧
  (token_ok = true → ∃ x, r = LoggedIn x ∧ u_Role x = "superadmin" ∧ u_ID x ∈ superadmins st').
Proof.
  intros Hr. unfold handleOAuthLoginSuccess. set (u' := if _ && _ then _ else u).
  assert (Ev : au_Email u' = au_Email u) by (clear Hr; unfold u'; by destruct (_ && _)).
  rewrite Hr. cbn [negb]. unfold bootstrapSuperadminTx. rewrite <- Ev. destruct (bootstrap_user u' now st) as [x st1] eqn:Eb.
  assert (Hx : u_Role x = "superadmin" ∧ u_ID x ∈ superadmins st1).
  { unfold bootstrap_user, superadmins in *. destruct (List.find _ _) as [y|] eqn:Ef; injection Eb as <- <-; (split; [done|]).
    - apply list_elem_of_fmap. eexists. split; [reflexivity|]. apply list_elem_of_In, filter_In. split; [|done]. cbn.
      clear -Ef. induction (users st) as [|z l IH]; [done|]. cbn in *. destruct (same_identity u' z); [|right; by apply IH].
      left. by injection Ef as ->.
    - cbn [users set_users]. rewrite List.filter_app, fmap_app. cbn. apply elem_of_app. right. by apply list_elem_of_singleton. }
  destruct Hx as [Hr' Hin].
  set (st2 := if whitelisted _ st1 then st1 else _).
  assert (E2 : whitelisted (ToLower (au_Email u')) st2 = true ∧ superadmins st2 = superadmins st1).
  { subst st2. destruct (whitelisted _ st1) eqn:Ew; [done|]. split; [|done]. unfold whitelisted. cbn.
    rewrite existsb_app. cbn. rewrite String.eqb_refl. by rewrite orb_true_r. }
  destruct E2 as [Hw Hs]. split_and!.
  - unfold initialized. by rewrite GetSetting_set_eq.
  - done.
  - intros ->. exists x. split_and!; try done. unfold superadmins in *. cbn. by rewrite Hs.
Qed.

(** *** Sessions *)

Lemma extract_issued `{Jwt} key secret user_ok x issued now header st st' :
  GenerateToken secret x issued ≠ "" → key st = (secret, st') →
  extractUser key user_ok now (Some (GenerateToken secret x issued)) header st =
    (if (now <? issued + session_ttl)%Z then
       match (if user_ok then List.find (λ y, (u_ID y =? u_ID x)%Z) (users st') else None) with
       | Some y => Ok y
       | None => Err "user not found"
       end
     else Err "invalid token", st').
Proof.
  intros Hne Hk. unfold extractUser. cbn [from_option id]. apply String.eqb_neq in Hne. rewrite Hne, Hne. unfold GenerateToken.
  rewrite jwt_signed, Hk. cbn [negb]. destruct (Z.ltb_spec now (issued + session_ttl)).
  - rewrite jwt_valid by done. cbn [cl_UserID]. by destruct (if user_ok then _ else _).
  - by rewrite jwt_expired.
Qed.

(** The secret is looked up without touching the users. *)
Lemma GetJWTSecret_users read_ok write_ok env random st : users (snd (GetJWTSecret read_ok write_ok env random st)) = users st.
Proof. unfold GetJWTSecret. destruct (negb _); [done|]. destruct (negb _); [done|]. by destruct write_ok. Qed.

(** A token library for the examples: the claims in clear, with the secret. *)
Definition claims_tuple (c : Claims) : Z * Z * string * string * string * Z :=
  (cl_UserID c, cl_GitHubID c, cl_Username c, cl_Email c, cl_Role c, cl_ExpiresAt c).

#[program] Definition plain_jwt : Jwt := {|
  jwt_keyed token := true;
  jwt_sign secret c := pos_text (encode (secret, claims_tuple c));
  jwt_parse secret now token :=
    match countable.decode (A := string * (Z * Z * string * string * string * Z)) (text_pos token) with
    | Some (s, (id, gh, name, email, role, exp)) =>
        if (s =? secret)%string && (now <? exp)%Z then Some (mkClaims id gh name email role exp) else None
    | None => None
    end
|}.
Next Obligation. done. Qed.
Next Obligation.
  intros secret now [id gh name email role exp] Hc. cbn [cl_ExpiresAt] in Hc. rewrite text_pos_text, decode_encode. cbn.
  by rewrite String.eqb_refl, (proj2 (Z.ltb_lt _ _) Hc).
Qed.
Next Obligation.
  intros secret now [id gh name email role exp] Hc. cbn [cl_ExpiresAt] in Hc. rewrite text_pos_text, decode_encode. cbn.
  by rewrite String.eqb_refl, (proj2 (Z.ltb_ge _ _) Hc).
Qed.

(** ** Properties *)

(** C14. However the tables are written - logins, settings, setup, additions to the
    whitelist, any number of deletions whose statements interleave with all of it,
    start-up - and even if the row of [is_initialized] cannot be read: once the
    platform is initialized, there is a superadmin. While reads succeed it stays
    initialized, and no step makes or unmakes a superadmin: the role is given once, by
    the first login. A row leaves the whitelist only by a deletion that counted, and
    the whitelist of an initialized platform is not empty as long as no deletion
    counts between another one's count and its delete; when they overlap, it can be
    emptied ([whitelist_emptied]). A row is a row: the first one holds what the
    provider gave as the address, which may be empty, and then lets nobody in. *)
Theorem initialized_platform `{UnicodeLower} `{MapOrder} faulty serial p :
  platform_reachable faulty serial p →
  let st := pl_accounts p in
  (initialized st = true → superadmins st ≠ []) ∧
  (serial = true → initialized st = true → whitelist st ≠ []) ∧
  (∀ p' w, platform_step faulty serial p p' → w ∈ whitelist st →
     w ∈ whitelist (pl_accounts p') ∨ ∃ item, DelDelete item ∈ pl_deletions p ∧ ew_ID w = ew_ID item) ∧
  (∀ p', platform_step false serial p p' → initialized st = true →
     initialized (pl_accounts p') = true ∧ superadmins (pl_accounts p') = superadmins st).
Proof.
  intros [Hi Hser]%platform_inv st. split_and!.
  - apply Hi.
  - intros Ht. by apply so_open, Hser.
  - intros p' w Hs Hw. destruct Hs as [st' Hs|cond|db_ok k d st' d' Hk E _]; cbn [pl_accounts]; [|by left|].
    + destruct (account_step_ok _ _ _ Hi Hs) as (_ & [[l ->] _] & _). left. apply elem_of_app. by left.
    + destruct (delete_ok _ _ _ _ _ Hi E) as (_ & _ & _ & [->|(item & -> & ->)]); [by left|].
      destruct (Z.eqb_spec (ew_ID w) (ew_ID item)) as [Ew|Ew].
      * right. exists item. split; [by eapply list_elem_of_lookup_2|done].
      * left. apply list_elem_of_In, filter_In. split; [by apply list_elem_of_In|]. by rewrite (proj2 (Z.eqb_neq _ _) Ew).
  - intros p' Hs. destruct Hs as [st' Hs|cond|db_ok k d st' d' Hk E _]; cbn [pl_accounts]; [|done|].
    + by apply (account_step_ok false).
    + destruct (delete_ok _ _ _ _ _ Hi E) as (_ & E1 & E2 & _). by rewrite E1, E2.
Qed.

(** A login. Until the platform is initialized it makes the user a superadmin
    and lets their address in - and so does one whose read of [is_initialized]
    fails. Afterwards it succeeds only for a user one of whose verified addresses
    is on the whitelist, who is a superadmin only if they were one; it changes no
    setting and no whitelist; and without such an address it changes nothing. *)
Theorem login_admits `{UnicodeLower} `{MapOrder} faulty st u now read_ok lookup_ok write_ok token_ok :
  accounts_reachable faulty st →
  let '(st', r) := handleOAuthLoginSuccess u now read_ok None lookup_ok write_ok token_ok st in
  if read_ok && initialized st then
    settings st' = settings st ∧ whitelist st' = whitelist st ∧ superadmins st' = superadmins st ∧
    (∀ x, r = LoggedIn x → (∃ e, e ∈ au_VerifiedEmails u ∧ whitelisted (ToLower e) st = true) ∧
                           (u_Role x = "superadmin" → u_ID x ∈ superadmins st)) ∧
    ((∀ e, e ∈ au_VerifiedEmails u → whitelisted (ToLower e) st = false) → st' = st ∧ ∃ to, r = Refused to)
  else
    initialized st' = true ∧ whitelisted (ToLower (au_Email u)) st' = true ∧
    (token_ok = true → ∃ x, r = LoggedIn x ∧ u_Role x = "superadmin" ∧ u_ID x ∈ superadmins st').
Proof.
  intros Hr%accounts_inv. destruct (read_ok && initialized st) eqn:Ei; [|by apply bootstrap_spec].
  apply andb_true_iff in Ei as [-> Ei]. pose proof (login_spec u now None lookup_ok write_ok token_ok st Hr Ei) as Hl.
  destruct (handleOAuthLoginSuccess _ _ _ _ _ _ _ _) as [st' r]. destruct Hl as (_ & H1 & H2 & H3 & H4 & H5).
  split_and!; try done. by intros x ->.
Qed.

(** C28. A session. The cookie of a login is accepted for seven days and then
    refused; while it is accepted, the user and the role are those the table has
    at that moment, not those the token carries: settings pass exactly for a
    superadmin, and a user deleted meanwhile, or who cannot be looked up, is refused.
    The secret is the one [GetJWTSecret] gives at that request, whatever it can read;
    looking it up leaves the tables, unless it makes and stores a new one. *)
Theorem session_gates `{Jwt} read_ok write_ok env random user_ok secret x issued now header st :
  fst (GetJWTSecret read_ok write_ok env random st) = secret → GenerateToken secret x issued ≠ "" →
  let '(r, st') := extractUser (GetJWTSecret read_ok write_ok env random) user_ok now (Some (GenerateToken secret x issued)) header st in
  ((issued + session_ttl <= now)%Z → AuthRequired r = Stop 401 ∧ SuperadminRequired r = Stop 401 ∧ OptionalAuth r = Pass None) ∧
  ((now < issued + session_ttl)%Z →
   match (if user_ok then List.find (λ y, (u_ID y =? u_ID x)%Z) (users st) else None) with
   | Some y => AuthRequired r = Pass (Some y) ∧
               SuperadminRequired r = (if (u_Role y =? "superadmin")%string then Pass (Some y) else Stop 403)
   | None => AuthRequired r = Stop 401 ∧ SuperadminRequired r = Stop 401
   end) ∧
  (st' = st ∨ secret = HexEncode random ∧ st' = SetSetting "jwt_secret" secret st).
Proof.
  intros Hs Hne. pose proof (GetJWTSecret_users read_ok write_ok env random st) as Hu.
  assert (Hst : snd (GetJWTSecret read_ok write_ok env random st) = st ∨
    secret = HexEncode random ∧ snd (GetJWTSecret read_ok write_ok env random st) = SetSetting "jwt_secret" secret st).
  { rewrite <- Hs. unfold GetJWTSecret. destruct (negb _); [by left|]. destruct (negb _); [by left|].
    destruct write_ok; [by right|by left]. }
  destruct (GetJWTSecret read_ok write_ok env random st) as [s st'] eqn:Ek. cbn in Hs, Hu, Hst. subst s.
  rewrite (extract_issued _ _ _ _ _ _ _ _ _ Hne Ek), Hu. split; [|split; [|done]]; intros Ht.
  - by rewrite (proj2 (Z.ltb_ge _ _) Ht).
  - rewrite (proj2 (Z.ltb_lt _ _) Ht). destruct (if user_ok then _ else _) as [y|]; [|done]. split; [done|]. cbn.
    by destruct (_ =? _)%string.
Qed.

(** Settings. What is shown has only keys of the list, and of a secret of more
    than four bytes only its first and last two bytes. Saving a form leaves every
    other key - [is_initialized] and [jwt_secret] - as it is, never overwrites a
    secret by its mask, and saving what was shown changes nothing, if the values
    have no spaces around. *)
Theorem settings_form `{MapOrder} st req :
  (∀ k v, adminGetSettings st !! k = Some v →
     allowed_key k = true ∧
     ∃ w, settings st !! k = Some w ∧
          v = if Contains k "secret" && (4 <? slen w)%nat
              then str_take 2 w +:+ "********" +:+ str_drop (slen w - 2) w else w) ∧
  (∀ k, settings (adminSaveSettings req st) !! k =
        match req !! k with
        | Some v => if allowed_key k && negb (Contains k "secret" && Contains v "********")
                    then Some (TrimSpace v) else settings st !! k
        | None => settings st !! k
        end) ∧
  ((∀ k v, settings st !! k = Some v → allowed_key k = true → TrimSpace v = v) →
   settings (adminSaveSettings (adminGetSettings st) st) = settings st).
Proof.
  split_and!.
  - intros k v. rewrite adminGetSettings_lookup. destruct (settings st !! k) as [w|]; [|done]. cbn [mbind option_bind].
    destruct (allowed_key k); [|done]. intros [= <-]. split; [done|]. by exists w.
  - intros k. by destruct (adminSaveSettings_spec req st) as [-> _].
  - apply save_shown.
Qed.

(** ** Witnesses *)

Definition ascii_lower : UnicodeLower := λ s, s.

Definition demo_user : AuthUser := mkAuthUser "github" "7" "alice" "Alice@Example.org" "a.png" ["alice@example.org"].
Definition demo_guest : AuthUser := mkAuthUser "github" "8" "bob" "bob@example.org" "b.png" ["bob@example.org"].
Definition demo_accounts : Accounts :=
  fst (handleOAuthLoginSuccess (H := ascii_lower) demo_user 100 true None true true true (start_accounts "s" "")).

Lemma demo_platform_run : platform_reachable (H := ascii_lower) (H0 := in_key_order) false true (mkPlatform demo_accounts []).
Proof.
  eapply (reach_step _ _ (mkPlatform (start_accounts "s" "") [])); [apply reach_init; by exists "s", ""|].
  apply (plat_accounts (H := ascii_lower) (H0 := in_key_order) false true (mkPlatform (start_accounts "s" "") [])). by apply step_login.
Qed.

(** The order of deletions is a restriction of runs. *)
Lemma platform_any `{UnicodeLower} `{MapOrder} faulty serial p : platform_reachable faulty serial p → platform_reachable faulty false p.
Proof.
  induction 1 as [p Hp|p p' _ IH Hs]; [by apply reach_init|]. eapply reach_step; [exact IH|].
  destruct Hs; by econstructor.
Qed.

Lemma demo_accounts_reachable : accounts_reachable (H := ascii_lower) (H0 := in_key_order) false demo_accounts.
Proof. exists []. eapply platform_any, demo_platform_run. Qed.

Lemma initialized_platform_witness :
  initialized demo_accounts = true ∧ superadmins demo_accounts = [1]%Z ∧
  whitelist demo_accounts ≠ [] ∧ superadmins demo_accounts ≠ [].
Proof.
  assert (Hi : initialized demo_accounts = true) by (vm_compute; reflexivity).
  split; [exact Hi|]. split; [vm_compute; reflexivity|].
  destruct (initialized_platform (H := ascii_lower) (H0 := in_key_order) false true _ demo_platform_run) as (H1 & H2 & _).
  split; [exact (H2 eq_refl Hi)|exact (H1 Hi)].
Defined.

(** Two deletions that overlap: both count two rows, and both delete. *)
Definition delete_statement (k : nat) (p : Platform) : Platform :=
  match pl_deletions p !! k with
  | Some d => let '(st, d') := adminDeleteWhitelist true d (pl_accounts p) in mkPlatform st (<[k := d']> (pl_deletions p))
  | None => p
  end.

Lemma delete_statement_reachable `{UnicodeLower} `{MapOrder} k p :
  platform_reachable false false p → platform_reachable false false (delete_statement k p).
Proof.
  intros Hr. unfold delete_statement. destruct (pl_deletions p !! k) as [d|] eqn:Ek; [|done].
  destruct (adminDeleteWhitelist true d (pl_accounts p)) as [st d'] eqn:E. eapply reach_step; [exact Hr|]. by eapply plat_delete.
Qed.

Definition demo_two_rows : Accounts :=
  fst (adminCreateWhitelist (H := ascii_lower) (Some ("bob@example.org", "")) (new_user demo_user "" "superadmin" 1 0) demo_accounts).
Definition demo_asked_twice : Platform :=
  mkPlatform demo_two_rows [DelFirst (λ w, (ew_Email w =? "bob@example.org")%string); DelFirst (λ w, negb (ew_Email w =? "bob@example.org")%string)].
Definition demo_emptied : Platform := foldl (λ p k, delete_statement k p) demo_asked_twice [0; 1; 0; 1; 0; 1].

Lemma whitelist_emptied :
  platform_reachable (H := ascii_lower) (H0 := in_key_order) false false demo_emptied ∧
  initialized (pl_accounts demo_emptied) = true ∧ whitelist (pl_accounts demo_emptied) = [] ∧
  pl_deletions demo_emptied = [DelAnswered 200; DelAnswered 200].
Proof.
  split; [|by vm_compute]. unfold demo_emptied. cbn [foldl]. do 6 apply delete_statement_reachable.
  eapply (reach_step _ _ (mkPlatform demo_two_rows [DelFirst (λ w, (ew_Email w =? "bob@example.org")%string)])).
  2: { exact (plat_ask (H := ascii_lower) (H0 := in_key_order) false false (mkPlatform demo_two_rows [DelFirst _]) _). }
  eapply (reach_step _ _ (mkPlatform demo_two_rows [])).
  2: { exact (plat_ask (H := ascii_lower) (H0 := in_key_order) false false (mkPlatform demo_two_rows []) _). }
  eapply (reach_step _ _ (mkPlatform demo_accounts [])); [eapply platform_any, demo_platform_run|].
  apply (plat_accounts (H := ascii_lower) (H0 := in_key_order) false false (mkPlatform demo_accounts [])). by apply step_add_email.
Qed.

(** A stranger is refused; if the row could not be read, he would be a superadmin. *)
Lemma login_admits_witness :
  (let '(st', r) := handleOAuthLoginSuccess (H := ascii_lower) demo_guest 200 true None true true true demo_accounts in
   st' = demo_accounts ∧ ∃ to, r = Refused to) ∧
  (let '(st', r) := handleOAuthLoginSuccess (H := ascii_lower) demo_guest 200 false None true true true demo_accounts in
   ∃ x, r = LoggedIn x ∧ u_Role x = "superadmin" ∧ u_ID x ∈ superadmins st').
Proof.
  pose proof (λ read_ok, login_admits (H := ascii_lower) (H0 := in_key_order) false demo_accounts demo_guest 200 read_ok true true true
    demo_accounts_reachable) as Hl.
  split.
  - specialize (Hl true). destruct (handleOAuthLoginSuccess _ _ _ _ _ _ _ _) as [st' r].
    assert (Ei : true && initialized demo_accounts = true) by (vm_compute; reflexivity). rewrite Ei in Hl.
    apply Hl. intros e He%list_elem_of_singleton. subst e. vm_compute. reflexivity.
  - specialize (Hl false). destruct (handleOAuthLoginSuccess _ _ _ _ _ _ _ _) as [st' r]. by apply Hl.
Defined.

Lemma session_gates_witness :
  let x := new_user demo_user "alice@example.org" "admin" 1 100 in
  let session now := fst (extractUser (H := plain_jwt) (GetJWTSecret true true "" "") true now
                            (Some (GenerateToken (H := plain_jwt) "s" x 100)) "" demo_accounts) in
  SuperadminRequired (session 604899%Z) = Pass (head (users demo_accounts)) ∧ AuthRequired (session 604900%Z) = Stop 401.
Proof.
  cbv zeta. set (x := new_user _ _ _ _ _).
  assert (Hne : GenerateToken (H := plain_jwt) "s" x 100 ≠ "") by (vm_compute; discriminate).
  assert (Hs : fst (GetJWTSecret true true "" "" demo_accounts) = "s") by (vm_compute; reflexivity).
  pose proof (λ now, session_gates (H := plain_jwt) true true "" "" true "s" x 100 now "" demo_accounts Hs Hne) as Hg. split.
  - specialize (Hg 604899%Z). destruct (extractUser _ _ _ _ _ _) as [r st']. destruct Hg as (_ & H2 & _).
    specialize (H2 ltac:(vm_compute; reflexivity)).
    destruct (List.find _ _) as [y|] eqn:Ef; [|vm_compute in Ef; discriminate].
    destruct H2 as [_ H2]. cbn [fst]. rewrite H2. vm_compute in Ef. injection Ef as <-. vm_compute. reflexivity.
  - specialize (Hg 604900%Z). destruct (extractUser _ _ _ _ _ _) as [r st']. destruct Hg as (H1 & _). apply H1. vm_compute. discriminate.
Defined.

(** One read that fails, where the environment names no secret, replaces the stored
    one: from then on no session made before is accepted. *)
Example secret_replaced :
  let x := new_user demo_user "alice@example.org" "admin" 1 100 in
  let ask read_ok := extractUser (H := plain_jwt) (GetJWTSecret read_ok true "" "r") true 200
                       (Some (GenerateToken (H := plain_jwt) "s" x 100)) "" in
  fst (ask true demo_accounts) = Ok (default x (head (users demo_accounts))) ∧
  GetSetting "jwt_secret" (snd (ask false demo_accounts)) = HexEncode "r" ∧
  fst (ask true (snd (ask false demo_accounts))) = Err "invalid token".
Proof. by vm_compute. Qed.

(** A user whose row cannot be looked up logs in as nobody. *)
Example lookup_failed :
  let '(x, st) := upsertAdminUser demo_user "alice@example.org" false true 200 demo_accounts in u_ID x = 0%Z ∧ st = demo_accounts.
Proof. by vm_compute. Qed.

Lemma settings_form_witness :
  let st := mkAccounts {[ "jwt_secret" := "k"; "github_client_secret" := "abcdefgh"; "oidc_name" := "sso" ]} [] [] 1 in
  adminGetSettings st = {[ "github_client_secret" := "ab********gh"; "oidc_name" := "sso" ]} ∧
  settings (adminSaveSettings (H := in_key_order) (adminGetSettings st) st) = settings st.
Proof.
  cbv zeta. set (st := mkAccounts _ _ _ _). split; [vm_compute; reflexivity|].
  apply (settings_form (H := in_key_order) st ∅). intros k v Hk _. revert Hk. subst st. cbn [settings].
  rewrite !lookup_insert_Some, lookup_singleton_Some. intros [[<- <-]|[_ [[<- <-]|[_ [<- <-]]]]]; vm_compute; reflexivity.
Defined.
