(* ===== verification/ProxySession.v ===== *)
(** * Proxy credentials ([host/internal/proxy/session.go])

    The in-memory store of ten-minute proxy logins. Its two maps hold pointers
    to the same [Session] objects, so the model keeps the objects in a heap and
    the maps hold their locations. Times are nanoseconds. *)
From S2P Require Import Prelude GoStrings GoNet GoEncoding.

Definition SessionTTL : Z := (10 * 60 * 1000000000)%Z.

Record Session := mkSession {
  ID : string;
  AgentID : string;
  AgentName : string;
  Username : string;
  CreatedBy : Z;
  CreatedAt : Z;
  ExpiresAt : Z;
  passwordHash : string;
  revoked : bool
}.

Record Store := mkStore {
  objs : list Session;
  byID : gmap string nat;
  byUser : gmap string nat
}.

Definition NewStore : Store := mkStore [] ∅ ∅.

(** The pointed-to session; a nil pointer is [None]. *)
Definition deref (st : Store) (p : option nat) : option Session := p ≫= λ l, objs st !! l.

(** [sess.revoked || !now.Before(sess.ExpiresAt)] *)
Definition dead (now : Z) (sess : Session) : bool :=
  revoked sess || negb (now <? ExpiresAt sess)%Z.

Definition set_revoked (s : Session) : Session :=
  mkSession (ID s) (AgentID s) (AgentName s) (Username s) (CreatedBy s) (CreatedAt s) (ExpiresAt s)
    (passwordHash s) true.

Definition set_username (s : Session) (u : string) : Session :=
  mkSession (ID s) (AgentID s) (AgentName s) u (CreatedBy s) (CreatedAt s) (ExpiresAt s)
    (passwordHash s) (revoked s).

(** [delete(s.byID, id); if cur := s.byUser[sess.Username]; cur == sess { delete ... }] *)
Definition unlink (st : Store) (id : string) (p : nat) (sess : Session) : Store :=
  mkStore (objs st) (delete id (byID st))
    (if bool_decide (byUser st !! Username sess = Some p)
     then delete (Username sess) (byUser st) else byUser st).

Definition purge_entry (now : Z) (st : Store) (e : string * nat) : Store :=
  let '(id, p) := e in
  match objs st !! p with
  | Some sess => if dead now sess then unlink st id p sess else st
  | None => st
  end.

Section Store.
Context `{MapOrder} `{GoSort} `{Rand}.

Definition purgeLocked (now : Z) (st : Store) : Store :=
  foldl (purge_entry now) st (range_order (map_to_list (byID st))).

Definition randomHex (k n : nat) : result string :=
  let? b := rand_read k n in Ok (HexEncode b).

(** The loop that allocates a user name: [n] attempts, the next random draw is [k]. *)
Fixpoint alloc_username (n k : nat) (byUser : gmap string nat) : result string :=
  match n with
  | O => Err "failed to allocate proxy username"
  | S n =>
      let? suffix := randomHex k 6 in
      let username := "jp" +:+ suffix in
      match byUser !! username with
      | Some _ => alloc_username n (S k) byUser
      | None => Ok username
      end
  end.

(** [Issue] reads its random bytes from draw [k] on. *)
Definition Issue (k : nat) (now : Z) (agentID agentName : string) (userID : Z) (st : Store)
    : Store * result (Session * string) :=
  match rand_read k 24 with
  | Err e => (st, Err e)
  | Ok passRaw =>
      let password := HexEncode passRaw in
      let sum := Sum256 password in
      match randomHex (S k) 16 with
      | Err e => (st, Err e)
      | Ok id =>
          let sess := mkSession id agentID agentName "" userID now (now + SessionTTL)%Z
                        (HexEncode sum) false in
          let st := purgeLocked now st in
          match byID st !! ID sess with
          | Some _ => (st, Err "failed to allocate proxy session")
          | None =>
              match alloc_username 5 (S (S k)) (byUser st) with
              | Err e => (st, Err e)
              | Ok username =>
                  let sess := set_username sess username in
                  let p := length (objs st) in
                  (mkStore (objs st ++ [sess]) (<[ID sess := p]> (byID st))
                     (<[Username sess := p]> (byUser st)),
                   Ok (sess, password))
              end
          end
      end
  end.

Definition ErrUnauthorized : string := "unauthorized".

Definition Authenticate (now : Z) (username password : string) (st : Store) : result Session :=
  let got := HexEncode (Sum256 password) in
  match deref st (byUser st !! username) with
  | None => Err ErrUnauthorized
  | Some sess =>
      if dead now sess then Err ErrUnauthorized
      else if negb (got =? passwordHash sess)%string then Err ErrUnauthorized
      else Ok sess
  end.

Definition List (now : Z) (st : Store) : Store * list Session :=
  let st := purgeLocked now st in
  let out := omap (λ e : string * nat, objs st !! e.2) (range_order (map_to_list (byID st))) in
  (st, sort_slice (λ a b, (ExpiresAt a <? ExpiresAt b)%Z) out).

Definition Revoke (now : Z) (id : string) (st : Store) : Store * bool :=
  match byID st !! id with
  | None => (st, false)
  | Some p =>
      match objs st !! p with
      | None => (st, false)
      | Some sess =>
          if dead now sess then (st, false)
          else
            let st := mkStore (<[p := set_revoked sess]> (objs st)) (byID st) (byUser st) in
            (unlink st id p (set_revoked sess), true)
      end
  end.
End Store.

(** ** Request parsing *)

Definition ParseBasicAuth (header : string) : option (string * string) :=
  let prefix := "basic " in
  if (slen header <? slen prefix) || negb (EqualFold (str_take (slen prefix) header) prefix) then None
  else
    match B64Decode (TrimSpace (str_drop (slen prefix) header)) with
    | None => None
    | Some raw =>
        let '(user, pass, ok) := Cut raw ":" in
        if negb ok || (user =? "")%string || (pass =? "")%string then None
        else Some (user, pass)
    end.

Definition ParseConnectTarget {W : IntSize} (raw : string) : result (string * Z) :=
  match SplitHostPort (TrimSpace raw) with
  | Err _ => Err "invalid connect target"
  | Ok (host, portStr) =>
      let '(port, err) := Atoi portStr in
      if negb (bool_decide (err = None)) || (port <? 1)%Z || (65535 <? port)%Z || (host =? "")%string
      then Err "invalid connect target"
      else Ok (host, port)
  end.

(** ** Runs of the store *)

Inductive op :=
  | OpIssue (k : nat) (now : Z) (agentID agentName : string) (userID : Z)
  | OpAuthenticate (now : Z) (username password : string)
  | OpList (now : Z)
  | OpRevoke (now : Z) (id : string).

Definition op_now (o : op) : Z :=
  match o with
  | OpIssue _ now _ _ _ | OpAuthenticate now _ _ | OpList now | OpRevoke now _ => now
  end.

Section Runs.
Context `{MapOrder} `{GoSort} `{Rand}.

Definition exec (st : Store) (o : op) : Store :=
  match o with
  | OpIssue k now a n u => fst (Issue k now a n u st)
  | OpAuthenticate _ _ _ => st
  | OpList now => fst (List now st)
  | OpRevoke now id => fst (Revoke now id st)
  end.

Definition run (ops : list op) (st : Store) : Store := foldl exec st ops.
End Runs.

(** ** The abstract view: which session an id or a user name can still use *)

Definition live (now : Z) (st : Store) (id : string) : option Session :=
  s ← deref st (byID st !! id); if dead now s then None else Some s.

(** Both maps index the same, unrevoked objects. *)
Record wf (st : Store) : Prop := {
  wf_id id p : byID st !! id = Some p →
    ∃ s, objs st !! p = Some s ∧ ID s = id ∧ revoked s = false ∧ byUser st !! Username s = Some p;
  wf_user u p : byUser st !! u = Some p →
    ∃ s, objs st !! p = Some s ∧ Username s = u ∧ byID st !! ID s = Some p
}.

Lemma NewStore_wf : wf NewStore.
Proof. split; intros ? ?; simpl; by rewrite lookup_empty. Qed.

Lemma dead_mono now now' s : (now <= now')%Z → dead now' s = false → dead now s = false.
Proof. unfold dead. intros ? [? E]%orb_false_iff. apply orb_false_iff. split; [done|]. go_bool. apply negb_false_iff, Z.ltb_lt. lia. Qed.

Lemma live_Some now st id s :
  live now st id = Some s ↔ ∃ p, byID st !! id = Some p ∧ objs st !! p = Some s ∧ dead now s = false.
Proof.
  unfold live, deref. split.
  - destruct (byID st !! id) as [p|]; simpl; [|done]. destruct (objs st !! p) as [s'|] eqn:E; simpl; [|done].
    destruct (dead now s') eqn:D; [done|]. intros [= ->]. eauto.
  - intros (p & -> & Hp & D). simpl. rewrite Hp. simpl. by rewrite D.
Qed.

Lemma live_ID now st id s : wf st → live now st id = Some s → ID s = id ∧ revoked s = false.
Proof.
  intros Hw (p & Hp & Hs & _)%live_Some. destruct (wf_id _ Hw _ _ Hp) as (s' & Hs' & ? & ? & _).
  by simplify_eq.
Qed.

(** Removing one entry from both maps, the object itself being rewritten. *)
Lemma unlink_wf st o id p sess sess' :
  wf st → byID st !! id = Some p → objs st !! p = Some sess → Username sess' = Username sess →
  (∀ q, q ≠ p → o !! q = objs st !! q) →
  wf (unlink (mkStore o (byID st) (byUser st)) id p sess').
Proof.
  intros Hw Hid Hp Hu Ho. destruct (wf_id _ Hw _ _ Hid) as (s0 & Hs0 & Hid0 & _ & Hus). simplify_eq.
  unfold unlink. cbn [objs byID byUser]. rewrite Hu, bool_decide_true by done. split; cbn [objs byID byUser].
  - intros id' p' [Hne Hl]%lookup_delete_Some. destruct (wf_id _ Hw _ _ Hl) as (s' & Hs' & Hid' & Hr & Hu').
    assert (p' ≠ p) by (intros ->; congruence).
    exists s'. rewrite Ho by done. split_and!; try done.
    rewrite lookup_delete_ne; [done|]. intros E. rewrite <- E in Hu'. congruence.
  - intros u' p' [Hne Hl]%lookup_delete_Some. destruct (wf_user _ Hw _ _ Hl) as (s' & Hs' & Hu' & Hid').
    assert (p' ≠ p) by (intros ->; congruence).
    exists s'. rewrite Ho by done. split_and!; try done.
    rewrite lookup_delete_ne; [done|]. intros E. rewrite <- E in Hid'. congruence.
Qed.

Lemma unlink_live now st o id p sess sess' id' :
  wf st → byID st !! id = Some p → objs st !! p = Some sess →
  (∀ q, q ≠ p → o !! q = objs st !! q) →
  live now (unlink (mkStore o (byID st) (byUser st)) id p sess') id'
  = if decide (id' = id) then None else live now st id'.
Proof.
  intros Hw Hid Hp Ho. unfold live, deref, unlink. cbn [objs byID].
  destruct (decide (id' = id)) as [->|Hne]; [by rewrite lookup_delete_eq|].
  rewrite lookup_delete_ne by done. destruct (byID st !! id') as [p'|] eqn:Hl; simpl; [|done].
  rewrite Ho; [done|]. intros ->. destruct (wf_id _ Hw _ _ Hl) as (s' & ? & ? & _).
  destruct (wf_id _ Hw _ _ Hid) as (? & ? & ? & _). congruence.
Qed.

(** What purging leaves of [byID]. *)
Definition keeps (now : Z) (st : Store) (p : nat) : bool :=
  match objs st !! p with Some s => negb (dead now s) | None => true end.

Section Lemmas.
Context `{MapOrder} `{GoSort} `{Rand}.

Lemma purgeLocked_spec now st :
  wf st →
  wf (purgeLocked now st) ∧ objs (purgeLocked now st) = objs st ∧
  ∀ id, byID (purgeLocked now st) !! id
        = (p ← byID st !! id; if keeps now st p then Some p else None).
Proof.
  intros Hw.
  set (P := λ (st' : Store) (m' : gmap string nat),
    wf st' ∧ objs st' = objs st ∧ ∀ id, byID st' !! id =
      match m' !! id with Some p => if keeps now st p then Some p else None | None => byID st !! id end).
  assert (P (purgeLocked now st) (byID st)) as (? & ? & Hb).
  2: { split_and!; [done..|]. intros id. rewrite Hb. by destruct (byID st !! id). }
  apply foldl_map_inv.
  - split_and!; [done..|]. intros id. by rewrite lookup_empty.
  - intros st' m' id p Hid Hm' Hsub (Hw' & Ho & Hb).
    assert (Hid' : byID st' !! id = Some p) by (by rewrite Hb, Hm').
    assert (Hk : ∀ id', match <[id:=p]> m' !! id' with Some p => if keeps now st p then Some p else None
                     | None => byID st !! id' end
               = if decide (id' = id) then if keeps now st p then Some p else None else byID st' !! id').
    { intros id'. destruct (decide (id' = id)) as [->|]; [by rewrite lookup_insert_eq|].
      by rewrite lookup_insert_ne, Hb. }
    unfold purge_entry, keeps in *. rewrite Ho. destruct (objs st !! p) as [s|] eqn:Hp.
    2: { split_and!; [done..|]. intros id'. rewrite Hk. by case_decide; subst. }
    destruct (dead now s) eqn:D; simpl in Hk.
    + destruct st' as [o bi bu]. cbn in *. subst o.
      split_and!; [by eapply (unlink_wf (mkStore _ _ _)); cbn|done|].
      intros id'. rewrite Hk. cbn. case_decide as E; [subst; by rewrite lookup_delete_eq|].
      by rewrite lookup_delete_ne.
    + split_and!; [done..|]. intros id'. rewrite Hk. by case_decide; subst.
Qed.

Lemma purgeLocked_live now now' st id :
  wf st → (now <= now')%Z → live now' (purgeLocked now st) id = live now' st id.
Proof.
  intros Hw Hle. destruct (purgeLocked_spec now st Hw) as (_ & Ho & Hb).
  unfold live, deref. rewrite Ho, Hb. destruct (byID st !! id) as [p|]; simpl; [|done].
  unfold keeps. destruct (objs st !! p) as [s|] eqn:E; simpl; rewrite ?E; [|done].
  destruct (dead now s) eqn:D; simpl; [|by rewrite E].
  destruct (dead now' s) eqn:D'; [done|]. by rewrite (dead_mono now now') in D.
Qed.

Lemma alloc_username_fresh n k bu u : alloc_username n k bu = Ok u → bu !! u = None.
Proof.
  revert k. induction n as [|n IH]; intros k; simpl; [done|].
  destruct (randomHex k 6) as [sfx|]; simpl; [|done].
  destruct (bu !! ("jp" +:+ sfx)) eqn:E; [apply IH|]. by intros [= <-].
Qed.

(** What a successful [Issue] did. *)
Lemma Issue_Ok k now a n uid st st' s pw :
  Issue k now a n uid st = (st', Ok (s, pw)) →
  let st0 := purgeLocked now st in
  byID st0 !! ID s = None ∧ byUser st0 !! Username s = None ∧
  s = mkSession (ID s) a n (Username s) uid now (now + SessionTTL) (HexEncode (Sum256 pw)) false ∧
  st' = mkStore (objs st0 ++ [s]) (<[ID s := length (objs st0)]> (byID st0))
          (<[Username s := length (objs st0)]> (byUser st0)).
Proof.
  unfold Issue. destruct (rand_read k 24) as [raw|]; [|done].
  destruct (randomHex (S k) 16) as [id|]; [|done]. cbn zeta.
  set (st0 := purgeLocked now st). cbn [ID]. destruct (byID st0 !! id) eqn:Eid; [done|].
  destruct (alloc_username 5 _ _) as [u|] eqn:Eu; [|done]. apply alloc_username_fresh in Eu.
  intros [= <- <- <-]. by simpl.
Qed.

Lemma Issue_Err k now a n uid st st' e :
  Issue k now a n uid st = (st', Err e) → st' = st ∨ st' = purgeLocked now st.
Proof. unfold Issue. go_cases; intros; simplify_eq; auto. Qed.

Lemma add_wf st s :
  wf st → byID st !! ID s = None → byUser st !! Username s = None → revoked s = false →
  wf (mkStore (objs st ++ [s]) (<[ID s := length (objs st)]> (byID st))
        (<[Username s := length (objs st)]> (byUser st))).
Proof.
  intros Hw Hi Hu Hr. split; simpl.
  - intros id p [[<- <-]|[Hne Hl]]%lookup_insert_Some.
    + exists s. rewrite lookup_insert_eq. split_and!; try done. by rewrite lookup_app_r, Nat.sub_diag by lia.
    + destruct (wf_id _ Hw _ _ Hl) as (s' & Hs' & ? & ? & Hu'). exists s'. split_and!; try done.
      * by apply lookup_app_l_Some.
      * rewrite lookup_insert_ne; [done|]. intros E. rewrite <- E in Hu'. congruence.
  - intros u p [[<- <-]|[Hne Hl]]%lookup_insert_Some.
    + exists s. rewrite lookup_insert_eq. split_and!; try done. by rewrite lookup_app_r, Nat.sub_diag by lia.
    + destruct (wf_user _ Hw _ _ Hl) as (s' & Hs' & ? & Hi'). exists s'. split_and!; try done.
      * by apply lookup_app_l_Some.
      * rewrite lookup_insert_ne; [done|]. intros E. rewrite <- E in Hi'. congruence.
Qed.

Lemma Issue_wf k now a n uid st : wf st → wf (fst (Issue k now a n uid st)).
Proof.
  intros Hw. destruct (purgeLocked_spec now st Hw) as (Hw0 & _).
  destruct (Issue k now a n uid st) as [st' [[s pw]|e]] eqn:E; simpl.
  - apply Issue_Ok in E as (Hi & Hu & Hs & ->). apply add_wf; try done. by rewrite Hs.
  - by apply Issue_Err in E as [->| ->].
Qed.

Lemma Revoke_true now id st st' :
  wf st → Revoke now id st = (st', true) →
  is_Some (live now st id) ∧ wf st' ∧
  ∀ t id', live t st' id' = if decide (id' = id) then None else live t st id'.
Proof.
  intros Hw. unfold Revoke. destruct (byID st !! id) as [p|] eqn:Hid; [|done].
  destruct (objs st !! p) as [s|] eqn:Hp; [|done]. destruct (dead now s) eqn:D; [done|].
  intros [= <-].
  assert (Ho : ∀ q, q ≠ p → <[p:=set_revoked s]> (objs st) !! q = objs st !! q)
    by (intros; by apply list_lookup_insert_ne).
  split_and!.
  - exists s. apply live_Some. eauto.
  - by eapply unlink_wf.
  - intros. by eapply unlink_live.
Qed.

Lemma Revoke_false now id st st' :
  Revoke now id st = (st', false) → st' = st ∧ live now st id = None.
Proof.
  unfold Revoke, live, deref. destruct (byID st !! id) as [p|] eqn:Hid; simpl; [|by intros [= ->]].
  destruct (objs st !! p) as [s|] eqn:Hp; simpl; [|by intros [= ->]].
  destruct (dead now s) eqn:D; [by intros [= ->]|done].
Qed.

Lemma exec_wf st o : wf st → wf (exec st o).
Proof.
  intros Hw. destruct o as [k now a n u|now u p|now|now id]; simpl.
  - by apply Issue_wf.
  - done.
  - by apply purgeLocked_spec.
  - destruct (Revoke now id st) as [st' []] eqn:E; simpl.
    + by apply Revoke_true in E as (_ & ? & _).
    + by apply Revoke_false in E as [-> _].
Qed.

Lemma run_wf ops st : wf st → wf (run ops st).
Proof. revert st. induction ops as [|o ops IH]; intros st; [done|]. intros. by apply IH, exec_wf. Qed.

Lemma run_NewStore_wf ops : wf (run ops NewStore).
Proof. apply run_wf, NewStore_wf. Qed.

(** [Authenticate] in terms of the abstract view. *)
Lemma Authenticate_live st now u p s :
  wf st →
  Authenticate now u p st = Ok s ↔
  live now st (ID s) = Some s ∧ Username s = u ∧ passwordHash s = HexEncode (Sum256 p).
Proof.
  intros Hw. unfold Authenticate, deref. split.
  - destruct (byUser st !! u) as [l|] eqn:Hu; simpl; [|done].
    destruct (wf_user _ Hw _ _ Hu) as (s' & Hs' & Hus & Hid). rewrite Hs'.
    destruct (dead now s') eqn:D; [done|]. destruct (String.eqb_spec (HexEncode (Sum256 p)) (passwordHash s')); [|done].
    intros [= ->]. split_and!; try done. apply live_Some. eauto.
  - intros ((l & Hl & Hs & D)%live_Some & <- & E).
    destruct (wf_id _ Hw _ _ Hl) as (s' & Hs' & _ & _ & Hu). rewrite Hs in Hs'. injection Hs' as <-.
    rewrite Hu. simpl. rewrite Hs, D, E. by rewrite String.eqb_refl.
Qed.

Lemma Authenticate_dichotomy st now u p :
  (∃ s, Authenticate now u p st = Ok s) ∨ Authenticate now u p st = Err ErrUnauthorized.
Proof. unfold Authenticate. go_cases; eauto. Qed.

Lemma add_live t st s id :
  wf st → byID st !! ID s = None →
  live t (mkStore (objs st ++ [s]) (<[ID s := length (objs st)]> (byID st))
        (<[Username s := length (objs st)]> (byUser st))) id
  = if decide (id = ID s) then (if dead t s then None else Some s) else live t st id.
Proof.
  intros Hw Hi. unfold live, deref. simpl. destruct (decide (id = ID s)) as [->|Hne].
  - rewrite lookup_insert_eq. simpl. by rewrite lookup_app_r, Nat.sub_diag by lia.
  - rewrite lookup_insert_ne by done. destruct (byID st !! id) as [p|] eqn:Hl; simpl; [|done].
    destruct (wf_id _ Hw _ _ Hl) as (s' & Hs' & _). by erewrite lookup_app_l_Some, Hs' by done.
Qed.

(** No operation at a time up to [t], short of its revocation, touches a
    session that is live at [t]. *)
Lemma exec_live t st o s :
  wf st → (op_now o <= t)%Z → (∀ now, o ≠ OpRevoke now (ID s)) →
  live t st (ID s) = Some s → live t (exec st o) (ID s) = Some s.
Proof.
  intros Hw Ht Hr Hl. destruct o as [k now a n u|now u p|now|now id]; simpl in *.
  - destruct (purgeLocked_spec now st Hw) as (Hw0 & _).
    rewrite <- (purgeLocked_live now) in Hl by done.
    destruct (Issue k now a n u st) as [st' [[s' pw]|e]] eqn:E; simpl.
    + apply Issue_Ok in E as (Hi & Hu & Hs & ->). rewrite add_live by done.
      destruct (decide (ID s = ID s')) as [E|]; [|done]. unfold live, deref in Hl.
      rewrite E, Hi in Hl. done.
    + apply Issue_Err in E as [->| ->]; [|done]. by rewrite purgeLocked_live in Hl.
  - done.
  - by rewrite purgeLocked_live.
  - destruct (Revoke now id st) as [st' []] eqn:E; simpl.
    + apply Revoke_true in E as (_ & _ & E); [|done]. rewrite E. destruct (decide (ID s = id)) as [<-|]; [|done].
      by destruct (Hr now).
    + by apply Revoke_false in E as [-> _].
Qed.

Lemma run_live t ops st s :
  wf st → Forall (λ o, (op_now o <= t)%Z) ops → Forall (λ o, ∀ now, o ≠ OpRevoke now (ID s)) ops →
  live t st (ID s) = Some s → live t (run ops st) (ID s) = Some s.
Proof.
  revert st. induction ops as [|o ops IH]; intros st Hw Ht Hr Hl; [done|].
  apply Forall_cons in Ht as [Ht Hts], Hr as [Hr Hrs].
  apply IH; [by apply exec_wf|done..|by apply exec_live].
Qed.

(** What was issued authenticates until it expires or is revoked. *)
Lemma issued_authenticates ops0 k t0 a n uid st s pw ops t p :
  Issue k t0 a n uid (run ops0 NewStore) = (st, Ok (s, pw)) →
  Forall (λ o, (op_now o <= t)%Z) ops →
  Forall (λ o, ∀ now, o ≠ OpRevoke now (ID s)) ops →
  (t < t0 + SessionTTL)%Z →
  Authenticate t (Username s) p (run ops st)
  = if (HexEncode (Sum256 p) =? HexEncode (Sum256 pw))%string then Ok s else Err ErrUnauthorized.
Proof.
  intros Hi Ht Hr Hlt. pose proof (run_NewStore_wf ops0) as Hw.
  pose proof (Issue_wf k t0 a n uid _ Hw) as Hw'. rewrite Hi in Hw'. simpl in Hw'.
  apply Issue_Ok in Hi as (Hid & Hu & Hs & ->).
  assert (Hl : live t (run ops (mkStore (objs (purgeLocked t0 (run ops0 NewStore)) ++ [s])
      (<[ID s:=length (objs (purgeLocked t0 (run ops0 NewStore)))]> (byID (purgeLocked t0 (run ops0 NewStore))))
      (<[Username s:=length (objs (purgeLocked t0 (run ops0 NewStore)))]>
         (byUser (purgeLocked t0 (run ops0 NewStore)))))) (ID s) = Some s).
  { apply run_live; [done..|]. rewrite add_live by (done || by apply purgeLocked_spec).
    rewrite decide_True by done. rewrite Hs. unfold dead. simpl.
    by rewrite (proj2 (Z.ltb_lt _ _) Hlt). }
  set (st' := run ops _) in *. assert (Hwf : wf st') by by apply run_wf.
  destruct (String.eqb_spec (HexEncode (Sum256 p)) (HexEncode (Sum256 pw))) as [E|E].
  - apply Authenticate_live; [done|]. split_and!; [done..|]. by rewrite Hs, E.
  - destruct (Authenticate_dichotomy st' t (Username s) p) as [[s' Ha]|]; [|done].
    pose proof Ha as (Hl' & Hu' & Hp')%Authenticate_live; [|done].
    apply live_Some in Hl as (q & Hq & Hsq & _), Hl' as (q' & Hq' & Hsq' & _).
    destruct (wf_id _ Hwf _ _ Hq) as (x & Hx & _ & _ & Hux), (wf_id _ Hwf _ _ Hq') as (y & Hy & _ & _ & Huy).
    simplify_eq. rewrite Hu' in Huy. simplify_eq. rewrite Hs in Hp'. simpl in Hp'. congruence.
Qed.

(** ** Properties *)

(** C13. Lifetime of a credential: whatever the store did before and does after
    issuing it (other logins, listings, issues, revocations of other ids), the
    user name and password returned by [Issue] authenticate as that session at
    every time before its expiry, ten minutes after the issue, and no other
    password does unless it has the same SHA-256 sum. *)
Theorem credential_lifetime ops0 k t0 a n uid st s pw ops t p :
  Issue k t0 a n uid (run ops0 NewStore) = (st, Ok (s, pw)) →
  Forall (λ o, (op_now o <= t)%Z) ops →
  Forall (λ o, ∀ now, o ≠ OpRevoke now (ID s)) ops →
  (t < t0 + SessionTTL)%Z →
  Authenticate t (Username s) p (run ops st)
  = if (HexEncode (Sum256 p) =? HexEncode (Sum256 pw))%string then Ok s else Err ErrUnauthorized.
Proof. apply issued_authenticates. Qed.

(** [Authenticate] lets in exactly the live sessions: it succeeds with a
    session if and only if the store still maps the session's id to it, it is
    neither revoked nor expired, and both user name and password hash match. *)
Theorem Authenticate_iff ops now u p s :
  let st := run ops NewStore in
  Authenticate now u p st = Ok s ↔
  live now st (ID s) = Some s ∧ revoked s = false ∧ (now < ExpiresAt s)%Z ∧
  Username s = u ∧ passwordHash s = HexEncode (Sum256 p).
Proof.
  intros st. pose proof (run_NewStore_wf ops) as Hw. rewrite Authenticate_live by done. split.
  - intros (Hl & ? & ?). pose proof Hl as (_ & _ & _ & D)%live_Some. unfold dead in D.
    apply orb_false_iff in D as [? D]. go_bool. done.
  - tauto.
Qed.

(** [Revoke] succeeds on exactly the live ids; afterwards no login yields
    that session's id, every other session authenticates as before, and a
    refused revocation changes nothing. *)
Theorem Revoke_exact ops now id :
  let st := run ops NewStore in
  let '(st', ok) := Revoke now id st in
  ok = bool_decide (is_Some (live now st id)) ∧
  (ok = false → st' = st) ∧
  (ok = true → ∀ t u p s, Authenticate t u p st' = Ok s ↔ ID s ≠ id ∧ Authenticate t u p st = Ok s).
Proof.
  intros st. pose proof (run_NewStore_wf ops) as Hw. fold st in Hw.
  destruct (Revoke now id st) as [st' []] eqn:E.
  - destruct (Revoke_true _ _ _ _ Hw E) as (Hl & Hw' & Hl'). rewrite bool_decide_true by done.
    split_and!; [done..|]. intros _ t u p s. rewrite !Authenticate_live, Hl' by done.
    case_decide as D; [subst|]; split; intros ?; destruct_and?; done.
  - apply Revoke_false in E as [-> E]. rewrite E. split_and!; try done.
Qed.

#[local] Instance expires_weak_order : WeakOrder (λ a b, (ExpiresAt a <? ExpiresAt b)%Z).
Proof. split; intros *; rewrite ?Z.ltb_lt, ?Z.ltb_ge; lia. Qed.

Lemma omap_ids (o : list Session) (l : list (string * nat)) :
  Forall (λ e, ∃ s, o !! e.2 = Some s ∧ ID s = e.1) l → ID <$> omap (λ e, o !! e.2) l = l.*1.
Proof.
  induction 1 as [|[id p] l (s & Hs & Hid) _ IH]; [done|]. simpl in *. rewrite Hs. cbn.
  f_equal; [done|exact IH].
Qed.

(** [List] returns each live session once, and only those, by increasing
    expiry. *)
Theorem List_live ops now :
  let st := run ops NewStore in
  let '(st', l) := List now st in
  (∀ s, s ∈ l ↔ live now st (ID s) = Some s) ∧ NoDup (ID <$> l) ∧
  StronglySorted (λ a b, (ExpiresAt a <= ExpiresAt b)%Z) l ∧
  (∀ t id, (now <= t)%Z → live t st' id = live t st id).
Proof.
  intros st. pose proof (run_NewStore_wf ops) as Hw. fold st in Hw. cbn [List].
  destruct (purgeLocked_spec now st Hw) as (Hw' & Ho & Hb). set (st' := purgeLocked now st) in *.
  set (e := range_order (map_to_list (byID st'))).
  set (out := omap (λ e : string * nat, objs st' !! e.2) e).
  assert (Hall : Forall (λ e, ∃ s, objs st' !! e.2 = Some s ∧ ID s = e.1) e).
  { apply Forall_forall. intros [id p] Hin. unfold e in Hin.
    apply elem_of_range, elem_of_map_to_list in Hin. destruct (wf_id _ Hw' _ _ Hin) as (s & ? & ? & _). eauto. }
  split_and!.
  - intros s. rewrite sort_slice_perm. unfold out. rewrite list_elem_of_omap. split.
    + intros ([id p] & Hin & Hs). unfold e in Hin. apply elem_of_range, elem_of_map_to_list in Hin.
      destruct (wf_id _ Hw' _ _ Hin) as (s' & Hs' & <- & _). simplify_eq/=.
      apply live_Some. exists p. rewrite Hb in Hin. apply bind_Some in Hin as (p' & Hp & Hk).
      unfold keeps in Hk. rewrite Ho in Hs. destruct (objs st !! p') as [s'|] eqn:E.
      * destruct (dead now s') eqn:D; [done|]. by simplify_eq/=.
      * by simplify_eq.
    + intros (p & Hp & Hs & D)%live_Some. exists (ID s, p). simpl. rewrite Ho. split; [|done].
      unfold e. apply elem_of_range, elem_of_map_to_list. rewrite Hb, Hp. simpl. unfold keeps. by rewrite Hs, D.
  - rewrite sort_slice_perm. unfold out. rewrite omap_ids by done. unfold e.
    rewrite range_order_perm. apply NoDup_fst_map_to_list.
  - eapply StronglySorted_weaken; [|apply (sort_slice_sorted _ out), expires_weak_order].
    intros a b. simpl. apply Z.ltb_ge.
  - intros. by apply purgeLocked_live.
Qed.
End Lemmas.

Lemma b64_printable s : all_bytes printable (B64Encode s) = true.
Proof.
  assert (Hp : ∀ v i, printable (b64_out v i) = true).
  { intros v i. unfold b64_out.
    assert (Hall : Forall (λ d, printable (b64_char d) = true) (seqZ 0 64)).
    { apply (bool_decide_unpack _). vm_compute. exact I. }
    rewrite Forall_forall in Hall. apply Hall, elem_of_seqZ.
    pose proof (Z.mod_pos_bound (v / 64 ^ (3 - i)) 64). lia. }
  induction s as [|a|a b|a b c s IH] using string_ind3; [done|..]; cbn [B64Encode all_bytes];
    rewrite !Hp; try done.
Qed.

(** Proxy-Authorization round trip: the Basic header of any user name
    without a colon and any non-empty password, in any letter case of the scheme,
    parses back to both; and whatever parses has two non-empty parts of which
    the first holds no colon. *)
Theorem ParseBasicAuth_roundtrip scheme u p :
  slen scheme = 6 → EqualFold scheme "basic " = true →
  no_byte ":" u → u ≠ "" → p ≠ "" →
  ParseBasicAuth (scheme +:+ B64Encode (u +:+ ":" +:+ p)) = Some (u, p).
Proof.
  intros Hl He Hu Hune Hpne. unfold ParseBasicAuth. cbn [slen].
  rewrite slen_app, Hl, <- Hl, str_take_app, str_drop_app, Hl, He.
  destruct (Nat.ltb_spec (6 + slen (B64Encode (u +:+ ":" +:+ p))) 6); [lia|]. cbn [negb orb].
  rewrite TrimSpace_printable, B64Decode_Encode by apply b64_printable.
  unfold Cut. change (":" +:+ p) with (String ":" p).
  rewrite IndexByte_app, str_take_app, str_drop_S_app by done. cbn [negb orb].
  by apply String.eqb_neq in Hune as ->, Hpne as ->.
Qed.

Lemma ParseBasicAuth_roundtrip_witness :
  ParseBasicAuth "Basic anAwYTFiOnMzY3JldA==" = Some ("jp0a1b", "s3cret").
Proof.
  change "Basic anAwYTFiOnMzY3JldA==" with ("Basic " +:+ B64Encode ("jp0a1b" +:+ ":" +:+ "s3cret")).
  by apply (ParseBasicAuth_roundtrip "Basic " "jp0a1b" "s3cret").
Defined.

Lemma ParseConnectTarget_Ok {W : IntSize} raw h port :
  ParseConnectTarget raw = Ok (h, port) → host_ok h ∧ h ≠ "" ∧ (1 <= port <= 65535)%Z.
Proof.
  unfold ParseConnectTarget. destruct (SplitHostPort _) as [[h' p']|] eqn:E; [|done].
  apply SplitHostPort_ok in E as [? _]. destruct (Atoi p') as [n e].
  destruct (_ || _) eqn:C; [done|]. intros [= <- <-]. go_bool. split_and!; try done; lia.
Qed.

(** A host that is not empty and a port that fits, written with a colon between. *)
Lemma ParseConnectTarget_spec {W : IntSize} raw h port :
  ParseConnectTarget raw = Ok (h, port) ↔
  ∃ portStr, SplitHostPort (TrimSpace raw) = Ok (h, portStr) ∧ Atoi portStr = (port, None) ∧ h ≠ "" ∧ (1 <= port <= 65535)%Z.
Proof.
  unfold ParseConnectTarget. split.
  - destruct (SplitHostPort _) as [[h' p']|]; [|done]. destruct (Atoi p') as [n e] eqn:Ea.
    destruct (_ || _) eqn:C; [done|]. intros [= <- <-]. go_bool. exists p'. subst e. split_and!; try done; lia.
  - intros (p' & -> & -> & Hh%String.eqb_neq & Hp). rewrite bool_decide_eq_true_2 by done. cbn [negb orb].
    by rewrite (proj2 (Z.ltb_ge port 1)), (proj2 (Z.ltb_ge 65535 port)), Hh by lia.
Qed.

Lemma ParseConnectTarget_Join {W : IntSize} h port :
  (32 <= int_size)%Z → host_ok h → h ≠ "" → all_bytes printable h = true → (1 <= port <= 65535)%Z →
  ParseConnectTarget (JoinHostPort h (Itoa port)) = Ok (h, port).
Proof.
  intros HW Hh Hne Hp Hport. unfold ParseConnectTarget.
  destruct (Itoa_digits port) as [Hd _]; [lia|].
  assert (Hpd : all_bytes printable (Itoa port) = true) by (eapply all_bytes_impl; [exact digit_printable|done]).
  rewrite TrimSpace_printable.
  2: { unfold JoinHostPort. by destruct (IndexByte h ":"); rewrite !all_bytes_app, Hp, Hpd. }
  rewrite SplitHostPort_Join; [|done|].
  2: { split_and!; (eapply all_bytes_no_byte; [|exact Hd]); done. }
  rewrite Atoi_Itoa.
  - apply String.eqb_neq in Hne as ->.
    rewrite (proj2 (Z.ltb_ge port 1)), (proj2 (Z.ltb_ge 65535 port)) by lia. done.
  - lia.
  - unfold int_max. assert (2 ^ 31 <= 2 ^ (int_size - 1))%Z by (apply Z.pow_le_mono_r; lia). lia.
Qed.

(** ** Witnesses *)

(** An oracle whose [k]-th draw is [n] bytes of value [k]. *)
Definition counting_rand : Rand := λ k n, Ok (bytes (repeat (N.of_nat k) n)).

Lemma credential_lifetime_witness :
  let _ := in_key_order in let _ := go_insertion_sort in let _ := counting_rand in
  ∃ st s pw, Issue 0 0 "a" "A" 1 (run [] NewStore) = (st, Ok (s, pw)) ∧
  Username s = "jp020202020202" ∧
  Authenticate 599999999999 (Username s) pw (run [OpList 5; OpIssue 7 9 "b" "B" 2; OpRevoke 10 "x"] st)
  = if (HexEncode (Sum256 pw) =? HexEncode (Sum256 pw))%string then Ok s else Err ErrUnauthorized.
Proof.
  intros ? ? ?. do 3 eexists. split; [vm_compute; reflexivity|]. split; [reflexivity|].
  eapply (credential_lifetime [] 0 0 "a" "A" 1).
  - vm_compute. reflexivity.
  - repeat (constructor; [done|]). constructor.
  - repeat (constructor; [intros ? [=]|]). constructor.
  - done.
Defined.
