(* ===== verification/ProxyService.v ===== *)
(** * The Host side of proxy tunnels ([host/internal/proxy/service.go], [tunnel.go])

    The tunnel table, the messages it exchanges with the probe, the CONNECT and
    WebSocket entry points, and the goroutines that move bytes to the client.
    The goroutines meet in critical sections and channel operations: these are
    the steps of [step], and every interleaving of them is a run. Tunnels are
    objects shared by the table and the goroutines, so they live in a heap. *)
From S2P Require Import Prelude GoStrings GoNet GoEncoding GoFloat GoJson Protocol ProxySession.

Definition maxTunnelsPerSession : nat := 64.
Definition proxyChunkSize : Z := (16 * 1024)%Z.
Definition inboundQueue : nat := 32.

(** A tunnel object. [t_opened] is the one-slot channel of the dial result,
    [t_inbound] the channel of chunks for the client. The last four fields are
    history: what was ever put in [t_inbound], what had been when [t_done] was
    closed, what the client was given, and how the writer goroutine ended. *)
Record tunnel := mkTunnel {
  t_id : string;
  t_agentID : string;
  t_sessionID : string;
  t_opened : option ProxyOpenResultPayload;
  t_inbound : list string;
  t_done : bool;
  t_accepted : list string;
  t_at_done : list string;
  t_written : list string;
  t_exit : option bool
}.

Definition newTunnel (id agentID sessionID : string) : tunnel :=
  mkTunnel id agentID sessionID None [] false [] [] [] None.

Definition set_opened (o : option ProxyOpenResultPayload) (t : tunnel) : tunnel :=
  mkTunnel (t_id t) (t_agentID t) (t_sessionID t) o (t_inbound t) (t_done t)
    (t_accepted t) (t_at_done t) (t_written t) (t_exit t).
(** [t.close()]: closing twice has no effect. *)
Definition close_tunnel (t : tunnel) : tunnel :=
  mkTunnel (t_id t) (t_agentID t) (t_sessionID t) (t_opened t) (t_inbound t) true
    (t_accepted t) (if t_done t then t_at_done t else t_accepted t) (t_written t) (t_exit t).
(** [t.inbound <- raw] *)
Definition enqueue (raw : string) (t : tunnel) : tunnel :=
  mkTunnel (t_id t) (t_agentID t) (t_sessionID t) (t_opened t) (t_inbound t ++ [raw]) (t_done t)
    (t_accepted t ++ [raw]) (t_at_done t) (t_written t) (t_exit t).
(** [chunk := <-t.inbound; client.Write(chunk)], which may fail. *)
Definition write_head (ok : bool) (t : tunnel) : tunnel :=
  match t_inbound t with
  | [] => t
  | c :: rest =>
      mkTunnel (t_id t) (t_agentID t) (t_sessionID t) (t_opened t) rest (t_done t) (t_accepted t)
        (t_at_done t) (if ok then t_written t ++ [c] else t_written t) (if ok then t_exit t else Some false)
  end.
Definition writer_exit (t : tunnel) : tunnel :=
  mkTunnel (t_id t) (t_agentID t) (t_sessionID t) (t_opened t) (t_inbound t) (t_done t)
    (t_accepted t) (t_at_done t) (t_written t) (Some true).

(** The service: its table, the tunnel heap, the goroutines inside a [select]
    or between two critical sections, and the messages given to the bridge. *)
Record Service := mkService {
  tunnels : gmap string nat;
  tobjs : list tunnel;
  pending : list (nat * string);
  closing : list (nat * string * bool);
  sent : list (string * Payload)
}.

Definition NewService : Service := mkService ∅ [] [] [] [].

Definition on_tunnel (p : nat) (f : tunnel → tunnel) (s : Service) : Service :=
  mkService (tunnels s) (alter f p (tobjs s)) (pending s) (closing s) (sent s).

(** [s.tunnel(id)] *)
Definition lookup_tunnel (id : string) (s : Service) : option (nat * tunnel) :=
  p ← tunnels s !! id; t ← tobjs s !! p; Some (p, t).

Definition session_count (sid : string) (s : Service) : nat :=
  size (filter (λ e : string * nat, t_sessionID <$> tobjs s !! e.2 = Some sid) (tunnels s)).

(** [addTunnel] of a new tunnel. *)
Definition addTunnel (t : tunnel) (s : Service) : Service * result nat :=
  if (maxTunnelsPerSession <=? session_count (t_sessionID t) s)%nat
  then (s, Err "too many tunnels")
  else
    let p := length (tobjs s) in
    (mkService (<[t_id t := p]> (tunnels s)) (tobjs s ++ [t]) (pending s) (closing s) (sent s), Ok p).

(** [finish], split at its unlock: the critical section, then close and notify. *)
Definition finish_take (id reason : string) (notify : bool) (s : Service) : Service :=
  match tunnels s !! id with
  | None => s
  | Some p =>
      mkService (delete id (tunnels s)) (tobjs s) (pending s) (closing s ++ [(p, reason, notify)]) (sent s)
  end.

Definition finish_close (bridge : bool) (p : nat) (reason : string) (notify : bool) (s : Service) : Service :=
  let s := on_tunnel p close_tunnel s in
  match tobjs s !! p with
  | Some t =>
      if notify && bridge then
        mkService (tunnels s) (tobjs s) (pending s) (closing s)
          (sent s ++ [(t_agentID t, PProxyClose (mkProxyClose (t_id t) reason))])
      else s
  | None => s
  end.

(** [bridgeSend]: [bridge] is whether the probe is online and, if so, what the
    hub's [Send] returned; [None] is a service without a bridge. *)
Definition bridgeSend (bridge : option (bool * result unit)) (agentID : string) (msg : Payload)
    (s : Service) : Service * result unit :=
  match bridge with
  | Some (true, Ok _) =>
      (mkService (tunnels s) (tobjs s) (pending s) (closing s) (sent s ++ [(agentID, msg)]), Ok tt)
  | Some (true, Err e) => (s, Err e)
  | _ => (s, Err "agent offline")
  end.

(** One read of the goroutine of [pump] that reads from the client: [data] with
    or without an error; the flag says whether it reads on. *)
Definition pump_read (p : nat) (data : string) (err : bool) (bridge : option (bool * result unit))
    (s : Service) : Service * bool :=
  match tobjs s !! p with
  | None => (s, false)
  | Some t =>
      let '(s, r) :=
        if (data =? "")%string then (s, Ok tt)
        else bridgeSend bridge (t_agentID t) (PProxyData (mkProxyData (t_id t) (B64Encode data))) s in
      match r with
      | Err _ => (finish_take (t_id t) "send failed" false s, false)
      | Ok _ => if err then (finish_take (t_id t) "client closed" true s, false) else (s, true)
      end
  end.

(** What [HandleAgent] does with a message once it has decoded it and looked
    the tunnel up. *)
Inductive agent_action :=
  | Ignore
  | Opened (p : nat) (res : ProxyOpenResultPayload)
  | Deliver (p : nat) (raw : string)
  | Finish (id reason : string) (notify : bool).

(** [t == nil || t.agentID != agentID] *)
Definition own_tunnel (agentID id : string) (s : Service) : option (nat * tunnel) :=
  match lookup_tunnel id s with
  | Some (p, t) => if (t_agentID t =? agentID)%string then Some (p, t) else None
  | None => None
  end.

Section HandleAgent.

Definition HandleAgent (agentID : string) (env : Envelope) (s : Service) : agent_action :=
  if (env_Type env =? TypeProxyOpenResult)%string then
    match decode (A := ProxyOpenResultPayload) (env_Payload env) with
    | None => Ignore
    | Some res =>
        if (or_TunnelID res =? "")%string then Ignore
        else match own_tunnel agentID (or_TunnelID res) s with
             | None => Ignore
             | Some (p, _) => Opened p res
             end
    end
  else if (env_Type env =? TypeProxyData)%string then
    match decode (A := ProxyDataPayload) (env_Payload env) with
    | None => Ignore
    | Some msg =>
        if (pd_TunnelID msg =? "")%string || (pd_Data msg =? "")%string then Ignore
        else match own_tunnel agentID (pd_TunnelID msg) s with
             | None => Ignore
             | Some (p, t) =>
                 match B64Decode (pd_Data msg) with
                 | None => Finish (t_id t) "bad payload" true
                 | Some raw =>
                     if (slen raw =? 0)%nat || (proxyChunkSize * 4 <? Z.of_nat (slen raw))%Z
                     then Finish (t_id t) "bad payload" true
                     else Deliver p raw
                 end
             end
    end
  else if (env_Type env =? TypeProxyClose)%string then
    match decode (A := ProxyClosePayload) (env_Payload env) with
    | None => Ignore
    | Some msg =>
        if (pc_TunnelID msg =? "")%string then Ignore
        else match own_tunnel agentID (pc_TunnelID msg) s with
             | None => Ignore
             | Some (_, t) => Finish (t_id t) "agent closed" false
             end
    end
  else Ignore.

Definition act (a : agent_action) (s : Service) : Service :=
  match a with
  | Ignore => s
  | Opened p res =>
      on_tunnel p (λ t, match t_opened t with None => set_opened (Some res) t | Some _ => t end) s
  | Deliver p raw => mkService (tunnels s) (tobjs s) (pending s ++ [(p, raw)]) (closing s) (sent s)
  | Finish id reason notify => finish_take id reason notify s
  end.
End HandleAgent.

(** ** Interleavings *)

Definition drop_pending (l1 l2 : list (nat * string)) (s : Service) : Service :=
  mkService (tunnels s) (tobjs s) (l1 ++ l2) (closing s) (sent s).

Section Step.

(** The steps a goroutine of the service takes by itself. *)
Inductive local_step (s : Service) : Service → Prop :=
  (* case t.inbound <- raw *)
  | local_deliver p raw l1 l2 t :
      pending s = l1 ++ (p, raw) :: l2 → tobjs s !! p = Some t →
      (length (t_inbound t) < inboundQueue)%nat →
      local_step s (on_tunnel p (enqueue raw) (drop_pending l1 l2 s))
  (* case <-t.done *)
  | local_deliver_done p raw l1 l2 t :
      pending s = l1 ++ (p, raw) :: l2 → tobjs s !! p = Some t → t_done t = true →
      local_step s (drop_pending l1 l2 s)
  (* case <-timer.C *)
  | local_deliver_timer p raw l1 l2 t :
      pending s = l1 ++ (p, raw) :: l2 → tobjs s !! p = Some t →
      local_step s (finish_take (t_id t) "slow consumer" true (drop_pending l1 l2 s))
  (* any caller of finish: DropAgent, dropSession, openTunnel, pump, the entry points *)
  | local_finish id reason notify : local_step s (finish_take id reason notify s)
  | local_finish_close p reason notify l1 l2 bridge :
      closing s = l1 ++ (p, reason, notify) :: l2 →
      local_step s (finish_close bridge p reason notify
                (mkService (tunnels s) (tobjs s) (pending s) (l1 ++ l2) (sent s)))
  (* writeToClient: one chunk, from either loop *)
  | local_write p t c rest :
      tobjs s !! p = Some t → t_exit t = None → t_inbound t = c :: rest →
      local_step s (on_tunnel p (write_head true) s)
  | local_write_fail p t c rest :
      tobjs s !! p = Some t → t_exit t = None → t_inbound t = c :: rest →
      local_step s (finish_take (t_id t) "client write failed" true (on_tunnel p (write_head false) s))
  (* writeToClient: the drain loop finds the queue empty *)
  | local_writer_exit p t :
      tobjs s !! p = Some t → t_exit t = None → t_done t = true → t_inbound t = [] →
      local_step s (on_tunnel p writer_exit s).

(** And with the clients and the messages of the probes. *)
Inductive step (s : Service) : Service → Prop :=
  (* openTunnel: newTunnel and addTunnel *)
  | step_open id agentID sessionID : step s (fst (addTunnel (newTunnel id agentID sessionID) s))
  (* openTunnel: res := <-t.opened *)
  | step_opened_recv p : step s (on_tunnel p (set_opened None) s)
  (* openTunnel's request, and what pump's reader reads *)
  | step_send bridge agentID msg : step s (fst (bridgeSend bridge agentID msg s))
  (* HandleAgent up to its select *)
  | step_agent agentID env : step s (act (HandleAgent agentID env s) s)
  (* the other goroutines *)
  | step_local s' : local_step s s' → step s s'.

Definition service_reachable : Service → Prop := reachable (λ s, s = NewService) step.
End Step.

(** [DropAgent] and [dropSession] collect ids under the lock, then finish each. *)
Section Drop.
Context `{MapOrder}.

Definition tunnel_ids (keep : tunnel → bool) (s : Service) : list string :=
  omap (λ e : string * nat, t ← tobjs s !! e.2; if keep t then Some e.1 else None)
    (range_order (map_to_list (tunnels s))).

Definition DropAgent (agentID : string) (s : Service) : Service :=
  foldl (λ s id, finish_take id "agent disconnected" false s) s
    (tunnel_ids (λ t, (t_agentID t =? agentID)%string) s).

Definition dropSession (sessionID : string) (s : Service) : Service :=
  foldl (λ s id, finish_take id "revoked" true s) s
    (tunnel_ids (λ t, (t_sessionID t =? sessionID)%string) s).

(** [Service.Revoke]: the credential, then its tunnels. *)
Definition ServiceRevoke (now : Z) (id : string) (st : Store) (s : Service) : Store * Service * bool :=
  let '(st, ok) := Revoke now id st in
  if ok then (st, dropSession id s, true) else (st, s, false).
End Drop.

(** ** Invariants *)

(** The flow of one tunnel's bytes. *)
Record flow_inv (t : tunnel) : Prop := {
  flow_bound : (length (t_inbound t) <= inboundQueue)%nat;
  flow_order : t_written t `prefix_of` t_accepted t;
  flow_queue : t_exit t = None → t_accepted t = t_written t ++ t_inbound t;
  flow_done : t_at_done t `prefix_of` t_accepted t;
  flow_exit : t_exit t = Some true → t_done t = true ∧ t_at_done t `prefix_of` t_written t
}.

Record table_inv (s : Service) : Prop := {
  table_live id p : tunnels s !! id = Some p →
    ∃ t, tobjs s !! p = Some t ∧ t_id t = id ∧ t_done t = false;
  table_closing p reason notify : (p, reason, notify) ∈ closing s →
    (p < length (tobjs s))%nat ∧ ∀ id, tunnels s !! id ≠ Some p;
  table_limit sid : (session_count sid s <= maxTunnelsPerSession)%nat
}.

Definition inv (s : Service) : Prop := Forall flow_inv (tobjs s) ∧ table_inv s.

Lemma newTunnel_flow id a sid : flow_inv (newTunnel id a sid).
Proof. split; simpl; try done; unfold inboundQueue; lia. Qed.

Lemma set_opened_flow o t : flow_inv t → flow_inv (set_opened o t).
Proof. by intros [? ? ? ? ?]. Qed.

Lemma close_flow t : flow_inv t → flow_inv (close_tunnel t).
Proof.
  intros [Hb Ho Hq Hd He]. split; simpl; try done.
  - by destruct (t_done t).
  - intros E. destruct (He E) as [-> ?]. done.
Qed.

Lemma enqueue_flow raw t : (length (t_inbound t) < inboundQueue)%nat → flow_inv t → flow_inv (enqueue raw t).
Proof.
  intros Hl [Hb Ho Hq Hd He]. split; simpl.
  - rewrite length_app. simpl. lia.
  - by apply prefix_app_r.
  - intros E. rewrite (Hq E). by rewrite (assoc_L (++)).
  - by apply prefix_app_r.
  - done.
Qed.

Lemma write_flow ok t : t_exit t = None → flow_inv t → flow_inv (write_head ok t).
Proof.
  intros En Ht. pose proof Ht as [Hb Ho Hq Hd He]. unfold write_head.
  destruct (t_inbound t) as [|c rest] eqn:Ei; [done|]. simpl in Hb. specialize (Hq En).
  rewrite Hq in *. split; simpl.
  - lia.
  - destruct ok; [|done]. exists rest. by rewrite <- (assoc_L (++)).
  - destruct ok; [|done]. intros _. by rewrite <- (assoc_L (++)).
  - done.
  - destruct ok; [|done]. by rewrite En.
Qed.

Lemma exit_flow t : t_exit t = None → t_done t = true → t_inbound t = [] → flow_inv t → flow_inv (writer_exit t).
Proof.
  intros En Hdn Ei [Hb Ho Hq Hd He]. split; simpl; try done.
  intros _. rewrite (Hq En), Ei, app_nil_r in Hd. done.
Qed.

(** Changes of a tunnel that the table does not see. *)
Definition same_place (t t' : tunnel) : Prop :=
  t_id t' = t_id t ∧ t_sessionID t' = t_sessionID t ∧ t_done t' = t_done t.

Lemma on_tunnel_lookup p f s q :
  tobjs (on_tunnel p f s) !! q = if decide (q = p) then f <$> tobjs s !! p else tobjs s !! q.
Proof.
  simpl. case_decide; [subst; by rewrite list_lookup_alter_eq|by rewrite list_lookup_alter_ne].
Qed.

Lemma session_count_ext sid s s' :
  tunnels s' = tunnels s →
  (∀ p, t_sessionID <$> tobjs s' !! p = t_sessionID <$> tobjs s !! p) →
  session_count sid s' = session_count sid s.
Proof.
  intros Ht Ho. unfold session_count. rewrite Ht. f_equal.
  apply map_filter_ext. intros id p _. simpl. by rewrite Ho.
Qed.

Lemma on_tunnel_session p f s q :
  (∀ t, t_sessionID (f t) = t_sessionID t) →
  t_sessionID <$> tobjs (on_tunnel p f s) !! q = t_sessionID <$> tobjs s !! q.
Proof.
  intros Hf. rewrite on_tunnel_lookup. case_decide; [subst|done].
  destruct (tobjs s !! p); simpl; [by rewrite Hf|done].
Qed.

Lemma flow_on_tunnel p f s :
  Forall flow_inv (tobjs s) → (∀ t, tobjs s !! p = Some t → flow_inv t → flow_inv (f t)) →
  Forall flow_inv (tobjs (on_tunnel p f s)).
Proof.
  intros Hs Hf. apply Forall_lookup. intros q t. rewrite on_tunnel_lookup.
  rewrite Forall_lookup in Hs. case_decide; [subst|by eauto].
  intros (t0 & Ht0 & ->)%fmap_Some. eauto.
Qed.

Lemma on_tunnel_inv p f s :
  inv s → (∀ t, same_place t (f t)) → (∀ t, tobjs s !! p = Some t → flow_inv t → flow_inv (f t)) →
  inv (on_tunnel p f s).
Proof.
  intros [Hfl [Hl Hc Hn]] Hp Hf. split; [by apply flow_on_tunnel|]. split.
  - intros id q Hq. destruct (Hl _ _ Hq) as (t & Ht & Hid & Hd).
    rewrite on_tunnel_lookup. case_decide; [subst|by eauto].
    rewrite Ht. destruct (Hp t) as (E1 & _ & E3). exists (f t). split_and!; [done|congruence..].
  - intros q r n Hin. simpl. rewrite length_alter. by eapply Hc.
  - intros sid. erewrite session_count_ext; [apply Hn|done|].
    intros q. apply on_tunnel_session. intros t. apply Hp.
Qed.

Lemma finish_take_inv id reason notify s : inv s → inv (finish_take id reason notify s).
Proof.
  intros Hi. pose proof Hi as [Hfl [Hl Hc Hn]]. unfold finish_take.
  destruct (tunnels s !! id) as [p|] eqn:Hp; [|done].
  split; [done|]. split; simpl.
  - intros id' p' [_ Hp']%lookup_delete_Some. by apply Hl.
  - intros q r n [Hin|Hin]%elem_of_app.
    + destruct (Hc _ _ _ Hin) as [? Hno]. split; [done|]. intros id' [_ ?]%lookup_delete_Some. by eapply Hno.
    + apply list_elem_of_singleton in Hin. injection Hin as -> -> ->.
      destruct (Hl _ _ Hp) as (t & Ht & Hid & _). split; [by eapply lookup_lt_Some|].
      intros id' [Hne Hp']%lookup_delete_Some. destruct (Hl _ _ Hp') as (t' & Ht' & Hid' & _). congruence.
  - intros sid. etrans; [|apply (Hn sid)]. unfold session_count. simpl. apply map_subseteq_size.
    apply map_filter_subseteq_mono. apply delete_subseteq.
Qed.

Lemma drop_pending_inv l1 l2 s : inv s → inv (drop_pending l1 l2 s).
Proof. intros [? [? ? ?]]. split; [done|by split]. Qed.

Lemma addTunnel_inv t s : flow_inv t → t_done t = false → inv s → inv (fst (addTunnel t s)).
Proof.
  intros Ht Hd Hi. pose proof Hi as [Hfl [Hl Hc Hn]]. unfold addTunnel.
  destruct (Nat.leb_spec maxTunnelsPerSession (session_count (t_sessionID t) s)) as [|Hlt]; [done|].
  split; simpl; [apply Forall_app; by split; [|constructor]|]. split; simpl.
  - intros id p [[<- <-]|[_ Hp]]%lookup_insert_Some.
    + exists t. by rewrite lookup_app_r, Nat.sub_diag by lia.
    + destruct (Hl _ _ Hp) as (t' & ? & ?). exists t'. by rewrite (lookup_app_l_Some _ _ _ t').
  - intros p r n Hin. destruct (Hc _ _ _ Hin) as [? Hno]. rewrite length_app. simpl. split; [lia|].
    intros id [[_ <-]|[_ ?]]%lookup_insert_Some; [lia|by eapply Hno].
  - intros sid. unfold session_count in *. simpl.
    assert (Heq : filter (λ e : string * nat, t_sessionID <$> (tobjs s ++ [t]) !! e.2 = Some sid) (tunnels s)
                = filter (λ e : string * nat, t_sessionID <$> tobjs s !! e.2 = Some sid) (tunnels s)).
    { apply map_filter_ext. intros id p Hp. simpl. destruct (Hl _ _ Hp) as (t' & Ht' & _).
      by rewrite (lookup_app_l_Some _ _ _ t'), Ht'. }
    destruct (decide (sid = t_sessionID t)) as [->|Hne].
    + rewrite map_filter_insert_True.
      * rewrite Heq, map_size_insert. destruct (_ !! _); simpl; lia.
      * simpl. by rewrite lookup_app_r, Nat.sub_diag by lia.
    + rewrite map_filter_insert_False.
      * etrans; [|apply (Hn sid)]. rewrite <- Heq. apply map_subseteq_size, map_filter_subseteq_mono, delete_subseteq.
      * simpl. rewrite lookup_app_r, Nat.sub_diag by lia. simpl. congruence.
Qed.

Lemma finish_close_inv bridge p reason notify l1 l2 s :
  inv s → closing s = l1 ++ (p, reason, notify) :: l2 →
  inv (finish_close bridge p reason notify (mkService (tunnels s) (tobjs s) (pending s) (l1 ++ l2) (sent s))).
Proof.
  intros [Hfl [Hl Hc Hn]] E. set (s0 := mkService _ _ _ _ _).
  assert (Hsub : ∀ x, x ∈ l1 ++ l2 → x ∈ closing s) 
    by (intros x; rewrite E, !elem_of_app, elem_of_cons; tauto).
  destruct (Hc p reason notify) as [Hp Hno]; [rewrite E; apply elem_of_app; right; left|].
  assert (Hi : inv (on_tunnel p close_tunnel s0)).
  { split; [apply flow_on_tunnel; [done|intros ? _; apply close_flow]|]. split.
    - intros id q Hq. rewrite on_tunnel_lookup. case_decide; [subst; by destruct (Hno id)|]. by apply Hl.
    - intros q r n Hin. simpl in *. rewrite length_alter. eapply Hc, Hsub, Hin.
    - intros sid. erewrite session_count_ext; [apply (Hn sid)|done|].
      intros q. by rewrite on_tunnel_session. }
  unfold finish_close. destruct (tobjs _ !! p); [|done].
  destruct (notify && bridge); [|done]. destruct Hi as [? [? ? ?]]. split; [done|by split].
Qed.

Lemma bridgeSend_inv bridge agentID msg s : inv s → inv (fst (bridgeSend bridge agentID msg s)).
Proof.
  intros [? [? ? ?]]. unfold bridgeSend. destruct bridge as [[[] []]|]; by split.
Qed.

Section Properties.

Lemma act_inv a s : inv s → inv (act a s).
Proof.
  intros Hi. destruct a as [|p res|p raw|id reason notify]; simpl.
  - done.
  - apply on_tunnel_inv; [done| |].
    + intros t. by destruct (t_opened t).
    + intros t _ Ht. destruct (t_opened t); [done|by apply set_opened_flow].
  - destruct Hi as [? [? ? ?]]. split; [done|by split].
  - by apply finish_take_inv.
Qed.

Lemma local_step_inv s s' : inv s → local_step s s' → inv s'.
Proof.
  intros Hi Hs. destruct Hs.
  - apply on_tunnel_inv; [by apply drop_pending_inv|done|].
    intros t' Ht'. simpl in Ht'. simplify_eq. by apply enqueue_flow.
  - by apply drop_pending_inv.
  - by apply finish_take_inv, drop_pending_inv.
  - by apply finish_take_inv.
  - by apply finish_close_inv.
  - apply on_tunnel_inv; [done| |].
    + intros t'. unfold write_head. by destruct (t_inbound t').
    + intros t' Ht'. simplify_eq. by apply write_flow.
  - apply finish_take_inv, on_tunnel_inv; [done| |].
    + intros t'. unfold write_head. by destruct (t_inbound t').
    + intros t' Ht'. simplify_eq. by apply write_flow.
  - apply on_tunnel_inv; [done|done|]. intros t' Ht'. simplify_eq. by apply exit_flow.
Qed.

Lemma service_step_inv s s' : inv s → step s s' → inv s'.
Proof.
  intros Hi Hs. destruct Hs.
  - apply addTunnel_inv; [apply newTunnel_flow|done|done].
  - apply on_tunnel_inv; [done|done|]. intros ? _. apply set_opened_flow.
  - by apply bridgeSend_inv.
  - by apply act_inv.
  - by eapply local_step_inv.
Qed.

Lemma service_inv s : service_reachable s → inv s.
Proof.
  apply reachable_ind_inv; [|apply service_step_inv]. intros ? ->. split; [constructor|]. split.
  - intros id p. simpl. by rewrite lookup_empty.
  - intros p r n Hin. by apply not_elem_of_nil in Hin.
  - intros sid. unfold session_count. simpl. rewrite map_filter_empty, map_size_empty. unfold maxTunnelsPerSession. lia.
Qed.

(** The tunnel table, under every interleaving of client handlers, probe
    messages, writers, disconnections and revocations: an id maps to a tunnel
    of that id which nobody has closed, no session has more than 64 tunnels in
    the table, and a tunnel never queues more than 32 chunks. *)
Theorem tunnel_table_safe s :
  service_reachable s →
  (∀ id p, tunnels s !! id = Some p → ∃ t, tobjs s !! p = Some t ∧ t_id t = id ∧ t_done t = false) ∧
  (∀ sid, (session_count sid s <= maxTunnelsPerSession)%nat) ∧
  (∀ p t, tobjs s !! p = Some t → (length (t_inbound t) <= inboundQueue)%nat).
Proof.
  intros [Hfl [Hl Hc Hn]]%service_inv. split_and!; [done..|].
  intros p t Ht. apply (Forall_lookup_1 _ _ _ _ Hfl Ht).
Qed.

(** Delivery to the client, under every interleaving: the client receives a
    prefix of the chunks the probe's messages put in the tunnel's queue, in
    their order; and when the writer ends without a write error, the tunnel was
    closed and the client has received every chunk accepted before its close. *)
Theorem tunnel_delivery s p t :
  service_reachable s → tobjs s !! p = Some t →
  t_written t `prefix_of` t_accepted t ∧
  (t_exit t = None → t_accepted t = t_written t ++ t_inbound t) ∧
  (t_exit t = Some true → t_done t = true ∧ t_at_done t `prefix_of` t_written t).
Proof.
  intros [Hfl _]%service_inv Ht. pose proof (Forall_lookup_1 _ _ _ _ Hfl Ht) as [? ? ? ? ?]. done.
Qed.

Lemma writer_runs n s p t :
  tobjs s !! p = Some t → t_exit t = None → t_done t = true → length (t_inbound t) = n →
  ∃ s' t', rtc step s s' ∧ tobjs s' !! p = Some t' ∧ t_exit t' = Some true ∧
           t_written t' = t_written t ++ t_inbound t.
Proof.
  revert s t. induction n as [|n IH]; intros s t Ht He Hd Hl.
  - apply nil_length_inv in Hl. eexists (on_tunnel p writer_exit s), (writer_exit t). split_and!.
    + apply rtc_once. by eapply step_local, local_writer_exit.
    + by rewrite on_tunnel_lookup, decide_True, Ht by done.
    + done.
    + simpl. by rewrite Hl, app_nil_r.
  - destruct (t_inbound t) as [|c rest] eqn:Ei; [done|].
    destruct (IH (on_tunnel p (write_head true) s) (write_head true t)) as (s' & t' & Hr & Ht' & He' & Hw).
    + by rewrite on_tunnel_lookup, decide_True, Ht by done.
    + unfold write_head. by rewrite Ei.
    + unfold write_head. by rewrite Ei.
    + unfold write_head. rewrite Ei. simpl in *. lia.
    + exists s', t'. split_and!; [|done..|].
      * eapply rtc_l; [by eapply step_local, local_write|done].
      * rewrite Hw. unfold write_head. rewrite Ei. simpl. by rewrite <- (assoc_L (++)).
Qed.

(** Progress of the writer: once a tunnel is closed, its writer can run on
    its own to its end, and the client then has every chunk ever accepted up to
    now. *)
Theorem closed_tunnel_drains s p t :
  service_reachable s → tobjs s !! p = Some t → t_exit t = None → t_done t = true →
  ∃ s' t', rtc step s s' ∧ tobjs s' !! p = Some t' ∧ t_exit t' = Some true ∧
           t_written t' = t_accepted t.
Proof.
  intros [Hfl _]%service_inv Ht He Hd. pose proof (Forall_lookup_1 _ _ _ _ Hfl Ht) as [_ _ Hq _ _].
  rewrite (Hq He). by eapply writer_runs.
Qed.
End Properties.

(** ** The entry points *)

(** What [HandleConnect] reads of its request. *)
Record ConnectRequest := mkConnect {
  cr_Method : string;
  cr_ProxyAuthorization : string;
  cr_Host : string;
  cr_URLHost : option string
}.

Inductive response :=
  | HttpError (status : Z) (msg : string)
  | ProxyAuthRequired
  | Hijacked.

Section Entry.
Context {W : IntSize}.

(** [HandleConnect] up to [openTunnel]. *)
Definition connect_gate (now : Z) (st : Store) (online : string → bool) (r : ConnectRequest)
    : response + Session * string * Z :=
  if negb (cr_Method r =? "CONNECT")%string then inl (HttpError 405 "connect required")
  else
    match ParseBasicAuth (cr_ProxyAuthorization r) with
    | None => inl ProxyAuthRequired
    | Some (user, pass) =>
        match Authenticate now user pass st with
        | Err _ => inl ProxyAuthRequired
        | Ok sess =>
            let target := match cr_URLHost r with
                          | Some h => if negb (h =? "")%string then h else cr_Host r
                          | None => cr_Host r
                          end in
            match ParseConnectTarget target with
            | Err _ => inl (HttpError 400 "invalid connect target")
            | Ok (host, port) =>
                if negb (online (AgentID sess)) then inl (HttpError 502 "probe offline")
                else inr (sess, host, port)
            end
        end
    end.

(** How [openTunnel] ends once the tunnel is in the table. *)
Inductive open_event :=
  | SendFailed (err : string)
  | DialResult (res : ProxyOpenResultPayload)
  | OpenTimeout
  | TunnelDone.

(** The outcome and the [finish] it runs (reason, notify). *)
Definition open_outcome (e : open_event) : result unit * option (string * bool) :=
  match e with
  | SendFailed err => (Err err, Some ("agent offline", false))
  | DialResult res =>
      if negb (or_OK res) then
        (Err (if (or_Error res =? "")%string then "exit dial failed" else or_Error res),
         Some ("dial failed", false))
      else (Ok tt, None)
  | OpenTimeout => (Err "exit timed out", Some ("timeout", true))
  | TunnelDone => (Err "tunnel closed", None)
  end.

Definition openTunnel (id : string) (sess : Session) (host : string) (port : Z) (e : open_event)
    (s : Service) : Service * result nat :=
  match addTunnel (newTunnel id (AgentID sess) (ID sess)) s with
  | (s, Err m) => (s, Err m)
  | (s, Ok p) =>
      let s :=
        match e with
        | SendFailed _ => s
        | _ => mkService (tunnels s) (tobjs s) (pending s) (closing s)
                 (sent s ++ [(AgentID sess, PProxyOpen (mkProxyOpen id host port))])
        end in
      match open_outcome e with
      | (Ok _, _) => (s, Ok p)
      | (Err m, Some (reason, notify)) => (finish_take id reason notify s, Err m)
      | (Err m, None) => (s, Err m)
      end
  end.

(** [HandleConnect] after [openTunnel]: the hijack and its first write. *)
Definition connect_finish (opened : result nat) (hijackable hijacked written : bool) : response * option (string * bool) :=
  match opened with
  | Err m =>
      if (m =? "too many tunnels")%string then (HttpError 429 "too many tunnels", None)
      else (HttpError 502 m, None)
  | Ok _ =>
      if negb hijackable then (HttpError 500 "hijack unsupported", Some ("hijack unsupported", true))
      else if negb hijacked then (Hijacked, Some ("hijack failed", true))
      else if negb written then (Hijacked, Some ("establish failed", true))
      else (Hijacked, None)
  end.

(** [tunnelCredential] *)
Definition tunnelCredential (proxyAuth auth : string) : option (string * string) :=
  match ParseBasicAuth proxyAuth with
  | Some c => Some c
  | None => ParseBasicAuth auth
  end.

(** [HandleTunnel] up to [openTunnel]: [target] is the request the upgraded
    connection sent, [None] when it could not be read. A reply is the error
    written to the WebSocket. *)
Inductive tunnel_reply :=
  | RejectAuth
  | HandshakeFailed
  | ReplyError (msg : string).

Definition tunnel_gate (now : Z) (st : Store) (online : string → bool) (proxyAuth auth : string)
    (upgraded : bool) (target : option string) : tunnel_reply + Session * string * Z :=
  match tunnelCredential proxyAuth auth with
  | None => inl RejectAuth
  | Some (user, pass) =>
      match Authenticate now user pass st with
      | Err _ => inl RejectAuth
      | Ok sess =>
          if negb upgraded then inl HandshakeFailed
          else
            match target with
            | None => inl HandshakeFailed
            | Some target =>
                match ParseConnectTarget target with
                | Err _ => inl (ReplyError "invalid target")
                | Ok (host, port) =>
                    if negb (online (AgentID sess)) then inl (ReplyError "probe offline")
                    else inr (sess, host, port)
                end
            end
      end
  end.
End Entry.

(** ** Properties of the entry points *)

Section EntryProperties.
Context {W : IntSize} `{MapOrder} `{GoSort} `{Rand}.

(** The session a request's credential stands for. *)
Definition authorised (now : Z) (st : Store) (r : ConnectRequest) (sess : Session) : Prop :=
  ∃ user pass, ParseBasicAuth (cr_ProxyAuthorization r) = Some (user, pass) ∧
    live now st (ID sess) = Some sess ∧ Username sess = user ∧ passwordHash sess = HexEncode (Sum256 pass).

(** What [Authenticate] says, as a session or none. *)
Lemma Authenticate_cases ops now r :
  let st := run ops NewStore in
  match ParseBasicAuth (cr_ProxyAuthorization r) with
  | Some (user, pass) =>
      match Authenticate now user pass st with
      | Ok sess => ∀ s', authorised now st r s' ↔ s' = sess
      | Err _ => ∀ s', ¬ authorised now st r s'
      end
  | None => ∀ s', ¬ authorised now st r s'
  end.
Proof.
  intros st. pose proof (run_NewStore_wf ops) as Hw. fold st in Hw. unfold authorised.
  destruct (ParseBasicAuth _) as [[user pass]|]; [|by intros s' (? & ? & ? & _)].
  assert (Ha : ∀ s', (∃ u p, Some (user, pass) = Some (u, p) ∧ live now st (ID s') = Some s' ∧ Username s' = u ∧
      passwordHash s' = HexEncode (Sum256 p)) ↔ Authenticate now user pass st = Ok s').
  { intros s'. rewrite Authenticate_live by done. split; [by intros (? & ? & [= <- <-] & ?)|by exists user, pass]. }
  destruct (Authenticate now user pass st) as [s0|e]; intros s'; rewrite Ha; [|done]. split; [by intros [= ->]|by intros ->].
Qed.

(** C31. Who gets a tunnel: CONNECT goes on to open one for exactly the requests
    that carry a Basic credential of a live session (neither expired nor
    revoked) whose probe is online, and that name a target with a non-empty
    host and a port between 1 and 65535, as a number after the host and a colon;
    it goes on with that session, host and port. Everything else is answered with an
    error: 405 for another method, 407 without such a credential, then 400 for a
    target that is not of this form, then 502 for a probe that is offline. *)
Theorem connect_gate_authorised ops now online r :
  let st := run ops NewStore in
  let target := match cr_URLHost r with
                | Some h => if negb (h =? "")%string then h else cr_Host r
                | None => cr_Host r end in
  let names host port := ∃ portStr, SplitHostPort (TrimSpace target) = Ok (host, portStr) ∧ Atoi portStr = (port, None) ∧
                                    host ≠ "" ∧ (1 <= port <= 65535)%Z in
  (∀ sess host port, connect_gate now st online r = inr (sess, host, port) ↔
     cr_Method r = "CONNECT" ∧ authorised now st r sess ∧ names host port ∧ online (AgentID sess) = true) ∧
  (∀ resp, connect_gate now st online r = inl resp ↔
     resp = HttpError 405 "connect required" ∧ cr_Method r ≠ "CONNECT" ∨
     resp = ProxyAuthRequired ∧ cr_Method r = "CONNECT" ∧ (∀ sess, ¬ authorised now st r sess) ∨
     resp = HttpError 400 "invalid connect target" ∧ cr_Method r = "CONNECT" ∧
       (∃ sess, authorised now st r sess) ∧ (∀ host port, ¬ names host port) ∨
     resp = HttpError 502 "probe offline" ∧ cr_Method r = "CONNECT" ∧
       (∃ sess host port, authorised now st r sess ∧ names host port ∧ online (AgentID sess) = false)).
Proof.
  intros st target names. pose proof (Authenticate_cases ops now r) as Ha. cbv zeta in Ha. fold st in Ha. unfold connect_gate. fold target.
  assert (Hn : ∀ h p, names h p ↔ ParseConnectTarget target = Ok (h, p)) by (intros; symmetry; apply ParseConnectTarget_spec).
  destruct (String.eqb_spec (cr_Method r) "CONNECT") as [Em|Em]; cbn [negb].
  2: { split; [intros; split; [done|by intros [? _]]|]. intros resp. split; [intros [= <-]; by left|].
       by intros [[-> _]|[(_ & ? & _)|[(_ & ? & _)|(_ & ? & _)]]]. }
  destruct (ParseBasicAuth _) as [[user pass]|]; [destruct (Authenticate now user pass st) as [s0|e]|].
  2, 3: split; [intros; split; [done|by intros (_ & ?%Ha & _)]|]; intros resp; split; [intros [= <-]; right; by left|];
    by intros [[_ ?]|[(-> & _)|[(_ & _ & [? ?%Ha] & _)|(_ & _ & ? & ? & ? & ?%Ha & _)]]].
  assert (Hs0 : authorised now st r s0) by by apply Ha.
  clearbody names. destruct (ParseConnectTarget target) as [[h p]|] eqn:Et.
  2: { split; [intros; split; [done|]; intros (_ & _ & Hp & _); by apply Hn in Hp|].
       intros resp. split; [intros [= <-]; right; right; left; split_and!; try done; [by exists s0|]; by intros ? ? ?%Hn|].
       intros [[_ ?]|[(_ & _ & Hno)|[(-> & _)|(_ & _ & ? & h & p & _ & Hp & _)]]]; [done|by destruct (Hno s0)|done|by apply Hn in Hp]. }
  assert (Hhp : names h p) by by apply Hn.
  assert (Honly : ∀ h' p', names h' p' → h' = h ∧ p' = p) by (intros h' p' [= <- <-]%Hn; done).
  destruct (online (AgentID s0)) eqn:Eo; cbn [negb]; (split; [intros sess host port|intros resp]); split; try done.
  - intros [= <- <- <-]. by split_and!.
  - by intros (_ & ->%Ha & [-> ->]%Honly & _).
  - intros [[_ ?]|[(_ & _ & Hno)|[(_ & _ & _ & Hno)|(_ & _ & s' & h' & p' & ->%Ha & _ & Hoff)]]];
      [done|by destruct (Hno s0)|by destruct (Hno h p)|congruence].
  - intros (_ & ->%Ha & _ & Hon). congruence.
  - intros [= <-]. do 3 right. split_and!; try done. by exists s0, h, p.
  - intros [[_ ?]|[(_ & _ & Hno)|[(_ & _ & _ & Hno)|(-> & _)]]]; [done|by destruct (Hno s0)|by destruct (Hno h p)|done].
Qed.
End EntryProperties.

(** [openTunnel] leaves nothing behind: when it fails, by the session's
    limit, an offline probe, a refused dial, the timeout, the table is as
    before; when it succeeds the table has exactly one more entry, a tunnel
    bound to the session and its probe. Only the session's probe is ever sent
    anything. *)
Theorem openTunnel_table id sess host port e s :
  tunnels s !! id = None → e ≠ TunnelDone →
  let '(s', r) := openTunnel id sess host port e s in
  match r with
  | Err _ => tunnels s' = tunnels s
  | Ok p => tunnels s' = <[id := p]> (tunnels s) ∧ p = length (tobjs s) ∧
            tobjs s' !! p = Some (newTunnel id (AgentID sess) (ID sess)) ∧
            (session_count (ID sess) s < maxTunnelsPerSession)%nat ∧
            ∃ res, e = DialResult res ∧ or_OK res = true
  end ∧
  ∃ l, sent s' = sent s ++ l ∧ Forall (λ m, m.1 = AgentID sess) l.
Proof.
  intros Hid He. unfold openTunnel, addTunnel. simpl t_sessionID.
  destruct (Nat.leb_spec maxTunnelsPerSession (session_count (ID sess) s)) as [|Hlt].
  { split; [done|]. exists []. by rewrite app_nil_r. }
  assert (Hdel : ∀ p, delete id (<[id:=p]> (tunnels s)) = tunnels s) by (intros; by apply delete_insert_id).
  destruct e as [err|res| |]; [| | |done]; simpl; unfold finish_take; simpl; rewrite ?lookup_insert_eq; simpl.
  - rewrite Hdel. split; [done|]. exists []. by rewrite app_nil_r.
  - destruct (or_OK res) eqn:Eok; simpl.
    + split; [|eexists; split; [done|by repeat constructor]].
      split_and!; [done|done| |done|by exists res].
      by rewrite lookup_app_r, Nat.sub_diag by lia.
    + rewrite ?lookup_insert_eq. simpl. rewrite Hdel. split; [done|]. eexists. split; [done|by repeat constructor].
  - rewrite Hdel. split; [done|]. eexists. split; [done|by repeat constructor].
Qed.

(** ** Dropping a probe or a session *)

Section DropProperties.
Context `{MapOrder}.

Lemma finish_all_tunnels reason notify ids s :
  tunnels (foldl (λ s id, finish_take id reason notify s) s ids)
  = filter (λ e : string * nat, e.1 ∉ ids) (tunnels s) ∧
  tobjs (foldl (λ s id, finish_take id reason notify s) s ids) = tobjs s.
Proof.
  revert s. induction ids as [|id ids IH]; intros s; simpl.
  - split; [|done]. symmetry. apply map_filter_id. intros ? ? _. simpl. apply not_elem_of_nil.
  - destruct (IH (finish_take id reason notify s)) as [-> ->]. unfold finish_take.
    destruct (tunnels s !! id) as [p|] eqn:E; simpl; (split; [|done]); apply map_eq; intros id'; apply option_eq; intros q;
      rewrite !map_lookup_filter_Some; simpl; rewrite not_elem_of_cons, ?lookup_delete_Some;
      [by split; intros ?; destruct_and?; split_and!|].
    split; [|tauto]. intros [Hq ?]. split_and!; try done. congruence.
Qed.

Lemma tunnel_ids_spec keep s id :
  id ∈ tunnel_ids keep s ↔ ∃ p t, tunnels s !! id = Some p ∧ tobjs s !! p = Some t ∧ keep t = true.
Proof.
  unfold tunnel_ids. rewrite list_elem_of_omap. split.
  - intros ([id' p] & Hin & Hk). apply elem_of_range, elem_of_map_to_list in Hin. simpl in Hk.
    apply bind_Some in Hk as (t & Ht & Hk). destruct (keep t) eqn:E; [|done]. injection Hk as ->. eauto.
  - intros (p & t & Hp & Ht & Hk). exists (id, p). rewrite elem_of_range, elem_of_map_to_list.
    split; [done|]. simpl. by rewrite Ht; simpl; rewrite Hk.
Qed.

Lemma drop_filter keep reason notify s id p :
  tunnels (foldl (λ s id, finish_take id reason notify s) s (tunnel_ids keep s)) !! id = Some p ↔
  tunnels s !! id = Some p ∧ ∀ t, tobjs s !! p = Some t → keep t = false.
Proof.
  rewrite (proj1 (finish_all_tunnels _ _ _ _)), map_lookup_filter_Some. simpl. rewrite tunnel_ids_spec. split.
  - intros [Hp Hn]. split; [done|]. intros t Ht. destruct (keep t) eqn:E; [|done]. destruct Hn. eauto.
  - intros [Hp Hk]. split; [done|]. intros (p' & t & Hp' & Ht & E). simplify_eq. by rewrite (Hk t Ht) in E.
Qed.

(** Losing a probe removes exactly that probe's tunnels from the table, and
    revoking a live credential exactly that session's; a refused revocation
    removes none. *)
Theorem drop_exact `{GoSort} `{Rand} agentID now sid st s id p :
  (tunnels (DropAgent agentID s) !! id = Some p ↔
     tunnels s !! id = Some p ∧ ∀ t, tobjs s !! p = Some t → t_agentID t ≠ agentID) ∧
  let '(st', s', ok) := ServiceRevoke now sid st s in
  st' = fst (Revoke now sid st) ∧ ok = snd (Revoke now sid st) ∧
  (tunnels s' !! id = Some p ↔
     tunnels s !! id = Some p ∧ (ok = true → ∀ t, tobjs s !! p = Some t → t_sessionID t ≠ sid)).
Proof.
  split.
  - unfold DropAgent. rewrite drop_filter. by setoid_rewrite String.eqb_neq.
  - unfold ServiceRevoke. destruct (Revoke now sid st) as [st' []]; simpl; (split_and!; [done..|]).
    + unfold dropSession. rewrite drop_filter. setoid_rewrite String.eqb_neq. tauto.
    + split; [done|by intros []].
Qed.
End DropProperties.

(** ** Witnesses *)

(** One tunnel whose probe sends "hi" and then closes it. *)
Section Demo.

Definition demo_data : Envelope := mkEnvelope TypeProxyData (enc_ProxyData (mkProxyData "t1" (B64Encode "hi"))).
Definition demo_close : Envelope := mkEnvelope TypeProxyClose (enc_ProxyClose (mkProxyClose "t1" "")).

Definition demo_closed : Service :=
  mkService ∅ [mkTunnel "t1" "probe" "sess" None ["hi"] true ["hi"] ["hi"] [] None] [] [] [].

Definition demo_drained : Service :=
  mkService ∅ [mkTunnel "t1" "probe" "sess" None [] true ["hi"] ["hi"] ["hi"] (Some true)] [] [] [].

Lemma demo_closed_reachable : service_reachable demo_closed.
Proof.
  set (s1 := fst (addTunnel (newTunnel "t1" "probe" "sess") NewService)).
  assert (R1 : service_reachable s1) by (eapply reach_step; [by apply reach_init|apply step_open]).
  assert (R2 : service_reachable (act (Deliver 0 "hi") s1)).
  { eapply reach_step; [exact R1|]. replace (Deliver 0 "hi") with (HandleAgent "probe" demo_data s1) by (vm_compute; reflexivity).
    apply step_agent. }
  set (t1 := newTunnel "t1" "probe" "sess").
  assert (R3 : service_reachable (on_tunnel 0 (enqueue "hi") (drop_pending [] [] (act (Deliver 0 "hi") s1)))).
  { eapply reach_step; [exact R2|]. by apply step_local, (local_deliver _ 0 "hi" [] [] t1); [..|apply Nat.ltb_lt]. }
  set (s3 := on_tunnel 0 (enqueue "hi") _) in R3.
  assert (R4 : service_reachable (act (Finish "t1" "agent closed" false) s3)).
  { eapply reach_step; [exact R3|]. replace (Finish "t1" "agent closed" false) with (HandleAgent "probe" demo_close s3) by (vm_compute; reflexivity).
    apply step_agent. }
  set (s4 := act (Finish "t1" "agent closed" false) s3) in R4.
  pose proof (local_finish_close s4 0 "agent closed" false [] [] true eq_refl) as S5.
  replace demo_closed with (finish_close true 0 "agent closed" false
    (mkService (tunnels s4) (tobjs s4) (pending s4) ([] ++ []) (sent s4))) by (by vm_compute).
  eapply reach_step; [exact R4|]. apply step_local. exact S5.
Qed.

Lemma demo_drained_reachable : service_reachable demo_drained.
Proof.
  set (t := mkTunnel "t1" "probe" "sess" None ["hi"] true ["hi"] ["hi"] [] None).
  assert (R : service_reachable (on_tunnel 0 (write_head true) demo_closed)).
  { eapply reach_step; [apply demo_closed_reachable|]. by eapply step_local, (local_write _ 0 t "hi" []). }
  change demo_drained with (on_tunnel 0 writer_exit (on_tunnel 0 (write_head true) demo_closed)).
  eapply reach_step; [exact R|]. by apply step_local, (local_writer_exit _ 0 (write_head true t)).
Qed.
End Demo.

Lemma tunnel_table_safe_witness :
  (∀ id p, tunnels (demo_closed) !! id = Some p →
     ∃ t, tobjs demo_closed !! p = Some t ∧ t_id t = id ∧ t_done t = false) ∧
  (∀ sid, (session_count sid demo_closed <= maxTunnelsPerSession)%nat) ∧
  (∀ p t, tobjs demo_closed !! p = Some t → (length (t_inbound t) <= inboundQueue)%nat).
Proof.
  exact (tunnel_table_safe _
           (demo_closed_reachable)).
Defined.

Lemma tunnel_delivery_witness :
  ∃ t, tobjs demo_drained !! 0 = Some t ∧ t_written t = ["hi"] ∧
  t_written t `prefix_of` t_accepted t ∧
  (t_exit t = None → t_accepted t = t_written t ++ t_inbound t) ∧
  (t_exit t = Some true → t_done t = true ∧ t_at_done t `prefix_of` t_written t).
Proof.
  eexists. split; [reflexivity|]. split; [reflexivity|].
  eapply (tunnel_delivery demo_drained 0);
    [apply (demo_drained_reachable)|reflexivity].
Defined.

Lemma closed_tunnel_drains_witness :
  ∃ s' t', rtc (step) demo_closed s' ∧ tobjs s' !! 0 = Some t' ∧
           t_exit t' = Some true ∧ t_written t' = ["hi"].
Proof.
  apply (closed_tunnel_drains demo_closed 0
           (mkTunnel "t1" "probe" "sess" None ["hi"] true ["hi"] ["hi"] [] None)); try reflexivity.
  apply (demo_closed_reachable).
Defined.

Lemma openTunnel_table_witness :
  let sess := mkSession "sid" "probe" "P" "jp1" 1 0 10 "" false in
  let '(s', r) := openTunnel "t2" sess "example.com" 443 (DialResult (mkOpenResult "t2" true "")) demo_closed in
  match r with
  | Err _ => tunnels s' = tunnels demo_closed
  | Ok p => tunnels s' = <["t2" := p]> (tunnels demo_closed) ∧ p = length (tobjs demo_closed) ∧
            tobjs s' !! p = Some (newTunnel "t2" (AgentID sess) (ID sess)) ∧
            (session_count (ID sess) demo_closed < maxTunnelsPerSession)%nat ∧
            ∃ res, DialResult (mkOpenResult "t2" true "") = DialResult res ∧ or_OK res = true
  end ∧
  ∃ l, sent s' = sent demo_closed ++ l ∧ Forall (λ m, m.1 = AgentID sess) l.
Proof. apply (openTunnel_table "t2"); [reflexivity|discriminate]. Defined.
