(* ===== verification/Pump.v ===== *)
(** * The goroutines of a tunnel on the Host ([pump], [writeToClient] in [host/internal/proxy/service.go])

    A tunnel that is open has a goroutine that reads from the client, one that
    writes to it and waits for the first, and one that closes the client when the
    credential expires. They meet in the service's table and in the tunnel's
    channels, while the rest of the service goes on; a run is an interleaving of
    the three with everything else. Then the two entry points as a whole, from the
    request to the start of [pump]. *)
From S2P Require Import Prelude GoStrings GoNet GoEncoding GoFloat GoJson Protocol ProxySession ProxyService.

(** ** The goroutines *)

(** [RFinishing]: inside [finish], between its critical section and its return. *)
Inductive reader := Reading | RFinishing | RDone.
(** [Looping]: in [writeToClient], in its first loop or in the one that drains. *)
Inductive main_state := Looping (draining : bool) | WFinishing | ClosesClient | Waits | Returned.

(** [pu_left]: bytes that a read can still return, also after the connection is
    closed. [pu_watching]: the goroutine that waits for the expiry runs. *)
Record Pump := mkPump {
  pu_service : Service;
  pu_closed : bool;
  pu_left : nat;
  pu_expired : bool;
  pu_reader : reader;
  pu_main : main_state;
  pu_watching : bool
}.

Section Pump.
(** The tunnel: its place in the heap and its id. *)
Variables (p : nat) (id : string).

Definition pump (s : Service) (left : nat) : Pump := mkPump s false left false Reading (Looping false) true.

(** Whether [finish] finds the tunnel, so that its caller closes it. *)
Definition takes (s : Service) : bool := bool_decide (tunnels s !! id = Some p).

(** Nobody is closing the tunnel. *)
Definition none_closing (s : Service) : Prop := ∀ reason notify, (p, reason, notify) ∉ closing s.

Inductive pump_step (x : Pump) : Pump → Prop :=
  (* reader.Read, which returns data, an error, or both; then bridgeSend *)
  | own_read data err bridge s goes_on :
      pu_reader x = Reading → (slen data <= pu_left x)%nat → (Z.of_nat (slen data) <= proxyChunkSize)%Z →
      data ≠ "" ∨ err = true →
      pump_read p data err bridge (pu_service x) = (s, goes_on) →
      pump_step x (mkPump s (pu_closed x) (pu_left x - slen data) (pu_expired x)
        (if goes_on then Reading else if takes (pu_service x) then RFinishing else RDone) (pu_main x) (pu_watching x))
  (* finish returns *)
  | own_read_finished :
      pu_reader x = RFinishing → none_closing (pu_service x) →
      pump_step x (mkPump (pu_service x) (pu_closed x) (pu_left x) (pu_expired x) RDone (pu_main x) (pu_watching x))
  (* chunk := <-t.inbound; client.Write(chunk) *)
  | own_write d t c rest :
      pu_main x = Looping d → tobjs (pu_service x) !! p = Some t → t_inbound t = c :: rest → pu_closed x = false →
      pump_step x (mkPump (on_tunnel p (write_head true) (pu_service x)) (pu_closed x) (pu_left x) (pu_expired x)
        (pu_reader x) (pu_main x) (pu_watching x))
  | own_write_fail d t c rest :
      pu_main x = Looping d → tobjs (pu_service x) !! p = Some t → t_inbound t = c :: rest →
      pump_step x (mkPump (finish_take id "client write failed" true (on_tunnel p (write_head false) (pu_service x)))
        (pu_closed x) (pu_left x) (pu_expired x) (pu_reader x)
        (if takes (pu_service x) then WFinishing else ClosesClient) (pu_watching x))
  | own_write_finished :
      pu_main x = WFinishing → none_closing (pu_service x) →
      pump_step x (mkPump (pu_service x) (pu_closed x) (pu_left x) (pu_expired x) (pu_reader x) ClosesClient (pu_watching x))
  (* case <-t.done *)
  | own_done t :
      pu_main x = Looping false → tobjs (pu_service x) !! p = Some t → t_done t = true →
      pump_step x (mkPump (pu_service x) (pu_closed x) (pu_left x) (pu_expired x) (pu_reader x) (Looping true) (pu_watching x))
  (* the drain loop finds the queue empty *)
  | own_drained t :
      pu_main x = Looping true → tobjs (pu_service x) !! p = Some t → t_inbound t = [] →
      pump_step x (mkPump (on_tunnel p writer_exit (pu_service x)) (pu_closed x) (pu_left x) (pu_expired x)
        (pu_reader x) ClosesClient (pu_watching x))
  (* client.Close() *)
  | own_close :
      pu_main x = ClosesClient →
      pump_step x (mkPump (pu_service x) true (pu_left x) (pu_expired x) (pu_reader x) Waits (pu_watching x))
  (* wg.Wait(); close(stop) *)
  | own_wait :
      pu_main x = Waits → pu_reader x = RDone →
      pump_step x (mkPump (pu_service x) (pu_closed x) (pu_left x) (pu_expired x) (pu_reader x) Returned (pu_watching x))
  (* case <-ctxDone *)
  | own_expire :
      pu_watching x = true → pu_expired x = true →
      pump_step x (mkPump (pu_service x) true (pu_left x) (pu_expired x) (pu_reader x) (pu_main x) false)
  (* case <-stop *)
  | own_stop :
      pu_watching x = true → pu_main x = Returned →
      pump_step x (mkPump (pu_service x) (pu_closed x) (pu_left x) (pu_expired x) (pu_reader x) (pu_main x) false)
  (* the rest of [finish], by the goroutine that took the tunnel from the table *)
  | own_finish_close reason notify l1 l2 bridge :
      closing (pu_service x) = l1 ++ (p, reason, notify) :: l2 →
      pump_step x (mkPump (finish_close bridge p reason notify
          (mkService (tunnels (pu_service x)) (tobjs (pu_service x)) (pending (pu_service x)) (l1 ++ l2) (sent (pu_service x))))
        (pu_closed x) (pu_left x) (pu_expired x) (pu_reader x) (pu_main x) (pu_watching x)).

(** Everything else: the client sends, time passes, and the other goroutines of the
    service take steps, which do not write for this tunnel and do not use its id, 16
    random bytes, for another. *)
Inductive others (x : Pump) : Pump → Prop :=
  | others_client n : pu_closed x = false →
      others x (mkPump (pu_service x) (pu_closed x) (pu_left x + n) (pu_expired x) (pu_reader x) (pu_main x) (pu_watching x))
  | others_expired :
      others x (mkPump (pu_service x) (pu_closed x) (pu_left x) true (pu_reader x) (pu_main x) (pu_watching x))
  | others_service s :
      step (pu_service x) s →
      (λ t, (t_written t, t_exit t)) <$> tobjs s !! p = (λ t, (t_written t, t_exit t)) <$> tobjs (pu_service x) !! p →
      (∀ q, tunnels s !! id = Some q → tunnels (pu_service x) !! id = Some q) →
      others x (mkPump s (pu_closed x) (pu_left x) (pu_expired x) (pu_reader x) (pu_main x) (pu_watching x)).

Definition pump_reachable (s : Service) (left : nat) : Pump → Prop :=
  reachable (λ x, x = pump s left) (λ x y, pump_step x y ∨ others x y).

(** ** How the service treats the tunnel *)

(** The number of goroutines that still have to close it: one when it is in the
    table, and one for each that took it out. *)
Definition weight (s : Service) : nat :=
  ((if takes s then 1 else 0) + length (List.filter (λ c : nat * string * bool, Nat.eqb c.1.1 p) (closing s)))%nat.

(** The tunnel is in the table, closed, or being closed. *)
Definition attached (s : Service) : Prop :=
  ∃ t, tobjs s !! p = Some t ∧ t_id t = id ∧ ((0 < weight s)%nat ∨ t_done t = true).

(** What steps of the service do to it at most. *)
Definition follows (s s' : Service) : Prop :=
  ∀ t, tobjs s !! p = Some t → t_id t = id →
    (∃ t', tobjs s' !! p = Some t' ∧ t_id t' = id ∧ (t_done t = true → t_done t' = true) ∧
       (weight s' = weight s ∨ (weight s' < weight s)%nat ∧ t_done t' = true)) ∧
    (takes s' = true → takes s = true).

Lemma follows_refl s : follows s s.
Proof. intros t Ht Hid. split; [exists t; split_and!; [done..|by left]|done]. Qed.

Lemma follows_trans s1 s2 s3 : follows s1 s2 → follows s2 s3 → follows s1 s3.
Proof.
  intros H12 H23 t1 Ht1 Hi1. destruct (H12 t1 Ht1 Hi1) as ((t2 & Ht2 & Hi2 & Hd2 & Hw2) & Hk2).
  destruct (H23 t2 Ht2 Hi2) as ((t3 & Ht3 & Hi3 & Hd3 & Hw3) & Hk3). split; [|tauto].
  exists t3. split_and!; [done..|tauto|]. destruct Hw2 as [Hw2|[Hw2 Hd]], Hw3 as [Hw3|[Hw3 Hd']];
    [left; congruence|right; (split; [lia|by auto])..].
Qed.

Lemma follows_attached s s' : follows s s' → attached s → attached s'.
Proof.
  intros Hf (t & Ht & Hid & Hw). destruct (Hf t Ht Hid) as ((t' & Ht' & Hid' & Hd & Hw') & _).
  exists t'. split_and!; [done..|]. destruct Hw as [Hw|Hw]; [|right; by apply Hd].
  destruct Hw' as [->|[_ ?]]; [by left|by right].
Qed.

Lemma follows_same s s' :
  tunnels s' = tunnels s → tobjs s' = tobjs s → closing s' = closing s → follows s s'.
Proof.
  intros Et Eo Ec t Ht Hid. unfold weight, takes. rewrite Et, Eo, Ec. split; [|done].
  exists t. split_and!; [done..|by left].
Qed.

Lemma follows_on_tunnel q f s :
  (∀ t, t_id (f t) = t_id t) → (∀ t, t_done t = true → t_done (f t) = true) → follows s (on_tunnel q f s).
Proof.
  intros Hi Hd t Ht Hid. split; [|done]. rewrite on_tunnel_lookup. case_decide; [subst q; rewrite Ht; exists (f t)|exists t];
    (split_and!; [done|by rewrite ?Hi|by auto|by left]).
Qed.

Lemma follows_finish_take s id' reason notify : inv s → follows s (finish_take id' reason notify s).
Proof.
  intros [_ [Hl _ _]]. unfold finish_take. destruct (tunnels s !! id') as [q|] eqn:Eq; [|apply follows_refl].
  intros t Ht Hid. split.
  - exists t. split_and!; [done..|]. left. unfold weight, takes. simpl. rewrite List.filter_app, length_app. simpl.
    destruct (Nat.eqb_spec q p) as [->|Hne].
    + destruct (Hl _ _ Eq) as (t' & Ht' & Hid' & _). assert (id' = id) as -> by congruence.
      rewrite lookup_delete_eq, Eq, bool_decide_eq_false_2, bool_decide_eq_true_2 by done. simpl. lia.
    + simpl. rewrite Nat.add_0_r. destruct (decide (id' = id)) as [->|Hne']; [|by rewrite lookup_delete_ne].
      rewrite lookup_delete_eq, Eq.
      rewrite !bool_decide_eq_false_2 by congruence. done.
  - unfold takes. rewrite !bool_decide_eq_true. simpl. by intros [_ ?]%lookup_delete_Some.
Qed.

Lemma follows_finish_close s bridge q reason notify l1 l2 :
  closing s = l1 ++ (q, reason, notify) :: l2 →
  follows s (finish_close bridge q reason notify (mkService (tunnels s) (tobjs s) (pending s) (l1 ++ l2) (sent s))).
Proof.
  intros Ec. set (s0 := mkService _ _ _ _ _).
  assert (H1 : follows s (on_tunnel q close_tunnel s0)).
  { intros t Ht Hid. split; [|done]. rewrite on_tunnel_lookup. unfold weight, takes. simpl.
    rewrite Ec, !List.filter_app, !length_app. simpl. case_decide; [subst q|].
    - rewrite Ht, Nat.eqb_refl. exists (close_tunnel t). split_and!; [done..|]. right. split; [simpl; lia|done].
    - rewrite (proj2 (Nat.eqb_neq q p)) by congruence. exists t. split_and!; [done..|by left]. }
  eapply follows_trans; [exact H1|]. unfold finish_close. destruct (tobjs _ !! q); [|apply follows_refl].
  destruct (notify && bridge); [by apply follows_same|apply follows_refl].
Qed.

Lemma follows_local s s' : inv s → local_step s s' → follows s s'.
Proof.
  intros Hi. destruct 1 as [q raw l1 l2 t| |q raw l1 l2 t| | |q t c rest|q t c rest|q t].
  - eapply follows_trans; [|by apply follows_on_tunnel]. by apply follows_same.
  - by apply follows_same.
  - eapply follows_trans; [|apply follows_finish_take, drop_pending_inv, Hi]. by apply follows_same.
  - by apply follows_finish_take.
  - by apply follows_finish_close.
  - apply follows_on_tunnel; intros t'; unfold write_head; by destruct (t_inbound t').
  - eapply follows_trans; [|apply follows_finish_take].
    + apply follows_on_tunnel; intros t'; unfold write_head; by destruct (t_inbound t').
    + apply on_tunnel_inv; [done| |].
      * intros t'. unfold write_head. by destruct (t_inbound t').
      * intros t' Ht'. simplify_eq. by apply write_flow.
  - by apply follows_on_tunnel.
Qed.

Lemma follows_step s s' :
  inv s → step s s' → (∀ q, tunnels s' !! id = Some q → tunnels s !! id = Some q) → follows s s'.
Proof.
  intros Hi Hs Hfresh. destruct Hs as [id' a sid|q|bridge a msg|a env|s' Hs].
  - intros t Ht Hid. unfold addTunnel in *. destruct (_ <=? _)%nat; [by apply (follows_refl s)|]. simpl in *.
    assert (Ek : takes (mkService (<[id':=length (tobjs s)]> (tunnels s)) (tobjs s ++ [newTunnel id' a sid]) (pending s) (closing s) (sent s)) = takes s).
    { unfold takes. simpl. apply bool_decide_ext. split; [apply Hfresh|]. intros Hp.
      destruct (decide (id' = id)) as [->|Hne]; [|by rewrite lookup_insert_ne].
      specialize (Hfresh (length (tobjs s))). rewrite lookup_insert_eq in Hfresh. specialize (Hfresh eq_refl).
      apply lookup_lt_Some in Ht. assert (p = length (tobjs s)) by congruence. lia. }
    split; [|by rewrite Ek]. exists t. rewrite (lookup_app_l_Some _ _ _ t) by done. split_and!; [done..|]. left.
    unfold weight. by rewrite Ek.
  - by apply follows_on_tunnel.
  - apply follows_same; unfold bridgeSend; by destruct bridge as [[[] []]|].
  - destruct (HandleAgent a env s) as [|q res|q raw|id' reason notify]; simpl.
    + apply follows_refl.
    + apply follows_on_tunnel; intros t; by destruct (t_opened t).
    + by apply follows_same.
    + by apply follows_finish_take.
  - by apply follows_local.
Qed.

Ltac pump_simpl := cbn [pu_service pu_closed pu_left pu_expired pu_reader pu_main pu_watching] in *.

(** By the cases of a step of the goroutines. *)
Ltac by_step Hs :=
  destruct Hs; pump_simpl; try (by auto); try congruence; try (by destruct (takes _)); intros;
  repeat match goal with H : ?a → _, E : ?a |- _ => specialize (H E) end; congruence.

(** ** Steps of the three goroutines are steps of the service *)

Lemma pump_read_steps data err bridge s s' goes_on :
  pump_read p data err bridge s = (s', goes_on) → rtc step s s'.
Proof.
  unfold pump_read. destruct (tobjs s !! p) as [t|]; [|intros [= <- _]; apply rtc_refl].
  assert (Hf : ∀ s1 reason notify, step s1 (finish_take (t_id t) reason notify s1)) by (intros; apply step_local, local_finish).
  destruct (data =? "")%string.
  - destruct err; intros [= <- _]; [apply rtc_once, Hf|apply rtc_refl].
  - pose proof (step_send s bridge (t_agentID t) (PProxyData (mkProxyData (t_id t) (B64Encode data)))) as Hs.
    destruct (bridgeSend _ _ _ s) as [s1 [?|?]]; simpl in Hs; [destruct err|]; intros [= <- _];
      first [by apply rtc_once|eapply rtc_l; [exact Hs|apply rtc_once, Hf]].
Qed.

Lemma follows_read data err bridge s s' goes_on :
  inv s → pump_read p data err bridge s = (s', goes_on) →
  follows s s' ∧ (attached s → goes_on = false → takes s' = false).
Proof.
  intros Hi. unfold pump_read. destruct (tobjs s !! p) as [t|] eqn:Et.
  2: { intros [= <- _]. split; [apply follows_refl|]. intros (t & Ht & _). by rewrite Et in Ht. }
  set (r := if (data =? "")%string then (s, Ok tt) else _).
  assert (Hr : follows s (fst r) ∧ tunnels (fst r) = tunnels s ∧ closing (fst r) = closing s ∧ inv (fst r)).
  { unfold r. destruct (data =? "")%string; [split_and!; [apply follows_refl|done..]|]. split_and!; [|..|by apply bridgeSend_inv].
    - apply follows_same; unfold bridgeSend; by destruct bridge as [[[] []]|].
    - unfold bridgeSend. by destruct bridge as [[[] []]|].
    - unfold bridgeSend. by destruct bridge as [[[] []]|]. }
  destruct r as [s1 r0]. simpl in Hr. destruct Hr as (Hf & Et1 & Ec1 & Hi1).
  assert (Hgo : ∀ reason notify, follows s (finish_take (t_id t) reason notify s1) ∧
    (attached s → takes (finish_take (t_id t) reason notify s1) = false)).
  { intros reason notify. split; [eapply follows_trans; [exact Hf|by apply follows_finish_take]|].
    intros (t' & Ht' & Hid & _). assert (t' = t) as -> by congruence. unfold finish_take, takes. rewrite Hid.
    apply bool_decide_eq_false_2. destruct (tunnels s1 !! id) as [q|] eqn:Eq; simpl; [by rewrite lookup_delete_eq|by rewrite Eq]. }
  destruct r0; [destruct err|]; intros [= <- <-]; try (split; [apply Hgo|intros Ha _; by apply Hgo]).
  by split.
Qed.

Definition looping (m : main_state) : bool := match m with Looping _ => true | _ => false end.

(** Between steps: the tunnel is attached; who has finished it, or seen it done,
    finds it out of the table; the connection is closed where the code closed it. *)
Record pump_inv (x : Pump) : Prop := {
  pi_service : inv (pu_service x);
  pi_attached : attached (pu_service x);
  pi_weight : (weight (pu_service x) <= 1)%nat;
  pi_exit t : tobjs (pu_service x) !! p = Some t → looping (pu_main x) = true → t_exit t = None;
  pi_reader : pu_reader x ≠ Reading → takes (pu_service x) = false;
  pi_main : pu_main x ≠ Looping false → takes (pu_service x) = false;
  pi_drain t : tobjs (pu_service x) !! p = Some t → pu_main x = Looping true → t_done t = true;
  pi_waits : pu_main x = Waits → pu_closed x = true;
  pi_end : pu_main x = Returned → pu_closed x = true;
  pi_watch : pu_watching x = false → pu_closed x = true;
  pi_returned : pu_main x = Returned → pu_reader x = RDone
}.

Lemma own_service x y : pump_inv x → pump_step x y → rtc step (pu_service x) (pu_service y).
Proof.
  intros Hi. pose proof (pi_attached _ Hi) as (t0 & Ht0 & Hid & _). destruct 1 as
    [data err bridge s goes_on Hr Hl Hc Hd Hp|Hr Hn|d t c rest Hm Ht Hb Ho|d t c rest Hm Ht Hb|Hm Hn|t Hm Ht Hd|t Hm Ht Hb|Hm|Hm Hr|Hw He|Hw Hm|
     reason notify l1 l2 bridge Hc]; simpl; try apply rtc_refl.
  - by eapply pump_read_steps.
  - apply rtc_once. eapply step_local, local_write; [done| |done]. eapply pi_exit; [done..|by rewrite Hm].
  - assert (t = t0) as -> by congruence. apply rtc_once, step_local. rewrite <- Hid at 1.
    eapply local_write_fail; [done| |done]. eapply pi_exit; [done..|by rewrite Hm].
  - apply rtc_once. eapply step_local, local_writer_exit; [done|eapply pi_exit; [done..|by rewrite Hm]|by eapply pi_drain|done].
  - by apply rtc_once, step_local, local_finish_close.
Qed.

(** What is left to do, once the connection is closed. *)
Definition reader_rank (r : reader) : nat := match r with Reading => 2 | RFinishing => 1 | RDone => 0 end.
Definition main_rank (m : main_state) : nat :=
  match m with Looping false => 6 | Looping true => 5 | WFinishing => 4 | ClosesClient => 3 | Waits => 2 | Returned => 0 end.
Definition left_to_do (x : Pump) : nat :=
  (pu_left x + reader_rank (pu_reader x) + main_rank (pu_main x) + (if pu_watching x then 1 else 0) + weight (pu_service x))%nat.

Lemma rtc_inv s s' : inv s → rtc step s s' → inv s'.
Proof. intros Hi Hr. induction Hr as [|s s1 s' Hs _ IH]; [done|]. by apply IH, (service_step_inv s). Qed.

Lemma takes_done s t : inv s → tobjs s !! p = Some t → t_done t = true → takes s = false.
Proof.
  intros [_ [Hl _ _]] Ht Hd. apply bool_decide_eq_false_2. intros Hp. destruct (Hl _ _ Hp) as (t' & Ht' & _ & Hd'). congruence.
Qed.

Lemma takes_taken s reason notify : takes (finish_take id reason notify s) = false.
Proof.
  unfold finish_take, takes. apply bool_decide_eq_false_2. destruct (tunnels s !! id) eqn:E; simpl; [by rewrite lookup_delete_eq|by rewrite E].
Qed.

Lemma follows_weight s s' : attached s → follows s s' → (weight s' <= weight s)%nat.
Proof. intros (t & Ht & Hid & _) Hf. destruct (Hf t Ht Hid) as ((t' & _ & _ & _ & [->|[? _]]) & _); lia. Qed.

Lemma follows_takes s s' : attached s → follows s s' → takes s = false → takes s' = false.
Proof.
  intros (t & Ht & Hid & _) Hf Hk. destruct (Hf t Ht Hid) as (_ & Ht'). destruct (takes s'); [|done]. by rewrite Ht' in Hk.
Qed.
Lemma write_head_id ok t : t_id (write_head ok t) = t_id t ∧ t_done (write_head ok t) = t_done t.
Proof. unfold write_head. by destruct (t_inbound t). Qed.

Lemma follows_write ok s : follows s (on_tunnel p (write_head ok) s).
Proof. apply follows_on_tunnel; intros t; pose proof (write_head_id ok t) as [? ?]; congruence. Qed.

Lemma own_follows x y : pump_inv x → pump_step x y → follows (pu_service x) (pu_service y).
Proof.
  intros Hi Hs. pose proof (own_service _ _ Hi Hs) as Hr. pose proof (pi_service _ Hi) as Hv.
  destruct Hs as [data err bridge s goes_on _ _ _ _ Hp|?|d t c rest Hm Ht Hb Ho|d t c rest Hm Ht Hb|?|?|t Hm Ht Hb|?|?|?|?|
     reason notify l1 l2 bridge Hc]; simpl in *; try apply follows_refl.
  - by eapply follows_read.
  - apply follows_write.
  - eapply follows_trans; [apply follows_write|]. apply follows_finish_take, on_tunnel_inv; [done| |].
    + intros t'. unfold write_head. by destruct (t_inbound t').
    + intros t' Ht'. apply write_flow. eapply pi_exit; [done..|by rewrite Hm].
  - by apply follows_on_tunnel.
  - by apply follows_finish_close.
Qed.

Lemma pump_read_tobjs data err bridge s s' goes_on : pump_read p data err bridge s = (s', goes_on) → tobjs s' = tobjs s.
Proof.
  unfold pump_read. destruct (tobjs s !! p) as [t|]; [|by intros [= <- _]].
  assert (Hf : ∀ s1 reason notify, tobjs (finish_take (t_id t) reason notify s1) = tobjs s1)
    by (intros; unfold finish_take; by destruct (_ !! t_id t)).
  destruct (data =? "")%string; [destruct err; intros [= <- _]; by rewrite ?Hf|].
  unfold bridgeSend. destruct bridge as [[[] [?|?]]|]; [destruct err|..]; intros [= <- _]; by rewrite ?Hf.
Qed.

Lemma finish_close_exit bridge reason notify s t' :
  tobjs (finish_close bridge p reason notify s) !! p = Some t' → ∃ t, tobjs s !! p = Some t ∧ t_exit t' = t_exit t.
Proof.
  assert (Hs : tobjs (on_tunnel p close_tunnel s) !! p = Some t' → ∃ t, tobjs s !! p = Some t ∧ t_exit t' = t_exit t).
  { rewrite on_tunnel_lookup, decide_True by done. intros (t & Ht & ->)%fmap_Some. by exists t. }
  unfold finish_close. destruct (tobjs (on_tunnel p close_tunnel s) !! p) eqn:E; [|by rewrite E].
  destruct (notify && bridge); simpl in *; by rewrite E.
Qed.

(** While a writer loops, nothing of its own ends it. *)
Lemma own_exit x y t' :
  pump_inv x → pump_step x y → tobjs (pu_service y) !! p = Some t' → looping (pu_main y) = true → t_exit t' = None.
Proof.
  intros Hi Hs. pose proof (pi_exit _ Hi) as He.
  destruct Hs as [data err bridge s goes_on _ _ _ _ Hp|?|d t c rest Hm Ht Hb Ho|d t c rest Hm Ht Hb|?|? Hm|t Hm Ht Hb|?|?|?|?|
     reason notify l1 l2 bridge Hc]; pump_simpl; try done.
  - rewrite (pump_read_tobjs _ _ _ _ _ _ Hp). apply He.
  - by apply He.
  - rewrite on_tunnel_lookup, decide_True by done. intros (t1 & Ht1 & ->)%fmap_Some Hl. specialize (He _ Ht1 Hl).
    unfold write_head. destruct (t_inbound t1); [done|]. by simpl.
  - by destruct (takes _).
  - intros Ht' _. apply (He t'); [done|by rewrite Hm].
  - by apply He.
  - by apply He.
  - intros (t1 & Ht1 & ->)%finish_close_exit. by apply He.
Qed.
Lemma own_takes x y :
  pump_inv x → pump_step x y → pu_reader y ≠ Reading ∨ pu_main y ≠ Looping false → takes (pu_service y) = false.
Proof.
  intros Hi Hs Hy. pose proof (follows_takes _ _ (pi_attached _ Hi) (own_follows _ _ Hi Hs)) as Hf.
  pose proof (pi_reader _ Hi) as Hr. pose proof (pi_main _ Hi) as Hm. pose proof (pi_service _ Hi) as Hv.
  destruct Hs as [data err bridge s goes_on E _ _ _ Hp|E|d t c rest E Ht Hb Ho|d t c rest E Ht Hb|E|t E Ht Hb|t E Ht Hb|E|E|?|? E|
     reason notify l1 l2 bridge Hc]; pump_simpl; try (apply Hf; destruct Hy as [Hy|Hy]; [by apply Hr|by apply Hm]);
    try (apply Hm; by rewrite E); try (apply Hr; by rewrite E).
  - destruct goes_on; [apply Hf; destruct Hy as [Hy|Hy]; [done|by apply Hm]|]. by eapply follows_read; [..|apply Hi|].
  - apply takes_taken.
  - by eapply takes_done.
Qed.

Lemma own_inv x y : pump_inv x → pump_step x y → pump_inv y.
Proof.
  intros Hi Hs. pose proof (own_takes _ _ Hi Hs) as Hk. split.
  - eapply rtc_inv; [apply Hi|by apply own_service].
  - eapply follows_attached; [by apply own_follows|apply Hi].
  - etrans; [by eapply follows_weight; [apply Hi|apply own_follows]|apply Hi].
  - intros t. by eapply own_exit.
  - by auto.
  - by auto.
  - intros t Ht Hm. destruct (pi_attached _ Hi) as (t0 & Ht0 & Hid & _).
    destruct (own_follows _ _ Hi Hs t0 Ht0 Hid) as ((t' & Ht' & _ & Hd & _) & _). assert (t' = t) as -> by congruence.
    apply Hd. pose proof (pi_drain _ Hi t0 Ht0) as Hdr. clear Hk Hd Ht Ht'. by_step Hs.
  - pose proof (pi_waits _ Hi) as Hc. clear Hk. by_step Hs.
  - pose proof (pi_end _ Hi) as Hc. pose proof (pi_waits _ Hi) as Hc'. clear Hk. by_step Hs.
  - pose proof (pi_watch _ Hi) as Hc. pose proof (pi_end _ Hi) as Hc'. clear Hk. by_step Hs.
  - pose proof (pi_returned _ Hi) as Hc. clear Hk. by_step Hs.
Qed.
Lemma others_inv x y : pump_inv x → others x y → pump_inv y.
Proof.
  intros [Hv Ha Hwt He Hr Hm Hd H1 H2 H3 H4]. destruct 1 as [n _| |s Hs Hw Hq]; [by split..|].
  pose proof (follows_step _ _ Hv Hs Hq) as Hf. destruct Ha as (t0 & Ht0 & Hid & Ha).
  pose proof (Hf t0 Ht0 Hid) as ((t' & Ht' & _ & Hd' & _) & _). rewrite Ht0, Ht' in Hw. injection Hw as _ Hex.
  assert (Hat : attached (pu_service x)) by (by exists t0).
  split; pump_simpl; try done.
  - by eapply service_step_inv.
  - by eapply follows_attached.
  - etrans; [by eapply follows_weight|done].
  - intros t Ht Hl. assert (t = t') as -> by congruence. rewrite Hex. by apply He.
  - intros Hx. by eapply follows_takes; [..|apply Hr].
  - intros Hx. by eapply follows_takes; [..|apply Hm].
  - intros t Ht Hl. assert (t = t') as -> by congruence. by apply Hd', (Hd t0).
Qed.

Lemma others_less x y : pump_inv x → pu_closed x = true → others x y → (left_to_do y <= left_to_do x)%nat.
Proof.
  intros Hi Hc. destruct 1 as [n Ho| |s Hs Hw Hq]; [congruence|done|]. unfold left_to_do. pump_simpl.
  pose proof (follows_weight _ _ (pi_attached _ Hi) (follows_step _ _ (pi_service _ Hi) Hs Hq)). lia.
Qed.

Lemma own_closed x y : pu_closed x = true → pump_step x y → pu_closed y = true.
Proof. intros Hc Hs. by destruct Hs. Qed.

Lemma others_closed x y : pu_closed x = true → others x y → pu_closed y = true.
Proof. intros Hc Hs. by destruct Hs. Qed.

Lemma finish_close_weight bridge reason notify l1 l2 s :
  closing s = l1 ++ (p, reason, notify) :: l2 →
  (weight (finish_close bridge p reason notify (mkService (tunnels s) (tobjs s) (pending s) (l1 ++ l2) (sent s))) < weight s)%nat.
Proof.
  intros Hc. assert (E : ∀ s1, tunnels s1 = tunnels s → closing s1 = l1 ++ l2 → (weight s1 < weight s)%nat).
  { intros s1 Et Ec. unfold weight, takes. rewrite Et, Ec, Hc, !List.filter_app, !length_app. simpl. rewrite Nat.eqb_refl. simpl. lia. }
  unfold finish_close. destruct (tobjs _ !! p); [destruct (notify && bridge)|]; by apply E.
Qed.

Lemma own_less x y : pump_inv x → pu_closed x = true → pump_step x y → (left_to_do y < left_to_do x)%nat.
Proof.
  intros Hi Hc Hs. pose proof (follows_weight _ _ (pi_attached _ Hi) (own_follows _ _ Hi Hs)) as Hw. revert Hw. unfold left_to_do.
  destruct Hs as [data err bridge s goes_on E Hl _ Hd Hp|E|d t c rest E Ht Hb Ho|d t c rest E Ht Hb|E|t E Ht Hb|t E Ht Hb|E|E|E ?|E ?|
     reason notify l1 l2 bridge Ec]; pump_simpl; rewrite ?E; simpl; intros Hw; try lia.
  - destruct goes_on; [|destruct (takes _); simpl; lia]. simpl. enough (slen data ≠ 0)%nat by lia. intros El.
    assert (data = "") as -> by (by destruct data). destruct Hd as [Hd| ->]; [done|]. unfold pump_read in Hp. destruct (tobjs _ !! p); [simpl in Hp|]; discriminate.
  - congruence.
  - destruct d, (takes _); simpl; lia.
  - pose proof (finish_close_weight bridge reason notify l1 l2 _ Ec). lia.
Qed.
(** ** The end *)

(** All three goroutines are gone; the tunnel is closed and out of the table. *)
Definition finished (x : Pump) : Prop :=
  pu_main x = Returned ∧ pu_reader x = RDone ∧ pu_watching x = false ∧ pu_closed x = true ∧
  takes (pu_service x) = false ∧ none_closing (pu_service x) ∧
  ∃ t, tobjs (pu_service x) !! p = Some t ∧ t_done t = true.

Lemma closing_or s :
  none_closing s ∧ List.filter (λ c : nat * string * bool, Nat.eqb c.1.1 p) (closing s) = [] ∨
  ∃ reason notify l1 l2, closing s = l1 ++ (p, reason, notify) :: l2.
Proof.
  unfold none_closing. induction (closing s) as [|[[q reason] notify] l IH]; [left; split; [intros ? ? ?%not_elem_of_nil|]; done|].
  simpl. destruct (Nat.eqb_spec q p) as [->|Hne]; [right; by exists reason, notify, [], l|].
  destruct IH as [[Hn Hf]|(r & n & l1 & l2 & ->)]; [left|right; by eexists r, n, (_ :: l1), l2].
  split; [|done]. intros r n [[= <- <- <-]|Hin]%elem_of_cons; [done|]. by eapply Hn.
Qed.

Lemma read_fails x : pu_reader x = Reading → ∃ y, pump_step x y.
Proof.
  intros Hr. destruct (pump_read p "" true None (pu_service x)) as [s goes_on] eqn:E. eexists.
  eapply (own_read x ""); [done|simpl; lia|done|by right|done].
Qed.

Lemma own_progress x : pump_inv x → pu_closed x = true → finished x ∨ ∃ y, pump_step x y.
Proof.
  intros Hi Hc. destruct (closing_or (pu_service x)) as [[Hn Hf]|(r & n & l1 & l2 & E)].
  2: { right. eexists. by apply (own_finish_close x r n l1 l2 false). }
  destruct (pu_reader x) eqn:Er; [right; by apply read_fails|right; eexists; by apply own_read_finished|].
  assert (Hk : takes (pu_service x) = false) by (apply (pi_reader _ Hi); congruence).
  destruct (pi_attached _ Hi) as (t & Ht & Hid & Hd). unfold weight in Hd. rewrite Hk, Hf in Hd. simpl in Hd.
  destruct Hd as [?|Hd]; [lia|]. destruct (pu_main x) as [[]| | | |] eqn:Em.
  - right. destruct (t_inbound t) as [|c rest] eqn:Eb; eexists; [by eapply own_drained|by eapply own_write_fail].
  - right; eexists. by eapply own_done.
  - right; eexists. by apply own_write_finished.
  - right; eexists. by apply own_close.
  - right; eexists. by apply own_wait.
  - destruct (pu_watching x) eqn:Ew; [right; eexists; by apply own_stop|left]. split_and!; try done. by exists t.
Qed.

(** At the start: the tunnel is in the table, or has been finished since it was
    opened; nobody has written for it. *)
Definition starts (s : Service) : Prop :=
  inv s ∧ attached s ∧ (weight s <= 1)%nat ∧ ∀ t, tobjs s !! p = Some t → t_exit t = None.

Lemma pump_invariant s left x : starts s → pump_reachable s left x → pump_inv x.
Proof.
  intros (Hv & Ha & Hw & He). revert x. apply reachable_ind_inv.
  - intros ? ->. split; pump_simpl; try done. intros t Ht _. by apply He.
  - intros x y Hi [Hs|Hs]; [by eapply own_inv|by eapply others_inv].
Qed.

(** C23. [pump] ends. From any moment at which the client's connection is closed, by
    the expiry of the credential, by the writer or by whoever, the three goroutines
    take at most as many more steps as bytes that reads can still return and ten,
    whatever the rest of the service does meanwhile; and they are never stuck before
    all three have returned, the tunnel being closed then and out of the table. The
    expiry closes the connection in every state before that. *)
Theorem pump_terminates s left x n y :
  starts s → pump_reachable s left x → counted pump_step others n x y →
  (pu_closed x = true → (n <= pu_left x + 10)%nat ∧ (finished y ∨ ∃ z, pump_step y z)) ∧
  (pu_expired x = true → pu_closed x = true ∨ ∃ z, pump_step x z ∧ pu_closed z = true).
Proof.
  intros Hs Hx Hr. pose proof (pump_invariant _ _ _ Hs Hx) as Hi. split.
  - intros Hc. destruct (counted_bound pump_step others (λ x, pump_inv x ∧ pu_closed x = true) left_to_do) with (3 := Hr) as [[Hi' Hc'] Hn].
    + intros a b [Ha Hca] Hab. split; [split; [by eapply own_inv|by eapply own_closed]|by apply own_less].
    + intros a b [Ha Hca] Hab. split; [split; [by eapply others_inv|by eapply others_closed]|by apply others_less].
    + done.
    + split; [|by apply own_progress]. pose proof (pi_weight _ Hi) as Hw. revert Hn. unfold left_to_do.
      destruct (pu_reader x), (pu_main x) as [[]| | | |], (pu_watching x); simpl; lia.
  - intros He. destruct (pu_watching x) eqn:Ew; [|left; by apply (pi_watch _ Hi)]. right. eexists. split; [by apply own_expire|done].
Qed.
End Pump.

(** ** The entry points as a whole *)

Section Entries.
Context {W : IntSize}.

(** What becomes of a request: an answer, or a tunnel that [pump] serves until the
    given time. *)
Inductive served (A : Type) := Answered (a : A) | Pumping (p : nat) (deadline : Z).
Arguments Answered {A} a.
Arguments Pumping {A} p deadline.

Definition HandleConnect (id : string) (now : Z) (st : Store) (online : string → bool) (r : ConnectRequest) (e : open_event)
    (hijackable hijacked written : bool) (s : Service) : Service * served response :=
  match connect_gate now st online r with
  | inl resp => (s, Answered resp)
  | inr (sess, host, port) =>
      let '(s, t) := openTunnel id sess host port e s in
      let '(resp, fin) := connect_finish t hijackable hijacked written in
      match t, fin with
      | Ok p, None => (s, Pumping p (ExpiresAt sess))
      | Ok _, Some (reason, notify) => (finish_take id reason notify s, Answered resp)
      | Err _, _ => (s, Answered resp)
      end
  end.

(** [replied]: writing the reply that accepts the target succeeds. *)
Definition HandleTunnel (id : string) (now : Z) (st : Store) (online : string → bool) (proxyAuth auth : string)
    (upgraded : bool) (target : option string) (e : open_event) (replied : bool) (s : Service) : Service * served tunnel_reply :=
  match tunnel_gate now st online proxyAuth auth upgraded target with
  | inl r => (s, Answered r)
  | inr (sess, host, port) =>
      match openTunnel id sess host port e s with
      | (s, Err m) => (s, Answered (ReplyError m))
      | (s, Ok p) =>
          if replied then (s, Pumping p (ExpiresAt sess))
          else (finish_take id "handshake failed" true s, Answered HandshakeFailed)
      end
  end.

Lemma opened_starts id sess host port e s s' p :
  inv s → tunnels s !! id = None → e ≠ TunnelDone → openTunnel id sess host port e s = (s', Ok p) →
  starts p id s' ∧ tunnels s' = <[id := p]> (tunnels s) ∧ tobjs s' !! p = Some (newTunnel id (AgentID sess) (ID sess)).
Proof.
  intros Hi Hid He Ho. pose proof (openTunnel_table id sess host port e s Hid He) as Ht. rewrite Ho in Ht.
  destruct Ht as [(Et & Ep & Hp & _) _]. assert (Hc : closing s' = closing s ∧ inv s').
  { revert Ho. unfold openTunnel. pose proof (addTunnel_inv (newTunnel id (AgentID sess) (ID sess)) s (newTunnel_flow _ _ _) eq_refl Hi) as Ha.
    assert (Ec : closing (fst (addTunnel (newTunnel id (AgentID sess) (ID sess)) s)) = closing s)
      by (unfold addTunnel; by destruct (_ <=? _)%nat).
    destruct (addTunnel _ s) as [s1 [q|]]; [|done]. simpl in *. destruct (open_outcome e) as [[[]|m] [[reason notify]|]] eqn:Eo; try done.
    - by destruct e as [|[? []]| |].
    - intros [= <- _]. destruct Ha as [Hf [Hl Hcl Hn]]. by destruct e as [|[? []]| |]; (split; [|split; [|split]]). }
  destruct Hc as [Ec Hi']. split; [|done]. split; [done|].
  assert (Hw : weight p id s' = 1%nat).
  { unfold weight, takes. rewrite Et, lookup_insert_eq, bool_decide_eq_true_2, Ec by done.
    destruct Hi as [_ [_ Hcl _]]. assert (Hf : List.filter (λ c : nat * string * bool, (c.1.1 =? p)%nat) (closing s) = []).
    { assert (Hall : Forall (λ c : nat * string * bool, (c.1.1 < length (tobjs s))%nat) (closing s))
        by (apply Forall_forall; intros [[q r] n] Hin; by apply Hcl in Hin as [? _]).
      clear -Hall Ep. subst p. induction Hall as [|c l Hc _ IH]; [done|]. simpl. rewrite (proj2 (Nat.eqb_neq _ _)) by lia. done. }
    by rewrite Hf. }
  split_and!; [exists (newTunnel id (AgentID sess) (ID sess)); split_and!; [done..|left; lia]|lia|].
  intros t Ht. by rewrite Hp in Ht; injection Ht as <-.
Qed.

Lemma finish_opened id p reason notify s s' :
  tunnels s !! id = None → tunnels s' = <[id := p]> (tunnels s) → tunnels (finish_take id reason notify s') = tunnels s.
Proof. intros Hid Et. unfold finish_take. rewrite Et, lookup_insert_eq. simpl. by apply delete_insert_id. Qed.

(** What a request with the credential [cred] may end in. *)
Definition proper_end {A} (now : Z) (st : Store) (cred : option (string * string)) (id : string) (s s' : Service) (o : served A) : Prop :=
  match o with
  | Answered _ => tunnels s' = tunnels s
  | Pumping p deadline =>
      starts p id s' ∧ ∃ user pass sess,
        cred = Some (user, pass) ∧ live now st (ID sess) = Some sess ∧ Username sess = user ∧
        passwordHash sess = HexEncode (Sum256 pass) ∧ deadline = ExpiresAt sess ∧
        tobjs s' !! p = Some (newTunnel id (AgentID sess) (ID sess))
  end.

Lemma gate_credential now st cred user pass sess :
  wf st → cred = Some (user, pass) → Authenticate now user pass st = Ok sess →
  ∃ u q, cred = Some (u, q) ∧ live now st (ID sess) = Some sess ∧ Username sess = u ∧ passwordHash sess = HexEncode (Sum256 q).
Proof. intros Hw -> Ha. apply Authenticate_live in Ha; [|done]. by exists user, pass. Qed.

Lemma connect_gate_credential now st online r sess host port :
  wf st → connect_gate now st online r = inr (sess, host, port) →
  ∃ u q, ParseBasicAuth (cr_ProxyAuthorization r) = Some (u, q) ∧ live now st (ID sess) = Some sess ∧ Username sess = u ∧
    passwordHash sess = HexEncode (Sum256 q).
Proof.
  intros Hw. unfold connect_gate. destruct (negb _); [done|]. destruct (ParseBasicAuth _) as [[u q]|] eqn:E; [|done].
  destruct (Authenticate now u q st) as [s0|] eqn:Ea; [|done]. destruct (ParseConnectTarget _) as [[h p]|]; [|done].
  destruct (negb _); [done|]. intros [= <- _ _]. by eapply gate_credential.
Qed.

Lemma tunnel_gate_credential now st online pa a up target sess host port :
  wf st → tunnel_gate now st online pa a up target = inr (sess, host, port) →
  ∃ u q, tunnelCredential pa a = Some (u, q) ∧ live now st (ID sess) = Some sess ∧ Username sess = u ∧
    passwordHash sess = HexEncode (Sum256 q).
Proof.
  intros Hw. unfold tunnel_gate. destruct (tunnelCredential pa a) as [[u q]|] eqn:E; [|done].
  destruct (Authenticate now u q st) as [s0|] eqn:Ea; [|done]. destruct up; [|done]. destruct target as [target|]; [|done].
  simpl. destruct (ParseConnectTarget _) as [[h p]|]; [|done]. destruct (negb _); [done|]. intros [= <- _ _]. by eapply gate_credential.
Qed.

(** C37. Both entry points, from the request to [pump]: whatever fails on the way, the
    gates, the limit, the dial, the hijack or the reply, leaves the table as it was;
    what goes on to [pump] is a tunnel in the table, of the live session whose
    credential came with the request and of its probe, which [pump] serves until the
    session expires, with the end that [pump] has. *)
Theorem entry_points id now st online r e hijackable hijacked written proxyAuth auth upgraded target replied s :
  inv s → wf st → tunnels s !! id = None → e ≠ TunnelDone →
  (let '(s', o) := HandleConnect id now st online r e hijackable hijacked written s in
   proper_end now st (ParseBasicAuth (cr_ProxyAuthorization r)) id s s' o) ∧
  (let '(s', o) := HandleTunnel id now st online proxyAuth auth upgraded target e replied s in
   proper_end now st (tunnelCredential proxyAuth auth) id s s' o).
Proof.
  intros Hi Hw Hid He. split.
  - unfold HandleConnect. destruct (connect_gate now st online r) as [resp|[[sess host] port]] eqn:Eg; [done|].
    apply connect_gate_credential in Eg as (u & q & Hc); [|done].
    pose proof (openTunnel_table id sess host port e s Hid He) as Ht.
    destruct (openTunnel id sess host port e s) as [s' [p|m]] eqn:Eo; [|by destruct (connect_finish _ _ _ _); destruct Ht].
    destruct (opened_starts _ _ _ _ _ _ _ _ Hi Hid He Eo) as (Hst & Et & Hp). simpl.
    repeat case_match; simplify_eq; simpl; try (by eapply finish_opened). split; [done|]. exists u, q, sess. tauto.
  - unfold HandleTunnel. destruct (tunnel_gate now st online proxyAuth auth upgraded target) as [resp|[[sess host] port]] eqn:Eg; [done|].
    apply tunnel_gate_credential in Eg as (u & q & Hc); [|done].
    pose proof (openTunnel_table id sess host port e s Hid He) as Ht.
    destruct (openTunnel id sess host port e s) as [s' [p|m]] eqn:Eo; [|by destruct Ht].
    destruct (opened_starts _ _ _ _ _ _ _ _ Hi Hid He Eo) as (Hst & Et & Hp).
    destruct replied; simpl; [|by eapply finish_opened]. split; [done|]. exists u, q, sess. tauto.
Qed.
End Entries.

(** ** Witnesses *)

(** A tunnel that was just opened; its client has sent five bytes when the
    credential expires. *)
Definition demo_open : Service := fst (addTunnel (newTunnel "t1" "probe" "sess") NewService).
Definition demo_expired : Pump := mkPump demo_open true 5 true Reading (Looping false) false.
(** The reader still passes the five bytes on. *)
Definition demo_read : Pump :=
  mkPump (fst (pump_read 0 "hello" false (Some (true, Ok tt)) demo_open)) true 0 true Reading (Looping false) false.

Lemma demo_starts : starts 0 "t1" demo_open.
Proof.
  split; [apply service_inv; eapply reach_step; [by apply reach_init|apply step_open]|].
  assert (E : weight 0 "t1" demo_open = 1%nat) by (by vm_compute). rewrite E. split_and!; [|done|].
  - exists (newTunnel "t1" "probe" "sess"). split_and!; [done..|left; rewrite E; by apply Nat.lt_0_1].
  - intros t [= <-]. done.
Qed.

Lemma demo_expired_reachable : pump_reachable 0 "t1" demo_open 5 demo_expired.
Proof.
  set (x := mkPump demo_open false 5 true Reading (Looping false) true).
  eapply (reach_step _ _ x); [eapply (reach_step _ _ (pump demo_open 5)); [by apply reach_init|right]|left].
  - exact (others_expired 0 "t1" (pump demo_open 5)).
  - by apply (own_expire 0 "t1" x).
Qed.

Lemma pump_terminates_witness :
  pu_service demo_read ≠ demo_open ∧ (1 <= 5 + 10)%nat ∧
  (finished 0 "t1" demo_read ∨ ∃ z, pump_step 0 "t1" demo_read z).
Proof.
  split; [by vm_compute|].
  apply (pump_terminates 0 "t1" demo_open 5 demo_expired 1 demo_read demo_starts demo_expired_reachable); [|reflexivity].
  eapply counted_own; [|apply counted_refl].
  apply (own_read 0 "t1" demo_expired "hello" false (Some (true, Ok tt)) _ true); [done|by apply Nat.leb_le|by vm_compute|by left|].
  by vm_compute.
Defined.

(** A credential as it is issued, the store that has it, and a CONNECT with it. *)
Definition demo_issued : Store * result (Session * string) :=
  Issue (H := in_key_order) (H1 := counting_rand) 0 0 "a" "A" 1 NewStore.
Definition demo_connect : ConnectRequest :=
  match demo_issued.2 with
  | Ok (sess, pw) => mkConnect "CONNECT" ("Basic " +:+ B64Encode (Username sess +:+ ":" +:+ pw)) "example.com:443" None
  | Err _ => mkConnect "" "" "" None
  end.
Definition demo_accepts : open_event := DialResult (mkOpenResult "t1" true "").

Lemma entry_points_witness :
  let _ := int64_size in
  ∃ s', HandleConnect "t1" 1 demo_issued.1 (λ _, true) demo_connect demo_accepts true true true NewService = (s', Pumping _ 0 SessionTTL) ∧
  starts 0 "t1" s'.
Proof.
  intros W. eexists. split; [vm_compute; reflexivity|].
  assert (Hi : inv NewService) by (by apply service_inv, reach_init).
  assert (Hw : wf demo_issued.1) by (apply Issue_wf, NewStore_wf).
  destruct (entry_points "t1" 1 demo_issued.1 (λ _, true) demo_connect demo_accepts true true true "" "" false None true NewService Hi Hw
    eq_refl ltac:(discriminate)) as [Hc _].
  replace (HandleConnect "t1" 1 demo_issued.1 (λ _, true) demo_connect demo_accepts true true true NewService)
    with (fst (HandleConnect "t1" 1 demo_issued.1 (λ _, true) demo_connect demo_accepts true true true NewService), Pumping response 0 SessionTTL)
    in Hc by (vm_compute; reflexivity).
  destruct Hc as [Hs _]. exact Hs.
Defined.
