(* ===== verification/Access.v ===== *)
(** * The HTTP surface of the Host ([host/internal/api], [host/internal/auth], [host/cmd/server])

    The OAuth configurations and callbacks, the routes with the gates in front of
    them, the setup status, the credential console, the dispatch of the server and
    its trusted proxies. Routing itself, CORS and the identity providers are the
    libraries'; what a provider answers is an argument. *)
From S2P Require Import Prelude GoStrings GoNet GoEncoding Protocol Model Hub Ingest Console Accounts.
From S2P Require Import ProxySession ProxyService.

(** [os.Getenv] *)
Definition Env := string → string.

Definition setting_or_env (env : Env) (st : Accounts) (key var : string) : string :=
  or_else (GetSetting key st) (env var).

Definition trim_slashes (s : string) : string := TrimRight s "/".

(** ** OAuth configurations *)

Record OAuthConfig := mkOAuth { oc_ClientID : string; oc_ClientSecret : string; oc_AuthURL : string; oc_TokenURL : string;
  oc_RedirectURL : string; oc_Scopes : list string }.

(** The endpoints the oauth2 library has for GitHub and Google. *)
Class Endpoints := { github_endpoint : string * string; google_endpoint : string * string }.

Section Configs.
Context `{Endpoints} (env : Env).

Definition oauth_app_url (st : Accounts) : string :=
  trim_slashes (or_else (setting_or_env env st "app_url" "APP_URL") "http://localhost:8080").

Definition GetOAuthConfig (st : Accounts) : result OAuthConfig :=
  let clientID := setting_or_env env st "github_client_id" "GITHUB_CLIENT_ID" in
  let clientSecret := setting_or_env env st "github_client_secret" "GITHUB_CLIENT_SECRET" in
  if (clientID =? "")%string || (clientSecret =? "")%string then Err "github oauth is not configured yet"
  else Ok (mkOAuth clientID clientSecret (fst github_endpoint) (snd github_endpoint)
             (oauth_app_url st +:+ "/api/auth/github/callback") ["read:user"; "user:email"]).

Definition GetGoogleOAuthConfig (st : Accounts) : result OAuthConfig :=
  let clientID := setting_or_env env st "google_client_id" "GOOGLE_CLIENT_ID" in
  let clientSecret := setting_or_env env st "google_client_secret" "GOOGLE_CLIENT_SECRET" in
  if (clientID =? "")%string || (clientSecret =? "")%string then Err "google oauth is not configured"
  else Ok (mkOAuth clientID clientSecret (fst google_endpoint) (snd google_endpoint)
             (oauth_app_url st +:+ "/api/auth/google/callback") ["openid"; "profile"; "email"]).

Definition GetGenericOAuthConfig (st : Accounts) : result OAuthConfig :=
  let clientID := setting_or_env env st "oidc_client_id" "OIDC_CLIENT_ID" in
  let clientSecret := setting_or_env env st "oidc_client_secret" "OIDC_CLIENT_SECRET" in
  let authURL := setting_or_env env st "oidc_auth_url" "OIDC_AUTH_URL" in
  let tokenURL := setting_or_env env st "oidc_token_url" "OIDC_TOKEN_URL" in
  if (clientID =? "")%string || (clientSecret =? "")%string || (authURL =? "")%string || (tokenURL =? "")%string
  then Err "generic oidc is not fully configured"
  else Ok (mkOAuth clientID clientSecret authURL tokenURL
             (oauth_app_url st +:+ "/api/auth/oidc/callback") ["openid"; "profile"; "email"]).
End Configs.

(** ** Callbacks *)

(** What the providers answer: the exchange of the code for a token, and the user
    a token stands for; [None] is any failure. *)
Class Providers := {
  exchange : OAuthConfig → string → option string;
  github_user : string → option (GitHubUser * list GitHubEmail);
  google_user : string → option googleUserInfo;
  oidc_user : string → string → option oidcUserInfo
}.

Section Callbacks.
Context `{UnicodeLower} `{Endpoints} `{Providers} (env : Env).

(** The parameters of the request and the state cookie. *)
Record CallbackRequest := mkCallback { cb_Cookie : option string; cb_State : string; cb_Code : string }.

Definition githubCallback (r : CallbackRequest) (st : Accounts) : AuthUser + string :=
  if negb (ValidateOAuthState (cb_Cookie r) (cb_State r)) then inr "/login?error=invalid_oauth_state"
  else if (cb_Code r =? "")%string then inr "/login?error=missing_code"
  else
    match GetOAuthConfig env st with
    | Err _ => inr "/setup?error=oauth_not_configured"
    | Ok cfg =>
        match exchange cfg (cb_Code r) with
        | None => inr "/login?error=token_exchange_failed"
        | Some token =>
            match github_user token with
            | None => inr "/login?error=fetch_user_failed"
            | Some (u, emails) =>
                match github_identity u emails with
                | Err e => inr ("/login?error=" +:+ e)
                | Ok a => inl a
                end
            end
        end
    end.

Definition googleCallback (r : CallbackRequest) (st : Accounts) : AuthUser + string :=
  if negb (ValidateOAuthState (cb_Cookie r) (cb_State r)) then inr "/login?error=invalid_oauth_state"
  else
    match GetGoogleOAuthConfig env st with
    | Err _ => inr "/setup?error=google_oauth_not_configured"
    | Ok cfg =>
        match exchange cfg (cb_Code r) with
        | None => inr "/login?error=google_exchange_failed"
        | Some token =>
            match google_user token with
            | None => inr "/login?error=google_userinfo_failed"
            | Some info =>
                match FetchGoogleUserInfo info with
                | Err _ => inr "/login?error=google_userinfo_failed"
                | Ok a => inl a
                end
            end
        end
    end.

Definition oidcCallback (r : CallbackRequest) (st : Accounts) : AuthUser + string :=
  if negb (ValidateOAuthState (cb_Cookie r) (cb_State r)) then inr "/login?error=invalid_oauth_state"
  else
    match GetGenericOAuthConfig env st with
    | Err _ => inr "/setup?error=oidc_not_configured"
    | Ok cfg =>
        match exchange cfg (cb_Code r) with
        | None => inr "/login?error=oidc_exchange_failed"
        | Some token =>
            let userInfoURL := setting_or_env env st "oidc_userinfo_url" "OIDC_USERINFO_URL" in
            if (userInfoURL =? "")%string then inr "/login?error=oidc_userinfo_failed"
            else
              match oidc_user userInfoURL token with
              | None => inr "/login?error=oidc_userinfo_failed"
              | Some info =>
                  match FetchGenericOIDCUserInfo (GetSetting "oidc_name" st) info with
                  | Err _ => inr "/login?error=oidc_userinfo_failed"
                  | Ok a => inl a
                  end
              end
        end
    end.

Inductive provider := GitHub | Google | OIDC.

Definition callback (p : provider) : CallbackRequest → Accounts → AuthUser + string :=
  match p with GitHub => githubCallback | Google => googleCallback | OIDC => oidcCallback end.

(** A whole login: the callback, then [handleOAuthLoginSuccess]. *)
Definition oauth_login (p : provider) (r : CallbackRequest) (now : Z) (read_ok : bool) (tx_err : option string)
    (lookup_ok write_ok token_ok : bool) (st : Accounts) : Accounts * login_outcome :=
  match callback p r st with
  | inr to => (st, Refused to)
  | inl a => handleOAuthLoginSuccess a now read_ok tx_err lookup_ok write_ok token_ok st
  end.
End Callbacks.

(** ** [getSetupStatus], [getCurrentUser], the cookies *)

Record SetupStatus := mkStatus {
  st_Initialized : bool; st_HasOAuth : bool; st_GitHub : bool; st_Google : bool; st_OIDC : bool; st_AppURL : string;
  st_GitHubCallback : string; st_GoogleCallback : string; st_OIDCCallback : string
}.

Definition getSetupStatus (env : Env) (host : string) (st : Accounts) : SetupStatus :=
  let clientID := setting_or_env env st "github_client_id" "GITHUB_CLIENT_ID" in
  let googleID := setting_or_env env st "google_client_id" "GOOGLE_CLIENT_ID" in
  let oidcID := setting_or_env env st "oidc_client_id" "OIDC_CLIENT_ID" in
  let set s := negb (s =? "")%string in
  let appURL := trim_slashes (or_else (setting_or_env env st "app_url" "APP_URL") ("http://" +:+ host)) in
  mkStatus (initialized st) (set clientID || set googleID || set oidcID) (set clientID) (set googleID) (set oidcID) appURL
    (appURL +:+ "/api/auth/github/callback") (appURL +:+ "/api/auth/google/callback") (appURL +:+ "/api/auth/oidc/callback").

Record UserView := mkUserView { uv_ID : Z; uv_Provider : string; uv_Username : string; uv_Email : string;
  uv_AvatarURL : string; uv_Role : string }.

(** [None] is [{"authenticated": false}]. *)
Definition getCurrentUser (user : option User) : option UserView :=
  x ← user; Some (mkUserView (u_ID x) (u_Provider x) (u_Username x) (u_Email x) (u_AvatarURL x) (u_Role x)).

Definition isHTTPSRequest `{UnicodeLower} (env : Env) (tls : bool) (forwardedProto : string) (st : Accounts) : bool :=
  tls || EqualFold forwardedProto "https" ||
  HasPrefix (ToLower (setting_or_env env st "app_url" "APP_URL")) "https://".

(** A [Set-Cookie] of the Host: HttpOnly and SameSite=Lax always. *)
Record Cookie := mkCookie { ck_Name : string; ck_Value : string; ck_MaxAge : Z; ck_Path : string; ck_Secure : bool }.

Definition CookieSessionName : string := "justping_token".
Definition OAuthStateCookie : string := "justping_oauth_state".

Definition GenerateOAuthState (random : string) (secure : bool) : string * Cookie :=
  (HexEncode random, mkCookie OAuthStateCookie (HexEncode random) 600 "/api/auth" secure).
Definition SetSessionCookie (token : string) (secure : bool) : Cookie :=
  mkCookie CookieSessionName token (7 * 86400) "/" secure.
Definition ClearSessionCookie (secure : bool) : Cookie := mkCookie CookieSessionName "" (-1) "/" secure.

(** The start of a login: a page of the console, or the provider's, with the
    configuration and the state its URL carries and the cookie that is set. *)
Inductive login_start :=
  | ToConsole (path : string)
  | ToProvider (cfg : OAuthConfig) (state : string) (cookie : Cookie).
Definition start_login (cfg : result OAuthConfig) (unconfigured random : string) (secure : bool) : login_start :=
  match cfg with
  | Err _ => ToConsole unconfigured
  | Ok cfg => let '(state, cookie) := GenerateOAuthState random secure in ToProvider cfg state cookie
  end.

Section Logins.
Context `{Endpoints} (env : Env).
Definition githubLogin (random : string) (secure : bool) (st : Accounts) : login_start :=
  start_login (GetOAuthConfig env st) "/setup?error=oauth_not_configured" random secure.
Definition googleLogin (random : string) (secure : bool) (st : Accounts) : login_start :=
  start_login (GetGoogleOAuthConfig env st) "/setup?error=google_oauth_not_configured" random secure.
Definition oidcLogin (random : string) (secure : bool) (st : Accounts) : login_start :=
  start_login (GetGenericOAuthConfig env st) "/setup?error=oidc_not_configured" random secure.
End Logins.

Definition logout (secure : bool) : Cookie := ClearSessionCookie secure.

(** ** Routes *)

Inductive method := GET | POST | PUT | DELETE.
#[export] Instance method_eq_dec : EqDecision method.
Proof. solve_decision. Defined.

Inductive middleware := UseOptionalAuth | UseAuthRequired | UseSuperadminRequired.
#[export] Instance middleware_eq_dec : EqDecision middleware.
Proof. solve_decision. Defined.

(** The handlers in front of a route, in the order they run. *)
Record route := mkRoute { rt_method : method; rt_path : string; rt_gates : list middleware }.

Definition public_routes : list route :=
  (λ p, mkRoute GET ("/api/public" +:+ p) [UseOptionalAuth]) <$>
    ["/summary"; "/agents"; "/targets"; "/matrix"; "/metrics"; "/traceroute"; "/traceroutes"; "/traceroute/:id"].

Definition admin_routes : list route :=
  (λ e : method * string, mkRoute (fst e) ("/api/admin" +:+ snd e) [UseAuthRequired]) <$>
    [(GET, "/targets"); (POST, "/targets"); (PUT, "/targets/:id"); (DELETE, "/targets/:id");
     (GET, "/agents"); (POST, "/agents"); (POST, "/agents/update-check"); (POST, "/agents/crash-update");
     (POST, "/agents/:id/rotate-token"); (POST, "/agents/:id/update-check"); (POST, "/agents/:id/crash-update");
     (PUT, "/agents/:id"); (DELETE, "/agents/:id"); (GET, "/features"); (POST, "/proxy/sessions");
     (GET, "/proxy/sessions"); (DELETE, "/proxy/sessions/:id"); (GET, "/whitelist"); (POST, "/whitelist");
     (DELETE, "/whitelist/:id")].

Definition super_routes : list route :=
  (λ m, mkRoute m "/api/admin/settings" [UseAuthRequired; UseSuperadminRequired]) <$> [GET; POST].

Definition open_routes : list route :=
  (λ e : method * string * list middleware, mkRoute (fst (fst e)) ("/api" +:+ snd (fst e)) (snd e)) <$>
    [(GET, "/version", []); (GET, "/agent/ws", []); (GET, "/setup/status", []); (POST, "/setup/config", []);
     (GET, "/auth/github/login", []); (GET, "/auth/github/callback", []); (GET, "/auth/google/login", []);
     (GET, "/auth/google/callback", []); (GET, "/auth/oidc/login", []); (GET, "/auth/oidc/callback", []);
     (GET, "/auth/me", [UseOptionalAuth]); (POST, "/auth/logout", [])].

Definition RegisterRoutes : list route := open_routes ++ public_routes ++ admin_routes ++ super_routes.

Definition run_middleware (m : middleware) (r : result User) : gate :=
  match m with
  | UseOptionalAuth => OptionalAuth r
  | UseAuthRequired => AuthRequired r
  | UseSuperadminRequired => SuperadminRequired r
  end.

(** The chain of gin: the first [Abort] stops it, and the user of the last gate
    is the one the handler sees. *)
Fixpoint run_gates (l : list middleware) (r : result User) (user : option User) : gate :=
  match l with
  | [] => Pass user
  | m :: l =>
      match run_middleware m r with
      | Stop s => Stop s
      | Pass (Some u) => run_gates l r (Some u)
      | Pass None => run_gates l r user
      end
  end.

Definition serve (rt : route) (r : result User) : gate := run_gates (rt_gates rt) r None.

(** ** The credential console (admin_proxy.go) *)

Definition publicURL (host : string) (st : Accounts) : string :=
  let appURL := GetSetting "app_url" st in
  if negb (appURL =? "")%string then trim_slashes appURL else "http://" +:+ host.

Definition tunnelDownloadBase (buildVersion : string) : string :=
  let releases := "https://github.com/guimc233/JustPing/releases" in
  if HasPrefix buildVersion "v" && negb (Contains buildVersion "-") then releases +:+ "/download/" +:+ buildVersion
  else releases +:+ "/latest/download".

(** [url.UserPassword] and [url.URL.Host] as [URL.String] prints them. *)
Definition unreserved (c : ascii) : bool :=
  let b := byte_of c in
  ((97 <=? b) && (b <=? 122) || (65 <=? b) && (b <=? 90) || is_digit c)%Z || existsb (Ascii.eqb c) ["-"; "_"; "."; "~"]%char.
Definition user_keeps (c : ascii) : bool := unreserved c || existsb (Ascii.eqb c) ["$"; "&"; "+"; ","; ";"; "="]%char.
Definition host_keeps (c : ascii) : bool :=
  unreserved c || existsb (Ascii.eqb c) ["!"; "$"; "&"; "'"; "("; ")"; "*"; "+"; ","; ";"; "="; ":"; "["; "]"; "<"; ">"; ascii_of_nat 34]%char.

Definition upper_hex (d : Z) : ascii := if (d <? 10)%Z then chr (48 + d) else chr (55 + d).

Fixpoint escape (keeps : ascii → bool) (s : string) : string :=
  match s with
  | EmptyString => ""
  | String c s =>
      if keeps c then String c (escape keeps s)
      else String "%" (String (upper_hex (byte_of c / 16)) (String (upper_hex (byte_of c mod 16)) (escape keeps s)))
  end.

Definition proxyURL (host username password : string) : string :=
  let host := or_else host "127.0.0.1:8080" in
  "http://" +:+ escape user_keeps username +:+ ":" +:+ escape user_keeps password +:+ "@" +:+ escape host_keeps host.

(** [time.Time.UTC().Format("2006-01-02T15:04:05Z07:00")] of an instant in
    nanoseconds since 1970, for the years 1 to 9999. *)
Definition civil (days : Z) : Z * Z * Z :=
  let z := (days + 719468)%Z in
  let era := (z / 146097)%Z in
  let doe := (z - era * 146097)%Z in
  let yoe := ((doe - doe / 1460 + doe / 36524 - doe / 146096) / 365)%Z in
  let doy := (doe - (365 * yoe + yoe / 4 - yoe / 100))%Z in
  let mp := ((5 * doy + 2) / 153)%Z in
  let d := (doy - (153 * mp + 2) / 5 + 1)%Z in
  let m := (if mp <? 10 then mp + 3 else mp - 9)%Z in
  ((yoe + era * 400 + (if m <=? 2 then 1 else 0))%Z, m, d).

Fixpoint pad_zero (n : nat) (s : string) : string :=
  match n with
  | O => s
  | S n => if (slen s <=? n)%nat then String "0" (pad_zero n s) else s
  end.

Definition rfc3339 (ns : Z) : string :=
  let sec := (ns / 1000000000)%Z in
  let '(y, m, d) := civil (sec / 86400) in
  let t := (sec mod 86400)%Z in
  let two z := pad_zero 2 (Itoa z) in
  pad_zero 4 (Itoa y) +:+ "-" +:+ two m +:+ "-" +:+ two d +:+ "T" +:+ two (t / 3600)%Z +:+ ":" +:+
  two (t mod 3600 / 60)%Z +:+ ":" +:+ two (t mod 60)%Z +:+ "Z".

Example rfc3339_tests :
  rfc3339 0 = "1970-01-01T00:00:00Z" ∧ rfc3339 1709210096123456789 = "2024-02-29T12:34:56Z" ∧
  rfc3339 946684799000000000 = "1999-12-31T23:59:59Z".
Proof. by vm_compute. Qed.

Record proxySessionView := mkView { pv_ID : string; pv_AgentID : string; pv_AgentName : string; pv_Username : string;
  pv_ExpiresAt : string; pv_TTLSec : Z }.

Definition viewSession (s : Session) : proxySessionView :=
  mkView (ID s) (AgentID s) (AgentName s) (Username s) (rfc3339 (ExpiresAt s)) (SessionTTL / 1000000000).

Record issuedProxySessionView := mkIssued { iv_View : proxySessionView; iv_Password : string; iv_ProxyURL : string;
  iv_TunnelDownloadBase : string; iv_ServerURL : string }.

(** The error of [adminCreateProxySession] is its status; the user is the one the
    gate has set. *)
Definition adminCreateProxySession `{MapOrder} `{Rand} (k : nat) (now : Z) (host buildVersion : string) (agentID : option string)
    (user : User) (acc : Accounts) (sv : Server) (st : Store) : Store * (issuedProxySessionView + Z) :=
  match agentID with
  | None => (st, inr 400%Z)
  | Some id =>
      if (id =? "")%string then (st, inr 400%Z)
      else
        match agent_row (sv_db sv) id with
        | None => (st, inr 404%Z)
        | Some a =>
            if negb (Online id (sv_hub sv)) then (st, inr 409%Z)
            else
              let '(st, r) := Issue k now (ag_ID a) (ag_Name a) (u_ID user) st in
              match r with
              | Err _ => (st, inr 500%Z)
              | Ok (s, password) =>
                  (st, inl (mkIssued (viewSession s) password (proxyURL host (Username s) password)
                         (tunnelDownloadBase buildVersion) (publicURL host acc)))
              end
        end
  end.

Definition adminListProxySessions `{MapOrder} `{GoSort} (now : Z) (st : Store) : Store * list proxySessionView :=
  let '(st, sessions) := List now st in (st, viewSession <$> sessions).

Definition adminRevokeProxySession `{MapOrder} (now : Z) (id : string) (st : Store) (s : Service) : Store * Service * Z :=
  let '(st, s, ok) := ServiceRevoke now id st s in (st, s, if ok then 200%Z else 404%Z).

(** ** The server (main.go) *)

Definition allowed_origins (env : Env) (st : Accounts) : list string :=
  let appURL := setting_or_env env st "app_url" "APP_URL" in
  ["http://localhost:5173"; "http://localhost:8080"; "http://127.0.0.1:5173"; "http://127.0.0.1:8080"] ++
  (if negb (appURL =? "")%string then [trim_slashes appURL] else []).

Definition default_proxies : list string :=
  ["127.0.0.0/8"; "10.0.0.0/8"; "172.16.0.0/12"; "192.168.0.0/16"; "::1/128"; "fc00::/7"].

(** What [configureTrustedProxies] gives to [SetTrustedProxies]. *)
Definition configureTrustedProxies (env : Env) : list string :=
  let trimmed := TrimSpace (env "TRUSTED_PROXIES") in
  if negb (env "TRUSTED_PROXIES" =? "")%string then
    if existsb (String.eqb trimmed) ["none"; "nil"; "off"; "false"] then []
    else if existsb (String.eqb trimmed) ["*"; "all"] then ["0.0.0.0/0"; "::/0"]
    else
      let proxies := List.filter (λ s, negb (s =? "")%string) (TrimSpace <$> Split trimmed ",") in
      if (0 <? length proxies)%nat then proxies else default_proxies
  else default_proxies.

Inductive dispatch := ToTunnel | ToConnect | ToRouter.

(** [upgrade]: the request asks for a WebSocket. *)
Definition TunnelPath : string := "/api/proxy/tunnel".
Definition IsTunnelRequest (path : string) (upgrade : bool) : bool := (path =? TunnelPath)%string && upgrade.
Definition main_handler (meth path : string) (upgrade : bool) : dispatch :=
  if IsTunnelRequest path upgrade then ToTunnel
  else if (meth =? "CONNECT")%string then ToConnect
  else ToRouter.

(** [none], [all] and the defaults. *)
Example configureTrustedProxies_tests :
  configureTrustedProxies (λ _, "") = default_proxies ∧ configureTrustedProxies (λ _, " off ") = [] ∧
  configureTrustedProxies (λ _, "*") = ["0.0.0.0/0"; "::/0"] ∧
  configureTrustedProxies (λ _, " 10.1.0.0/16, ,172.20.0.1") = ["10.1.0.0/16"; "172.20.0.1"] ∧
  configureTrustedProxies (λ _, " , ") = default_proxies.
Proof. by vm_compute. Qed.

(** ** Lemmas *)

Lemma ValidateOAuthState_true cookie state : ValidateOAuthState cookie state = true → cookie = Some state ∧ state ≠ "".
Proof.
  unfold ValidateOAuthState. destruct (String.eqb_spec state ""); [done|]. destruct cookie as [c|]; [|done].
  destruct (c =? "")%string; [done|]. intros ->%String.eqb_eq. done.
Qed.

(** The state a login starts with passes the check of its callback. *)
Lemma login_state cfg unconfigured random secure state cookie :
  start_login (Ok cfg) unconfigured random secure = ToProvider cfg state cookie → random ≠ "" →
  ValidateOAuthState (Some (ck_Value cookie)) state = true.
Proof.
  unfold start_login, GenerateOAuthState. intros [= <- <-] Hr. cbn [ck_Value]. unfold ValidateOAuthState.
  destruct (String.eqb_spec (HexEncode random) "") as [E|_]; [|apply String.eqb_refl]. by destruct random.
Qed.

Section Vouched.
Context `{UnicodeLower} `{Endpoints} `{Providers} (env : Env).

(** The provider answers, for the code of the request, that the address is verified. *)
Definition vouched (p : provider) (r : CallbackRequest) (st : Accounts) (e : string) : Prop :=
  match p with
  | GitHub => ∃ cfg tok u emails g,
      GetOAuthConfig env st = Ok cfg ∧ exchange cfg (cb_Code r) = Some tok ∧ github_user tok = Some (u, emails) ∧
      g ∈ emails ∧ ge_Verified g = true ∧ e = ToLower (TrimSpace (ge_Email g))
  | Google => ∃ cfg tok info,
      GetGoogleOAuthConfig env st = Ok cfg ∧ exchange cfg (cb_Code r) = Some tok ∧ google_user tok = Some info ∧
      gi_VerifiedEmail info = true ∧ e = ToLower (gi_Email info)
  | OIDC => ∃ cfg tok info,
      GetGenericOAuthConfig env st = Ok cfg ∧ exchange cfg (cb_Code r) = Some tok ∧
      oidc_user (setting_or_env env st "oidc_userinfo_url" "OIDC_USERINFO_URL") tok = Some info ∧
      oi_EmailVerified info = Some true ∧ e = ToLower (TrimSpace (oi_Email info))
  end.

Lemma github_verified emails (email : string) l e :
  e ∈ snd (foldl github_email (email, l) emails) →
  e ∈ l ∨ ∃ g, g ∈ emails ∧ ge_Verified g = true ∧ e = ToLower (TrimSpace (ge_Email g)).
Proof.
  revert email l. induction emails as [|g emails IH]; intros email l He; [by left|]. cbn [foldl] in He.
  unfold github_email in He at 2. fold github_email in He.
  destruct (ge_Verified g) eqn:Ev; [destruct (negb _)|]; apply IH in He as [He|(g' & Hg & Hv & ->)];
    try (right; exists g'; split_and!; [by right|done|done]); try (by left).
  apply elem_of_app in He as [He|He%list_elem_of_singleton]; [by left|]. right. exists g. split_and!; [by left|done|done].
Qed.

Lemma callback_verified p r st a :
  callback env p r st = inl a →
  cb_Cookie r = Some (cb_State r) ∧ cb_State r ≠ "" ∧ ∀ e, e ∈ au_VerifiedEmails a → vouched p r st e.
Proof.
  destruct p; cbn [callback]; [unfold githubCallback|unfold googleCallback|unfold oidcCallback];
    destruct (ValidateOAuthState _ _) eqn:Ev; cbn [negb]; try done;
    apply ValidateOAuthState_true in Ev as [Hc Hs]; intros Hr; (split; [done|split; [done|]]); revert Hr.
  - destruct (_ =? _)%string; [done|]. destruct (GetOAuthConfig env st) as [cfg|] eqn:Ec; [|done].
    destruct (exchange _ _) as [tok|] eqn:Ee; [|done]. destruct (github_user tok) as [[u emails]|] eqn:Eu; [|done].
    unfold github_identity, FetchGitHubUserInfo.
    pose proof (λ e, github_verified emails (gh_Email u) [] e) as Hg.
    destruct (foldl github_email _ emails) as [email verified]. cbn [gh_Email gh_ID gh_Login gh_AvatarURL snd] in *.
    destruct (_ =? _)%string; [done|]. intros [= <-] e He. cbn in He. destruct (Hg e He) as [Hx|(g & G1 & G2 & G3)].
    { by apply not_elem_of_nil in Hx. }
    by exists cfg, tok, u, emails, g.
  - destruct (GetGoogleOAuthConfig env st) as [cfg|] eqn:Ec; [|done].
    destruct (exchange _ _) as [tok|] eqn:Ee; [|done]. destruct (google_user tok) as [info|] eqn:Eu; [|done].
    unfold FetchGoogleUserInfo. destruct (gi_VerifiedEmail info) eqn:Ei; [|done]. cbn [negb].
    intros [= <-] e He%list_elem_of_singleton. subst e. by exists cfg, tok, info.
  - destruct (GetGenericOAuthConfig env st) as [cfg|] eqn:Ec; [|done].
    destruct (exchange _ _) as [tok|] eqn:Ee; [|done]. destruct (_ =? _)%string; [done|].
    destruct (oidc_user _ tok) as [info|] eqn:Eu; [|done]. unfold FetchGenericOIDCUserInfo.
    destruct (oi_EmailVerified info) as [[]|] eqn:Ei; try done. destruct (_ =? _)%string; [done|].
    intros [= <-] e He%list_elem_of_singleton. subst e. by exists cfg, tok, info.
Qed.
End Vouched.

(** *** Credentials in a URL *)

Lemma escape_id keeps s : all_bytes keeps s = true → escape keeps s = s.
Proof. induction s as [|c s IH]; [done|]. cbn. intros [-> Hs]%andb_true_iff. by rewrite IH. Qed.

Lemma hex_char_unreserved : forallb (λ d, user_keeps (hex_char (Z.of_nat d))) (seq 0 16) = true.
Proof. by vm_compute. Qed.

Lemma HexEncode_kept s : all_bytes user_keeps (HexEncode s) = true.
Proof.
  pose proof hex_char_unreserved as Hh. rewrite forallb_forall in Hh.
  assert (Hd : ∀ d, (0 <= d < 16)%Z → user_keeps (hex_char d) = true).
  { intros d Hd. specialize (Hh (Z.to_nat d)). rewrite Z2Nat.id in Hh by lia. apply Hh, in_seq. lia. }
  induction s as [|c s IH]; [done|]. cbn [HexEncode all_bytes]. pose proof (byte_of_range c).
  assert (0 <= byte_of c / 16 < 16)%Z by (split; [apply Z.div_pos; lia|apply Z.div_lt_upper_bound; lia]).
  assert (0 <= byte_of c mod 16 < 16)%Z by (apply Z.mod_pos_bound; lia).
  by rewrite !Hd, IH.
Qed.

Lemma alloc_username_hex `{Rand} n k bu u : alloc_username n k bu = Ok u → ∃ b, u = "jp" +:+ HexEncode b.
Proof.
  revert k. induction n as [|n IH]; intros k; cbn [alloc_username]; [done|]. unfold randomHex.
  destruct (rand_read k 6) as [b|]; [|done]. cbn [result_bind]. destruct (bu !! _); [apply IH|].
  intros [= <-]. by exists b.
Qed.

Lemma issued_text `{MapOrder} `{Rand} k now a n uid st st' s pw :
  Issue k now a n uid st = (st', Ok (s, pw)) →
  all_bytes user_keeps (Username s) = true ∧ all_bytes user_keeps pw = true.
Proof.
  unfold Issue. destruct (rand_read k 24) as [raw|]; [|done]. destruct (randomHex (S k) 16) as [id|]; [|done].
  cbv zeta. destruct (byID _ !! _); [done|]. destruct (alloc_username 5 _ _) as [u|] eqn:Eu; [|done].
  apply alloc_username_hex in Eu as [b ->]. intros [= <- <- <-]. split; [|apply HexEncode_kept].
  change (user_keeps "j" && (user_keeps "p" && all_bytes user_keeps (HexEncode b)) = true). by rewrite HexEncode_kept.
Qed.

Lemma agent_row_id db id a : agent_row db id = Some a → ag_ID a = id.
Proof. intros Hf%find_some. destruct Hf as [_ E]. by apply String.eqb_eq in E. Qed.

(** ** Properties *)

(** C7. Logging in, from the provider's answer to the session: on an initialized
    platform whose settings can be read, a callback leads to a session only if the
    state parameter is the one of the browser's cookie and the provider, asked with
    the code of this request, says an address is verified that is on the whitelist;
    otherwise no superadmin is made and the whitelist and the settings stay. *)
Theorem login_vouched `{UnicodeLower} `{Endpoints} `{Providers} `{MapOrder} env faulty p r now lookup_ok write_ok token_ok st :
  accounts_reachable faulty st → initialized st = true →
  let '(st', o) := oauth_login env p r now true None lookup_ok write_ok token_ok st in
  (∀ x, o = LoggedIn x →
     cb_Cookie r = Some (cb_State r) ∧ cb_State r ≠ "" ∧
     ∃ e, vouched env p r st e ∧ whitelisted (ToLower e) st = true) ∧
  superadmins st' = superadmins st ∧ whitelist st' = whitelist st ∧ settings st' = settings st.
Proof.
  intros Hr%accounts_inv Hi. unfold oauth_login. destruct (callback env p r st) as [a|to] eqn:Ec; [|by split_and!].
  apply callback_verified in Ec as (Hc & Hs & Hv). pose proof (login_spec a now None lookup_ok write_ok token_ok st Hr Hi) as Hl.
  destruct (handleOAuthLoginSuccess _ _ _ _ _ _ _ _) as [st' o]. destruct Hl as (_ & L1 & L2 & L3 & L4 & _).
  split_and!; try done. intros x ->. destruct L4 as [(e & He & Hw) _]. split_and!; [done..|]. exists e. split; [by apply Hv|done].
Qed.

(** C24. The gates of the routes. Without a valid session every route under
    /api/admin answers 401 and no other route is stopped; with one, only the
    settings are refused, with 403, to an admin who is not a superadmin, and an
    admin handler always sees the user of the session. *)
Theorem routes_gated rt r :
  rt ∈ RegisterRoutes →
  serve rt r =
    if HasPrefix (rt_path rt) "/api/admin" then
      match r with
      | Err _ => Stop 401
      | Ok u => if (rt_path rt =? "/api/admin/settings")%string && negb (u_Role u =? "superadmin")%string
                then Stop 403 else Pass (Some u)
      end
    else Pass (match r with Ok u => if bool_decide (UseOptionalAuth ∈ rt_gates rt) then Some u else None | Err _ => None end).
Proof.
  revert rt. apply Forall_forall. unfold RegisterRoutes, open_routes, public_routes, admin_routes, super_routes.
  cbn [fmap list_fmap app]. repeat (apply Forall_cons; split); try apply Forall_nil; destruct r as [u|e]; cbn;
    try reflexivity; by destruct (u_Role u =? "superadmin")%string.
Qed.

(** The credential console. Whatever the store did before, a credential is only
    issued for a probe that exists and is connected; the name and the password that
    are shown, which the proxy URL carries literally, authenticate for that probe
    until ten minutes later, unless it is revoked, whatever else the store does. *)
Theorem console_credential `{MapOrder} `{GoSort} `{Rand} ops0 ops k t0 t host build req user acc sv st v :
  adminCreateProxySession k t0 host build req user acc sv (run ops0 NewStore) = (st, inl v) →
  Forall (λ o, (op_now o <= t)%Z) ops →
  Forall (λ o, ∀ now, o ≠ OpRevoke now (pv_ID (iv_View v))) ops →
  (t < t0 + SessionTTL)%Z →
  ∃ a s, req = Some (ag_ID a) ∧ a ∈ db_agents (sv_db sv) ∧ Online (ag_ID a) (sv_hub sv) = true ∧
    Authenticate t (pv_Username (iv_View v)) (iv_Password v) (run ops st) = Ok s ∧ AgentID s = ag_ID a ∧ CreatedBy s = u_ID user ∧
    iv_ProxyURL v = "http://" +:+ pv_Username (iv_View v) +:+ ":" +:+ iv_Password v +:+ "@" +:+
                    escape host_keeps (or_else host "127.0.0.1:8080").
Proof.
  unfold adminCreateProxySession. destruct req as [id|]; [|done]. destruct (id =? "")%string; [done|].
  destruct (agent_row _ id) as [a|] eqn:Ea; [|done]. destruct (Online id _) eqn:Eo; [|done]. cbn [negb].
  destruct (Issue _ _ _ _ _ _) as [st1 [[s pw]|e]] eqn:Ei; [|done]. intros [= <- <-] Ht Hr Hlt. cbn in Hr |- *.
  exists a, s. pose proof (agent_row_id _ _ _ Ea) as <-. apply find_some in Ea as [Ha _].
  pose proof (issued_authenticates _ _ _ _ _ _ _ _ _ ops t pw Ei Ht Hr Hlt) as Hauth. rewrite String.eqb_refl in Hauth.
  pose proof (issued_text _ _ _ _ _ _ _ _ _ Ei) as [Hu Hp]. apply Issue_Ok in Ei as (_ & _ & Es & _).
  split_and!; try done.
  - by apply list_elem_of_In.
  - by rewrite Es.
  - by rewrite Es.
  - unfold proxyURL. by rewrite (escape_id _ (Username s)), (escape_id _ pw).
Qed.

(** ** Witnesses *)

Definition demo_endpoints : Endpoints := {|
  github_endpoint := ("https://github.com/login/oauth/authorize", "https://github.com/login/oauth/access_token");
  google_endpoint := ("https://accounts.google.com/o/oauth2/auth", "https://oauth2.googleapis.com/token") |}.

(** A provider that knows alice, by the code "c". *)
Definition demo_providers : Providers := {|
  exchange cfg code := if (code =? "c")%string then Some "tok" else None;
  github_user tok := Some (mkGitHubUser 7 "alice" "" "a.png", [mkGitHubEmail " alice@example.org" true true]);
  google_user _ := None;
  oidc_user _ _ := None |}.

Definition demo_env : Env := λ v, if HasPrefix v "GITHUB" then "x" else "".
Definition demo_callback : CallbackRequest := mkCallback (Some "s") "s" "c".

(** The platform demo_user set up, with his address in the lower case of ASCII. *)
Definition demo_platform : Accounts :=
  fst (handleOAuthLoginSuccess (H := ascii_lower)
    (mkAuthUser "github" "7" "alice" "alice@example.org" "a.png" ["alice@example.org"]) 100 true None true true true (start_accounts "s" "")).

Lemma demo_platform_reachable : accounts_reachable (H := ascii_lower) (H0 := in_key_order) false demo_platform.
Proof.
  exists []. eapply (reach_step _ _ (mkPlatform (start_accounts "s" "") [])); [apply reach_init; by exists "s", ""|].
  apply (plat_accounts (H := ascii_lower) (H0 := in_key_order) false false (mkPlatform (start_accounts "s" "") [])). by apply step_login.
Qed.

Lemma login_vouched_witness :
  let '(st', o) := oauth_login (H := ascii_lower) (H0 := demo_endpoints) (H1 := demo_providers) demo_env GitHub demo_callback
                     200 true None true true true demo_platform in
  (∃ x, o = LoggedIn x ∧ u_Role x = "superadmin") ∧
  (∀ x, o = LoggedIn x → cb_Cookie demo_callback = Some (cb_State demo_callback)) ∧ superadmins st' = [1]%Z.
Proof.
  pose proof (login_vouched (H := ascii_lower) (H0 := demo_endpoints) (H1 := demo_providers) (H2 := in_key_order) demo_env false
    GitHub demo_callback 200 true true true demo_platform demo_platform_reachable ltac:(vm_compute; reflexivity)) as Hl.
  destruct (oauth_login _ _ _ _ _ _ _ _ _ _) as [st' o] eqn:E. destruct Hl as (H1 & H2 & _ & _). split_and!.
  - vm_compute in E. injection E as <- <-. by eexists.
  - intros x Hx. by apply (H1 x).
  - rewrite H2. vm_compute. reflexivity.
Defined.

Lemma routes_gated_witness :
  serve (mkRoute POST "/api/admin/settings" [UseAuthRequired; UseSuperadminRequired])
    (Ok (mkUser 2 "google" "9" 0 "bob" "bob@example.org" "" "admin" 0)) = Stop 403.
Proof.
  rewrite routes_gated; [reflexivity|]. apply list_elem_of_In. do 41 right. by left.
Defined.

Definition demo_admin : User := mkUser 1 "github" "7" 0 "alice" "alice@example.org" "" "superadmin" 0.

Lemma console_credential_witness :
  let _ := in_key_order in let _ := go_insertion_sort in let _ := counting_rand in
  ∃ st v, adminCreateProxySession 0 0 "host:8080" "v1.4.0" (Some "a1") demo_admin demo_accounts demo_online_server (run [] NewStore)
            = (st, inl v) ∧
  iv_TunnelDownloadBase v = "https://github.com/guimc233/JustPing/releases/download/v1.4.0" ∧
  ∃ a s, Some "a1" = Some (ag_ID a) ∧ a ∈ db_agents (sv_db demo_online_server) ∧ Online (ag_ID a) (sv_hub demo_online_server) = true ∧
    Authenticate 599999999999 (pv_Username (iv_View v)) (iv_Password v) (run [OpList 5; OpRevoke 10 "x"] st) = Ok s ∧
    AgentID s = ag_ID a ∧ CreatedBy s = u_ID demo_admin ∧
    iv_ProxyURL v = "http://" +:+ pv_Username (iv_View v) +:+ ":" +:+ iv_Password v +:+ "@" +:+ escape host_keeps (or_else "host:8080" "127.0.0.1:8080").
Proof.
  intros ? ? ?. do 2 eexists. split; [vm_compute; reflexivity|]. split; [vm_compute; reflexivity|].
  eapply (console_credential [] _ 0 0 _ "host:8080" "v1.4.0" (Some "a1") demo_admin demo_accounts demo_online_server).
  - vm_compute. reflexivity.
  - repeat (constructor; [done|]). constructor.
  - repeat (constructor; [intros ? [=]|]). constructor.
  - done.
Defined.
