(* ===== verification/FileSys.v ===== *)
(** * Files, as the updater and the installer of the probe use them

    A path is mapped to what is there. Renaming is atomic; a call that fails has
    no effect, but a failed write may leave a part. Which calls fail is up to the
    environment. *)
From S2P Require Import Prelude GoStrings.

Inductive node :=
  | File (content : string) (mode : Z)
  | Dir
  | Link (target : string).
#[export] Instance node_eq_dec : EqDecision node.
Proof. solve_decision. Defined.

Abbreviation FS := (gmap string node).

(** [os.Stat]: through a symbolic link. *)
Definition Stat (fs : FS) (p : string) : option node :=
  match fs !! p with
  | Some (Link t) => fs !! t
  | n => n
  end.
Definition exists_at (fs : FS) (p : string) : bool := match Stat fs p with Some _ => true | None => false end.

Definition Remove (p : string) (fs : FS) : FS := delete p fs.
(** [p] and everything under it. *)
Definition under (p q : string) : bool := (q =? p)%string || HasPrefix q (p +:+ "/").
Definition RemoveAll (p : string) (fs : FS) : FS := filter (λ e : string * node, under p e.1 = false) fs.
Definition WriteFile (p content : string) (mode : Z) (fs : FS) : FS := <[p := File content mode]> fs.
Definition MkdirAll (p : string) (fs : FS) : FS := match fs !! p with Some _ => fs | None => <[p := Dir]> fs end.
Definition Symlink (target p : string) (fs : FS) : FS := <[p := Link target]> fs.

(** [os.Rename] *)
Definition Rename (src dst : string) (fs : FS) : FS :=
  match fs !! src with
  | Some n => <[dst := n]> (delete src fs)
  | None => fs
  end.

Definition Chmod (p : string) (mode : Z) (fs : FS) : FS :=
  match fs !! p with
  | Some (File c _) => <[p := File c mode]> fs
  | _ => fs
  end.

(** [os.CreateTemp]: a name that is not taken, in the directory. *)
Class TempNames := {
  temp_name (dir pattern : string) (fs : FS) : string;
  temp_name_fresh dir pattern fs : fs !! temp_name dir pattern fs = None
}.

Lemma RemoveAll_lookup p q fs : RemoveAll p fs !! q = if under p q then None else fs !! q.
Proof.
  unfold RemoveAll. destruct (under p q) eqn:E.
  - apply map_lookup_filter_None. right. intros n _. cbn. by rewrite E.
  - destruct (fs !! q) as [n|] eqn:En.
    + by apply map_lookup_filter_Some.
    + apply map_lookup_filter_None. by left.
Qed.

(** Names that are taken by the pattern and one more byte each. *)
Fixpoint free_name (fuel : nat) (s : string) (fs : FS) : string :=
  match fuel with
  | O => s
  | S n => match fs !! s with None => s | Some _ => free_name n (s +:+ "0") fs end
  end.

Lemma free_name_spec n : ∀ s (fs : FS),
  (size (filter (λ e : string * node, (slen s <= slen e.1)%nat) fs) < n)%nat → fs !! free_name n s fs = None.
Proof.
  induction n as [|n IH]; intros s fs Hn; [lia|]. cbn [free_name]. destruct (fs !! s) as [x|] eqn:E; [|done].
  apply IH. eapply Nat.lt_le_trans; [|apply Nat.lt_succ_r; exact Hn].
  apply map_subset_size. split.
  - apply map_filter_strong_subseteq_ext. intros i y Hi. cbn in *. rewrite slen_app in Hi. destruct Hi as [Hi ?]. cbn in *. split; [lia|done].
  - intros Hsub. assert (Hs : filter (λ e : string * node, (slen s <= slen e.1)%nat) fs !! s = Some x).
    { apply map_lookup_filter_Some. split; [done|]. cbn. lia. }
    pose proof (lookup_weaken _ _ _ _ Hs Hsub) as Hw. apply map_lookup_filter_Some in Hw as [_ Hw]. cbn in Hw.
    rewrite slen_app in Hw. cbn in Hw. lia.
Qed.

#[program] Definition counted_names : TempNames := {|
  temp_name dir pattern fs := free_name (S (size fs)) (dir +:+ "/" +:+ pattern) fs
|}.
Next Obligation.
  intros dir pattern fs. apply free_name_spec. apply Nat.lt_succ_r. apply map_subseteq_size, map_filter_subseteq.
Qed.
