(* ===== verification/HostMain.v ===== *)
(** * The Host's process ([host/cmd/server/main.go], [host/internal/ui/static.go], [host/internal/db/db.go])

    What the process is set up with from its environment, which file a request
    gets, and the cleaner of old measurements. The separator of paths is the
    slash; the files are those of [FileSys]. *)
From S2P Require Import Prelude GoStrings GoFloat Model Ingest Accounts Access FileSys.

(** ** [path.Clean] and [filepath.Join] *)

Definition clean_step (rooted : bool) (acc : list string) (e : string) : list string :=
  if (e =? "")%string || (e =? ".")%string then acc
  else if (e =? "..")%string then
    match acc with
    | h :: t => if (h =? "..")%string then e :: acc else t
    | [] => if rooted then acc else [e]
    end
  else e :: acc.
Definition clean_elems (rooted : bool) (es : list string) : list string := rev (foldl (clean_step rooted) [] es).

Definition Clean (p : string) : string :=
  if (p =? "")%string then "."
  else
    let rooted := HasPrefix p "/" in
    let out := Join (clean_elems rooted (Split p "/")) "/" in
    if rooted then "/" +:+ out else if (out =? "")%string then "." else out.

(** [filepath.Join] of two elements, the first not empty. *)
Definition join_path (a b : string) : string := if (b =? "")%string then Clean a else Clean (a +:+ "/" +:+ b).
(** [filepath.Abs] *)
Definition Abs (cwd dir : string) : string := if HasPrefix dir "/" then Clean dir else join_path cwd dir.

(** ** static.go *)

Inductive served :=
  | Next
  | Forbidden
  | ServeFile (path : string)
  | ServeIndex (content : string)
  | FileServer (path : string).

Definition is_file (fs : FS) (p : string) : bool := match Stat fs p with Some (File _ _) => true | _ => false end.

Definition findDiskDist (fs : FS) (abs : string → string) : string :=
  default "" (List.find (λ dir, match Stat fs (abs dir) with
                                | Some Dir => exists_at fs (join_path (abs dir) "index.html")
                                | _ => false
                                end) ["web/dist"; "../web/dist"; "/app/web/dist"; "dist"]).

(** [absDist]: the outcome of [filepath.Abs]. *)
Definition serveFromDisk (fs : FS) (absDist : result string) (relPath : string) : served :=
  match absDist with
  | Err _ => Next
  | Ok absDist =>
      let target := join_path absDist relPath in
      let targetClean := Clean target in
      if negb (HasPrefix targetClean (absDist +:+ "/")) && negb (targetClean =? absDist)%string then Forbidden
      else if is_file fs targetClean then ServeFile targetClean
      else
        let indexPath := join_path absDist "index.html" in
        if is_file fs indexPath then ServeFile indexPath else Next
  end.

(** The embedded files: [subFS] maps the names that open to their content. *)
Definition serveFromFS (subFS : gmap string node) (reqPath relPath : string) : served :=
  let index := match subFS !! "index.html" with Some (File c _) => ServeIndex c | _ => Next end in
  if negb (relPath =? "")%string then
    match subFS !! relPath with
    | Some (File _ _) => FileServer reqPath
    | _ => index
    end
  else index.

Inductive assets := OnDisk (diskDist : string) | Embedded (subFS : gmap string node) | NoAssets.
(** Where [SetupStaticServ] serves from. *)
Definition find_assets (diskDist : string) (embedded : option (gmap string node)) : assets :=
  if negb (diskDist =? "")%string then OnDisk diskDist
  else
    match embedded with
    | Some fs => match fs !! "index.html" with Some _ => Embedded fs | None => NoAssets end
    | None => NoAssets
    end.

Definition serve_static (a : assets) (fs : FS) (absDist : result string) (reqPath : string) : served :=
  match a with
  | NoAssets => Next
  | _ =>
      if HasPrefix reqPath "/api" || (reqPath =? "/install.sh")%string then Next
      else
        let trimmed := TrimPrefix (Clean ("/" +:+ reqPath)) "/" in
        match a with
        | Embedded sub => serveFromFS sub reqPath trimmed
        | _ => serveFromDisk fs absDist trimmed
        end
  end.

(** ** main.go *)

Definition serveInstallScript (fs : FS) : string + string :=
  match List.find (exists_at fs) ["scripts/install.sh"; "../scripts/install.sh"; "/app/scripts/install.sh"] with
  | Some p => inl p
  | None => inr ("#!/bin/sh" +:+ String "010" ("echo 'JustPing agent installer'" +:+ String "010" ""))
  end.
Definition listen_addr (env : Env) : string := ":" +:+ (if (env "PORT" =? "")%string then "8080" else env "PORT").
Definition gin_mode (env : Env) : string := if (env "GIN_MODE" =? "")%string then "release" else env "GIN_MODE".
(** [buildinfo.Version], and what [getVersion] reports. *)
Definition build_version (injected : option string) : string := default "dev" injected.
Definition getVersion (injected : option string) : list (string * string) := [("version", build_version injected)].

(** ** db.go *)

Definition getEnv (env : Env) (key def : string) : string :=
  let v := TrimSpace (env key) in if (v =? "")%string then def else v.
Definition dsn (env : Env) : string :=
  if negb (env "DATABASE_URL" =? "")%string then env "DATABASE_URL"
  else
    "host=" +:+ getEnv env "DB_HOST" "localhost" +:+ " port=" +:+ getEnv env "DB_PORT" "5432" +:+
    " user=" +:+ getEnv env "DB_USER" "postgres" +:+ " password=" +:+ getEnv env "DB_PASSWORD" "postgres" +:+
    " dbname=" +:+ getEnv env "DB_NAME" "justping" +:+ " sslmode=" +:+ getEnv env "DB_SSLMODE" "disable" +:+ " TimeZone=UTC".

(** [fmt.Sscanf(s, "%d", &d)]: blanks, a sign, digits; what follows is ignored. *)
Fixpoint skip_blanks (s : string) : string :=
  match s with
  | String c s' => if in_cutset (bytes [9; 11; 12; 13; 32]%N) c then skip_blanks s' else s
  | EmptyString => s
  end.
Fixpoint digit_run (s : string) : string :=
  match s with
  | String c s' => if is_digit c then String c (digit_run s') else ""
  | EmptyString => ""
  end.
Definition sscanf_d {W : IntSize} (s : string) : option Z :=
  let '(sign, r) := match skip_blanks s with
                    | String "+" r => ("+", r)
                    | String "-" r => ("-", r)
                    | r => ("", r)
                    end in
  match digit_run r with
  | EmptyString => None
  | tok =>
      match Atoi (W := int64_size) (sign +:+ tok) with
      | (v, None) => if ((int_min <=? v) && (v <=? int_max))%Z then Some v else None
      | (_, Some _) => None
      end
  end.

Definition retention_days {W : IntSize} (acc : Accounts) : Z :=
  let retentionStr := GetSetting "retention_days" acc in
  if (retentionStr =? "")%string then 30%Z
  else
    match sscanf_d retentionStr with
    | Some d => if (0 <? d)%Z then d else 30%Z
    | None => 30%Z
    end.

(** [now.AddDate(0, 0, -days)] in a zone without clock changes: seconds are 64
    bits. *)
Definition ns : Z := 1000000000.
Definition AddDays (days now : Z) : Z := (wrap64 (now / ns + days * 86400) * ns + now mod ns)%Z.

(** One round of [StartRetentionCleaner]; a failed statement deletes nothing. The
    time the statements compare with goes to the database as a column would hold it. *)
Definition retention_round {W : IntSize} `{Columns} (metrics_fail traces_fail : bool) (now : Z) (acc : Accounts) (db : Db) : Db :=
  let cutoff := timestamptz (AddDays (- retention_days acc) now) in
  mkDb (db_agents db) (db_targets db)
    (if metrics_fail then db_metrics db else List.filter (λ m, negb (pm_Timestamp m <? cutoff)%Z) (db_metrics db))
    (if traces_fail then db_traces db else List.filter (λ r, negb (trc_Timestamp r <? cutoff)%Z) (db_traces db)).

(** ** Clean paths *)

Definition plain_elem (e : string) : Prop := e ≠ "" ∧ e ≠ "." ∧ e ≠ ".." ∧ no_byte "/" e.
Definition rooted_path (es : list string) : string := "/" +:+ Join es "/".

Lemma clean_step_plain acc e : plain_elem e → clean_step true acc e = e :: acc.
Proof.
  intros (H1 & H2 & H3 & _). unfold clean_step.
  by rewrite (proj2 (String.eqb_neq _ _) H1), (proj2 (String.eqb_neq _ _) H2), (proj2 (String.eqb_neq _ _) H3).
Qed.

Lemma clean_loop_plain es : ∀ acc, Forall plain_elem es → foldl (clean_step true) acc es = rev es ++ acc.
Proof.
  induction es as [|e es IH]; intros acc Hf; [done|]. apply Forall_cons in Hf as [He Hf].
  cbn [foldl rev]. by rewrite clean_step_plain, IH, <- app_assoc.
Qed.

Lemma clean_elems_plain es : Forall plain_elem es → clean_elems true es = es.
Proof. intros Hf. unfold clean_elems. by rewrite clean_loop_plain, app_nil_r, rev_involutive. Qed.

(** A rooted path is left with plain elements only, whatever it held. *)
Lemma clean_loop_rooted es : ∀ acc, Forall (no_byte "/") es → Forall plain_elem acc → Forall plain_elem (foldl (clean_step true) acc es).
Proof.
  induction es as [|e es IH]; intros acc Hf Ha; [done|]. apply Forall_cons in Hf as [He Hf]. cbn [foldl]. apply IH; [done|].
  unfold clean_step. destruct (String.eqb_spec e ""); [done|]. destruct (String.eqb_spec e "."); [done|]. cbn [orb].
  destruct (String.eqb_spec e ".."); [|by constructor]. destruct acc as [|h t]; [done|]. apply Forall_cons in Ha as [Hh Ht].
  destruct (String.eqb_spec h ".."); [|done]. by destruct Hh as (_ & _ & ? & _).
Qed.

Lemma Clean_rooted p : HasPrefix p "/" = true → ∃ es, Clean p = rooted_path es ∧ Forall plain_elem es.
Proof.
  intros Hp. unfold Clean. destruct (String.eqb_spec p "") as [->|]; [done|]. rewrite Hp. eexists. split; [done|].
  unfold clean_elems. apply Forall_rev. apply clean_loop_rooted; [apply Split_Forall|done].
Qed.

Lemma Split_rooted es : Forall plain_elem es → Split (rooted_path es) "/" = "" :: match es with [] => [""] | _ => es end.
Proof.
  intros Hf. destruct es as [|e es]; [done|]. unfold rooted_path.
  change ("/" +:+ Join (e :: es) "/") with ("" +:+ ("/" +:+ Join (e :: es) "/")). rewrite <- (Join_cons "" e es "/").
  apply (Split_Join "/"); [done|]. constructor; [done|]. eapply Forall_impl; [exact Hf|]. by intros x (_ & _ & _ & ?).
Qed.

Lemma Clean_rooted_path es : Forall plain_elem es → Clean (rooted_path es) = rooted_path es.
Proof.
  intros Hf. unfold Clean. change (rooted_path es =? "")%string with false.
  assert (HasPrefix (rooted_path es) "/" = true) as -> by (unfold rooted_path; apply (HasPrefix_app "/")). cbn iota.
  rewrite Split_rooted by done. unfold rooted_path. f_equal. f_equal. destruct es as [|e es]; [done|].
  change (clean_elems true ("" :: e :: es)) with (clean_elems true (e :: es)). by apply clean_elems_plain.
Qed.

Lemma Join_app a b : a ≠ [] → b ≠ [] → Join (a ++ b) "/" = Join a "/" +:+ "/" +:+ Join b "/".
Proof.
  intros Ha Hb. induction a as [|x a IH]; [done|]. destruct a as [|y a].
  - destruct b as [|z b]; [done|]. cbn [app]. by rewrite Join_cons.
  - change ((x :: y :: a) ++ b) with (x :: y :: (a ++ b)). rewrite !Join_cons. change (y :: (a ++ b)) with ((y :: a) ++ b).
    rewrite IH by done. by rewrite !str_app_assoc.
Qed.

Lemma Join_elems_ne es : es ≠ [] → Forall plain_elem es → Join es "/" ≠ "".
Proof.
  intros Hne Hf. destruct es as [|e es]; [done|]. apply Forall_cons in Hf as [[He _] _].
  destruct es; [done|]. rewrite Join_cons. by destruct e.
Qed.

Lemma join_rooted a b : a ≠ [] → Forall plain_elem a → Forall plain_elem b →
  join_path (rooted_path a) (Join b "/") = rooted_path (a ++ b).
Proof.
  intros Hne Ha Hb. unfold join_path. destruct b as [|e b].
  - cbn. rewrite app_nil_r. by apply Clean_rooted_path.
  - rewrite (proj2 (String.eqb_neq _ _) (Join_elems_ne (e :: b) ltac:(done) Hb)).
    assert (E : rooted_path a +:+ "/" +:+ Join (e :: b) "/" = rooted_path (a ++ e :: b)).
    { unfold rooted_path. rewrite Join_app by done. by rewrite !str_app_assoc. }
    rewrite E. apply Clean_rooted_path. by apply Forall_app.
Qed.

(** Everything under a directory, as the check on the path sees it. *)
Lemma under_rooted a b : a ≠ [] → b ≠ [] → HasPrefix (rooted_path (a ++ b)) (rooted_path a +:+ "/") = true.
Proof.
  intros Ha Hb. unfold rooted_path. rewrite Join_app by done. apply HasPrefix_spec. exists (Join b "/"). by rewrite !str_app_assoc.
Qed.

(** ** Properties *)

(** C33. Whatever path a browser asks for, with any number of "..", empty or dotted
    elements: what is served from the disk is a file below the directory of the
    interface, the one of the cleaned path, or its index; the check that would
    refuse a path outside never has to. *)
Theorem static_contained fs dist sub reqPath :
  dist ≠ [] → Forall plain_elem dist →
  ∃ es, Clean ("/" +:+ reqPath) = rooted_path es ∧ Forall plain_elem es ∧
  match serve_static (OnDisk "dist") fs (Ok (rooted_path dist)) reqPath with
  | ServeFile p => p = rooted_path (dist ++ es) ∨ p = rooted_path (dist ++ ["index.html"])
  | Next => True
  | _ => False
  end ∧
  match serve_static (Embedded sub) fs (Ok (rooted_path dist)) reqPath with
  | FileServer _ => ∃ c m, sub !! Join es "/" = Some (File c m)
  | ServeIndex c => ∃ m, sub !! "index.html" = Some (File c m)
  | Next => True
  | _ => False
  end.
Proof.
  intros Hne Hd. destruct (Clean_rooted ("/" +:+ reqPath)) as (es & Ec & He); [apply (HasPrefix_app "/")|].
  exists es. split; [done|]. split; [done|].
  unfold serve_static. destruct (HasPrefix reqPath "/api" || _); [done|]. rewrite Ec.
  assert (Et : TrimPrefix (rooted_path es) "/" = Join es "/").
  { unfold rooted_path, TrimPrefix. by rewrite (HasPrefix_app "/"). }
  rewrite Et. split.
  - unfold serveFromDisk. rewrite join_rooted by done. rewrite Clean_rooted_path by (by apply Forall_app).
    assert (Hin : negb (HasPrefix (rooted_path (dist ++ es)) (rooted_path dist +:+ "/")) && negb (rooted_path (dist ++ es) =? rooted_path dist)%string = false).
    { destruct (decide (es = [])) as [->|Hes].
      - rewrite app_nil_r, String.eqb_refl. by rewrite andb_false_r.
      - by rewrite under_rooted by done. }
    rewrite Hin. destruct (is_file fs (rooted_path (dist ++ es))); [by left|].
    change "index.html" with (Join ["index.html"] "/"). rewrite join_rooted; [|done|done|by repeat constructor].
    destruct (is_file fs _); [by right|done].
  - unfold serveFromFS. destruct (negb _).
    + destruct (sub !! Join es "/") as [[c m| |]|]; [by exists c, m|..]; destruct (sub !! "index.html") as [[c2 m2| |]|]; try done; by exists m2.
    + destruct (sub !! "index.html") as [[c2 m2| |]|]; try done; by exists m2.
Qed.

(** ** Reading the number of days *)

Lemma digit_run_app t suffix : all_bytes is_digit t = true →
  match suffix with String c _ => is_digit c = false | EmptyString => True end → digit_run (t +:+ suffix) = t.
Proof.
  induction t as [|c t IH]; intros Ht Hs.
  - destruct suffix as [|c s]; [done|]. change (digit_run (String c s) = ""). cbn [digit_run]. by rewrite Hs.
  - cbn [all_bytes] in Ht. apply andb_true_iff in Ht as [Hc Ht]. change (digit_run (String c (t +:+ suffix)) = String c t). cbn [digit_run]. rewrite Hc. f_equal. by apply IH.
Qed.

Lemma digit_head c : is_digit c = true → in_cutset (bytes [9; 11; 12; 13; 32]%N) c = false ∧ c ≠ "+"%char ∧ c ≠ "-"%char.
Proof. intros Hc. destruct c as [[][][][][][][][]]; vm_compute in Hc; try done. Qed.

Lemma sscanf_number {W : IntSize} d suffix : (32 <= int_size)%Z → (0 <= d < 2 ^ 31)%Z →
  match suffix with String c _ => is_digit c = false | EmptyString => True end →
  sscanf_d (Itoa d +:+ suffix) = Some d.
Proof.
  intros HW Hd Hs. destruct (Itoa_digits d) as [Ha Hne]; [lia|]. unfold sscanf_d.
  assert (Hr : digit_run (Itoa d +:+ suffix) = Itoa d) by by apply digit_run_app.
  assert (Hat : Atoi (W := int64_size) (Itoa d) = (d, None)).
  { assert (Hm : @int_max int64_size = (2 ^ 63 - 1)%Z) by (vm_compute; reflexivity).
    apply Atoi_Itoa; [vm_compute; discriminate|rewrite Hm; lia]. }
  assert (2 ^ 31 <= 2 ^ (int_size - 1))%Z by (apply Z.pow_le_mono_r; lia).
  destruct (Itoa d) as [|c t] eqn:E; [done|]. cbn [all_bytes] in Ha. apply andb_true_iff in Ha as [Hc Ha].
  destruct (digit_head c Hc) as (Hb & Hp & Hm). 
  change (String c t +:+ suffix) with (String c (t +:+ suffix)) in *. cbn [skip_blanks]. rewrite Hb.
  assert (Em : (match String c (t +:+ suffix) with String "+" r => ("+", r) | String "-" r => ("-", r) | r => ("", r) end) = ("", String c (t +:+ suffix))).
  { clear -Hc. destruct c as [[][][][][][][][]]; vm_compute in Hc; done. }
  rewrite Em, Hr. change ("" +:+ String c t) with (String c t). rewrite Hat.
  rewrite (proj2 (Z.leb_le int_min d)), (proj2 (Z.leb_le d int_max)) by (unfold int_min, int_max; lia). done.
Qed.

Lemma AddDays_back d now : (0 <= now / ns < 2 ^ 62)%Z → (0 <= d < 2 ^ 31)%Z → AddDays (- d) now = (now - d * 86400 * ns)%Z.
Proof.
  intros Hn Hd. unfold AddDays. rewrite wrap64_small by lia. pose proof (Z.div_mod now ns). unfold ns in *. lia.
Qed.

(** Old measurements. A round of the cleaner deletes exactly the measurements and
    traces older than the number of days in the settings, to the microsecond; a setting that is absent,
    no number, or not positive means 30 days, and text after the number is ignored;
    what a failed statement would have deleted stays. *)
Theorem retention_exact {W : IntSize} `{Columns} now acc db d suffix :
  (32 <= int_size)%Z → (0 <= now / ns < 2 ^ 62)%Z → (1 <= d < 2 ^ 31)%Z →
  match suffix with String c _ => is_digit c = false | EmptyString => True end →
  (GetSetting "retention_days" acc = "" → retention_days acc = 30%Z) ∧
  (GetSetting "retention_days" acc = Itoa d +:+ suffix →
     retention_days acc = d ∧
     db_metrics (retention_round false false now acc db) = List.filter (λ m, timestamptz (now - d * 86400 * ns) <=? pm_Timestamp m)%Z (db_metrics db) ∧
     db_traces (retention_round false false now acc db) = List.filter (λ r, timestamptz (now - d * 86400 * ns) <=? trc_Timestamp r)%Z (db_traces db)) ∧
  (1 <= retention_days acc)%Z ∧
  retention_round true true now acc db = db ∧
  db_agents (retention_round false false now acc db) = db_agents db ∧ db_targets (retention_round false false now acc db) = db_targets db.
Proof.
  intros HW Hn Hd Hs. split_and!; try done; try (by destruct db).
  - intros E. unfold retention_days. by rewrite E.
  - intros E. assert (Er : retention_days acc = d).
    { unfold retention_days. rewrite E, sscanf_number by (done || lia).
      assert (Hne : Itoa d +:+ suffix ≠ "") by (destruct (Itoa_digits d) as [_ ?]; [lia|]; by destruct (Itoa d)).
      rewrite (proj2 (String.eqb_neq _ _) Hne). by rewrite (proj2 (Z.ltb_lt 0 d)) by lia. }
    split; [done|]. unfold retention_round. cbn [db_metrics db_traces]. rewrite Er, AddDays_back by lia.
    split; apply filter_ext; intros x; by rewrite <- Z.leb_antisym.
  - unfold retention_days. destruct (_ =? "")%string; [lia|]. destruct (sscanf_d _) as [v|]; [|lia]. destruct (Z.ltb_spec 0 v); lia.
Qed.

(** ** Witnesses *)

Definition demo_site : FS := <["/app/web/dist/index.html" := File "index" 420]> (<["/app/web/dist/app.js" := File "js" 420]> (<["/etc/passwd" := File "root" 420]> ∅)).

Lemma static_contained_witness :
  serve_static (OnDisk "dist") demo_site (Ok "/app/web/dist") "/x/..//./app.js" = ServeFile "/app/web/dist/app.js" ∧
  serve_static (OnDisk "dist") demo_site (Ok "/app/web/dist") "/../../../../etc/passwd" = ServeFile "/app/web/dist/index.html" ∧
  ∃ es, Clean "/../../etc/passwd" = rooted_path es ∧ Forall plain_elem es.
Proof.
  split; [vm_compute; reflexivity|]. split; [vm_compute; reflexivity|].
  destruct (static_contained demo_site ["app"; "web"; "dist"] ∅ "../../etc/passwd") as (es & E & H & _);
    [discriminate|repeat constructor; discriminate|]. exists es. exact (conj E H).
Defined.

Lemma retention_exact_witness :
  let _ := int64_size in
  let acc := SetSetting "retention_days" "7 days" (mkAccounts ∅ [] [] 1) in
  retention_days acc = 7%Z.
Proof.
  intros W acc. refine (proj1 (proj1 (proj2 (retention_exact (W := W) (H := simple_columns) (10 ^ 18) acc (mkDb [] [] [] []) 7 " days" _ _ _ _)) _));
    [vm_compute; discriminate|vm_compute; split; [discriminate|reflexivity]|lia|reflexivity|reflexivity].
Defined.

(** The environment's defaults, and values that are no number of days. *)
Example host_defaults :
  let _ := int64_size in
  listen_addr (λ _, "") = ":8080" ∧ gin_mode (λ _, "") = "release" ∧
  dsn (λ k, if (k =? "DB_HOST")%string then " db " else "") = "host=db port=5432 user=postgres password=postgres dbname=justping sslmode=disable TimeZone=UTC" ∧
  sscanf_d "-3" = Some (-3)%Z ∧ sscanf_d "abc" = None ∧ sscanf_d "1_0" = Some 1%Z ∧ sscanf_d "  12.5" = Some 12%Z.
Proof. by vm_compute. Qed.
