(* ===== verification/HostBoot.v ===== *)
(** * The Host from its start on ([host/cmd/server/main.go], [host/internal/db/db.go])

    What [main] does before it listens, with the failures of the database, and how
    old the stored measurements can get while the cleaner, the probes' messages and
    the console go on. Opening PostgreSQL, the migration and the listener answer as
    they do outside. *)
From S2P Require Import Prelude GoStrings GoEncoding GoFloat GoJson Protocol Model RouteClass Ingest Accounts Access FileSys HostMain Public.

(** ** InitDB *)

(** What PostgreSQL and GORM answer on the start, as errors: to the connection
    string, to the pool, to the migration and to the first seed. *)
Record Postgres := mkPostgres {
  pg_open : string → option string;
  pg_pool : option string;
  pg_migrate : option string;
  pg_seed : option string
}.

Definition InitDB (pg : Postgres) (env : Env) (random : string) (stored : Accounts) : result Accounts :=
  match pg_open pg (dsn env) with
  | Some e => Err ("failed to connect database: " +:+ e)
  | None =>
      match pg_pool pg with
      | Some e => Err e
      | None =>
          match pg_migrate pg with
          | Some e => Err ("failed to auto-migrate database: " +:+ e)
          | None =>
              match pg_seed pg with
              | Some e => Err ("failed to seed baseline settings: " +:+ e)
              | None => Ok (seedBaselineSettings (env "JWT_SECRET") random stored)
              end
          end
      end
  end.

(** ** main *)

(** A process that serves. [hp_cleaner] is the pause between two rounds of the
    cleaner, [hp_bridge] whether the tunnels reach the probes. *)
Record HostProcess := mkHostProcess {
  hp_accounts : Accounts;
  hp_cleaner : Z;
  hp_mode : string;
  hp_trusted : list string;
  hp_origins : list string;
  hp_bridge : bool;
  hp_addr : string;
  hp_handler : string → string → bool → dispatch
}.

Inductive boot := Fatal (msg : string) | Panics | Listening (h : HostProcess).

(** [known_mode]: the modes of gin; [SetMode] panics on others. *)
Definition main (known_mode : string → bool) (pg : Postgres) (env : Env) (random : string) (stored : Accounts) : boot :=
  match InitDB pg env random stored with
  | Err e => Fatal ("Fatal: Database initialization failed: " +:+ e)
  | Ok acc =>
      if known_mode (gin_mode env) then
        Listening (mkHostProcess acc (12 * hour) (gin_mode env) (configureTrustedProxies env) (allowed_origins env acc)
                     true (listen_addr env) main_handler)
      else Panics
  end.

(** ** The measurements over time *)

(** The clock; when the last round that pruned each table began, and the days it
    read from the settings; the tables. *)
Record Kept := mkKept { k_now : Z; k_metrics : option (Z * Z); k_traces : option (Z * Z); k_db : Db }.

Definition day : Z := 24 * hour.
Definition metric_times (db : Db) : list Z := pm_Timestamp <$> db_metrics db.
Definition trace_times (db : Db) : list Z := trc_Timestamp <$> db_traces db.

(** In years that fit 64 bits. *)
Definition in_range (t : Z) : Prop := (0 <= t / ns < 2 ^ 62)%Z.

Section Kept.
Context {W : IntSize} {TT : TimeText} `{Columns} `{Http}.
(** [G]: what a message brings is stored at most [G] after its arrival. *)
Variable G : Z.

(** The clock does not go back. A round reads the settings, fixes its cutoff and
    deletes from one table and then from the other; a deletion that fails is no
    step, and a setting that cannot be read is one that is absent. *)
Inductive kept_step (k : Kept) : Kept → Prop :=
  | kept_pass d : (0 <= d)%Z → kept_step k (mkKept (k_now k + d) (k_metrics k) (k_traces k) (k_db k))
  (* a message of a probe *)
  | kept_message id began fl env :
      (k_now k - G <= began)%Z →
      kept_step k (mkKept (k_now k) (k_metrics k) (k_traces k) (fst (handleIncomingMessage id began fl env (k_db k))))
  | kept_trace uuid id began fl report cache :
      (k_now k - G <= began)%Z →
      kept_step k (mkKept (k_now k) (k_metrics k) (k_traces k) (fst (persistTracerouteReport uuid id began fl report cache (k_db k))))
  (* the console and the repair of routes: no measurement gets older, some are deleted *)
  | kept_other db :
      metric_times db ⊆ metric_times (k_db k) → trace_times db ⊆ trace_times (k_db k) →
      kept_step k (mkKept (k_now k) (k_metrics k) (k_traces k) db)
  | kept_backfill dberr :
      kept_step k (mkKept (k_now k) (k_metrics k) (k_traces k) (AutoBackfillHistoricalTraceroutes dberr (k_db k)))
  (* the two halves of a round of the cleaner *)
  | kept_prune_metrics acc began :
      (began <= k_now k)%Z → in_range began →
      kept_step k (mkKept (k_now k) (Some (began, retention_days acc)) (k_traces k) (retention_round false true began acc (k_db k)))
  | kept_prune_traces acc began :
      (began <= k_now k)%Z → in_range began →
      kept_step k (mkKept (k_now k) (k_metrics k) (Some (began, retention_days acc)) (retention_round true false began acc (k_db k))).

(** From any tables on, before the cleaner's first round. *)
Definition kept_reachable : Kept → Prop := reachable (λ k, k_metrics k = None ∧ k_traces k = None) kept_step.

(** How old a row can be when a round that keeps [days] begins: the probe's claim
    may be 48 hours old when it arrives, and columns keep microseconds. *)
Definition keep (days : Z) : Z := Z.max (days * day) (2 * day + G) + 1000.

(** ** Lemmas *)

(** What a round leaves of a table, and what it does not get older than. *)
Definition since (round : option (Z * Z)) (now : Z) (times : list Z) : Prop :=
  match round with
  | None => True
  | Some (last, days) => (last <= now)%Z ∧ ((days < 2 ^ 31)%Z → Forall (λ t, last - keep days <= t)%Z times)
  end.

Lemma since_later r now d times : (0 <= d)%Z → since r now times → since r (now + d) times.
Proof. intros Hd. destruct r as [[last days]|]; [|done]. intros [? ?]. split; [lia|done]. Qed.

Lemma since_sub r now times times' : times' ⊆ times → since r now times → since r now times'.
Proof.
  intros Hs. destruct r as [[last days]|]; [|done]. intros [? Ht]. split; [done|]. intros Hd. specialize (Ht Hd).
  rewrite Forall_forall in *. intros x Hx. by apply Ht, Hs.
Qed.

Lemma since_app r now times new :
  Forall (λ t, now - (2 * day + G) - 1000 <= t)%Z new → since r now times → since r now (times ++ new).
Proof.
  intros Hn. destruct r as [[last days]|]; [|done]. intros [? Ht]. split; [done|]. intros Hd. apply Forall_app. split; [by apply Ht|].
  eapply Forall_impl; [exact Hn|]. intros t. unfold keep. simpl. lia.
Qed.

Lemma since_round {A} (f : A → Z) now began days l :
  (began <= now)%Z → in_range began → (0 <= days)%Z →
  since (Some (began, days)) now (f <$> List.filter (λ m, negb (f m <? timestamptz (AddDays (- days) began))%Z) l).
Proof.
  intros Hb Hr Hd. split; [done|]. intros Hd2. rewrite AddDays_back by (done || lia). apply Forall_fmap, Forall_forall.
  intros m [_ Hm]%list_elem_of_In%filter_In. apply negb_true_iff, Z.ltb_ge in Hm. simpl.
  pose proof (timestamptz_near (began - days * 86400 * ns)). unfold keep, day, hour, minute, ns in *. lia.
Qed.

Lemma retention_days_pos acc : (0 < retention_days acc)%Z.
Proof.
  unfold retention_days. destruct (_ =? "")%string; [lia|]. destruct (sscanf_d _) as [v|]; [|lia].
  destruct (Z.ltb_spec 0 v); lia.
Qed.

Lemma message_times id now fl env db :
  let db' := fst (handleIncomingMessage id now fl env db) in
  trace_times db' = trace_times db ∧
  ∃ ts, metric_times db' = metric_times db ++ ts ∧ Forall (λ t, now - 2 * day - 1000 <= t)%Z ts.
Proof.
  assert (Hnone : ∀ db', trace_times db' = trace_times db → metric_times db' = metric_times db → trace_times db' = trace_times db ∧
    ∃ ts, metric_times db' = metric_times db ++ ts ∧ Forall (λ t, now - 2 * day - 1000 <= t)%Z ts).
  { intros db' E1 E2. split; [done|]. exists []. by rewrite app_nil_r. }
  cbv zeta. unfold handleIncomingMessage. repeat case_match; cbn [fst]; try (by apply Hnone).
  - unfold metric_times, trace_times. destruct (set_online_same fl id now db) as (_ & E1 & E2). apply Hnone; unfold metric_times, trace_times; by rewrite ?E1, ?E2.
  - match goal with |- context [persistPingReport _ _ _ ?r _] => destruct (persist_shape id now fl r db) as (_ & E1 & ms & E2 & Hms & _) end.
    unfold metric_times, trace_times. rewrite E1, E2, fmap_app. split; [done|]. eexists. split; [done|]. apply Forall_fmap.
    eapply Forall_impl; [exact Hms|]. intros m (row & Hrow & _ & Hb & _). apply stored_metric_time in Hrow. simpl. unfold day in *. lia.
Qed.

Lemma traceroute_times uuid id now fl report cache db :
  let db' := fst (persistTracerouteReport uuid id now fl report cache db) in
  metric_times db' = metric_times db ∧
  ∃ ts, trace_times db' = trace_times db ++ ts ∧ Forall (λ t, now - 2 * day - 1000 <= t)%Z ts.
Proof.
  pose proof (traceroute_shape uuid id now fl report cache db) as Hs. cbv zeta. destruct (persistTracerouteReport _ _ _ _ _ _ _) as [db' c].
  destruct Hs as (E1 & _ & recs & E2 & Hrecs & _). unfold metric_times, trace_times. cbn [fst]. rewrite E1, E2, fmap_app. split; [done|].
  eexists. split; [done|]. apply Forall_fmap. eapply Forall_impl; [exact Hrecs|]. intros r (row & Hrow & Hb).
  apply stored_trace_time in Hrow. destruct Hb as (_ & Hb & _). simpl. unfold day in *. lia.
Qed.

Lemma repaired_times rec db : metric_times (fst (repaired rec db)) = metric_times db ∧ trace_times (fst (repaired rec db)) = trace_times db.
Proof.
  unfold repaired. destruct (fixMissingRoutePath rec) as [r []]; [|done]. split; [done|]. unfold trace_times, save_routes. cbn.
  rewrite <- list_fmap_compose. apply list_fmap_ext. intros i x _. simpl. by destruct (_ =? _)%string.
Qed.

Lemma backfill_times dberr db :
  metric_times (AutoBackfillHistoricalTraceroutes dberr db) = metric_times db ∧
  trace_times (AutoBackfillHistoricalTraceroutes dberr db) = trace_times db.
Proof.
  unfold AutoBackfillHistoricalTraceroutes. destruct dberr; [done|]. generalize (take 500 (List.filter
    (λ r, (trc_RoutePath r =? "")%string || (trc_ASPath r =? "")%string) (db_traces db))).
  intros l. revert db. induction l as [|r l IH]; intros db; [done|]. simpl. destruct (repaired_times r db) as [<- <-]. apply IH.
Qed.

Definition kept_ok (k : Kept) : Prop :=
  since (k_metrics k) (k_now k) (metric_times (k_db k)) ∧ since (k_traces k) (k_now k) (trace_times (k_db k)).

Lemma kept_step_ok k k' : kept_ok k → kept_step k k' → kept_ok k'.
Proof.
  intros [Hm Ht]. intros [d Hd|id began fl env Hb|uuid id began fl report cache Hb|db Hdm Hdt|dberr|acc began Hb Hr|acc began Hb Hr];
    split; cbn [k_now k_metrics k_traces k_db]; try done; try by apply since_later.
  1, 2: destruct (message_times id began fl env (k_db k)) as (Et & ts & Em & Hts).
  3, 4: destruct (traceroute_times uuid id began fl report cache (k_db k)) as (Em & ts & Et & Hts).
  1, 4: rewrite ?Em, ?Et; apply since_app; [eapply Forall_impl; [exact Hts|]; simpl; intros; lia|done].
  1, 2: by rewrite ?Et, ?Em.
  1, 2: by eapply since_sub.
  1, 2: by rewrite ?(proj1 (backfill_times _ _)), ?(proj2 (backfill_times _ _)).
  - apply since_round; [done..|]. pose proof (retention_days_pos acc). lia.
  - apply since_round; [done..|]. pose proof (retention_days_pos acc). lia.
Qed.

Lemma since_bound r now times last days I :
  since r now times → r = Some (last, days) → (days < 2 ^ 31)%Z → (now <= last + I)%Z →
  Forall (λ t, now - (keep days + I) <= t)%Z times.
Proof. intros Hs -> Hd HI. destruct Hs as [_ Hs]. eapply Forall_impl; [exact (Hs Hd)|]. simpl. lia. Qed.

(** C35. Nothing old is kept. When the last round that pruned a table began at most [I]
    ago and read a setting of [days], fewer than 2^31, no row of the table is older
    than [I] and the days, or, if that is more, the 48 hours that a probe's claim may
    be old and the time [G] a message may take (to the microsecond): whatever times
    the probes claim, whatever was stored before, and whatever rounds fail, repairs
    run and settings change, up or down, in between. *)
Theorem retention_bound k I :
  kept_reachable k →
  (∀ last days, k_metrics k = Some (last, days) → (days < 2 ^ 31)%Z → (k_now k <= last + I)%Z →
     Forall (λ t, k_now k - (Z.max (days * day) (48 * hour + G) + 1000 + I) <= t)%Z (metric_times (k_db k))) ∧
  (∀ last days, k_traces k = Some (last, days) → (days < 2 ^ 31)%Z → (k_now k <= last + I)%Z →
     Forall (λ t, k_now k - (Z.max (days * day) (48 * hour + G) + 1000 + I) <= t)%Z (trace_times (k_db k))).
Proof.
  intros Hk. assert (Hok : kept_ok k).
  { revert k Hk. apply reachable_ind_inv; [|intros k1 k2 Hk; by apply kept_step_ok]. intros k [E1 E2]. unfold kept_ok. by rewrite E1, E2. }
  destruct Hok as [Hm Ht]. split; intros last days E Hd HI; by eapply since_bound.
Qed.

End Kept.

(** The process that serves has its settings: it knows whether it is initialized and
    has a secret, the stored one unless the environment names another; and it does
    not get there with a database that failed. *)
Theorem host_start known_mode pg env random stored :
  match main known_mode pg env random stored with
  | Fatal msg => HasPrefix msg "Fatal: Database initialization failed: " = true ∧
      (pg_open pg (dsn env) ≠ None ∨ pg_pool pg ≠ None ∨ pg_migrate pg ≠ None ∨ pg_seed pg ≠ None)
  | Panics => known_mode (gin_mode env) = false
  | Listening h =>
      pg_open pg (dsn env) = None ∧ pg_pool pg = None ∧ pg_migrate pg = None ∧ pg_seed pg = None ∧
      is_Some (settings (hp_accounts h) !! "is_initialized") ∧
      settings (hp_accounts h) !! "jwt_secret" =
        Some (if negb (env "JWT_SECRET" =? "")%string then env "JWT_SECRET"
              else default (HexEncode random) (settings stored !! "jwt_secret")) ∧
      (∀ k, k ≠ "is_initialized" → k ≠ "jwt_secret" → settings (hp_accounts h) !! k = settings stored !! k) ∧
      users (hp_accounts h) = users stored ∧ whitelist (hp_accounts h) = whitelist stored ∧ hp_bridge h = true
  end.
Proof.
  unfold main, InitDB. assert (Hp : ∀ e, HasPrefix ("Fatal: Database initialization failed: " +:+ e) "Fatal: Database initialization failed: " = true)
    by (intros e; apply HasPrefix_app).
  destruct (pg_open pg (dsn env)) eqn:E1; [split; [apply Hp|by left]|].
  destruct (pg_pool pg) eqn:E2; [split; [apply Hp|by right; left]|]. destruct (pg_migrate pg) eqn:E3; [split; [apply Hp|by do 2 right; left]|].
  destruct (pg_seed pg) eqn:E4; [split; [apply Hp|by do 3 right]|]. destruct (known_mode (gin_mode env)) eqn:E5; [|done].
  cbn [hp_accounts hp_bridge]. unfold seedBaselineSettings.
  set (st := match settings stored !! "is_initialized" with Some _ => stored | None => SetSetting "is_initialized" "false" stored end).
  assert (Hi : is_Some (settings st !! "is_initialized")).
  { unfold st. destruct (settings stored !! "is_initialized") eqn:E; [by eexists|]. simpl. rewrite lookup_insert_eq. by eexists. }
  assert (Hk : ∀ k, k ≠ "is_initialized" → settings st !! k = settings stored !! k).
  { intros k Hne. unfold st. destruct (settings stored !! "is_initialized"); [done|]. simpl. by rewrite lookup_insert_ne. }
  assert (Hu : users st = users stored ∧ whitelist st = whitelist stored) by (unfold st; by destruct (settings stored !! "is_initialized")).
  destruct Hu as [Hu Hw]. rewrite (Hk "jwt_secret") by done.
  destruct (negb _); [|destruct (settings stored !! "jwt_secret") eqn:Ej]; simpl; split_and!; try done;
    try (by rewrite lookup_insert_ne); try (by rewrite lookup_insert_eq); try (intros k H1 H2; rewrite ?lookup_insert_ne by done; by apply Hk).
  by rewrite Hk.
Qed.

(** ** Witnesses *)

Definition demo_metric (t : Z) : PingMetric := mkMetric "a1" "t1" t 1 1 fzero fzero fzero fzero fzero fzero "".

(** A round, which deletes the older of two measurements, six hours, and a message. *)
Definition demo_stored : Kept :=
  mkKept (1000 * day) None None (mkDb (db_agents demo_db) (db_targets demo_db) [demo_metric (960 * day); demo_metric (980 * day)] []).
Definition demo_default : Accounts := mkAccounts ∅ [] [] 1.
Definition demo_pruned : Kept :=
  mkKept (1000 * day) (Some (1000 * day, 30))%Z None
    (retention_round (W := int64_size) (H := simple_columns) false true (1000 * day) demo_default (k_db demo_stored)).
Definition demo_kept : Kept :=
  mkKept (1000 * day + 6 * hour) (k_metrics demo_pruned) None
    (fst (handleIncomingMessage (W := int64_size) (TT := binary_time) (H := simple_columns) "a1" (1000 * day + 6 * hour)
            no_faults demo_ping_env (k_db demo_pruned))).

Lemma demo_kept_reachable : kept_reachable (W := int64_size) (TT := binary_time) (H := simple_columns) (H0 := no_http) minute demo_kept.
Proof.
  set (k1 := mkKept (1000 * day + 6 * hour) (k_metrics demo_pruned) None (k_db demo_pruned)).
  eapply (reach_step _ _ k1); [eapply (reach_step _ _ demo_pruned); [eapply (reach_step _ _ demo_stored)|]|].
  - by apply reach_init.
  - by apply (kept_prune_metrics (W := int64_size) minute demo_stored demo_default (1000 * day)).
  - by apply (kept_pass (H := simple_columns) minute demo_pruned (6 * hour)).
  - by apply (kept_message (H := simple_columns) minute k1 "a1" (1000 * day + 6 * hour) no_faults demo_ping_env).
Qed.

Lemma retention_bound_witness :
  metric_times (k_db demo_kept) = [980 * day; 1000 * day + 6 * hour]%Z ∧
  Forall (λ t, k_now demo_kept - (Z.max (30 * day) (48 * hour + minute) + 1000 + 12 * hour) <= t)%Z (metric_times (k_db demo_kept)).
Proof.
  split; [by vm_compute|].
  apply (proj1 (retention_bound (W := int64_size) (TT := binary_time) (H := simple_columns) (H0 := no_http) minute
    demo_kept (12 * hour) demo_kept_reachable) (1000 * day)%Z 30%Z); by vm_compute.
Defined.

Example host_start_demo :
  let pg := mkPostgres (λ _, None) None None None in
  match main (String.eqb "release") pg (λ k, if (k =? "PORT")%string then "9000" else "") "r" (mkAccounts ∅ [] [] 1) with
  | Listening h => hp_addr h = ":9000" ∧ hp_mode h = "release" ∧ settings (hp_accounts h) !! "jwt_secret" = Some "72"
  | _ => False
  end.
Proof. by vm_compute. Qed.
