(* ===== verification/Updater.v ===== *)
(** * The self-updater of the probe ([agent/internal/updater])

    binary.go, mirrors.go and updater.go: which release is the latest, which file
    of it this machine runs, how it is downloaded and verified, how the running
    executable is replaced, and the two ways an update starts. The network, the
    results of system calls and the names of temporary files are arguments. *)
From S2P Require Import Prelude GoStrings GoEncoding GoJson Version FileSys.

(** ** binary.go *)

Definition mem_str (s : string) (l : list string) : bool := existsb (String.eqb s) l.

(** [uname -m] and /proc/cpuinfo, [None] if they fail. *)
Definition detectLinuxArmArch (uname cpuinfo : option string) : string :=
  let by_cpuinfo :=
    match cpuinfo with
    | Some s => if Contains s "v7" then "armv7" else if Contains s "v6" then "armv6"
                else if Contains s "v5" then "armv5" else "armv7"
    | None => "armv7"
    end in
  match uname with
  | Some out =>
      let s := TrimSpace out in
      if HasPrefix s "armv7" then "armv7" else if HasPrefix s "armv6" then "armv6"
      else if HasPrefix s "armv5" then "armv5" else by_cpuinfo
  | None => by_cpuinfo
  end.

Definition getBinaryNameFor (arm goos goarch : string) : result string :=
  if (goos =? "linux")%string then
    if mem_str goarch ["amd64"; "386"; "arm64"; "riscv64"; "ppc64le"; "s390x"; "mips"; "mipsle"; "mips64"; "mips64le"]
    then Ok ("justping-agent-linux-" +:+ goarch)
    else if (goarch =? "arm")%string then Ok ("justping-agent-linux-" +:+ arm)
    else Err ("unsupported Linux architecture: " +:+ goarch)
  else if (goos =? "windows")%string then
    if mem_str goarch ["amd64"; "386"] then Ok ("justping-agent-windows-" +:+ goarch +:+ ".exe")
    else Err ("unsupported Windows architecture: " +:+ goarch)
  else Err ("unsupported OS: " +:+ goos).

(** ** mirrors.go *)

Definition DefaultChinaMirrors : list string :=
  ["https://ghfast.top"; "https://gh-proxy.com"; "https://ghproxy.net"; "https://gh.llkk.cc"; "https://cors.isteed.cc"].

Definition mirrored (path : string) : list string :=
  (λ m, TrimRight m "/" +:+ "/https://github.com" +:+ path) <$> DefaultChinaMirrors.

Definition GetDownloadCandidates (repo version : string) (chinaMirror : bool) : list string :=
  let cleanVer := if negb (HasPrefix version "v") && negb (HasPrefix version "V") then "v" +:+ version else version in
  let releasePath := "/" +:+ repo +:+ "/releases/download/" +:+ cleanVer in
  let direct := "https://github.com" +:+ releasePath in
  if negb chinaMirror then [direct] else mirrored releasePath ++ [direct].

Definition GetLatestCandidates (repo : string) (chinaMirror : bool) : list string :=
  let path := "/" +:+ repo +:+ "/releases/latest" in
  let direct := "https://github.com" +:+ path in
  if negb chinaMirror then [direct] else mirrored path ++ [direct].

(** ** The latest release *)

(** The regular expression [releases/tag/(v?[0-9]+(?:\.[0-9]+)*(?:-[0-9A-Za-z._-]+)?)]. *)
Fixpoint span (p : ascii → bool) (s : string) : string * string :=
  match s with
  | EmptyString => ("", "")
  | String c s' => if p c then let '(a, b) := span p s' in (String c a, b) else ("", s)
  end.

Definition tag_char (c : ascii) : bool :=
  let b := byte_of c in
  is_digit c || ((65 <=? b) && (b <=? 90) || (97 <=? b) && (b <=? 122))%Z || existsb (Ascii.eqb c) ["."; "_"; "-"]%char.

(** [(?:\.[0-9]+)*] *)
Fixpoint dot_groups (fuel : nat) (s : string) : string * string :=
  match fuel, s with
  | S n, String "." s' =>
      let '(d, rest) := span is_digit s' in
      if (d =? "")%string then ("", s)
      else let '(g, rest) := dot_groups n rest in ("." +:+ d +:+ g, rest)
  | _, _ => ("", s)
  end.

Definition match_tag (s : string) : option string :=
  let '(v, s) := match s with String "v" s' => ("v", s') | _ => ("", s) end in
  let '(d, s) := span is_digit s in
  if (d =? "")%string then None
  else
    let '(g, s) := dot_groups (slen s) s in
    let pre := match s with
               | String "-" s' => let '(t, _) := span tag_char s' in if (t =? "")%string then "" else "-" +:+ t
               | _ => ""
               end in
    Some (v +:+ d +:+ g +:+ pre).

(** [FindStringSubmatch], its group. *)
Fixpoint find_tag (s : string) : option string :=
  match (if HasPrefix s "releases/tag/" then match_tag (str_drop 13 s) else None) with
  | Some t => Some t
  | None => match s with String _ s' => find_tag s' | EmptyString => None end
  end.

(** A response: [rs_Whole] says the body could be read to its end. *)
Record Response := mkResp { rs_Status : Z; rs_Location : string; rs_Body : string; rs_Whole : bool }.

(** The network at the time of an update: requests that do not follow redirects,
    requests that do, and the JSON a body decodes to. *)
Record Net := mkNet {
  get_noredirect : string → option Response;
  get_body : string → option Response;
  get_json : string → option (Z * option json)
}.

Definition queryEndpointForTag (net : Net) (url : string) : option string :=
  match get_noredirect net url with
  | None => None
  | Some resp =>
      let located :=
        if (300 <=? rs_Status resp)%Z && (rs_Status resp <? 400)%Z && negb (rs_Location resp =? "")%string
        then find_tag (rs_Location resp) else None in
      match located with
      | Some t => Some t
      | None => if (rs_Status resp =? 200)%Z then find_tag (str_take (Z.to_nat 65536) (rs_Body resp)) else None
      end
  end.

Definition queryAPIForTag (net : Net) (url : string) : option string :=
  match get_json net url with
  | Some (200, Some j)%Z =>
      match members j ≫= field "tag_name" dec_string "" with
      | Some tag => if (tag =? "")%string then None else Some tag
      | None => None
      end
  | _ => None
  end.

Definition default_repo (repo : string) : string := if (repo =? "")%string then "guimc233/JustPing" else repo.

Fixpoint first_tag (net : Net) (eps : list string) : option string :=
  match eps with
  | [] => None
  | ep :: eps =>
      match queryEndpointForTag net ep with
      | Some tag => if (tag =? "")%string then first_tag net eps else Some tag
      | None => first_tag net eps
      end
  end.

Definition FetchLatestVersion (net : Net) (repo : string) (chinaMirror : bool) : result string :=
  let repo := default_repo repo in
  match first_tag net (GetLatestCandidates repo chinaMirror) with
  | Some tag => Ok tag
  | None =>
      match queryAPIForTag net ("https://api.github.com/repos/" +:+ repo +:+ "/releases/latest") with
      | Some tag => Ok tag
      | None => Err "failed to detect latest release from any endpoint"
      end
  end.

(** ** Download and verification *)

Definition fetchURL (net : Net) (url : string) : result string :=
  match get_body net url with
  | None => Err "request failed"
  | Some resp =>
      if negb (rs_Status resp =? 200)%Z then Err ("HTTP status " +:+ Itoa (rs_Status resp))
      else if rs_Whole resp then Ok (rs_Body resp) else Err "unexpected EOF"
  end.

(** [bufio.Scanner] over lines: a line of 64 KiB or more ends the scan. *)
Fixpoint scanned (lines : list string) : list string :=
  match lines with
  | [] => []
  | l :: lines => if (65535 <? Z.of_nat (slen l))%Z then [] else TrimSuffix l (String "013" "") :: scanned lines
  end.
Definition newline : ascii := "010".

Fixpoint checksum_of (lines : list string) (binaryName : string) : string :=
  match lines with
  | [] => ""
  | line :: lines =>
      let line := TrimSpace line in
      if (line =? "")%string || HasPrefix line "#" then checksum_of lines binaryName
      else
        match Fields line with
        | hash :: file :: _ => if (TrimPrefix file "*" =? binaryName)%string then hash else checksum_of lines binaryName
        | _ => checksum_of lines binaryName
        end
  end.

Definition parseChecksum (content binaryName : string) : string := checksum_of (scanned (Split content newline)) binaryName.

Definition elf_magic : string := String "127" "ELF".

Definition validateBinaryHeader (goos data : string) : result unit :=
  if (slen data <? 4)%nat then Err "binary too small"
  else if (goos =? "linux")%string then
    if HasPrefix data elf_magic then Ok tt else Err "not a valid ELF binary"
  else if (goos =? "windows")%string then
    if HasPrefix data "MZ" then Ok tt else Err "not a valid PE executable"
  else Ok tt.

Section Download.
Variables (goos binName : string) (net : Net).

(** One turn of the loop of [DownloadAndVerify]; an error is [lastErr]. *)
Definition download_from (base : string) : result string :=
  match fetchURL net (base +:+ "/SHA256SUMS.txt") with
  | Err e => Err ("failed to fetch SHA256SUMS.txt from " +:+ base +:+ ": " +:+ e)
  | Ok sums =>
      let expectedHash := parseChecksum sums binName in
      if (expectedHash =? "")%string then Err ("checksum for " +:+ binName +:+ " not found in SHA256SUMS.txt from " +:+ base)
      else
        let binaryURL := base +:+ "/" +:+ binName in
        match fetchURL net binaryURL with
        | Err e => Err ("failed to fetch binary from " +:+ binaryURL +:+ ": " +:+ e)
        | Ok data =>
            match validateBinaryHeader goos data with
            | Err e => Err ("invalid binary format from " +:+ binaryURL +:+ ": " +:+ e)
            | Ok _ =>
                let actualHash := HexEncode (Sum256 data) in
                if negb (EqualFold actualHash expectedHash) then
                  Err ("checksum mismatch from " +:+ binaryURL +:+ " (expected " +:+ expectedHash +:+ ", got " +:+ actualHash +:+ ")")
                else Ok data
            end
        end
  end.

Fixpoint download_loop (bases : list string) (lastErr : string) : result string :=
  match bases with
  | [] => Err lastErr
  | base :: bases =>
      match download_from base with
      | Ok data => Ok data
      | Err e => download_loop bases e
      end
  end.
End Download.

(** The machine an agent runs on. *)
Record Machine := mkMachine { m_OS : string; m_Arch : string; m_Arm : string; m_Exec : string; m_TempDir : string }.

Definition DownloadAndVerify (m : Machine) (net : Net) (repo version : string) (chinaMirror : bool) : result string :=
  let? binName := getBinaryNameFor (m_Arm m) (m_OS m) (m_Arch m) in
  download_loop (m_OS m) binName net (GetDownloadCandidates repo version chinaMirror)
    "failed to download and verify binary from any source".

(** ** Replacing the executable *)

Inductive call :=
  | CExecutable | CEvalSymlinks | CCreateInDir | CCreateInTemp | CWrite | CClose | CChmod | CRenameOld | CRename
  | CRemove | COpenCopy | CCreateCopy | CCopy | CCloseCopy | CChmodCopy | CRenameCopy | CRemoveCopy | CRemoveOld.

(** Which calls succeed, and what a failing write leaves behind. *)
Record Sys := mkSys { ok : call → bool; left_over : string → string }.

(** [filepath.Dir] of a clean path. *)
Definition Dirname (p : string) : string :=
  match LastIndexByte p "/" with
  | Some O => "/"
  | Some i => str_take i p
  | None => "."
  end.

Section Replace.
Context `{TempNames} (s : Sys).

Definition when {A} (c : call) (f : A → A) (x : A) : A := if ok s c then f x else x.

(** The deferred removals come last. *)
Definition copyFileAtomic (src dst : string) (fs : FS) : FS * result unit :=
  match ok s COpenCopy, fs !! src with
  | true, Some (File content _) =>
      if negb (ok s CCreateCopy) then (fs, Err "create")
      else
        let tmp := temp_name (Dirname dst) ".justping-copy-*" fs in
        let remove := when CRemoveCopy (Remove tmp) in
        let fs := WriteFile tmp "" 384 fs in
        if negb (ok s CCopy) then (remove (WriteFile tmp (left_over s content) 384 fs), Err "copy")
        else
          let fs := WriteFile tmp content 384 fs in
          if negb (ok s CCloseCopy) then (remove fs, Err "close")
          else
            let fs := when CChmodCopy (Chmod tmp 493) fs in
            if negb (ok s CRenameCopy) then (remove fs, Err "rename")
            else (remove (Rename tmp dst fs), Ok tt)
  | _, _ => (fs, Err "open")
  end.

(** From the temporary file to the new executable. *)
Definition install_temp (goos tmp execPath : string) (fs : FS) : FS * result unit :=
  let old := execPath +:+ ".old" in
  let '(fs, blocked) :=
    if (goos =? "windows")%string then
      let fs := when CRemoveOld (Remove old) fs in
      if ok s CRenameOld then (Rename execPath old fs, false) else (fs, true)
    else (fs, false) in
  if blocked then (fs, Err "failed to rename existing binary on Windows")
  else if ok s CRename then (Rename tmp execPath fs, Ok tt)
  else
    match copyFileAtomic tmp execPath fs with
    | (fs, Ok _) => (fs, Ok tt)
    | (fs, Err _) => (fs, Err ("failed to replace binary " +:+ execPath))
    end.

Definition ReplaceCurrentExecutable (m : Machine) (newData : string) (fs : FS) : FS * result unit :=
  if negb (ok s CExecutable) then (fs, Err "failed to get current executable path")
  else if negb (ok s CEvalSymlinks) then (fs, Err "failed to resolve symlink for executable")
  else
    let execPath := m_Exec m in
    if negb (ok s CCreateInDir) && negb (ok s CCreateInTemp) then (fs, Err "failed to create temporary file")
    else
      let dir := if ok s CCreateInDir then Dirname execPath else m_TempDir m in
      let tmp := temp_name dir ".justping-agent-update-*" fs in
      let remove := when CRemove (Remove tmp) in
      let fs := WriteFile tmp "" 384 fs in
      if negb (ok s CWrite) then (remove (WriteFile tmp (left_over s newData) 384 fs), Err "failed to write update data")
      else
        let fs := WriteFile tmp newData 384 fs in
        if negb (ok s CClose) then (remove fs, Err "failed to close temp file")
        else if negb (ok s CChmod) then (remove fs, Err "failed to chmod temp binary")
        else
          let fs := Chmod tmp 493 fs in
          let '(fs, r) := install_temp (m_OS m) tmp execPath fs in
          (remove fs, r).
End Replace.

(** ** Updates *)

Record Config := mkConfig { uc_CurrentVersion : string; uc_ChinaMirror : bool; uc_AutoUpdate : bool; uc_Repo : string }.

Section Updates.
Context {W : IntSize} `{TempNames} (m : Machine).

(** Whether it updated, the version it found, and the error. *)
Definition RunUpdate (cfg : Config) (force : bool) (net : Net) (s : Sys) (fs : FS) : FS * (bool * string * option string) :=
  let repo := default_repo (uc_Repo cfg) in
  match FetchLatestVersion net repo (uc_ChinaMirror cfg) with
  | Err e => (fs, (false, "", Some ("failed to check for updates: " +:+ e)))
  | Ok latest =>
      let needsUpdate := force || negb (Clean (uc_CurrentVersion cfg) =? Clean latest)%string in
      if negb needsUpdate then (fs, (false, latest, None))
      else
        match DownloadAndVerify m net repo latest (uc_ChinaMirror cfg) with
        | Err e => (fs, (false, latest, Some ("update download failed: " +:+ e)))
        | Ok data =>
            match ReplaceCurrentExecutable s m data fs with
            | (fs, Err e) => (fs, (false, latest, Some ("failed to replace binary: " +:+ e)))
            | (fs, Ok _) => (fs, (true, latest, None))
            end
        end
  end.

(** [checkAndApply] of [StartAutoUpdate]; the result is what [onUpdateSuccess] is
    told, if it is called. *)
Definition checkAndApply (cfg : Config) (net : Net) (s : Sys) (fs : FS) : FS * option string :=
  match FetchLatestVersion net (uc_Repo cfg) (uc_ChinaMirror cfg) with
  | Err _ => (fs, None)
  | Ok latest =>
      if negb (IsNewer latest (uc_CurrentVersion cfg)) then (fs, None)
      else
        match DownloadAndVerify m net (uc_Repo cfg) latest (uc_ChinaMirror cfg) with
        | Err _ => (fs, None)
        | Ok data =>
            match ReplaceCurrentExecutable s m data fs with
            | (fs, Err _) => (fs, None)
            | (fs, Ok _) => (fs, Some latest)
            end
        end
  end.

(** The wait before check [k], after start-up: [r] is [rand.Intn(180)]. *)
Definition check_time (r : Z) (k : Z) : Z := (120 + r + k * (8 * 3600))%Z.

(** The checks that take place until the context ends; the loop stops at the
    first update. *)
Fixpoint auto_loop (cfg : Config) (checks : list (Net * Sys)) (fs : FS) : FS * option string :=
  match checks with
  | [] => (fs, None)
  | (net, s) :: checks =>
      match checkAndApply cfg net s fs with
      | (fs, Some v) => (fs, Some v)
      | (fs, None) => auto_loop cfg checks fs
      end
  end.

Definition StartAutoUpdate (cfg : Config) (checks : list (Net * Sys)) (fs : FS) : FS * option string :=
  if negb (uc_AutoUpdate cfg) then (fs, None)
  else auto_loop (mkConfig (uc_CurrentVersion cfg) (uc_ChinaMirror cfg) (uc_AutoUpdate cfg) (default_repo (uc_Repo cfg))) checks fs.
End Updates.

(** ** Lemmas *)

(** *** Files *)

(** What is left of the files besides [x]: all of them, if the temporary files
    could be removed, and else all that were there. *)
Definition kept (clean : bool) (x : string) (fs fs' : FS) : Prop :=
  ∀ p, p ≠ x → clean = true ∨ is_Some (fs !! p) → fs' !! p = fs !! p.

Section ReplaceLemmas.
Context `{TempNames} (s : Sys).

Lemma write_fresh dir pat c mode (fs : FS) p :
  p ≠ temp_name dir pat fs → WriteFile (temp_name dir pat fs) c mode fs !! p = fs !! p.
Proof. intros Hp. by apply lookup_insert_ne. Qed.

Lemma fresh_ne dir pat (fs : FS) p : is_Some (fs !! p) → p ≠ temp_name dir pat fs.
Proof. intros [n Hn] ->. by rewrite temp_name_fresh in Hn. Qed.

Lemma Chmod_file p q mode (fs : FS) c m :
  fs !! p = Some (File c m) → Chmod p mode fs !! q = if decide (q = p) then Some (File c mode) else fs !! q.
Proof. intros E. unfold Chmod. rewrite E. destruct (decide (q = p)) as [->|]; [apply lookup_insert_eq|by apply lookup_insert_ne]. Qed.

Lemma Rename_lookup src dst (fs : FS) n p :
  fs !! src = Some n → Rename src dst fs !! p = if decide (p = dst) then Some n else if decide (p = src) then None else fs !! p.
Proof.
  intros E. unfold Rename. rewrite E. destruct (decide (p = dst)) as [->|Hp]; [apply lookup_insert_eq|].
  rewrite lookup_insert_ne by done. destruct (decide (p = src)) as [->|]; [apply lookup_delete_eq|by apply lookup_delete_ne].
Qed.

(** A temporary file [t], whatever it has become, and its removal. *)
Lemma remove_kept c t x (fs fs1 : FS) :
  fs !! t = None → (∀ p, p ≠ x → p ≠ t → fs1 !! p = fs !! p) → kept (ok s c) x fs (when s c (Remove t) fs1).
Proof.
  intros Ht Hp p Hx Hc. unfold when, Remove. destruct (ok s c).
  - destruct (decide (p = t)) as [->|Hne]; [by rewrite lookup_delete_eq|]. rewrite lookup_delete_ne by done. by apply Hp.
  - destruct Hc as [Hc|[n Hn]]; [done|]. apply Hp; [done|]. intros ->. by rewrite Ht in Hn.
Qed.

Lemma remove_other c t p (fs : FS) : p ≠ t → when s c (Remove t) fs !! p = fs !! p.
Proof. intros Hp. unfold when, Remove. destruct (ok s c); [by rewrite lookup_delete_ne|done]. Qed.

Lemma copy_spec src dst fs content mode :
  fs !! src = Some (File content mode) → is_Some (fs !! dst) →
  let '(fs', r) := copyFileAtomic s src dst fs in
  kept (ok s CRemoveCopy) dst fs fs' ∧
  match r with
  | Ok _ => ∃ m, fs' !! dst = Some (File content m) ∧ (ok s CChmodCopy = true → m = 493%Z)
  | Err _ => fs' !! dst = fs !! dst
  end.
Proof.
  intros Hsrc Hdst. unfold copyFileAtomic. rewrite Hsrc. destruct (ok s COpenCopy); [|by split].
  destruct (ok s CCreateCopy); cbn [negb]; [|by split]. cbv zeta. set (t := temp_name _ _ fs).
  assert (Ht : fs !! t = None) by apply temp_name_fresh. assert (Hne : dst ≠ t) by by apply fresh_ne.
  assert (Hfail : ∀ fs1, (∀ p, p ≠ t → fs1 !! p = fs !! p) →
    kept (ok s CRemoveCopy) dst fs (when s CRemoveCopy (Remove t) fs1) ∧ when s CRemoveCopy (Remove t) fs1 !! dst = fs !! dst).
  { intros fs1 Hp. split; [apply remove_kept; [done|]; intros p _; apply Hp|]. rewrite remove_other by done. by apply Hp. }
  assert (Hw : ∀ c1 m1 c2 m2 p, p ≠ t → WriteFile t c1 m1 (WriteFile t c2 m2 fs) !! p = fs !! p).
  { intros c1 m1 c2 m2 p Hp. unfold WriteFile. by rewrite !lookup_insert_ne. }
  destruct (ok s CCopy); cbn [negb]; [|apply Hfail; by intros; apply Hw].
  set (fs1 := WriteFile t content 384 _).
  destruct (ok s CCloseCopy); cbn [negb]; [|apply Hfail; by intros; apply Hw].
  set (fs2 := when s CChmodCopy (Chmod t 493) fs1).
  assert (E1 : fs1 !! t = Some (File content 384)) by apply lookup_insert_eq.
  assert (E2 : (∃ m, fs2 !! t = Some (File content m) ∧ (ok s CChmodCopy = true → m = 493%Z)) ∧ ∀ p, p ≠ t → fs2 !! p = fs !! p).
  { subst fs2. unfold when. destruct (ok s CChmodCopy).
    - split; [|intros p Hp; rewrite (Chmod_file _ _ _ _ _ _ E1), decide_False by done; by apply Hw].
      exists 493%Z. by rewrite (Chmod_file _ _ _ _ _ _ E1), decide_True.
    - split; [|by intros p Hp; apply Hw]. by exists 384%Z. }
  destruct E2 as [(m & Em & Hm) Ep]. destruct (ok s CRenameCopy); cbn [negb]; [|by apply Hfail]. split.
  - apply remove_kept; [done|]. intros p Hp Hpt. by rewrite (Rename_lookup _ _ _ _ _ Em), !decide_False, Ep.
  - exists m. split; [|done]. rewrite remove_other by done. by rewrite (Rename_lookup _ _ _ _ _ Em), decide_True.
Qed.

(** Replacing, on a system that can rename a file over a running one. *)
Lemma replace_spec m data fs n0 :
  m_OS m ≠ "windows" → fs !! m_Exec m = Some n0 →
  let '(fs', r) := ReplaceCurrentExecutable s m data fs in
  kept (ok s CRemove && ok s CRemoveCopy) (m_Exec m) fs fs' ∧
  match r with
  | Ok _ => ∃ mode, fs' !! m_Exec m = Some (File data mode) ∧ (ok s CRename || ok s CChmodCopy = true → mode = 493%Z)
  | Err _ => fs' !! m_Exec m = Some n0
  end.
Proof.
  intros Hos Hex. unfold ReplaceCurrentExecutable. destruct (ok s CExecutable); [|by split].
  destruct (ok s CEvalSymlinks); [|by split]. cbn [negb]. destruct (negb _ && _); [by split|]. cbv zeta.
  set (t := temp_name _ _ fs). set (x := m_Exec m) in *.
  assert (Ht : fs !! t = None) by apply temp_name_fresh. assert (Hne : x ≠ t) by (apply fresh_ne; by eexists).
  assert (Hweak : ∀ fs', kept (ok s CRemove) x fs fs' → kept (ok s CRemove && ok s CRemoveCopy) x fs fs').
  { intros fs' Hk p Hp [Hc|Hs]; apply Hk; [done| |done|by right]. left. by apply andb_true_iff in Hc as [-> _]. }
  assert (Hfail : ∀ fs1, (∀ p, p ≠ t → fs1 !! p = fs !! p) →
    kept (ok s CRemove && ok s CRemoveCopy) x fs (when s CRemove (Remove t) fs1) ∧ when s CRemove (Remove t) fs1 !! x = Some n0).
  { intros fs1 Hp. split; [apply Hweak, remove_kept; [done|]; intros p _; apply Hp|]. rewrite remove_other by done. by rewrite Hp. }
  assert (Hw : ∀ c1 m1 c2 m2 p, p ≠ t → WriteFile t c1 m1 (WriteFile t c2 m2 fs) !! p = fs !! p).
  { intros c1 m1 c2 m2 p Hp. unfold WriteFile. by rewrite !lookup_insert_ne. }
  destruct (ok s CWrite); cbn [negb]; [|apply Hfail; by intros; apply Hw].
  set (fs1 := WriteFile t data 384 _).
  destruct (ok s CClose); cbn [negb]; [|apply Hfail; by intros; apply Hw].
  destruct (ok s CChmod); cbn [negb]; [|apply Hfail; by intros; apply Hw].
  assert (E1 : fs1 !! t = Some (File data 384)) by apply lookup_insert_eq.
  set (fs2 := Chmod t 493 fs1).
  assert (E2 : fs2 !! t = Some (File data 493)) by (subst fs2; by rewrite (Chmod_file _ _ _ _ _ _ E1), decide_True).
  assert (Ep : ∀ p, p ≠ t → fs2 !! p = fs !! p).
  { intros p Hp. subst fs2. rewrite (Chmod_file _ _ _ _ _ _ E1), decide_False by done. by apply Hw. }
  unfold install_temp. rewrite (proj2 (String.eqb_neq _ _) Hos). destruct (ok s CRename).
  - split.
    + apply Hweak, remove_kept; [done|]. intros p Hp Hpt. by rewrite (Rename_lookup _ _ _ _ _ E2), !decide_False, Ep.
    + exists 493%Z. split; [|done]. rewrite remove_other by done. by rewrite (Rename_lookup _ _ _ _ _ E2), decide_True.
  - pose proof (copy_spec t x fs2 data 493 E2 ltac:(rewrite Ep by done; by eexists)) as Hc.
    destruct (copyFileAtomic s t x fs2) as [fs3 r]. destruct Hc as [Hk Hr].
    assert (Hk' : kept (ok s CRemove && ok s CRemoveCopy) x fs (when s CRemove (Remove t) fs3)).
    { intros p Hp Hc. unfold when, Remove. destruct (ok s CRemove).
      - destruct (decide (p = t)) as [->|Hpt]; [by rewrite lookup_delete_eq|]. rewrite lookup_delete_ne by done.
        rewrite Hk; [by apply Ep|done|]. rewrite Ep by done. destruct Hc as [Hc|Hc]; [by left|by right].
      - destruct Hc as [Hc|Hs]; [done|]. assert (p ≠ t) by by apply fresh_ne.
        rewrite Hk; [by apply Ep|done|right; by rewrite Ep]. }
    destruct r as [u|e]; (split; [done|]); rewrite remove_other by done.
    + destruct Hr as (md & Hr & Hm). exists md. by split.
    + rewrite Hr. by rewrite Ep.
Qed.
End ReplaceLemmas.

(** *** Downloads *)

(** The body of an answer that was complete. *)
Definition served (net : Net) (url body : string) : Prop :=
  ∃ resp, get_body net url = Some resp ∧ rs_Status resp = 200%Z ∧ rs_Whole resp = true ∧ rs_Body resp = body.

(** [data] is the release file of [base], as the checksums of [base] say. *)
Record verified (goos bin : string) (net : Net) (base data : string) : Prop := {
  vf_sums : ∃ sums, served net (base +:+ "/SHA256SUMS.txt") sums ∧ parseChecksum sums bin ≠ "" ∧
                    EqualFold (HexEncode (Sum256 data)) (parseChecksum sums bin) = true;
  vf_data : served net (base +:+ "/" +:+ bin) data;
  vf_header : validateBinaryHeader goos data = Ok tt
}.

Lemma fetchURL_Ok net url body : fetchURL net url = Ok body ↔ served net url body.
Proof.
  unfold fetchURL, served. split.
  - destruct (get_body net url) as [r|]; [|done]. destruct (Z.eqb_spec (rs_Status r) 200); [|done]. cbn [negb].
    destruct (rs_Whole r) eqn:Ew; [|done]. intros [= <-]. by exists r.
  - intros (r & -> & -> & -> & <-). done.
Qed.

Lemma download_from_Ok goos bin net base data : download_from goos bin net base = Ok data ↔ verified goos bin net base data.
Proof.
  unfold download_from. split.
  - destruct (fetchURL net (base +:+ "/SHA256SUMS.txt")) as [sums|e] eqn:Es; [|done].
    destruct (String.eqb_spec (parseChecksum sums bin) "") as [|Hne]; [done|].
    destruct (fetchURL net (base +:+ "/" +:+ bin)) as [d|e] eqn:Ed; [|done].
    destruct (validateBinaryHeader goos d) as [[]|e] eqn:Eh; [|done].
    destruct (EqualFold _ _) eqn:Ef; [|done]. intros [= ->]. split; [|by apply fetchURL_Ok|done].
    exists sums. split_and!; [by apply fetchURL_Ok|done|done].
  - intros [(sums & Hs%fetchURL_Ok & Hne & Hf) Hd%fetchURL_Ok Hh]. rewrite Hs, Hd, Hh, Hf.
    by rewrite (proj2 (String.eqb_neq _ _) Hne).
Qed.

(** The loop takes the first candidate that verifies. *)
Lemma download_loop_spec goos bin net bases err :
  match download_loop goos bin net bases err with
  | Ok data => ∃ l base r, bases = l ++ base :: r ∧ verified goos bin net base data ∧
                           Forall (λ b, ∀ d, ¬ verified goos bin net b d) l
  | Err _ => Forall (λ b, ∀ d, ¬ verified goos bin net b d) bases
  end.
Proof.
  revert err. induction bases as [|b bases IH]; intros err; cbn [download_loop]; [constructor|].
  destruct (download_from goos bin net b) as [d|e] eqn:Eb.
  - apply download_from_Ok in Eb. by exists [], b, bases.
  - assert (Hn : ∀ d, ¬ verified goos bin net b d) by (intros d Hd%download_from_Ok; congruence).
    specialize (IH e). destruct (download_loop _ _ _ bases e) as [d|e'].
    + destruct IH as (l & base & r & -> & Hv & Hl). exists (b :: l), base, r. split_and!; [done..|by constructor].
    + by constructor.
Qed.

(** *** Checksums *)

(** A line of [sha256sum]: the hash, two spaces (or a space and a star), the name. *)
Definition sums_line (e : string * string) : string := fst e +:+ "  " +:+ snd e.

Lemma fields_run fuel cur s t :
  all_bytes printable s = true → (slen s <= fuel)%nat →
  fields_aux fuel cur (s +:+ t) = fields_aux (fuel - slen s) (str_rev s +:+ cur) t.
Proof.
  revert fuel cur. induction s as [|c s IH]; intros fuel cur Hs Hf; [by rewrite Nat.sub_0_r|].
  cbn in Hs. apply andb_true_iff in Hs as [Hc Hs]. destruct fuel as [|fuel]; [cbn in Hf; lia|].
  change (String c s +:+ t) with (String c (s +:+ t)). cbn [fields_aux].
  rewrite (proj1 (match_seq_printable c _ Hc)), IH by (done || (cbn in Hf; lia)).
  rewrite str_rev_cons, str_app_assoc. done.
Qed.

Lemma fields_space n cur s :
  fields_aux (S n) cur (String " " s) = (if (cur =? "")%string then [] else [str_rev cur]) ++ fields_aux n "" s.
Proof.
  assert (Hm : match_seq space_seqs (String " " s) = Some " ") by by destruct s.
  cbn [fields_aux]. by rewrite Hm.
Qed.

Lemma fields_end n cur : fields_aux n cur "" = if (cur =? "")%string then [] else [str_rev cur].
Proof. by destruct n. Qed.

Lemma str_rev_eqb_nil s : (str_rev s =? "")%string = (s =? "")%string.
Proof.
  destruct s as [|c s]; [done|]. cbn [String.eqb]. destruct (str_rev (String c s)) eqn:E; [|done].
  apply (f_equal slen) in E. rewrite slen_rev in E. done.
Qed.

Lemma fields_word n f : all_bytes printable f = true → f ≠ "" → (slen f <= n)%nat → fields_aux n "" f = [f].
Proof.
  intros Hf Hne Hn. pose proof (fields_run n "" f "" Hf Hn) as E. rewrite !str_app_nil_r in E. rewrite E, fields_end.
  by rewrite str_rev_eqb_nil, str_rev_involutive, (proj2 (String.eqb_neq _ _) Hne).
Qed.

Lemma Fields_sums_line h f :
  all_bytes printable h = true → all_bytes printable f = true → h ≠ "" → f ≠ "" → Fields (sums_line (h, f)) = [h; f].
Proof.
  intros Hh Hf Hhn Hfn. unfold Fields, sums_line. cbn [fst snd].
  rewrite fields_run by (done || (rewrite !slen_app; lia)). rewrite str_app_nil_r.
  replace (S (slen (h +:+ "  " +:+ f)) - slen h)%nat with (S (S (S (slen f)))) by (rewrite !slen_app; cbn; lia).
  change ("  " +:+ f) with (String " " (String " " f)). rewrite !fields_space. cbn [String.eqb app].
  rewrite fields_word by (done || lia). by rewrite str_rev_eqb_nil, str_rev_involutive, (proj2 (String.eqb_neq _ _) Hhn).
Qed.

Lemma TrimSpace_ends c s d : printable c = true → printable d = true → TrimSpace (String c (s +:+ String d "")) = String c (s +:+ String d "").
Proof.
  intros Hc Hd. unfold TrimSpace, TrimLeftSpace.
  rewrite (strip_id _ _ _ (proj1 (match_seq_printable c (s +:+ String d "") Hc))).
  assert (E : str_rev (String c (s +:+ String d "")) = String d (str_rev (String c s))).
  { change (String c (s +:+ String d "")) with (String c s +:+ String d ""). by rewrite str_rev_app. }
  unfold TrimRightSpace. rewrite E, (strip_id _ _ _ (proj2 (match_seq_printable d (str_rev (String c s)) Hd))).
  by rewrite <- E, str_rev_involutive.
Qed.

Lemma string_last s : s ≠ "" → ∃ t d, s = t +:+ String d "".
Proof.
  induction s as [|c s IH]; [done|]. intros _. destruct s as [|c' s]; [by exists "", c|].
  destruct IH as (t & d & E); [done|]. exists (String c t), d. by rewrite E.
Qed.

(** A line whose hash is no comment and whose name has no star of its own. *)
Record entry_ok (e : string * string) : Prop := {
  eo_hash : all_bytes printable (fst e) = true;
  eo_hash_ne : fst e ≠ "";
  eo_comment : HasPrefix (fst e) "#" = false;
  eo_file : all_bytes printable (snd e) = true;
  eo_file_ne : snd e ≠ "";
  eo_star : HasPrefix (snd e) "*" = false;
  eo_len : (Z.of_nat (slen (sums_line e)) <= 65535)%Z
}.

Lemma sums_line_shape e : entry_ok e → ∃ c m d, sums_line e = String c (m +:+ String d "") ∧ printable c = true ∧ printable d = true ∧
  HasPrefix (sums_line e) "#" = false.
Proof.
  intros [H1 H2 H3 H4 H5 _ _]. destruct e as [h f]. cbn [fst snd] in *. destruct h as [|c h]; [done|].
  destruct (string_last f H5) as (t & d & ->). exists c, (h +:+ "  " +:+ t), d. unfold sums_line. cbn [fst snd].
  rewrite all_bytes_app in H4. cbn [all_bytes] in H1, H4. apply andb_true_iff in H1 as [H1 _], H4 as [_ [H4 _]%andb_true_iff]. split_and!; try done.
  - rewrite str_app_cons. f_equal. by rewrite !str_app_assoc.
  - revert H3. rewrite str_app_cons. cbn [HasPrefix]. destruct (Ascii.eqb "#" c); [by destruct h|done].
Qed.

Lemma TrimSuffix_other s c : HasPrefix (str_rev s) (str_rev c) = false → TrimSuffix s c = s.
Proof. unfold TrimSuffix, HasSuffix. by intros ->. Qed.

Lemma checksum_of_lines es bin :
  Forall entry_ok es →
  checksum_of (scanned (sums_line <$> es)) bin = default "" (fst <$> List.find (λ e, (snd e =? bin)%string) es).
Proof.
  induction es as [|e es IH]; [done|]. intros [He Hes]%Forall_cons. rewrite fmap_cons. cbn [scanned].
  rewrite (proj2 (Z.ltb_ge _ _) (eo_len e He)). destruct (sums_line_shape e He) as (c & m & d & E & Hc & Hd & Hp).
  rewrite TrimSuffix_other.
  2: { rewrite E. change (String c (m +:+ String d "")) with (String c m +:+ String d ""). rewrite str_rev_app.
       change (str_rev (String d "")) with (String d ""). change (str_rev (String "013" "")) with (String "013" "").
       rewrite str_app_cons. cbn [HasPrefix].
       destruct (Ascii.eqb_spec "013" d) as [<-|]; [by vm_compute in Hd|done]. }
  assert (Et : TrimSpace (sums_line e) = sums_line e) by (rewrite E; by apply TrimSpace_ends).
  cbn [checksum_of]. rewrite !Et, Hp.
  assert (Ene : (sums_line e =? "")%string = false) by by rewrite E.
  rewrite Ene. cbn [orb]. destruct e as [h f]. destruct He as [H1 H2 H3 H4 H5 H6 H7]. cbn [fst snd] in *.
  rewrite Fields_sums_line by done. unfold TrimPrefix. rewrite H6. cbn [List.find snd].
  destruct (f =? bin)%string; [done|]. by apply IH.
Qed.

Lemma newline_unprintable s : all_bytes printable s = true → no_byte newline s.
Proof. apply all_bytes_no_byte. by vm_compute. Qed.

(** A checksum file gives, for a name, the hash of its first line with that name. *)
Lemma parseChecksum_spec es bin :
  es ≠ [] → Forall entry_ok es →
  parseChecksum (Join (sums_line <$> es) (String newline "")) bin = default "" (fst <$> List.find (λ e, (snd e =? bin)%string) es).
Proof.
  intros Hne Hes. unfold parseChecksum. rewrite Split_Join.
  - by apply checksum_of_lines.
  - by destruct es.
  - apply Forall_fmap. eapply Forall_impl; [exact Hes|]. intros [h f] [H1 _ _ H4 _ _ _]. cbn in *. unfold sums_line. cbn [fst snd].
    rewrite !no_byte_app. split_and!; [by apply newline_unprintable|by vm_compute|by apply newline_unprintable].
Qed.

(** *** Updates *)

Section UpdateLemmas.
Context {W : IntSize} `{TempNames} (m : Machine).

(** [data] is the file of release [v] for this machine, from one of the sources. *)
Definition release_file (net : Net) (repo v : string) (mirror : bool) (data : string) : Prop :=
  ∃ bin base, getBinaryNameFor (m_Arm m) (m_OS m) (m_Arch m) = Ok bin ∧
    base ∈ GetDownloadCandidates repo v mirror ∧ verified (m_OS m) bin net base data.

Lemma DownloadAndVerify_Ok net repo v mirror data :
  DownloadAndVerify m net repo v mirror = Ok data → release_file net repo v mirror data.
Proof.
  unfold DownloadAndVerify. destruct (getBinaryNameFor _ _ _) as [bin|e] eqn:Eb; [|done]. cbn [result_bind]. intros Hd.
  pose proof (download_loop_spec (m_OS m) bin net (GetDownloadCandidates repo v mirror)
    "failed to download and verify binary from any source") as Hs. rewrite Hd in Hs.
  destruct Hs as (l & base & r & E & Hv & _). exists bin, base. split_and!; [done| |done].
  rewrite E. apply elem_of_app. right. by left.
Qed.

(** What an update did to the files: [Some v] if release [v] was installed. *)
Definition installed (net : Net) (repo : string) (mirror : bool) (r : option string) (fs fs' : FS) : Prop :=
  (∀ p, p ≠ m_Exec m → is_Some (fs !! p) → fs' !! p = fs !! p) ∧
  match r with
  | Some v => ∃ data mode, release_file net repo v mirror data ∧ fs' !! m_Exec m = Some (File data mode)
  | None => fs' !! m_Exec m = fs !! m_Exec m
  end.

Lemma install_spec net repo v mirror s data fs :
  m_OS m ≠ "windows" → is_Some (fs !! m_Exec m) → DownloadAndVerify m net repo v mirror = Ok data →
  let '(fs', r) := ReplaceCurrentExecutable s m data fs in
  installed net repo mirror (match r with Ok _ => Some v | Err _ => None end) fs fs'.
Proof.
  intros Hos [n Hn] Hd%DownloadAndVerify_Ok. pose proof (replace_spec s m data fs n Hos Hn) as Hr.
  destruct (ReplaceCurrentExecutable s m data fs) as [fs' r]. destruct Hr as [Hk Hr]. split.
  - intros p Hp Hs. by apply Hk; [|right].
  - destruct r as [u|e]; [|by rewrite Hn]. destruct Hr as (mode & Hr & _). by exists data, mode.
Qed.

Lemma check_spec cfg net s fs :
  m_OS m ≠ "windows" → is_Some (fs !! m_Exec m) →
  let '(fs', r) := checkAndApply m cfg net s fs in
  installed net (uc_Repo cfg) (uc_ChinaMirror cfg) r fs fs' ∧
  ∀ v, r = Some v → FetchLatestVersion net (uc_Repo cfg) (uc_ChinaMirror cfg) = Ok v ∧ IsNewer v (uc_CurrentVersion cfg) = true.
Proof.
  intros Hos Hex. unfold checkAndApply. destruct (FetchLatestVersion _ _ _) as [v|e]; [|by split].
  destruct (IsNewer v _) eqn:En; [|by split]. cbn [negb].
  destruct (DownloadAndVerify m net _ v _) as [data|e] eqn:Ed; [|by split].
  pose proof (install_spec _ _ _ _ s data fs Hos Hex Ed) as Hi. destruct (ReplaceCurrentExecutable s m data fs) as [fs' [u|e]].
  - split; [done|]. by intros v' [= <-].
  - by split.
Qed.

Lemma installed_exec net repo mirror r fs fs' : is_Some (fs !! m_Exec m) → installed net repo mirror r fs fs' → is_Some (fs' !! m_Exec m).
Proof. intros Hex [_ Hr]. destruct r as [v|]; [destruct Hr as (d & mode & _ & ->); by eexists|by rewrite Hr]. Qed.

Lemma auto_loop_spec cfg checks fs :
  m_OS m ≠ "windows" → is_Some (fs !! m_Exec m) →
  let '(fs', r) := auto_loop m cfg checks fs in
  (∀ p, p ≠ m_Exec m → is_Some (fs !! p) → fs' !! p = fs !! p) ∧
  match r with
  | Some v => ∃ net s data mode, (net, s) ∈ checks ∧ FetchLatestVersion net (uc_Repo cfg) (uc_ChinaMirror cfg) = Ok v ∧
                IsNewer v (uc_CurrentVersion cfg) = true ∧ release_file net (uc_Repo cfg) v (uc_ChinaMirror cfg) data ∧
                fs' !! m_Exec m = Some (File data mode)
  | None => fs' !! m_Exec m = fs !! m_Exec m
  end.
Proof.
  intros Hos. revert fs. induction checks as [|[net s] checks IH]; intros fs Hex; [by split|]. cbn [auto_loop].
  pose proof (check_spec cfg net s fs Hos Hex) as Hc. destruct (checkAndApply m cfg net s fs) as [fs1 [v|]].
  - destruct Hc as [[Hk (data & mode & Hf & He)] Hv]. destruct (Hv v eq_refl) as [V1 V2]. split; [done|].
    exists net, s, data, mode. split_and!; try done. by left.
  - destruct Hc as [Hi _]. pose proof (installed_exec _ _ _ _ _ _ Hex Hi) as Hex1. destruct Hi as [Hk He].
    specialize (IH fs1 Hex1). destruct (auto_loop m cfg checks fs1) as [fs2 r]. destruct IH as [Hk2 Hr]. split.
    + intros p Hp Hs. rewrite Hk2; [by apply Hk|done|by rewrite Hk].
    + destruct r as [v|]; [|by rewrite Hr, He]. destruct Hr as (net' & s' & data & mode & Hin & Hr).
      exists net', s', data, mode. split; [by right|done].
Qed.

Lemma RunUpdate_spec cfg force net s fs :
  m_OS m ≠ "windows" → is_Some (fs !! m_Exec m) →
  let '(fs', (updated, v, err)) := RunUpdate m cfg force net s fs in
  (∀ p, p ≠ m_Exec m → is_Some (fs !! p) → fs' !! p = fs !! p) ∧
  if updated then
    err = None ∧ FetchLatestVersion net (default_repo (uc_Repo cfg)) (uc_ChinaMirror cfg) = Ok v ∧
    (force = true ∨ Clean (uc_CurrentVersion cfg) ≠ Clean v) ∧
    ∃ data mode, release_file net (default_repo (uc_Repo cfg)) v (uc_ChinaMirror cfg) data ∧ fs' !! m_Exec m = Some (File data mode)
  else
    fs' !! m_Exec m = fs !! m_Exec m ∧
    (err = None → force = false ∧ Clean (uc_CurrentVersion cfg) = Clean v).
Proof.
  intros Hos Hex. unfold RunUpdate. destruct (FetchLatestVersion _ _ _) as [v|e] eqn:Ev; [|by split_and!].
  destruct (force || _) eqn:En; cbn [negb].
  - destruct (DownloadAndVerify m net _ v _) as [data|e] eqn:Ed; [|by split_and!].
    pose proof (install_spec _ _ _ _ s data fs Hos Hex Ed) as Hi. destruct (ReplaceCurrentExecutable s m data fs) as [fs' [u|e]].
    + destruct Hi as [Hk Hi]. split; [done|]. split_and!; try done. destruct force; [by left|right].
      cbn in En. destruct (String.eqb_spec (Clean (uc_CurrentVersion cfg)) (Clean v)); [done|done].
    + destruct Hi as [Hk Hi]. by split_and!.
  - apply orb_false_iff in En as [-> En]. split; [done|]. split; [done|]. intros _. split; [done|].
    by destruct (String.eqb_spec (Clean (uc_CurrentVersion cfg)) (Clean v)).
Qed.
End UpdateLemmas.

(** ** Properties *)

(** An update that is asked for (on a system other than Windows). If it reports
    success, the executable is, whole, the file of the release it names, with the
    header of an executable and the checksum listed next to it, and the release was
    forced or differs from the running one; if it reports anything else, whatever
    call failed, the executable is what it was. No other file that was there
    changes. *)
Theorem RunUpdate_installs {W : IntSize} `{TempNames} m cfg force net s fs :
  m_OS m ≠ "windows" → is_Some (fs !! m_Exec m) →
  let '(fs', (updated, v, err)) := RunUpdate m cfg force net s fs in
  (∀ p, p ≠ m_Exec m → is_Some (fs !! p) → fs' !! p = fs !! p) ∧
  if updated then
    err = None ∧ FetchLatestVersion net (default_repo (uc_Repo cfg)) (uc_ChinaMirror cfg) = Ok v ∧
    (force = true ∨ Clean (uc_CurrentVersion cfg) ≠ Clean v) ∧
    ∃ data mode, release_file m net (default_repo (uc_Repo cfg)) v (uc_ChinaMirror cfg) data ∧ fs' !! m_Exec m = Some (File data mode)
  else
    fs' !! m_Exec m = fs !! m_Exec m ∧
    (err = None → force = false ∧ Clean (uc_CurrentVersion cfg) = Clean v).
Proof. apply RunUpdate_spec. Qed.

(** Background updates. However many checks take place and whatever each finds
    and whichever calls fail, the executable only ever becomes the verified file of
    a release that compares as newer than the running version, and the loop ends
    with it; if none is installed, or updates are disabled, it is what it was. *)
Theorem StartAutoUpdate_newer {W : IntSize} `{TempNames} m cfg checks fs :
  m_OS m ≠ "windows" → is_Some (fs !! m_Exec m) →
  let '(fs', r) := StartAutoUpdate m cfg checks fs in
  let repo := default_repo (uc_Repo cfg) in
  (∀ p, p ≠ m_Exec m → is_Some (fs !! p) → fs' !! p = fs !! p) ∧
  match r with
  | Some v => uc_AutoUpdate cfg = true ∧
      ∃ net s data mode, (net, s) ∈ checks ∧ FetchLatestVersion net repo (uc_ChinaMirror cfg) = Ok v ∧
        IsNewer v (uc_CurrentVersion cfg) = true ∧ release_file m net repo v (uc_ChinaMirror cfg) data ∧
        fs' !! m_Exec m = Some (File data mode)
  | None => fs' !! m_Exec m = fs !! m_Exec m
  end.
Proof.
  intros Hos Hex. unfold StartAutoUpdate. destruct (uc_AutoUpdate cfg) eqn:Ea; cbn [negb]; [|by split].
  pose proof (auto_loop_spec m (mkConfig (uc_CurrentVersion cfg) (uc_ChinaMirror cfg) true (default_repo (uc_Repo cfg))) checks fs Hos Hex)
    as Hl. destruct (auto_loop m _ checks fs) as [fs' r]. destruct Hl as [Hk Hr]. split; [done|]. by destruct r.
Qed.

(** C17. The sources of a release are tried in their order - the mirrors, if asked
    for, and GitHub last - and the download is the file of the first one that
    serves a checksum list with the file's name, and the file with that checksum
    and an executable's header; it fails only if no source does. *)
Theorem DownloadAndVerify_first m net repo v mirror bin :
  getBinaryNameFor (m_Arm m) (m_OS m) (m_Arch m) = Ok bin →
  last (GetDownloadCandidates repo v mirror) =
    Some ("https://github.com/" +:+ repo +:+ "/releases/download/" +:+
          (if HasPrefix v "v" || HasPrefix v "V" then v else "v" +:+ v)) ∧
  match DownloadAndVerify m net repo v mirror with
  | Ok data => ∃ l base r, GetDownloadCandidates repo v mirror = l ++ base :: r ∧ verified (m_OS m) bin net base data ∧
                           Forall (λ b, ∀ d, ¬ verified (m_OS m) bin net b d) l
  | Err _ => Forall (λ b, ∀ d, ¬ verified (m_OS m) bin net b d) (GetDownloadCandidates repo v mirror)
  end.
Proof.
  intros Hb. split.
  - unfold GetDownloadCandidates. destruct (HasPrefix v "v"), (HasPrefix v "V"), mirror; cbn [negb andb orb];
      try rewrite last_snoc; reflexivity.
  - unfold DownloadAndVerify. rewrite Hb. cbn [result_bind]. apply download_loop_spec.
Qed.

(** A checksum list as [sha256sum] writes it: for every name the parser finds the
    hash of the first line with that name, and nothing for a name that has none. *)
Theorem parseChecksum_roundtrip es bin :
  es ≠ [] → Forall entry_ok es →
  parseChecksum (Join (sums_line <$> es) (String newline "")) bin
  = default "" (fst <$> List.find (λ e, (snd e =? bin)%string) es).
Proof. apply parseChecksum_spec. Qed.

(** ** Witnesses *)

Definition demo_machine : Machine := mkMachine "linux" "amd64" "armv7" "/opt/jp/agent" "/tmp".
Definition demo_file : string := elf_magic +:+ "demo".
Definition demo_sums : string :=
  Join [HexEncode (Sum256 "other") +:+ "  justping-agent-linux-arm64";
        HexEncode (Sum256 demo_file) +:+ " *justping-agent-linux-amd64"; ""] (String newline "").

(** The first mirror is down, the second serves another file; GitHub is fine. *)
Definition demo_net : Net := {|
  get_noredirect u :=
    if HasPrefix u "https://github.com" then Some (mkResp 302 "https://github.com/guimc233/JustPing/releases/tag/v1.3.0" "" true) else None;
  get_body u :=
    if Contains u "gh-proxy" then Some (mkResp 200 "" (if HasSuffix u "SHA256SUMS.txt" then demo_sums else elf_magic +:+ "evil") true)
    else if HasPrefix u "https://github.com" then Some (mkResp 200 "" (if HasSuffix u "SHA256SUMS.txt" then demo_sums else demo_file) true)
    else None;
  get_json _ := None |}.

Definition all_ok : Sys := mkSys (λ _, true) (λ s, s).
(** The rename is refused and the copy of the update breaks off. *)
Definition broken_copy : Sys :=
  mkSys (λ c, match c with CRename | CCopy => false | _ => true end) (str_take 3).

Definition demo_fs : FS := {[ "/opt/jp/agent" := File "old" 493; "/opt/jp/agent.json" := File "{}" 384 ]}.
Definition demo_config : Config := mkConfig "1.2.1" true true "".

Lemma RunUpdate_installs_witness :
  let _ := int64_size in let _ := counted_names in
  RunUpdate demo_machine demo_config false demo_net all_ok demo_fs
    = (<["/opt/jp/agent" := File demo_file 493]> demo_fs, (true, "v1.3.0", None)) ∧
  fst (RunUpdate demo_machine demo_config false demo_net broken_copy demo_fs) !! m_Exec demo_machine = demo_fs !! m_Exec demo_machine.
Proof.
  intros ? ?. split; [vm_compute; reflexivity|].
  pose proof (RunUpdate_installs demo_machine demo_config false demo_net broken_copy demo_fs ltac:(discriminate)
    ltac:(eexists; vm_compute; reflexivity)) as Hr.
  assert (E : fst (fst (snd (RunUpdate demo_machine demo_config false demo_net broken_copy demo_fs))) = false) by (vm_compute; reflexivity).
  destruct (RunUpdate _ _ _ _ broken_copy _) as [fs' [[updated v] err]]. cbn [fst snd] in E. subst updated. apply Hr.
Defined.

Lemma StartAutoUpdate_newer_witness :
  let _ := int64_size in let _ := counted_names in
  let '(fs', r) := StartAutoUpdate demo_machine demo_config [(demo_net, broken_copy); (demo_net, all_ok); (demo_net, broken_copy)] demo_fs in
  r = Some "v1.3.0" ∧ ∃ net s data mode, (net, s) ∈ [(demo_net, broken_copy); (demo_net, all_ok); (demo_net, broken_copy)] ∧
    FetchLatestVersion net "guimc233/JustPing" true = Ok "v1.3.0" ∧ IsNewer "v1.3.0" "1.2.1" = true ∧
    release_file demo_machine net "guimc233/JustPing" "v1.3.0" true data ∧ fs' !! "/opt/jp/agent" = Some (File data mode).
Proof.
  intros ? ?.
  pose proof (StartAutoUpdate_newer demo_machine demo_config [(demo_net, broken_copy); (demo_net, all_ok); (demo_net, broken_copy)] demo_fs
    ltac:(discriminate) ltac:(eexists; vm_compute; reflexivity)) as Hr.
  assert (E : snd (StartAutoUpdate demo_machine demo_config [(demo_net, broken_copy); (demo_net, all_ok); (demo_net, broken_copy)] demo_fs)
    = Some "v1.3.0") by (vm_compute; reflexivity).
  destruct (StartAutoUpdate _ _ _ _) as [fs' r]. cbn [snd] in E. subst r. destruct Hr as (_ & _ & Hr). split; [done|exact Hr].
Defined.

Lemma DownloadAndVerify_first_witness :
  getBinaryNameFor "armv7" "linux" "amd64" = Ok "justping-agent-linux-amd64" ∧
  DownloadAndVerify demo_machine demo_net "guimc233/JustPing" "1.3.0" true = Ok demo_file ∧
  last (GetDownloadCandidates "guimc233/JustPing" "1.3.0" true) = Some "https://github.com/guimc233/JustPing/releases/download/v1.3.0".
Proof.
  split; [reflexivity|]. split; [vm_compute; reflexivity|].
  destruct (DownloadAndVerify_first demo_machine demo_net "guimc233/JustPing" "1.3.0" true "justping-agent-linux-amd64" eq_refl) as [Hl _].
  rewrite Hl. vm_compute. reflexivity.
Defined.

Lemma parseChecksum_roundtrip_witness :
  parseChecksum (Join (sums_line <$> [("aa", "x"); ("bb", "y"); ("cc", "x")]) (String newline "")) "x" = "aa".
Proof.
  rewrite parseChecksum_roundtrip; [reflexivity|discriminate|].
  repeat (constructor; [split; first [reflexivity | discriminate]|]). constructor.
Defined.

(** On Windows the running file is moved away first, and nothing brings it back:
    if the new file can then neither be renamed nor copied, no executable is left. *)
Example windows_update_lost :
  let _ := counted_names in
  let s := mkSys (λ c, match c with CRename | COpenCopy => false | _ => true end) id in
  let '(fs', r) := ReplaceCurrentExecutable s (mkMachine "windows" "amd64" "" "C/agent.exe" "C/tmp") "MZnew"
                     {[ "C/agent.exe" := File "MZold" 493 ]} in
  r = Err "failed to replace binary C/agent.exe" ∧ fs' !! "C/agent.exe" = None ∧ fs' !! "C/agent.exe.old" = Some (File "MZold" 493).
Proof. by vm_compute. Qed.

Example names_and_tags :
  getBinaryNameFor (detectLinuxArmArch (Some "armv6l") None) "linux" "arm" = Ok "justping-agent-linux-armv6" ∧
  detectLinuxArmArch None (Some "ARMv5te v5") = "armv5" ∧
  getBinaryNameFor "" "darwin" "arm64" = Err "unsupported OS: darwin" ∧
  find_tag "x/releases/tag/ releases/tag/v1.2.3-rc.1_x?q" = Some "v1.2.3-rc.1_x" ∧ find_tag "/releases/tag/1." = Some "1" ∧
  find_tag "/releases/tag/latest" = None.
Proof. by vm_compute. Qed.
