(* ===== verification/Installer.v ===== *)
(** * The probe's process: configuration, service, exit
      ([agent/cmd/agent/main.go], [agent/internal/service], [RestartActiveService] of updater.go)

    How the command line, the environment and the configuration file make the
    configuration; installing the probe as a service of the init system that is
    found, and removing it; what the process does when it ends. Files are those of
    FileSys; the commands that are run are recorded, and whether they succeed is
    an argument, as is which files can be written. *)
From S2P Require Import Prelude GoStrings GoJson Protocol FileSys Updater.

(** ** [AgentConfig] *)

Record AgentConfig := mkAgentConfig { ac_Server : string; ac_Token : string; ac_ChinaMirror : bool; ac_AutoUpdate : option bool }.

Definition zero_config : AgentConfig := mkAgentConfig "" "" false None.

Definition IsAutoUpdateEnabled (c : AgentConfig) : bool := default true (ac_AutoUpdate c).

Definition enc_config (c : AgentConfig) : json :=
  JObj ([("server", JStr (ac_Server c)); ("token", JStr (ac_Token c)); ("china_mirror", JBool (ac_ChinaMirror c))] ++
        match ac_AutoUpdate c with Some b => [("auto_update", JBool b)] | None => [] end).

(** The error of [json.Unmarshal] is ignored: a member of the wrong type leaves its
    field, but a pointer is allocated before the type is looked at. *)
Definition lenient {A} (d : decoder A) : decoder A := λ old j, Some (default old (d old j)).
Definition dec_bool_ptr : decoder (option bool) := λ old j,
  match j with JNull => Some None | JBool b => Some (Some b) | _ => Some (Some (default false old)) end.

Definition dec_config (j : json) : AgentConfig :=
  match members j with
  | None => zero_config
  | Some l =>
      mkAgentConfig (default "" (field "server" (lenient dec_string) "" l)) (default "" (field "token" (lenient dec_string) "" l))
        (default false (field "china_mirror" (lenient dec_bool) false l)) (default None (field "auto_update" dec_bool_ptr None l))
  end.

(** ** The configuration of a run *)

(** The command line; [None] is a flag that was not given. *)
Record Flags := mkFlags {
  f_server : option string; f_token : option string; f_config : string; f_china_mirror : option bool;
  f_auto_update : option bool; f_update : bool; f_force : bool; f_install : bool; f_uninstall : bool; f_version : bool
}.

(** The file: given by flag, or the first of the two places that exists. *)
Definition config_path (f : Flags) (fs : FS) : string :=
  if negb (f_config f =? "")%string then f_config f
  else if exists_at fs "/etc/justping/agent.json" then "/etc/justping/agent.json"
  else if exists_at fs "agent.json" then "agent.json" else "".

(** [parsed]: the JSON in the file of that path, [None] if there is none. *)
Definition load_config (parsed : string → option json) (path : string) : AgentConfig :=
  if (path =? "")%string then zero_config
  else match parsed path with Some j => dec_config j | None => zero_config end.

Definition with_env (env : string → string) (c : AgentConfig) : AgentConfig :=
  let server := if negb (env "JUSTPING_SERVER" =? "")%string && (ac_Server c =? "")%string then env "JUSTPING_SERVER" else ac_Server c in
  let token := if negb (env "JUSTPING_TOKEN" =? "")%string && (ac_Token c =? "")%string then env "JUSTPING_TOKEN" else ac_Token c in
  let m := env "JUSTPING_CHINA_MIRROR" in
  mkAgentConfig server token (if (m =? "1")%string || (m =? "true")%string then true else ac_ChinaMirror c) (ac_AutoUpdate c).

Definition with_flags (f : Flags) (c : AgentConfig) : AgentConfig :=
  mkAgentConfig (default (ac_Server c) (f_server f)) (default (ac_Token c) (f_token f))
    (default (ac_ChinaMirror c) (f_china_mirror f))
    (match f_auto_update f with Some b => Some b | None => ac_AutoUpdate c end).

Definition effective_config (f : Flags) (env : string → string) (parsed : string → option json) (fs : FS) : AgentConfig :=
  with_flags f (with_env env (load_config parsed (config_path f fs))).

Inductive mode :=
  | ShowVersion
  | Uninstall
  | Update (force : bool)
  | Install
  | Usage
  | Serve.

Definition run_mode (f : Flags) (c : AgentConfig) : mode :=
  let incomplete := (ac_Server c =? "")%string || (ac_Token c =? "")%string in
  if f_version f then ShowVersion
  else if f_uninstall f then Uninstall
  else if f_update f then Update (f_force f)
  else if f_install f then (if incomplete then Usage else Install)
  else if incomplete then Usage
  else Serve.


(** ** The system *)

(** Which files can be opened for writing, and what a write that breaks off
    leaves; which commands succeed, and which exist. *)
Record Os := mkOs {
  goos : string;
  can_write : string → bool;
  partial : string → option string;
  run_ok : list string → bool;
  has_cmd : string → bool;
  program_data : string
}.

Record World := mkWorld { w_fs : FS; w_log : list (list string) }.

Definition on_fs (f : FS → FS) (w : World) : World := mkWorld (f (w_fs w)) (w_log w).

Section Service.
Variable o : Os.

(** [exec.Command(...).Run()] *)
Definition cmd (c : list string) (w : World) : World * bool := (mkWorld (w_fs w) (w_log w ++ [c]), run_ok o c).
(** With its error ignored. *)
Definition cmd_ (c : list string) (w : World) : World := fst (cmd c w).

(** [os.WriteFile] to a path that is no symbolic link: an existing file keeps its mode. *)
Definition put (p content : string) (mode : Z) (fs : FS) : FS :=
  let mode := match fs !! p with Some (File _ m) => m | _ => mode end in WriteFile p content mode fs.
Definition write (p content : string) (mode : Z) (w : World) : World * bool :=
  if can_write o p then (on_fs (put p content mode) w, true)
  else (match partial o p with Some c => on_fs (put p c mode) w | None => w end, false).

Inductive InitType := InitSystemd | InitOpenRC | InitProcd | InitRunit | InitSysVinit | InitWindows | InitUnknown.

Definition DetectInit (fs : FS) : InitType :=
  if (goos o =? "windows")%string then InitWindows
  else if exists_at fs "/run/systemd/system" then InitSystemd
  else if exists_at fs "/etc/openwrt_release" then InitProcd
  else if exists_at fs "/run/openrc" then InitOpenRC
  else if exists_at fs "/sbin/openrc-run" then InitOpenRC
  else if exists_at fs "/etc/sv" then InitRunit
  else if exists_at fs "/etc/init.d" then InitSysVinit
  else InitUnknown.

Definition q : string := String (ascii_of_nat 34) "".
Definition text (lines : list string) : string := Join lines (String newline "").

Definition unitPath : string := "/etc/systemd/system/justping-agent.service".
Definition scriptPath : string := "/etc/init.d/justping-agent".
Definition svDir : string := "/etc/sv/justping-agent".

Definition systemd_unit (bin : string) : string := text
  ["[Unit]"; "Description=JustPing Agent Service"; "After=network-online.target"; "Wants=network-online.target"; "";
   "[Service]"; "Type=simple"; "ExecStart=" +:+ bin +:+ " --config /etc/justping/agent.json"; "Restart=always";
   "RestartSec=5s"; "LimitNOFILE=65535"; ""; "[Install]"; "WantedBy=multi-user.target"; ""].

Definition openrc_script (bin : string) : string := text
  ["#!/sbin/openrc-run"; "description=" +:+ q +:+ "JustPing Agent Service" +:+ q; "";
   "command=" +:+ q +:+ bin +:+ q; "command_args=" +:+ q +:+ "--config /etc/justping/agent.json" +:+ q;
   "command_background=" +:+ q +:+ "yes" +:+ q; "pidfile=" +:+ q +:+ "/run/justping-agent.pid" +:+ q; "";
   "depend() {"; "    need net"; "    after firewall"; "}"; ""].

Definition procd_script (bin : string) : string := text
  ["#!/bin/sh /etc/rc.common"; "USE_PROCD=1"; "START=99"; "STOP=10"; ""; "start_service() {"; "    procd_open_instance";
   "    procd_set_param command " +:+ bin +:+ " --config /etc/justping/agent.json"; "    procd_set_param respawn";
   "    procd_close_instance"; "}"; ""].

Definition runit_script (bin : string) : string := text
  ["#!/bin/sh"; "exec 2>&1"; "exec " +:+ bin +:+ " --config /etc/justping/agent.json"; ""].

Definition sysv_script (bin : string) : string := text
  ["#!/bin/sh"; "### BEGIN INIT INFO"; "# Provides:          justping-agent"; "# Required-Start:    $network $remote_fs $syslog";
   "# Required-Stop:     $network $remote_fs $syslog"; "# Default-Start:     2 3 4 5"; "# Default-Stop:      0 1 6";
   "# Short-Description: JustPing Agent Daemon"; "### END INIT INFO"; ""; "NAME=justping-agent";
   "DAEMON=" +:+ q +:+ bin +:+ q; "DAEMON_ARGS=" +:+ q +:+ "--config /etc/justping/agent.json" +:+ q;
   "PIDFILE=/var/run/$NAME.pid"; ""; "case " +:+ q +:+ "$1" +:+ q +:+ " in"; "  start)";
   "    echo " +:+ q +:+ "Starting $NAME..." +:+ q;
   "    start-stop-daemon --start --background --make-pidfile --pidfile $PIDFILE --exec $DAEMON -- $DAEMON_ARGS"; "    ;;";
   "  stop)"; "    echo " +:+ q +:+ "Stopping $NAME..." +:+ q; "    start-stop-daemon --stop --pidfile $PIDFILE --oknodo";
   "    rm -f $PIDFILE"; "    ;;"; "  restart)"; "    $0 stop"; "    sleep 1"; "    $0 start"; "    ;;"; "  *)";
   "    echo " +:+ q +:+ "Usage: $0 {start|stop|restart}" +:+ q; "    exit 1"; "    ;;"; "esac"; "exit 0"; ""].

Definition write_then (p content : string) (mode : Z) (k : World → World * result unit) (w : World) : World * result unit :=
  match write p content mode w with
  | (w, true) => k w
  | (w, false) => (w, Err ("open " +:+ p))
  end.
Definition cmd_then (c : list string) (err : string) (k : World → World * result unit) (w : World) : World * result unit :=
  match cmd c w with
  | (w, true) => k w
  | (w, false) => (w, Err err)
  end.
Definition done_ok (w : World) : World * result unit := (w, Ok tt).

Definition installSystemd (bin : string) (w : World) : World * result unit :=
  write_then unitPath (systemd_unit bin) 420
    (λ w, cmd_then ["systemctl"; "enable"; "--now"; "justping-agent"] "systemctl enable --now failed" done_ok
            (cmd_ ["systemctl"; "daemon-reload"] w)) w.

Definition installOpenRC (bin : string) (w : World) : World * result unit :=
  write_then scriptPath (openrc_script bin) 493
    (cmd_then ["rc-update"; "add"; "justping-agent"; "default"] "rc-update failed"
      (cmd_then ["rc-service"; "justping-agent"; "restart"] "rc-service restart failed" done_ok)) w.

Definition installProcd (bin : string) (w : World) : World * result unit :=
  write_then scriptPath (procd_script bin) 493
    (cmd_then [scriptPath; "enable"] "procd enable failed" (cmd_then [scriptPath; "restart"] "procd restart failed" done_ok)) w.

(** [MkdirAll] and [Symlink] fail as [can_write] says. *)
Definition installRunit (bin : string) (w : World) : World * result unit :=
  if negb (can_write o svDir) then (w, Err ("mkdir " +:+ svDir))
  else
    write_then (svDir +:+ "/run") (runit_script bin) 493
      (λ w,
        let fs := w_fs w in
        if negb (exists_at fs "/etc/service") && negb (exists_at fs "/var/service")
        then (w, Err "runit service directory (/var/service or /etc/service) not found")
        else
          let linkTarget := (if exists_at fs "/etc/service" then "/etc/service" else "/var/service") +:+ "/justping-agent" in
          let w := on_fs (Remove linkTarget) w in
          if negb (can_write o linkTarget) then (w, Err "failed to link runit service")
          else done_ok (cmd_ ["sv"; "up"; "justping-agent"] (on_fs (Symlink svDir linkTarget) w)))
      (on_fs (MkdirAll svDir) w).

Definition installSysVinit (bin : string) (w : World) : World * result unit :=
  write_then scriptPath (sysv_script bin) 493
    (λ w,
      let w := if has_cmd o "update-rc.d" then cmd_ ["update-rc.d"; "justping-agent"; "defaults"] w
               else if has_cmd o "chkconfig" then cmd_ ["chkconfig"; "--add"; "justping-agent"] w else w in
      cmd_then [scriptPath; "start"] "sysvinit start failed" done_ok w) w.

(** [render]: the text [json.MarshalIndent] makes. *)
Variable render : json → string.

Definition installWindows (bin : string) (cfg : AgentConfig) (w : World) : World * result unit :=
  let appData := if (program_data o =? "")%string then "C:\ProgramData" else program_data o in
  let cfgDir := appData +:+ "\JustPing" in
  let cfgFile := cfgDir +:+ "\agent.json" in
  if negb (can_write o cfgDir) then (w, Err ("mkdir " +:+ cfgDir))
  else
    write_then cfgFile (render (enc_config cfg)) 384
      (cmd_then ["sc"; "create"; "JustPingAgent"; "binPath="; q +:+ bin +:+ q +:+ " --config " +:+ q +:+ cfgFile +:+ q; "start="; "auto"]
         "sc create failed" (λ w, done_ok (cmd_ ["sc"; "start"; "JustPingAgent"] w)))
      (on_fs (MkdirAll cfgDir) w).

Definition targetBin (fs : FS) : string :=
  if exists_at fs "/usr/local/bin" then "/usr/local/bin/justping-agent" else "/usr/bin/justping-agent".

(** [copyFile]: an executable is opened for writing only if it is not running. *)
Definition copyFile (src dst : string) (w : World) : World * bool :=
  match Stat (w_fs w) src with
  | Some (File c _) => write dst c 493 w
  | _ => (w, false)
  end.

Definition install_unit (init : InitType) (bin : string) : World → World * result unit :=
  match init with
  | InitSystemd => installSystemd bin
  | InitOpenRC => installOpenRC bin
  | InitProcd => installProcd bin
  | InitRunit => installRunit bin
  | InitSysVinit => installSysVinit bin
  | _ => λ w, (w, Err "unsupported or unknown init system")
  end.

(** [binPath] is absolute, as [os.Executable] gives it. *)
Definition InstallService (binPath : string) (cfg : AgentConfig) (w : World) : World * result unit :=
  let init := DetectInit (w_fs w) in
  if (goos o =? "windows")%string then installWindows binPath cfg w
  else if negb (can_write o "/etc/justping") then (w, Err "failed to create /etc/justping")
  else
    write_then "/etc/justping/agent.json" (render (enc_config cfg)) 384
      (λ w,
        let target := targetBin (w_fs w) in
        let '(w, copied) :=
          if negb (binPath =? target)%string then
            let '(w, ok) := copyFile binPath target w in
            if ok then (on_fs (Chmod target 493) w, true) else (w, false)
          else (w, true) in
        if negb copied then (w, Err ("failed to copy binary to " +:+ target))
        else install_unit init target (cmd_ ["setcap"; "cap_net_raw+ep"; target] w))
      (on_fs (MkdirAll "/etc/justping") w).

(** ** Removal *)

Definition uninstall_unit (init : InitType) (w : World) : World :=
  match init with
  | InitSystemd =>
      cmd_ ["systemctl"; "daemon-reload"]
        (on_fs (Remove unitPath)
          (cmd_ ["systemctl"; "disable"; "justping-agent"] (cmd_ ["systemctl"; "stop"; "justping-agent"] w)))
  | InitOpenRC =>
      on_fs (Remove scriptPath)
        (cmd_ ["rc-update"; "del"; "justping-agent"; "default"] (cmd_ ["rc-service"; "justping-agent"; "stop"] w))
  | InitProcd => on_fs (Remove scriptPath) (cmd_ [scriptPath; "disable"] (cmd_ [scriptPath; "stop"] w))
  | InitRunit =>
      on_fs (RemoveAll svDir) (on_fs (Remove "/var/service/justping-agent") (cmd_ ["sv"; "down"; "justping-agent"] w))
  | InitSysVinit =>
      let w := cmd_ [scriptPath; "stop"] w in
      let w := if has_cmd o "update-rc.d" then cmd_ ["update-rc.d"; "-f"; "justping-agent"; "remove"] w
               else if has_cmd o "chkconfig" then cmd_ ["chkconfig"; "--del"; "justping-agent"] w else w in
      on_fs (Remove scriptPath) w
  | InitWindows | InitUnknown => w
  end.

Definition UninstallService (w : World) : World :=
  let w := uninstall_unit (DetectInit (w_fs w)) w in
  on_fs (Remove "/var/run/justping-agent.pid")
    (on_fs (Remove "/run/justping-agent.pid")
      (on_fs (Remove "/usr/bin/justping-agent")
        (on_fs (Remove "/usr/local/bin/justping-agent") (on_fs (RemoveAll "/etc/justping") w)))).

(** ** [RestartActiveService] (updater.go): [active] is what systemctl is-active prints. *)
Definition try_restart (found : bool) (c : list string) (next : World → World * bool) (w : World) : World * bool :=
  if found then match cmd c w with (w, true) => (w, true) | (w, false) => next w end else next w.

Definition RestartActiveService (active : option string) (w : World) : World * bool :=
  if negb (goos o =? "linux")%string then (w, false)
  else
    let is_active := match active with Some s => (TrimSpace s =? "active")%string | None => false end in
    let openrc w :=
      match cmd ["rc-service"; "justping-agent"; "status"] w with
      | (w, true) => cmd ["rc-service"; "justping-agent"; "restart"] w
      | (w, false) => (w, false)
      end in
    let after_openrc w :=
      try_restart (exists_at (w_fs w) scriptPath) [scriptPath; "restart"]
        (λ w, try_restart (exists_at (w_fs w) "/var/service/justping-agent") ["sv"; "restart"; "justping-agent"] (λ w, (w, false)) w) w in
    try_restart is_active ["systemctl"; "restart"; "justping-agent"]
      (λ w, match openrc w with (w, true) => (w, true) | (w, false) => after_openrc w end) w.
End Service.

(** ** Lemmas *)

(** *** What the service's files are *)

(** What a removal deletes. *)
Definition owned (init : InitType) (p : string) : bool :=
  under "/etc/justping" p || (p =? "/usr/local/bin/justping-agent")%string || (p =? "/usr/bin/justping-agent")%string ||
  (p =? "/run/justping-agent.pid")%string || (p =? "/var/run/justping-agent.pid")%string ||
  match init with
  | InitSystemd => (p =? unitPath)%string
  | InitOpenRC | InitProcd | InitSysVinit => (p =? scriptPath)%string
  | InitRunit => under svDir p || (p =? "/var/service/justping-agent")%string
  | _ => false
  end.

(** The link that a runit installation makes where /etc/service exists. *)
Definition etc_link (init : InitType) (p : string) : bool :=
  match init with InitRunit => (p =? "/etc/service/justping-agent")%string | _ => false end.

Definition mine (init : InitType) (p : string) : bool := owned init p || etc_link init p.

(** Nothing but the paths of [P] changes. *)
Definition frames (P : string → bool) (k : World → World * result unit) : Prop :=
  ∀ w p, P p = false → w_fs (fst (k w)) !! p = w_fs w !! p.

Section Frames.
Variables (o : Os) (P : string → bool).

Lemma write_frame p content mode w x : P p = true → P x = false → w_fs (fst (write o p content mode w)) !! x = w_fs w !! x.
Proof.
  intros Hp Hx. assert (x ≠ p) by congruence. unfold write, put, WriteFile.
  destruct (can_write o p); cbn; [by rewrite lookup_insert_ne|]. destruct (partial o p); cbn; [by rewrite lookup_insert_ne|done].
Qed.

Lemma write_then_frame p content mode k : P p = true → frames P k → frames P (write_then o p content mode k).
Proof.
  intros Hp Hk w x Hx. unfold write_then. pose proof (write_frame p content mode w x Hp Hx) as Hw.
  destruct (write o p content mode w) as [w1 []]; cbn in *; [by rewrite Hk|done].
Qed.

Lemma cmd_then_frame c err k : frames P k → frames P (cmd_then o c err k).
Proof. intros Hk w x Hx. unfold cmd_then, cmd. destruct (run_ok o c); [|done]. by rewrite Hk. Qed.

Lemma done_frame : frames P done_ok.
Proof. done. Qed.

Lemma frame_cmd c k : frames P k → frames P (λ w, k (cmd_ o c w)).
Proof. intros Hk w x Hx. by rewrite Hk. Qed.
End Frames.

Create HintDb installer.
#[export] Hint Resolve write_then_frame cmd_then_frame done_frame frame_cmd : installer.
#[export] Hint Extern 1 (_ = true) => reflexivity : installer.

Lemma remove_ne (p x : string) (fs : FS) : x ≠ p → Remove p fs !! x = fs !! x.
Proof. intros Hx. by apply lookup_delete_ne. Qed.

Lemma install_unit_frame o init bin : frames (mine init) (install_unit o init bin).
Proof.
  destruct init; cbn [install_unit]; try by intros w x Hx.
  - unfold installSystemd. eauto with installer.
  - unfold installOpenRC. eauto with installer.
  - unfold installProcd. eauto with installer.
  - intros w x Hx. unfold installRunit. destruct (can_write o svDir); [|done]. cbn [negb].
    assert (Hx1 : x ≠ svDir) by (intros ->; by vm_compute in Hx).
    rewrite (write_then_frame o (mine InitRunit)); [|reflexivity| |done].
    + cbn. unfold MkdirAll. destruct (w_fs w !! svDir); [done|]. by apply lookup_insert_ne.
    + clear w. intros w y Hy. cbv zeta.
      assert (y ≠ "/etc/service/justping-agent" ∧ y ≠ "/var/service/justping-agent") as [H1 H2].
      { split; intros ->; by vm_compute in Hy. }
      destruct (_ && _); [done|]. destruct (exists_at (w_fs w) "/etc/service");
        (destruct (can_write o _); cbn [negb]; cbn; [unfold Symlink; rewrite lookup_insert_ne by done|]; by apply remove_ne).
  - unfold installSysVinit. apply write_then_frame; [reflexivity|]. intros w x Hx.
    rewrite (cmd_then_frame o (mine InitSysVinit)); [|apply done_frame|done].
    destruct (has_cmd o "update-rc.d"); [done|]. by destruct (has_cmd o "chkconfig").
Qed.

Lemma InstallService_frame o render bin cfg w p :
  goos o ≠ "windows" → mine (DetectInit o (w_fs w)) p = false →
  w_fs (fst (InstallService o render bin cfg w)) !! p = w_fs w !! p.
Proof.
  intros Hos Hp. unfold InstallService. rewrite (proj2 (String.eqb_neq _ _) Hos). set (init := DetectInit o (w_fs w)) in *.
  clearbody init. destruct (can_write o "/etc/justping"); [|done]. cbn [negb].
  assert (Hp1 : p ≠ "/etc/justping") by (intros ->; by destruct init).
  assert (Ho : ∀ fs, mine init (targetBin fs) = true) by (intros fs; unfold targetBin; destruct (exists_at fs _); by destruct init).
  rewrite (write_then_frame o (mine init)); [|by destruct init| |done].
  - cbn. unfold MkdirAll. destruct (w_fs w !! "/etc/justping"); [done|]. by apply lookup_insert_ne.
  - clear Hp Hp1 p w. intros w p Hp. cbv zeta. set (t := targetBin (w_fs w)) in *.
    assert (Ht : mine init t = true) by apply Ho. assert (Hne : p ≠ t) by congruence.
    assert (Hc : w_fs (fst (copyFile o bin t w)) !! p = w_fs w !! p).
    { unfold copyFile. destruct (Stat (w_fs w) bin) as [[c md| |]|]; try done. by apply (write_frame o (mine init)). }
    destruct (negb (bin =? t)%string).
    + destruct (copyFile o bin t w) as [w1 []]; cbn [fst] in Hc; cbn [negb]; [|done].
      rewrite install_unit_frame by done. cbn. unfold Chmod. destruct (w_fs w1 !! t) as [[]|]; rewrite <- Hc; try done.
      by apply lookup_insert_ne.
    + cbn [negb]. by rewrite install_unit_frame.
Qed.

Lemma Remove_lookup p x (fs : FS) : Remove p fs !! x = if (x =? p)%string then None else fs !! x.
Proof.
  unfold Remove. destruct (String.eqb_spec x p) as [->|]; [apply lookup_delete_eq|by apply lookup_delete_ne].
Qed.

Lemma UninstallService_lookup o w p :
  w_fs (UninstallService o w) !! p = if owned (DetectInit o (w_fs w)) p then None else w_fs w !! p.
Proof.
  unfold UninstallService, owned. set (init := DetectInit o (w_fs w)). clearbody init.
  cbn [w_fs on_fs]. rewrite !Remove_lookup, RemoveAll_lookup.
  destruct (p =? "/var/run/justping-agent.pid")%string; [by rewrite !orb_true_r|].
  destruct (p =? "/run/justping-agent.pid")%string; [by rewrite !orb_true_r|].
  destruct (p =? "/usr/bin/justping-agent")%string; [by rewrite !orb_true_r|].
  destruct (p =? "/usr/local/bin/justping-agent")%string; [by rewrite !orb_true_r|].
  destruct (under "/etc/justping" p); [done|]. cbn [orb].
  destruct init; cbn [uninstall_unit]; try done; cbv zeta; cbn [w_fs on_fs cmd_ cmd fst]; rewrite ?Remove_lookup; try done.
  - rewrite RemoveAll_lookup, Remove_lookup. by destruct (under svDir p).
  - destruct (p =? scriptPath)%string; [done|]. destruct (has_cmd o "update-rc.d"); [done|]. by destruct (has_cmd o "chkconfig").
Qed.

Definition probed : list string :=
  ["/run/systemd/system"; "/etc/openwrt_release"; "/run/openrc"; "/sbin/openrc-run"; "/etc/sv"; "/etc/init.d"].

Lemma exists_at_agree init (fs fs' : FS) p :
  (∀ x, mine init x = false → fs' !! x = fs !! x) → mine init p = false →
  (∀ t, fs !! p = Some (Link t) → mine init t = false) → exists_at fs' p = exists_at fs p.
Proof.
  intros Hf Hp Hl. unfold exists_at, Stat. rewrite Hf by done. destruct (fs !! p) as [[]|] eqn:E; try done.
  by rewrite (Hf _ (Hl _ eq_refl)).
Qed.

Lemma DetectInit_agree o init (fs fs' : FS) :
  (∀ x, mine init x = false → fs' !! x = fs !! x) →
  (∀ p t, p ∈ probed → fs !! p = Some (Link t) → mine init t = false) → DetectInit o fs' = DetectInit o fs.
Proof.
  intros Hf Hl. unfold DetectInit.
  assert (He : ∀ p, p ∈ probed → exists_at fs' p = exists_at fs p).
  { intros p Hp. apply (exists_at_agree init); [done| |by intros t; apply Hl].
    revert p Hp. apply Forall_forall. destruct init; repeat (constructor; [reflexivity|]); constructor. }
  rewrite !He by (apply (bool_decide_unpack (_ ∈ probed)); by vm_compute). done.
Qed.

(** *** The configuration *)

Lemma dec_enc_config c : dec_config (enc_config c) = c.
Proof. destruct c as [s t m [b|]]; unfold dec_config, enc_config; cbn -[EqualFold]; vm_compute (EqualFold _ _); reflexivity. Qed.

(** ** Properties *)

(** Removing the service undoes installing it. On any system but Windows,
    wherever the installation broke off and whichever commands failed: afterwards
    every file is as it was before, except that the service's own are gone. The one
    exception is runit with /etc/service, whose link stays (see
    [runit_link_left]). *)
Theorem uninstall_undoes_install o render bin cfg w p :
  goos o ≠ "windows" →
  let init := DetectInit o (w_fs w) in
  (∀ p t, p ∈ probed → w_fs w !! p = Some (Link t) → mine init t = false) →
  etc_link init p = false →
  w_fs (UninstallService o (fst (InstallService o render bin cfg w))) !! p =
    if owned init p then None else w_fs w !! p.
Proof.
  intros Hos init Hl He. rewrite UninstallService_lookup.
  rewrite (DetectInit_agree o init (w_fs w)); [|by intros x Hx; apply InstallService_frame|done].
  fold init. destruct (owned init p) eqn:Eo; [done|]. apply InstallService_frame; [done|]. fold init. unfold mine. by rewrite Eo, He.
Qed.

(** The configuration of a run: a flag that is given wins, then the file, then
    the environment (for the mirror, the environment can only switch it on); what an
    installation wrote is what the installed service reads back, so a service runs
    with the server and token it was installed with unless flags say otherwise, and
    updates itself unless that was switched off. *)
Theorem configuration_precedence f env parsed fs :
  let file := load_config parsed (config_path f fs) in
  let c := effective_config f env parsed fs in
  (∀ s, f_server f = Some s → ac_Server c = s) ∧
  (f_server f = None → ac_Server file ≠ "" → ac_Server c = ac_Server file) ∧
  (f_server f = None → ac_Server file = "" → ac_Server c = env "JUSTPING_SERVER") ∧
  (∀ t, f_token f = Some t → ac_Token c = t) ∧
  (f_token f = None → ac_Token file ≠ "" → ac_Token c = ac_Token file) ∧
  (f_token f = None → ac_Token file = "" → ac_Token c = env "JUSTPING_TOKEN") ∧
  (ac_ChinaMirror c = match f_china_mirror f with
                      | Some b => b
                      | None => (env "JUSTPING_CHINA_MIRROR" =? "1")%string || (env "JUSTPING_CHINA_MIRROR" =? "true")%string || ac_ChinaMirror file
                      end) ∧
  (IsAutoUpdateEnabled c = match f_auto_update f with Some b => b | None => IsAutoUpdateEnabled file end) ∧
  (∀ written, f_config f ≠ "" → parsed (f_config f) = Some (enc_config written) → file = written).
Proof.
  cbv zeta. set (file := load_config parsed (config_path f fs)) in *.
  unfold effective_config. fold file. unfold with_flags, with_env, IsAutoUpdateEnabled. cbn [ac_Server ac_Token ac_ChinaMirror ac_AutoUpdate].
  split_and!.
  - by intros s ->.
  - intros -> Hn. cbn. apply String.eqb_neq in Hn. by rewrite Hn, andb_false_r.
  - intros -> ->. cbn. destruct (String.eqb_spec (env "JUSTPING_SERVER") "") as [E|]; [by rewrite E|done].
  - by intros s ->.
  - intros -> Hn. cbn. apply String.eqb_neq in Hn. by rewrite Hn, andb_false_r.
  - intros -> ->. cbn. destruct (String.eqb_spec (env "JUSTPING_TOKEN") "") as [E|]; [by rewrite E|done].
  - destruct (f_china_mirror f); [done|]. cbn. by destruct (_ || _).
  - by destruct (f_auto_update f).
  - intros written Hc Hp. subst file. unfold config_path, load_config. apply String.eqb_neq in Hc. rewrite Hc. cbn [negb].
    rewrite Hc, Hp. apply dec_enc_config.
Qed.

(** ** Witnesses *)

Definition demo_os : Os := mkOs "linux" (λ _, true) (λ _, None) (λ _, true) (λ _, false) "".
Definition demo_world (dirs : list string) : World :=
  mkWorld (list_to_map (((λ d, (d, Dir)) <$> dirs) ++ [("/tmp/agent", File "bin" 493)])) [].
Definition demo_agent_config : AgentConfig := mkAgentConfig "https://ping.example" "tok" false (Some false).
Definition demo_render (j : json) : string := "{...}".

Lemma uninstall_undoes_install_witness :
  let w := demo_world ["/run/systemd/system"; "/usr/local/bin"] in
  DetectInit demo_os (w_fs w) = InitSystemd ∧
  w_fs (fst (InstallService demo_os demo_render "/tmp/agent" demo_agent_config w)) !! unitPath
    = Some (File (systemd_unit "/usr/local/bin/justping-agent") 420) ∧
  w_fs (UninstallService demo_os (fst (InstallService demo_os demo_render "/tmp/agent" demo_agent_config w))) !! unitPath = None ∧
  w_fs (UninstallService demo_os (fst (InstallService demo_os demo_render "/tmp/agent" demo_agent_config w))) !! "/tmp/agent"
    = Some (File "bin" 493).
Proof.
  intros w. split; [vm_compute; reflexivity|]. split; [vm_compute; reflexivity|].
  pose proof (λ p, uninstall_undoes_install demo_os demo_render "/tmp/agent" demo_agent_config w p ltac:(discriminate)) as Hu.
  assert (Hl : ∀ p t, p ∈ probed → w_fs w !! p = Some (Link t) → mine (DetectInit demo_os (w_fs w)) t = false).
  { intros p t Hp E. revert p Hp t E. refine (proj1 (Forall_forall _ _) _).
    repeat (constructor; [intros t E; vm_compute in E; discriminate|]). constructor. }
  split; rewrite Hu by (exact Hl || (vm_compute; reflexivity)); vm_compute; reflexivity.
Defined.

(** With /etc/service, the supervised link is still there after the removal, and
    points to a directory that is gone. *)
Example runit_link_left :
  let w := demo_world ["/etc/sv"; "/etc/service"] in
  let w' := UninstallService demo_os (fst (InstallService demo_os demo_render "/tmp/agent" demo_agent_config w)) in
  DetectInit demo_os (w_fs w) = InitRunit ∧ w_fs w' !! "/etc/service/justping-agent" = Some (Link svDir) ∧ w_fs w' !! svDir = None.
Proof. by vm_compute. Qed.

(** The same link is not found by a restart after an update. *)
Example runit_not_restarted :
  let o := mkOs "linux" (λ _, true) (λ _, None) (λ c, match c with "rc-service" :: _ => false | _ => true end) (λ _, false) "" in
  let w := fst (InstallService o demo_render "/tmp/agent" demo_agent_config (demo_world ["/etc/sv"; "/etc/service"])) in
  snd (RestartActiveService o None w) = false.
Proof. by vm_compute. Qed.

(** On Windows nothing stops or deletes the service. *)
Example windows_not_uninstalled :
  let o := mkOs "windows" (λ _, true) (λ _, None) (λ _, true) (λ _, false) "" in
  let w := fst (InstallService o demo_render "C:\agent.exe" demo_agent_config (mkWorld ∅ [])) in
  let w' := UninstallService o w in
  (exists c, last (w_log w) = Some ["sc"; "start"; "JustPingAgent"] ∧ c = w_log w ∧ w_log w' = c) ∧
  w_fs w' !! "C:\ProgramData\JustPing\agent.json" = Some (File "{...}" 384).
Proof. split; [eexists; split_and!; by vm_compute|by vm_compute]. Qed.

(** A member of the wrong type: the rest is read, but updates are switched off. *)
Example mistyped_config :
  dec_config (JObj [("server", JStr "https://h"); ("auto_update", JStr "true"); ("token", JStr "t")])
    = mkAgentConfig "https://h" "t" false (Some false).
Proof. by vm_compute. Qed.

Definition demo_flags : Flags := mkFlags None (Some "t2") "/etc/justping/agent.json" None None false false false false false.

Lemma configuration_precedence_witness :
  let parsed p := if (p =? "/etc/justping/agent.json")%string then Some (enc_config demo_agent_config) else None in
  effective_config demo_flags (λ v, "env") parsed ∅ = mkAgentConfig "https://ping.example" "t2" false (Some false) ∧
  ac_Token (effective_config demo_flags (λ v, "env") parsed ∅) = "t2" ∧
  load_config parsed (config_path demo_flags ∅) = demo_agent_config ∧
  run_mode demo_flags (effective_config demo_flags (λ v, "env") parsed ∅) = Serve.
Proof.
  intros parsed. split; [vm_compute; reflexivity|].
  destruct (configuration_precedence demo_flags (λ v, "env") parsed ∅) as (_ & _ & _ & H & _ & _ & _ & _ & H').
  split; [by apply H|]. split; [by apply H'|]. vm_compute. reflexivity.
Defined.
