(* ===== verification/AgentProxy.v ===== *)
(** * The probe side of proxy tunnels ([agent/internal/client/proxy.go])

    The table of tunnels a probe serves, each with the connection it dialled and
    the channel of chunks to write to it. Tunnels are shared by the message loop
    and by three goroutines each, so they live in a heap; the goroutines' critical
    sections are the steps of [step]. A send on a closed channel, or closing one
    twice, would panic: the model keeps the flag of the channel apart from the
    flag [closed] that guards it, and [crashed] records a panic. *)
From S2P Require Import Prelude GoStrings GoNet GoEncoding GoFloat GoJson Protocol ProxySession.

Definition proxyChunkSize : Z := (16 * 1024)%Z.
Definition proxyWriteQueue : nat := 32.

(** [conns !! c]: whether connection [c] is open. The last two fields of a tab
    are history: what its channel accepted, and what reached the connection. *)
Record proxyTunnel := mkTab {
  p_conn : option nat;
  p_writes : list string;
  p_chan_closed : bool;
  p_closed : bool;
  p_accepted : list string;
  p_written : list string
}.

Record proxyManager := mkManager {
  tabs : gmap string nat;
  ptabs : list proxyTunnel;
  conns : list bool;
  dialing : list (nat * ProxyOpenPayload);
  dropped : list (nat * option string);
  outbox : list Payload;
  crashed : bool
}.

Definition init : proxyManager := mkManager ∅ [] [] [] [] [] false.

(** ** Operations on one tunnel *)

(** [t.close()] under [t.mu]; the result says which connection it then closes. *)
Definition tab_close (t : proxyTunnel) : option (proxyTunnel * option nat) :=
  if p_closed t then Some (t, None)
  else if p_chan_closed t then None
  else Some (mkTab (p_conn t) (p_writes t) true true (p_accepted t) (p_written t), p_conn t).

Definition setConn (c : nat) (t : proxyTunnel) : proxyTunnel * bool :=
  if p_closed t then (t, false)
  else (mkTab (Some c) (p_writes t) (p_chan_closed t) (p_closed t) (p_accepted t) (p_written t), true).

Definition enqueue (data : string) (t : proxyTunnel) : option (proxyTunnel * bool) :=
  if p_closed t then Some (t, false)
  else if p_chan_closed t then None
  else if (length (p_writes t) <? proxyWriteQueue)%nat then
    Some (mkTab (p_conn t) (p_writes t ++ [data]) (p_chan_closed t) (p_closed t)
            (p_accepted t ++ [data]) (p_written t), true)
  else Some (t, false).

(** [data := <-tab.writes; conn.Write(data)] *)
Definition write_next (ok : bool) (t : proxyTunnel) : proxyTunnel :=
  match p_writes t with
  | [] => t
  | d :: rest =>
      mkTab (p_conn t) rest (p_chan_closed t) (p_closed t) (p_accepted t)
        (if ok then p_written t ++ [d] else p_written t)
  end.

(** ** Operations on the manager *)

Definition set_tab (p : nat) (t : proxyTunnel) (m : proxyManager) : proxyManager :=
  mkManager (tabs m) (<[p := t]> (ptabs m)) (conns m) (dialing m) (dropped m) (outbox m) (crashed m).
Definition panic (m : proxyManager) : proxyManager :=
  mkManager (tabs m) (ptabs m) (conns m) (dialing m) (dropped m) (outbox m) true.
Definition send (msg : Payload) (m : proxyManager) : proxyManager :=
  mkManager (tabs m) (ptabs m) (conns m) (dialing m) (dropped m) (outbox m ++ [msg]) (crashed m).
Definition close_conn (c : nat) (m : proxyManager) : proxyManager :=
  mkManager (tabs m) (ptabs m) (<[c := false]> (conns m)) (dialing m) (dropped m) (outbox m) (crashed m).

(** [dropIf], its critical section: the tab then waits to be closed. [expect]
    is the tab the caller insists on. *)
Definition dropIf (id : string) (expect : option nat) (notify : bool) (m : proxyManager) : proxyManager :=
  match tabs m !! id with
  | None => m
  | Some p =>
      if bool_decide (expect ≠ None ∧ expect ≠ Some p) then m
      else mkManager (delete id (tabs m)) (ptabs m) (conns m) (dialing m)
             (dropped m ++ [(p, if notify then Some id else None)]) (outbox m) (crashed m)
  end.

(** The rest of [dropIf]: [tab.close()] and the notice. *)
Definition close_dropped (p : nat) (notify : option string) (m : proxyManager) : proxyManager :=
  match ptabs m !! p with
  | None => m
  | Some t =>
      match tab_close t with
      | None => panic m
      | Some (t, c) =>
          let m := set_tab p t m in
          let m := match c with Some c => close_conn c m | None => m end in
          match notify with
          | Some id => send (PProxyClose (mkProxyClose id "")) m
          | None => m
          end
      end
  end.

Definition drop (id : string) (notify : bool) (m : proxyManager) : proxyManager := dropIf id None notify m.

Definition write (id : string) (data : string) (m : proxyManager) : proxyManager :=
  match tabs m !! id with
  | None => m
  | Some p =>
      match ptabs m !! p with
      | None => m
      | Some t =>
          match enqueue data t with
          | None => panic m
          | Some (t, true) => set_tab p t m
          | Some (t, false) => dropIf id (Some p) true (set_tab p t m)
          end
      end
  end.

Definition refuse (id msg : string) (m : proxyManager) : proxyManager :=
  send (POpenResult (mkOpenResult id false msg)) m.

(** [open] up to the goroutine it starts, which is then [dialing]. *)
Definition open (req : ProxyOpenPayload) (m : proxyManager) : proxyManager :=
  if (po_Port req <? 1)%Z || (65535 <? po_Port req)%Z || (po_Host req =? "")%string
  then refuse (po_TunnelID req) "invalid target" m
  else
    match tabs m !! po_TunnelID req with
    | Some _ => refuse (po_TunnelID req) "tunnel already open" m
    | None =>
        let p := length (ptabs m) in
        mkManager (<[po_TunnelID req := p]> (tabs m)) (ptabs m ++ [mkTab None [] false false [] []])
          (conns m) (dialing m ++ [(p, req)]) (dropped m) (outbox m) (crashed m)
    end.

Definition trimErr (msg : string) : string := if (180 <? slen msg)%nat then str_take 180 msg else msg.

(** [itoa]: digits are written from the end of a six-byte buffer; [None] is the
    index panic when they do not fit. *)
Fixpoint itoa_loop (fuel : nat) (n : Z) (i : nat) (acc : string) : option string :=
  if (0 <? n)%Z then
    match fuel, i with
    | S fuel, S i => itoa_loop fuel (n / 10) i (String (digit_of (n mod 10)) acc)
    | _, _ => None
    end
  else Some acc.

Definition itoa (n : Z) : option string := if (n =? 0)%Z then Some "0" else itoa_loop 6 n 6 "".

(** The address the goroutine dials. *)
Definition dial_addr (req : ProxyOpenPayload) : option string :=
  JoinHostPort (po_Host req) <$> itoa (po_Port req).

(** The goroutine of [open] when the dial returns. *)
Definition dial_failed (p : nat) (req : ProxyOpenPayload) (err : string) (m : proxyManager) : proxyManager :=
  refuse (po_TunnelID req) (trimErr err) (dropIf (po_TunnelID req) (Some p) false m).

Definition dial_ok (p : nat) (req : ProxyOpenPayload) (sent : bool) (m : proxyManager) : proxyManager :=
  match ptabs m !! p with
  | None => m
  | Some t =>
      let c := length (conns m) in
      let m := mkManager (tabs m) (ptabs m) (conns m ++ [true]) (dialing m) (dropped m) (outbox m) (crashed m) in
      let '(t, ok) := setConn c t in
      if negb ok then close_conn c m
      else
        let m := set_tab p t m in
        if sent then send (POpenResult (mkOpenResult (po_TunnelID req) true "")) m
        else dropIf (po_TunnelID req) (Some p) false m
  end.

(** [readLoop], one read of [data] that ended with [err] or not. *)
Definition read_chunk (p : nat) (id data : string) (sent err : bool) (m : proxyManager) : proxyManager :=
  if negb (data =? "")%string && negb sent then dropIf id (Some p) false m
  else
    let m := if (data =? "")%string then m else send (PProxyData (mkProxyData id (B64Encode data))) m in
    if err then dropIf id (Some p) true m else m.

(** [dropAll], its critical section. *)
Definition dropAll `{MapOrder} (m : proxyManager) : proxyManager :=
  mkManager ∅ (ptabs m) (conns m) (dialing m)
    (dropped m ++ ((λ e : string * nat, (e.2, None)) <$> range_order (map_to_list (tabs m)))) (outbox m) (crashed m).

Section Handle.
Context {W : IntSize}.

Definition handleProxyMessage (env : Envelope) (m : proxyManager) : proxyManager * bool :=
  if (env_Type env =? TypeProxyOpen)%string then
    match decode (A := ProxyOpenPayload) (env_Payload env) with
    | None => (m, true)
    | Some req => if (po_TunnelID req =? "")%string then (m, true) else (open req m, true)
    end
  else if (env_Type env =? TypeProxyData)%string then
    match decode (A := ProxyDataPayload) (env_Payload env) with
    | None => (m, true)
    | Some msg =>
        if (pd_TunnelID msg =? "")%string || (pd_Data msg =? "")%string then (m, true)
        else
          match B64Decode (pd_Data msg) with
          | None => (drop (pd_TunnelID msg) true m, true)
          | Some raw =>
              if (slen raw =? 0)%nat || (proxyChunkSize * 4 <? Z.of_nat (slen raw))%Z
              then (drop (pd_TunnelID msg) true m, true)
              else (write (pd_TunnelID msg) raw m, true)
          end
    end
  else if (env_Type env =? TypeProxyClose)%string then
    match decode (A := ProxyClosePayload) (env_Payload env) with
    | None => (m, true)
    | Some msg => if (pc_TunnelID msg =? "")%string then (m, true) else (drop (pc_TunnelID msg) false m, true)
    end
  else (m, false).
End Handle.

(** ** Interleavings *)

Definition with_dialing (d : list (nat * ProxyOpenPayload)) (m : proxyManager) : proxyManager :=
  mkManager (tabs m) (ptabs m) (conns m) d (dropped m) (outbox m) (crashed m).
Definition with_dropped (d : list (nat * option string)) (m : proxyManager) : proxyManager :=
  mkManager (tabs m) (ptabs m) (conns m) (dialing m) d (outbox m) (crashed m).

Inductive step {W : IntSize} `{MapOrder} (m : proxyManager) : proxyManager → Prop :=
  | step_message env : step m (fst (handleProxyMessage env m))
  | step_dial_failed p req err l1 l2 :
      dialing m = l1 ++ (p, req) :: l2 → step m (dial_failed p req err (with_dialing (l1 ++ l2) m))
  | step_dial_ok p req sent l1 l2 :
      dialing m = l1 ++ (p, req) :: l2 → step m (dial_ok p req sent (with_dialing (l1 ++ l2) m))
  | step_read p id data sent err : step m (read_chunk p id data sent err m)
  | step_write p t ok id :
      ptabs m !! p = Some t → p_conn t ≠ None →
      step m (if ok : bool then set_tab p (write_next true t) m
              else dropIf id (Some p) true (set_tab p (write_next false t) m))
  | step_close p notify l1 l2 :
      dropped m = l1 ++ (p, notify) :: l2 → step m (close_dropped p notify (with_dropped (l1 ++ l2) m))
  | step_drop_all : step m (dropAll m).

Definition manager_reachable {W : IntSize} `{MapOrder} : proxyManager → Prop :=
  reachable (λ m, m = init) step.

(** ** Invariant *)

Record tab_ok (t : proxyTunnel) : Prop := {
  tab_chan : p_chan_closed t = p_closed t;
  tab_queue : (length (p_writes t) <= proxyWriteQueue)%nat
}.

(** The invariant, with the tabs a message of [close_dropped] is under way for
    in [dr] and the dialling goroutines in [di]. *)
Record inv_at (di : list (nat * ProxyOpenPayload)) (dr : list (nat * option string)) (m : proxyManager) : Prop := {
  inv_tabs id p : tabs m !! id = Some p → ∃ t, ptabs m !! p = Some t ∧ p_closed t = false;
  inv_inj i j p : tabs m !! i = Some p → tabs m !! j = Some p → i = j;
  inv_dropped p n : (p, n) ∈ dr → (p < length (ptabs m))%nat ∧ ∀ id, tabs m !! id ≠ Some p;
  inv_ok : Forall tab_ok (ptabs m);
  inv_leak c : conns m !! c = Some true →
    ∃ p t, ptabs m !! p = Some t ∧ p_conn t = Some c ∧ p_closed t = false;
  inv_home p t : ptabs m !! p = Some t → p_closed t = false →
    (∃ id, tabs m !! id = Some p) ∨ ∃ n, (p, n) ∈ dr;
  inv_dial p req : (p, req) ∈ di → ∃ t, ptabs m !! p = Some t ∧ p_conn t = None;
  inv_dial_nodup : NoDup di.*1;
  inv_crashed : crashed m = false
}.

Definition inv (m : proxyManager) : Prop := inv_at (dialing m) (dropped m) m.

Lemma init_inv : inv init.
Proof.
  split; simpl; try done; try (by intros; rewrite ?lookup_empty in *);
    try (by intros * ?%not_elem_of_nil); constructor.
Qed.

Lemma send_inv di dr msg m : inv_at di dr m → inv_at di dr (send msg m).
Proof. by intros []. Qed.

Lemma dropIf_inv id e n m :
  inv_at (dialing m) (dropped m) m → inv_at (dialing m) (dropped (dropIf id e n m)) (dropIf id e n m).
Proof.
  intros Hi. unfold dropIf. destruct (tabs m !! id) as [p|] eqn:Ep; [|done].
  case_bool_decide; [done|]. destruct Hi as [Ht Hj Hd Ho Hl Hh Hdi Hn Hc]. split; simpl; try done.
  - intros i q [_ ?]%lookup_delete_Some. eauto.
  - intros i j q [_ ?]%lookup_delete_Some [_ ?]%lookup_delete_Some. eauto.
  - intros q k [Hin|Hin]%elem_of_app.
    + destruct (Hd _ _ Hin) as [? Hno]. split; [done|]. intros i [_ ?]%lookup_delete_Some. by eapply Hno.
    + apply list_elem_of_singleton in Hin. injection Hin as -> ->.
      destruct (Ht _ _ Ep) as (t & Hp & _). split; [by eapply lookup_lt_Some|].
      intros i [Hne Hi]%lookup_delete_Some. by destruct Hne; eapply Hj.
  - intros q t Hq Hcl. destruct (Hh _ _ Hq Hcl) as [[i Hi]|[k Hk]].
    + destruct (decide (i = id)) as [->|Hne].
      * right. rewrite Ep in Hi. injection Hi as ->. eexists. apply elem_of_app. right. by left.
      * left. exists i. by rewrite lookup_delete_ne.
    + right. exists k. apply elem_of_app. by left.
Qed.

Lemma dropIf_dialing id e n m : dialing (dropIf id e n m) = dialing m.
Proof. unfold dropIf. by repeat case_match. Qed.

Lemma dropIf_Inv id e n m : inv m → inv (dropIf id e n m).
Proof. intros. unfold inv. rewrite dropIf_dialing. by apply dropIf_inv. Qed.

(** Replacing a tab by one with the same connection and flags. *)
Lemma set_tab_inv di dr p t t' m :
  inv_at di dr m → ptabs m !! p = Some t →
  p_conn t' = p_conn t → p_closed t' = p_closed t → tab_ok t' → inv_at di dr (set_tab p t' m).
Proof.
  intros [Ht Hj Hd Ho Hl Hh Hdi Hn Hc] Hp Ec Ecl Hok.
  assert (Hlen : (p < length (ptabs m))%nat) by (by eapply lookup_lt_Some).
  assert (Hlk : ∀ q, <[p:=t']> (ptabs m) !! q = if decide (p = q) then Some t' else ptabs m !! q).
  { intros q. case_decide; [subst; by rewrite list_lookup_insert_eq|by rewrite list_lookup_insert_ne]. }
  split; simpl; try done.
  - intros id q Hq. destruct (Ht _ _ Hq) as (t0 & ? & ?). rewrite Hlk. case_decide; [|by eauto].
    subst. exists t'. split; [done|congruence].
  - intros q n Hin. rewrite length_insert. by eapply Hd.
  - by apply Forall_insert.
  - intros c Hcc. destruct (Hl _ Hcc) as (q & t0 & Hq & ? & ?). exists q. rewrite Hlk.
    case_decide; [|by eauto]. subst. exists t'. split_and!; [done|congruence..].
  - intros q t0. rewrite Hlk. case_decide; [|by eauto]. intros [= <-] ?. subst. apply (Hh _ t); [done|congruence].
  - intros q req Hin. destruct (Hdi _ _ Hin) as (t0 & Hq & ?). rewrite Hlk. case_decide; [|by eauto].
    subst. exists t'. split; [done|congruence].
Qed.

Lemma open_inv req m : inv m → inv (open req m).
Proof.
  intros Hi. unfold open. destruct (_ || _); [by apply send_inv|].
  destruct (tabs m !! po_TunnelID req) eqn:E; [by apply send_inv|].
  pose proof Hi as [Ht Hj Hd Ho Hl Hh Hdi Hn Hc].
  assert (Hfresh : ∀ i q, tabs m !! i = Some q → (q < length (ptabs m))%nat).
  { intros i q Hq. destruct (Ht _ _ Hq) as (? & ? & _). by eapply lookup_lt_Some. }
  split; simpl; try done.
  - intros i q [[<- <-]|[_ Hq]]%lookup_insert_Some.
    + eexists. rewrite lookup_app_r, Nat.sub_diag by lia. done.
    + destruct (Ht _ _ Hq) as (t & Hqt & ?). exists t. by rewrite (lookup_app_l_Some _ _ _ t).
  - intros i j q [[<- <-]|[? Hq]]%lookup_insert_Some [[<- Hq']|[? Hq']]%lookup_insert_Some;
      try done; try (pose proof (Hfresh _ _ Hq)); try (pose proof (Hfresh _ _ Hq')); try lia. by eapply Hj.
  - intros q n Hin. destruct (Hd _ _ Hin) as [? Hno]. rewrite length_app. simpl. split; [lia|].
    intros i [[_ <-]|[_ ?]]%lookup_insert_Some; [lia|by eapply Hno].
  - apply Forall_app. split; [done|]. constructor; [|constructor]. split; simpl; [done|unfold proxyWriteQueue; lia].
  - intros c Hcc. destruct (Hl _ Hcc) as (q & t & Hq & ?). exists q, t. by rewrite (lookup_app_l_Some _ _ _ t).
  - intros q t [Hq|[Hge Hq]]%lookup_app_Some Hcl.
    + destruct (Hh _ _ Hq Hcl) as [[i Hi']|]; [|by right]. left. exists i. rewrite lookup_insert_ne; [done|congruence].
    + apply list_lookup_singleton_Some in Hq as [? <-]. left. exists (po_TunnelID req).
      rewrite lookup_insert_eq. f_equal. lia.
  - intros q r [Hin|Hin]%elem_of_app.
    + destruct (Hdi _ _ Hin) as (t & Hq & ?). exists t. by rewrite (lookup_app_l_Some _ _ _ t).
    + apply list_elem_of_singleton in Hin. injection Hin as -> ->.
      exists (mkTab None [] false false [] []). by rewrite lookup_app_r, Nat.sub_diag by lia.
  - rewrite fmap_app. apply NoDup_app. split_and!; [done| |apply NoDup_singleton].
    intros q Hq ->%list_elem_of_singleton. apply list_elem_of_fmap in Hq as ([q r] & Eq & Hin).
    destruct (Hdi _ _ Hin) as (t & Hq & _). apply lookup_lt_Some in Hq. simpl in Eq, Hq. lia.
Qed.

Lemma enqueue_ok data t : tab_ok t →
  ∃ t' b, enqueue data t = Some (t', b) ∧ p_conn t' = p_conn t ∧ p_closed t' = p_closed t ∧ tab_ok t'.
Proof.
  intros Hok. pose proof Hok as [Hc Hq]. unfold enqueue. destruct (p_closed t) eqn:E; [by exists t, false|].
  rewrite Hc. destruct (Nat.ltb_spec (length (p_writes t)) proxyWriteQueue); [|by exists t, false].
  eexists _, true. split; [done|]. simpl. split_and!; [done|done|]. split; [done|]. simpl. rewrite length_app. simpl. lia.
Qed.

Lemma write_inv id data m : inv m → inv (write id data m).
Proof.
  intros Hi. unfold write. destruct (tabs m !! id) as [p|] eqn:Ep; [|done].
  destruct (ptabs m !! p) as [t|] eqn:Et; [|done].
  pose proof (Forall_lookup_1 _ _ _ _ (inv_ok _ _ _ Hi) Et) as Hok.
  destruct (enqueue_ok data t Hok) as (t' & b & -> & ? & ? & ?).
  assert (inv (set_tab p t' m)) by (by eapply set_tab_inv).
  destruct b; [done|by apply dropIf_Inv].
Qed.

(** A dialling goroutine leaves the list of those still dialling. *)
Lemma inv_undial l1 x l2 dr m : inv_at (l1 ++ x :: l2) dr m → inv_at (l1 ++ l2) dr m.
Proof.
  intros [Ht Hj Hd Ho Hl Hh Hdi Hn Hc]. split; try done.
  - intros p req Hin. apply (Hdi p req). apply elem_of_app in Hin. apply elem_of_app. rewrite elem_of_cons. tauto.
  - rewrite fmap_app in *. cbn in Hn. apply NoDup_app in Hn as (? & Hdis & [_ ?]%NoDup_cons).
    apply NoDup_app. split_and!; try done. intros q Hq Hq2. apply (Hdis q Hq). by right.
Qed.

Lemma undial_inv p req l1 l2 m :
  inv m → dialing m = l1 ++ (p, req) :: l2 → inv (with_dialing (l1 ++ l2) m).
Proof. unfold inv. intros Hi E. rewrite E in Hi. apply inv_undial in Hi. by destruct Hi. Qed.

Lemma dial_failed_inv p req err m : inv m → inv (dial_failed p req err m).
Proof. intros. by apply send_inv, dropIf_Inv. Qed.

(** Opening a connection that is closed at once, or handed to its tab. *)
Lemma dial_ok_inv p req sent l1 l2 m :
  inv m → dialing m = l1 ++ (p, req) :: l2 → inv (dial_ok p req sent (with_dialing (l1 ++ l2) m)).
Proof.
  intros Hi E. destruct (inv_dial _ _ _ Hi p req) as (t & Ht & Hnone); [rewrite E; apply elem_of_app; right; left|].
  pose proof (undial_inv _ _ _ _ _ Hi E) as Hi'.
  assert (Hmine : p ∉ (l1 ++ l2).*1).
  { pose proof (inv_dial_nodup _ _ _ Hi) as Hn. rewrite E, fmap_app in Hn. cbn in Hn.
    apply NoDup_app in Hn as (_ & Hdis & [Hp2 _]%NoDup_cons). rewrite fmap_app, not_elem_of_app.
    split; [|done]. intros Hp1. apply (Hdis p Hp1). left. }
  unfold dial_ok. simpl. rewrite Ht. unfold setConn. set (c := length (conns m)).
  destruct Hi' as [Hta Hj Hd Ho Hl Hh Hdi Hn Hc]. simpl in *.
  destruct (p_closed t) eqn:Ecl; simpl.
  - split; simpl; try done. intros c' Hc'. unfold c in Hc'.
    destruct (decide (c' = length (conns m))) as [->|Hne].
    + rewrite list_lookup_insert_eq in Hc'; [done|rewrite length_app; simpl; lia].
    + rewrite list_lookup_insert_ne in Hc' by done. apply lookup_app_Some in Hc' as [Hc'|[? Hc']]; [by eauto|].
      apply list_lookup_singleton_Some in Hc' as [? _]. lia.
  - set (t' := mkTab (Some c) (p_writes t) (p_chan_closed t) false (p_accepted t) (p_written t)).
    assert (Hi2 : inv (set_tab p t' (mkManager (tabs m) (ptabs m) (conns m ++ [true]) (l1 ++ l2) (dropped m)
              (outbox m) (crashed m)))).
    { assert (Hlk : ∀ q, <[p:=t']> (ptabs m) !! q = if decide (p = q) then Some t' else ptabs m !! q).
      { intros q. case_decide; [subst; rewrite list_lookup_insert_eq; [done|by eapply lookup_lt_Some]|].
        by rewrite list_lookup_insert_ne. }
      pose proof (Forall_lookup_1 _ _ _ _ Ho Ht) as Hok. split; simpl; try done.
      - intros id q Hq. destruct (Hta _ _ Hq) as (t0 & ? & ?). rewrite Hlk. case_decide; eauto.
      - intros q n Hin. rewrite length_insert. by eapply Hd.
      - apply Forall_insert; [done|]. split; simpl; [|apply Hok]. by rewrite (tab_chan _ Hok).
      - intros c' [Hc'|[Hge Hc']]%lookup_app_Some.
        + destruct (Hl _ Hc') as (q & t0 & Hq & Hqc & ?). exists q, t0. rewrite Hlk.
          rewrite decide_False; [done|]. intros <-. rewrite Ht in Hq. injection Hq as <-. congruence.
        + apply list_lookup_singleton_Some in Hc' as [? _]. exists p, t'. rewrite Hlk, decide_True by done.
          split_and!; [done| |done]. simpl. f_equal. unfold c. lia.
      - intros q t0. rewrite Hlk. case_decide; [|by eauto]. intros [= <-] _. subst. by apply (Hh _ t).
      - intros q r Hin. destruct (Hdi _ _ Hin) as (t0 & Hq & ?). exists t0. rewrite Hlk, decide_False; [done|].
        intros <-. apply Hmine, list_elem_of_fmap. by exists (p, r). }
    fold t'. destruct sent; [by apply send_inv|by apply dropIf_Inv].
Qed.

Lemma read_chunk_inv p id data sent err m : inv m → inv (read_chunk p id data sent err m).
Proof.
  intros Hi. unfold read_chunk. destruct (_ && _); [by apply dropIf_Inv|].
  destruct (data =? "")%string, err; try apply dropIf_Inv; try done; by apply send_inv.
Qed.

(** Taking a tab off the list of dropped ones, closed and with its connection shut. *)
Lemma drop_entry_inv p n l1 l2 t x o m :
  inv m → dropped m = l1 ++ (p, n) :: l2 → ptabs m !! p = Some t →
  tab_ok x → p_closed x = true → p_conn x = p_conn t →
  (∀ c, o !! c = Some true → conns m !! c = Some true ∧ (p_closed t = false → p_conn t ≠ Some c)) →
  inv (mkManager (tabs m) (<[p:=x]> (ptabs m)) o (dialing m) (l1 ++ l2) (outbox m) (crashed m)).
Proof.
  intros [Ht Hj Hd Ho Hl Hh Hdi Hn Hc] E Htp Hx Hcl Hxc Hoc.
  assert (Hin : ∀ y, y ∈ l1 ++ l2 → y ∈ dropped m) by (intros y; rewrite E, !elem_of_app, elem_of_cons; tauto).
  destruct (Hd p n) as [_ Hno]; [rewrite E; apply elem_of_app; right; left|].
  assert (Hlk : ∀ q, <[p:=x]> (ptabs m) !! q = if decide (p = q) then Some x else ptabs m !! q).
  { intros q. case_decide; [subst; rewrite list_lookup_insert_eq; [done|by eapply lookup_lt_Some]|].
    by rewrite list_lookup_insert_ne. }
  split; simpl; try done.
  - intros id q Hq0. destruct (Ht _ _ Hq0) as (t0 & ? & ?). rewrite Hlk. case_decide; [|by eauto].
    subst. by destruct (Hno id).
  - intros q k Hk. rewrite length_insert. by eapply Hd, Hin.
  - by apply Forall_insert.
  - intros c [Hcc Hnc]%Hoc. destruct (Hl _ Hcc) as (q & t0 & ? & ? & ?). exists q, t0. rewrite Hlk, decide_False; [done|].
    intros <-. simplify_eq. by apply Hnc.
  - intros q t0. rewrite Hlk. case_decide as Hne; [intros [= <-]; congruence|]. intros Hq0 Hcq.
    destruct (Hh _ _ Hq0 Hcq) as [|[k Hk]]; [by left|]. right. exists k.
    rewrite E, !elem_of_app, elem_of_cons in Hk. apply elem_of_app.
    destruct Hk as [?|[[= ? _]|?]]; [by left|congruence|by right].
  - intros q r Hr. destruct (Hdi _ _ Hr) as (t0 & ? & ?). rewrite Hlk. case_decide; [|by eauto]. subst.
    exists x. split; [done|congruence].
Qed.

(** Closing a tab: its connection is closed with it. *)
Lemma close_dropped_inv p n l1 l2 m :
  inv m → dropped m = l1 ++ (p, n) :: l2 → inv (close_dropped p n (with_dropped (l1 ++ l2) m)).
Proof.
  intros Hi E. destruct (inv_dropped _ _ m Hi p n) as [Hlt _]; [rewrite E; apply elem_of_app; right; left|].
  destruct (lookup_lt_is_Some_2 _ _ Hlt) as [t Htp]. unfold close_dropped. simpl. rewrite Htp.
  pose proof (Forall_lookup_1 _ _ _ _ (inv_ok _ _ m Hi) Htp) as Hok. pose proof Hok as [Hch Hq]. unfold tab_close.
  destruct (p_closed t) eqn:Ecl.
  - assert (inv (set_tab p t (with_dropped (l1 ++ l2) m))) as Hi2
      by (apply (drop_entry_inv p n l1 l2 t t (conns m) m); try done; intros c ?; split; [done|congruence]).
    destruct n; [by apply send_inv|done].
  - rewrite Hch. simpl. set (t' := mkTab (p_conn t) (p_writes t) true true (p_accepted t) (p_written t)).
    assert (Hi3 : inv (match p_conn t with Some c => close_conn c (set_tab p t' (with_dropped (l1 ++ l2) m))
                       | None => set_tab p t' (with_dropped (l1 ++ l2) m) end)).
    { destruct (p_conn t) as [c|] eqn:Ec; apply (drop_entry_inv p n l1 l2 t t' _ m); try done; try (by rewrite Ec).
      intros c' Hc'. destruct (decide (c = c')) as [->|Hne].
      - apply list_lookup_insert_Some in Hc' as [(_ & ? & _)|[? _]]; done.
      - rewrite list_lookup_insert_ne in Hc' by done. rewrite Ec. split; [done|congruence]. }
    destruct n; [by apply send_inv|done].
Qed.

Lemma dropAll_inv `{MapOrder} m : inv m → inv (dropAll m).
Proof.
  intros [Ht Hj Hd Ho Hl Hh Hdi Hn Hc]. split; simpl; try done.
  - intros p n [Hin|Hin]%elem_of_app.
    + by destruct (Hd _ _ Hin).
    + apply list_elem_of_fmap in Hin as ([id q] & [= -> ->] & Hin).
      apply elem_of_range, elem_of_map_to_list in Hin. destruct (Ht _ _ Hin) as (t & Hq & _).
      split; [by eapply lookup_lt_Some|done].
  - intros p t Hp Hcl. right. destruct (Hh _ _ Hp Hcl) as [[id Hid]|[n Hin]].
    + exists None. apply elem_of_app. right. apply list_elem_of_fmap. exists (id, p). split; [done|].
      by apply elem_of_range, elem_of_map_to_list.
    + exists n. apply elem_of_app. by left.
Qed.

Lemma handle_inv {W : IntSize} env m : inv m → inv (fst (handleProxyMessage env m)).
Proof.
  intros Hi. unfold handleProxyMessage, drop.
  repeat case_match; simpl; try done; first [by apply open_inv | by apply write_inv | by apply dropIf_Inv].
Qed.

Lemma write_next_inv p t ok m :
  inv m → ptabs m !! p = Some t → inv (set_tab p (write_next ok t) m).
Proof.
  intros Hi Ht. pose proof (Forall_lookup_1 _ _ _ _ (inv_ok _ _ _ Hi) Ht) as [Hch Hq].
  eapply set_tab_inv; [done..| | |]; unfold write_next; destruct (p_writes t) eqn:E; try done.
  - split; [done|]. rewrite E. done.
  - split; [done|]. simpl in *. lia.
Qed.

Section Properties.
Context {W : IntSize} `{MapOrder}.

Lemma manager_step_inv m m' : inv m → step m m' → inv m'.
Proof.
  intros Hi Hs. destruct Hs.
  - by apply handle_inv.
  - by eapply dial_failed_inv, undial_inv.
  - by apply dial_ok_inv.
  - by apply read_chunk_inv.
  - destruct ok; [|apply dropIf_Inv]; by eapply write_next_inv.
  - by apply close_dropped_inv.
  - by apply dropAll_inv.
Qed.

Lemma manager_inv m : manager_reachable m → inv m.
Proof. apply reachable_ind_inv; [|apply manager_step_inv]. intros ? ->. apply init_inv. Qed.

(** The probe never panics on a tunnel's channel, whatever the order in
    which messages, dials, reads, writes, closes and disconnections interleave:
    nothing is sent on a closed channel and none is closed twice; and a tunnel
    never queues more than 32 chunks. *)
Theorem channels_safe m :
  manager_reachable m → crashed m = false ∧
  ∀ p t, ptabs m !! p = Some t → p_chan_closed t = p_closed t ∧ (length (p_writes t) <= proxyWriteQueue)%nat.
Proof.
  intros Hi%manager_inv. split; [by apply Hi|]. intros p t Ht.
  pose proof (Forall_lookup_1 _ _ _ _ (inv_ok _ _ _ Hi) Ht) as [? ?]. done.
Qed.

(** C12. No connection leaks: under every interleaving an open connection belongs
    to a tunnel that is still in the table, or that some goroutine has just taken
    out of it and is about to close. *)
Theorem connections_owned m c :
  manager_reachable m → conns m !! c = Some true →
  ∃ p t, ptabs m !! p = Some t ∧ p_conn t = Some c ∧ p_closed t = false ∧
    ((∃ id, tabs m !! id = Some p) ∨ ∃ n, (p, n) ∈ dropped m).
Proof.
  intros Hi%manager_inv Hc. destruct (inv_leak _ _ _ Hi _ Hc) as (p & t & Hp & ? & Hcl).
  exists p, t. split_and!; try done. by apply (inv_home _ _ _ Hi p t).
Qed.
End Properties.

(** ** The address dialled *)

Lemma itoa_loop_digits i : ∀ fuel fuel' n acc,
  (i <= fuel)%nat → (0 < n < 10 ^ Z.of_nat i)%Z → (n < 2 ^ Z.of_nat fuel')%Z →
  itoa_loop fuel n i acc = Some (digits fuel' n acc).
Proof.
  induction i as [|i IH]; intros fuel fuel' n acc Hf Hn Hn2; [simpl in Hn; lia|].
  destruct fuel as [|fuel]; [lia|]. destruct fuel' as [|fuel']; [simpl in Hn2; lia|].
  rewrite Nat2Z.inj_succ, Z.pow_succ_r in Hn, Hn2 by lia.
  cbn [itoa_loop digits]. rewrite (proj2 (Z.ltb_lt 0 n)) by lia. destruct (Z.ltb_spec n 10).
  - rewrite Z.div_small by lia. by destruct fuel.
  - pose proof (Z.div_str_pos n 10). apply IH; [lia| |].
    + split; [lia|]. apply Z.div_lt_upper_bound; lia.
    + apply Z.div_lt_upper_bound; lia.
Qed.

Lemma itoa_loop_overflow i : ∀ fuel n acc, (10 ^ Z.of_nat i <= n)%Z → itoa_loop fuel n i acc = None.
Proof.
  induction i as [|i IH]; intros fuel n acc Hn.
  - simpl in Hn. destruct fuel; simpl; by rewrite (proj2 (Z.ltb_lt 0 n)) by lia.
  - rewrite Nat2Z.inj_succ, Z.pow_succ_r in Hn by lia.
    assert (0 < 10 ^ Z.of_nat i)%Z by (apply Z.pow_pos_nonneg; lia).
    destruct fuel; simpl; rewrite (proj2 (Z.ltb_lt 0 n)) by lia; [done|].
    apply IH. apply Z.div_le_lower_bound; lia.
Qed.

(** [itoa] agrees with [strconv.Itoa] on everything its buffer can hold,
    which includes every port, and panics on anything larger. *)
Theorem itoa_spec n : (0 <= n)%Z → itoa n = if (n <? 10 ^ 6)%Z then Some (Itoa n) else None.
Proof.
  intros Hn. unfold itoa. destruct (Z.eqb_spec n 0) as [->|]; [done|].
  destruct (Z.ltb_spec n (10 ^ 6)).
  - unfold Itoa. rewrite (proj2 (Z.ltb_ge n 0)) by lia. apply itoa_loop_digits; [lia|simpl; lia|by apply log2_fuel].
  - by apply itoa_loop_overflow.
Qed.

Lemma itoa_port n : (1 <= n <= 65535)%Z → itoa n = Some (Itoa n).
Proof. intros. rewrite itoa_spec by lia. by rewrite (proj2 (Z.ltb_lt _ _)) by lia. Qed.

(** The target survives the way from the client to the probe's dial: for
    whatever the Host accepts as a CONNECT target, the request it sends decodes
    on the probe to the same host and port, the probe starts a dial for it
    (unless the tunnel id is in use), and the address it dials splits back into
    exactly that host and port. *)
Theorem target_round_trip {W : IntSize} raw h port id m :
  (32 <= int_size)%Z → ParseConnectTarget raw = Ok (h, port) → id ≠ "" → tabs m !! id = None →
  let req := mkProxyOpen id h port in
  handleProxyMessage (mkEnvelope TypeProxyOpen (enc_ProxyOpen req)) m = (open req m, true) ∧
  dialing (open req m) = dialing m ++ [(length (ptabs m), req)] ∧
  ∃ addr, dial_addr req = Some addr ∧ SplitHostPort addr = Ok (h, Itoa port) ∧ Atoi (Itoa port) = (port, None).
Proof.
  intros HW (Hh & Hne & Hp)%ParseConnectTarget_Ok Hid Hm req.
  assert (Hmax : (2 ^ 31 <= 2 ^ (int_size - 1))%Z) by (apply Z.pow_le_mono_r; lia).
  assert (Hok : wire_ok req).
  { split; [unfold exact_range; simpl; lia|]. unfold int_max, int_min. simpl. lia. }
  split_and!.
  - unfold handleProxyMessage. cbn [env_Type env_Payload]. unfold decode.
    change (enc_ProxyOpen req) with (wire_enc req). rewrite (wire_roundtrip req Hok).
    cbn [po_TunnelID req]. by apply String.eqb_neq in Hid as ->.
  - unfold open. cbn [po_Port po_Host po_TunnelID req].
    rewrite (proj2 (Z.ltb_ge port 1)), (proj2 (Z.ltb_ge 65535 port)) by lia.
    apply String.eqb_neq in Hne as ->. simpl. by rewrite Hm.
  - exists (JoinHostPort h (Itoa port)). unfold dial_addr. cbn [po_Port po_Host req].
    rewrite itoa_port by lia. split_and!; [done| |].
    + apply SplitHostPort_Join; [done|]. destruct (Itoa_digits port) as [Hd _]; [lia|].
      split_and!; (eapply all_bytes_no_byte; [|exact Hd]); done.
    + apply Atoi_Itoa; [lia|]. unfold int_max. lia.
Qed.

(** ** Witnesses *)

Lemma itoa_spec_witness : itoa 65535 = Some "65535" ∧ itoa 1000000 = None.
Proof. split; rewrite itoa_spec by lia; reflexivity. Defined.

Lemma target_round_trip_witness :
  let _ := int64_size in
  let req := mkProxyOpen "t1" "2001:db8::7" 8443 in
  handleProxyMessage (mkEnvelope TypeProxyOpen (enc_ProxyOpen req)) init = (open req init, true) ∧
  dialing (open req init) = [(0, req)] ∧
  ∃ addr, dial_addr req = Some addr ∧ SplitHostPort addr = Ok ("2001:db8::7", "8443") ∧ Atoi "8443" = (8443%Z, None).
Proof.
  intros ? ?. apply (target_round_trip "[2001:db8::7]:8443" "2001:db8::7" 8443 "t1" init); try reflexivity; done.
Defined.

(** A tunnel that is dialled and then dropped, its close still pending. *)
Definition demo_req : ProxyOpenPayload := mkProxyOpen "t1" "example.com" 443.
Definition demo_open : proxyManager := dial_ok 0 demo_req true (with_dialing [] (open demo_req init)).
Definition demo : proxyManager := dropIf "t1" None true demo_open.

Lemma demo_manager_reachable : let _ := int64_size in let _ := in_key_order in manager_reachable demo.
Proof.
  intros ? ?. set (e1 := mkEnvelope TypeProxyOpen (enc_ProxyOpen demo_req)).
  set (e2 := mkEnvelope TypeProxyData (enc_ProxyData (mkProxyData "t1" "!"))).
  assert (R0 : manager_reachable init) by by apply reach_init.
  assert (R1 : manager_reachable (open demo_req init)).
  { replace (open demo_req init) with (fst (handleProxyMessage e1 init)) by (vm_compute; reflexivity).
    eapply reach_step; [exact R0|]. apply step_message. }
  assert (R2 : manager_reachable demo_open).
  { eapply reach_step; [exact R1|]. by apply (step_dial_ok _ 0 demo_req true [] []). }
  replace demo with (fst (handleProxyMessage e2 demo_open)) by (vm_compute; reflexivity).
  eapply reach_step; [exact R2|]. apply step_message.
Qed.

Lemma channels_safe_witness :
  crashed demo = false ∧
  ∀ p t, ptabs demo !! p = Some t → p_chan_closed t = p_closed t ∧ (length (p_writes t) <= proxyWriteQueue)%nat.
Proof. exact (channels_safe (W := int64_size) (H := in_key_order) demo demo_manager_reachable). Defined.

Lemma connections_owned_witness :
  conns demo !! 0 = Some true ∧
  ∃ p t, ptabs demo !! p = Some t ∧ p_conn t = Some 0 ∧ p_closed t = false ∧
    ((∃ id, tabs demo !! id = Some p) ∨ ∃ n, (p, n) ∈ dropped demo).
Proof.
  split; [reflexivity|].
  exact (connections_owned (W := int64_size) (H := in_key_order) demo 0 demo_manager_reachable eq_refl).
Defined.
