(* ===== verification/AgentClient.v ===== *)
(** * The probe's connection to the Host ([agent/internal/client]: client.go, queue.go, loop.go)

    The connection loop with its backoff, the registration, the queue of reports
    kept while offline, and the dispatch of what the Host sends. Several
    goroutines share the client: a step is one critical section of one of them,
    so the mutex [queueMu] appears as who holds it. *)
From S2P Require Import Prelude GoStrings GoNet GoFloat GoJson Protocol.

Definition second : Z := 1000000000.
Definition queueMax : Z := 500.

(** What the client writes to its connection, besides what the tunnels send. *)
Inductive outgoing :=
  | MRegister (token version : string)
  | MHeartbeat (agentID : string)
  | MPing (r : PingReportPayload)
  | MTrace (r : TracerouteReportPayload)
  | MUpdate (r : UpdateResultPayload).

(** Where the connection loop is. *)
Inductive phase :=
  | Dialing | Registering | AwaitResponse | Draining | Serving | Waiting | Stopped.

(** Who holds [queueMu] past its first critical section: nobody, [QueueReport]
    sending its report, [flushQueuedReports] with the reports to go and those
    that failed. *)
Inductive holder :=
  | Free
  | Reporting (r : PingReportPayload)
  | Flushing (todo remaining : list PingReportPayload).

(** [senders]: messages other goroutines are about to write, their connection
    state already looked at. The last four fields record history: what was
    written to which connection, the results handed in and those discarded, and
    how often the loop waited since the last registration. *)
Record Client := mkClient {
  conn : option nat; online : bool; agentID : string; reportQueue : list PingReportPayload;
  queueMu : holder; senders : list outgoing; loop : phase; backoff : Z; next_conn : nat;
  wire : list (nat * outgoing); accepted : list (list SinglePingResult); discarded : list (list SinglePingResult);
  waits : nat
}.

Definition NewClient : Client :=
  mkClient None false "" [] Free [] Dialing (2 * second) 0 [] [] [] 0.

(** Field updates. *)
Definition set_queue (q : list PingReportPayload) (c : Client) : Client :=
  mkClient (conn c) (online c) (agentID c) q (queueMu c) (senders c) (loop c) (backoff c) (next_conn c) (wire c)
    (accepted c) (discarded c) (waits c).
Definition set_holder (h : holder) (c : Client) : Client :=
  mkClient (conn c) (online c) (agentID c) (reportQueue c) h (senders c) (loop c) (backoff c) (next_conn c) (wire c)
    (accepted c) (discarded c) (waits c).
Definition set_senders (l : list outgoing) (c : Client) : Client :=
  mkClient (conn c) (online c) (agentID c) (reportQueue c) (queueMu c) l (loop c) (backoff c) (next_conn c) (wire c)
    (accepted c) (discarded c) (waits c).
Definition set_loop (p : phase) (c : Client) : Client :=
  mkClient (conn c) (online c) (agentID c) (reportQueue c) (queueMu c) (senders c) p (backoff c) (next_conn c) (wire c)
    (accepted c) (discarded c) (waits c).
Definition written (m : nat * outgoing) (c : Client) : Client :=
  mkClient (conn c) (online c) (agentID c) (reportQueue c) (queueMu c) (senders c) (loop c) (backoff c) (next_conn c)
    (wire c ++ [m]) (accepted c) (discarded c) (waits c).
Definition took (r : PingReportPayload) (c : Client) : Client :=
  mkClient (conn c) (online c) (agentID c) (reportQueue c) (queueMu c) (senders c) (loop c) (backoff c) (next_conn c)
    (wire c) (accepted c ++ [pp_Results r]) (discarded c) (waits c).
Definition lost_one (r : PingReportPayload) (c : Client) : Client :=
  mkClient (conn c) (online c) (agentID c) (reportQueue c) (queueMu c) (senders c) (loop c) (backoff c) (next_conn c)
    (wire c) (accepted c) (discarded c ++ [pp_Results r]) (waits c).

(** ** queue.go *)

(** [ok]: whether [WriteJSON] succeeds; the result is whether there was no error. *)
Definition sendEnvelope (ok : bool) (m : outgoing) (c : Client) : Client * bool :=
  match conn c with
  | None => (c, false)
  | Some k => if ok then (written (k, m) c, true) else (c, false)
  end.

Definition isOnline (c : Client) : bool := online c && bool_decide (conn c ≠ None).

Definition with_agent (id : string) (r : PingReportPayload) : PingReportPayload := mkPingReport id (pp_Results r).

(** The end of [QueueReport]. *)
Definition enqueue (r : PingReportPayload) (c : Client) : Client :=
  let c :=
    match reportQueue c with
    | old :: q => if (queueMax <=? zlen (reportQueue c))%Z then lost_one old (set_queue q c) else c
    | [] => c
    end in
  set_queue (reportQueue c ++ [r]) c.

(** [QueueReport] up to its send, and the rest of it. *)
Definition QueueReport (r : PingReportPayload) (c : Client) : Client :=
  let c := took r c in
  if isOnline c then set_holder (Reporting (with_agent (agentID c) r)) c else enqueue r c.

Definition QueueReport_send (ok : bool) (r : PingReportPayload) (c : Client) : Client :=
  let '(c, sent) := sendEnvelope ok (MPing r) (set_holder Free c) in
  if sent then c else enqueue r c.

Definition SendTracerouteReport (r : TracerouteReportPayload) (c : Client) : Client :=
  if isOnline c then
    set_senders (senders c ++ [MTrace (mkTraceReport (agentID c) (tr_TargetID r) (tr_TargetHost r) (tr_ResolvedIP r)
                                         (tr_Timestamp r) (tr_DurationMs r) (tr_Reached r) (tr_Hops r))]) c
  else c.

(** [flushQueuedReports]: taking the lock, one iteration, and leaving the loop. *)
Definition flush_begin (c : Client) : Client :=
  match reportQueue c with
  | [] => set_loop Serving c
  | q => set_holder (Flushing q []) c
  end.

Definition flush_one (ok : bool) (c : Client) : Client :=
  match queueMu c with
  | Flushing (r :: todo) remaining =>
      let r := with_agent (agentID c) r in
      let '(c, sent) := sendEnvelope ok (MPing r) c in
      set_holder (Flushing todo (if sent then remaining else remaining ++ [r])) c
  | Flushing [] remaining => set_loop Serving (set_holder Free (set_queue remaining c))
  | _ => c
  end.

(** ** client.go *)

Definition SendUpdateResult (r : UpdateResultPayload) (c : Client) : Client :=
  set_senders (senders c ++ [MUpdate (mkUpdateResult (agentID c) (ur_CurrentVersion r) (ur_LatestVersion r)
                                        (ur_Updating r) (ur_Error r))]) c.

Definition buildWSURL `{UrlParse} (ServerURL : string) : result string :=
  let raw := TrimRight ServerURL "/" in
  let raw := if negb (Contains raw "://") then "https://" +:+ raw else raw in
  let? (u_Scheme, u_Host) := url_parse raw in
  let scheme := if (u_Scheme =? "http")%string || (u_Scheme =? "ws")%string then "ws" else "wss" in
  Ok (scheme +:+ "://" +:+ u_Host +:+ "/api/agent/ws").

(** ** loop.go *)

(** The deferred clean-up of [connectAndServe] (the tunnels' [dropAll] apart). *)
Definition disconnect (c : Client) : Client :=
  mkClient None false (agentID c) (reportQueue c) (queueMu c) (senders c) Waiting (backoff c) (next_conn c) (wire c)
    (accepted c) (discarded c) (waits c).

Definition dialed (c : Client) : Client :=
  mkClient (Some (next_conn c)) false (agentID c) (reportQueue c) (queueMu c) (senders c) Registering (backoff c)
    (S (next_conn c)) (wire c) (accepted c) (discarded c) (waits c).

Definition register (token version : string) (ok : bool) (c : Client) : Client :=
  let '(c, sent) := sendEnvelope ok (MRegister token version) c in
  if sent then set_loop AwaitResponse c else disconnect c.

(** The answer to the registration, [None] when it could not be read or parsed. *)
Definition registered (resp : option RegisterResponse) (c : Client) : Client :=
  match resp with
  | Some r =>
      if rs_Success r then
        mkClient (conn c) true (rs_AgentID r) (reportQueue c) (queueMu c) (senders c) Draining (2 * second) (next_conn c)
          (wire c) (accepted c) (discarded c) 0
      else disconnect c
  | None => disconnect c
  end.

Definition next_backoff (b : Z) : Z := if (30 * second <? b * 2)%Z then (30 * second)%Z else (b * 2)%Z.

(** The wait has passed: the next round of [connectionLoop]. *)
Definition retry (c : Client) : Client :=
  mkClient (conn c) (online c) (agentID c) (reportQueue c) (queueMu c) (senders c) Dialing (next_backoff (backoff c))
    (next_conn c) (wire c) (accepted c) (discarded c) (S (waits c)).

Definition heartbeat (c : Client) : Client := set_senders (senders c ++ [MHeartbeat (agentID c)]) c.

(** What the reading loop does with a message that is not the tunnels'. *)
Inductive reaction :=
  | Nothing
  | SyncTargets (targets : list TargetConfig)
  | RunUpdate
  | SoftExit.

Definition react {W : IntSize} (updateHook softExitHook : bool) (env : Envelope) : reaction :=
  if (env_Type env =? TypeTargetSync)%string then
    match decode (A := TargetSyncPayload) (env_Payload env) with
    | Some p => SyncTargets (ts_Targets p)
    | None => Nothing
    end
  else if (env_Type env =? TypeUpdateCheck)%string then (if updateHook then RunUpdate else Nothing)
  else if (env_Type env =? TypeSoftExit)%string then (if softExitHook then SoftExit else Nothing)
  else Nothing.

(** ** Interleavings *)

Inductive step (c : Client) : Client → Prop :=
  | step_QueueReport r : queueMu c = Free → step c (QueueReport r c)
  | step_QueueReport_send r ok : queueMu c = Reporting r → step c (QueueReport_send ok r c)
  | step_SendTracerouteReport r : step c (SendTracerouteReport r c)
  | step_SendUpdateResult r : step c (SendUpdateResult r c)
  | step_heartbeat : step c (heartbeat c)
  | step_send m ok l1 l2 :
      senders c = l1 ++ m :: l2 → step c (fst (sendEnvelope ok m (set_senders (l1 ++ l2) c)))
  | step_dialed : loop c = Dialing → step c (dialed c)
  | step_dial_failed : loop c = Dialing → step c (set_loop Waiting c)
  | step_register token version ok : loop c = Registering → step c (register token version ok c)
  | step_registered resp : loop c = AwaitResponse → step c (registered resp c)
  | step_flush_begin : loop c = Draining → queueMu c = Free → step c (flush_begin c)
  | step_flush_one todo remaining ok : queueMu c = Flushing todo remaining → step c (flush_one ok c)
  | step_lost : loop c = Serving → step c (disconnect c)
  | step_retry : loop c = Waiting → step c (retry c)
  | step_stop : loop c = Waiting ∨ loop c = Dialing → step c (set_loop Stopped c).

Definition client_reachable : Client → Prop := reachable (λ c, c = NewClient) step.

(** ** Invariants *)

(** The reports kept, in the order they will be sent, and the one being sent. *)
Definition pending (c : Client) : list PingReportPayload :=
  match queueMu c with Flushing todo remaining => remaining ++ todo | _ => reportQueue c end.

Definition in_hand (c : Client) : list PingReportPayload :=
  match queueMu c with Reporting r => [r] | _ => [] end.

(** The ping results written, in order. *)
Definition ping_results (l : list (nat * outgoing)) : list (list SinglePingResult) :=
  omap (λ m, match m.2 with MPing r => Some (pp_Results r) | _ => None end) l.

Definition has_conn (p : phase) : bool :=
  match p with Registering | AwaitResponse | Draining | Serving => true | _ => false end.
Definition is_registered (p : phase) : bool := match p with Draining | Serving => true | _ => false end.

Definition not_ping (m : outgoing) : Prop := match m with MPing _ => False | _ => True end.

Record accounted (c : Client) : Prop := {
  acc_perm : accepted c ≡ₚ ping_results (wire c) ++ (pp_Results <$> (pending c ++ in_hand c)) ++ discarded c;
  acc_order : (pp_Results <$> (pending c ++ in_hand c)) `sublist_of` accepted c;
  acc_bound : (zlen (pending c) <= queueMax)%Z;
  acc_senders : Forall not_ping (senders c)
}.

Record loop_ok (c : Client) : Prop := {
  loop_conn : conn c ≠ None ↔ has_conn (loop c) = true;
  loop_online : online c = is_registered (loop c);
  loop_backoff : backoff c = Z.min (30 * second) (2 * second * 2 ^ Z.of_nat (waits c));
  loop_flush todo remaining : queueMu c = Flushing todo remaining → loop c = Draining;
  loop_fresh k m : (k, m) ∈ wire c → (k < next_conn c)%nat;
  loop_current k : conn c = Some k → (k < next_conn c)%nat
}.

(** *** Accounting *)

Lemma ping_results_snoc l m :
  ping_results (l ++ [m]) = ping_results l ++ from_option (λ r, [r]) [] (match m.2 with MPing r => Some (pp_Results r) | _ => None end).
Proof. unfold ping_results. rewrite omap_app. cbn. by destruct (m.2). Qed.

Lemma accounted_ext c c' :
  pending c' = pending c → in_hand c' = in_hand c → ping_results (wire c') = ping_results (wire c) →
  accepted c' = accepted c → discarded c' = discarded c → Forall not_ping (senders c') → accounted c → accounted c'.
Proof. intros E1 E2 E3 E4 E5 Hs' [H1 H2 H3 _]. split; rewrite ?E1, ?E2, ?E3, ?E4, ?E5; done. Qed.

(** [enqueue] with a report already taken account of. *)
Lemma enqueue_accounted r c :
  queueMu c = Free →
  accepted c ≡ₚ ping_results (wire c) ++ (pp_Results <$> (reportQueue c ++ [r])) ++ discarded c →
  (pp_Results <$> (reportQueue c ++ [r])) `sublist_of` accepted c →
  (zlen (reportQueue c) <= queueMax)%Z → Forall not_ping (senders c) → accounted (enqueue r c).
Proof.
  intros Hf Hp Ho Hb Hs. unfold enqueue. destruct (reportQueue c) as [|old q] eqn:Eq.
  { split; unfold pending, in_hand; cbn; rewrite ?Hf, ?Eq; done. }
  destruct (Z.leb_spec queueMax (zlen (old :: q))) as [Hfull|Hsmall].
  - split; unfold pending, in_hand; cbn; rewrite ?Hf, ?app_nil_r.
    + rewrite Hp. cbn -[ping_results]. rewrite (Permutation_app_comm (discarded c)). cbn -[ping_results].
      by apply Permutation_app_head, Permutation_middle.
    + etrans; [|exact Ho]. cbn. by apply sublist_cons.
    + rewrite zlen_app. unfold zlen in *. cbn in *. lia.
    + done.
  - split; unfold pending, in_hand; cbn; rewrite ?Hf, ?Eq, ?app_nil_r; try done.
    rewrite zlen_app. unfold zlen in *. cbn in *. lia.
Qed.

Lemma QueueReport_accounted r c : queueMu c = Free → accounted c → accounted (QueueReport r c).
Proof.
  intros Hf [H1 H2 H3 H4]. unfold pending, in_hand in *. rewrite ?Hf, ?app_nil_r in *.
  assert (Hp : accepted c ++ [pp_Results r] ≡ₚ ping_results (wire c) ++ (pp_Results <$> (reportQueue c ++ [r])) ++ discarded c).
  { rewrite H1, fmap_app. cbn -[ping_results]. rewrite <- !(assoc_L (++)).
    apply Permutation_app_head, Permutation_app_head, Permutation_app_comm. }
  assert (Ho : (pp_Results <$> (reportQueue c ++ [r])) `sublist_of` accepted c ++ [pp_Results r]).
  { rewrite fmap_app. by apply sublist_app. }
  unfold QueueReport. change (isOnline (took r c)) with (isOnline c). destruct (isOnline c).
  - split; unfold pending, in_hand; cbn -[ping_results]; try done.
    + rewrite Hp, !fmap_app. done.
    + rewrite !fmap_app in *. done.
  - by apply enqueue_accounted.
Qed.

Lemma QueueReport_send_accounted r ok c :
  queueMu c = Reporting r → accounted c → accounted (QueueReport_send ok r c).
Proof.
  intros Hr [H1 H2 H3 H4]. unfold pending, in_hand in *. rewrite Hr in *. unfold QueueReport_send, sendEnvelope.
  assert (Hq : accounted (enqueue r (set_holder Free c))) by by apply enqueue_accounted.
  cbn [conn set_holder]. destruct (conn c) as [k|]; [|exact Hq]. destruct ok; [|exact Hq].
  split; unfold pending, in_hand; cbn -[ping_results]; rewrite ?app_nil_r; try done.
  - rewrite ping_results_snoc, H1, fmap_app. cbn -[ping_results]. rewrite <- !(assoc_L (++)). apply Permutation_app_head.
    cbn. symmetry. apply Permutation_middle.
  - etrans; [|exact H2]. rewrite fmap_app. by apply sublist_inserts_r.
Qed.

Lemma flush_begin_accounted c : queueMu c = Free → accounted c → accounted (flush_begin c).
Proof.
  intros Hf Hc. unfold flush_begin. destruct (reportQueue c) as [|r q] eqn:E;
    (eapply accounted_ext; [..|exact Hc]); try done; try apply Hc; unfold pending, in_hand; cbn; by rewrite Hf, ?E.
Qed.

Lemma flush_one_accounted ok c : accounted c → accounted (flush_one ok c).
Proof.
  intros Hc. pose proof Hc as [H1 H2 H3 H4]. unfold flush_one. unfold pending, in_hand in *.
  destruct (queueMu c) as [|r|[|r todo] remaining] eqn:Eh; try done.
  { split; unfold pending, in_hand; cbn -[ping_results]; rewrite ?app_nil_r in *; done. }
  rewrite app_nil_r in *. unfold sendEnvelope.
  assert (Hfail : accounted (set_holder (Flushing todo (remaining ++ [with_agent (agentID c) r])) c)).
  { split; unfold pending, in_hand; cbn -[ping_results]; rewrite ?app_nil_r, <- ?(assoc_L (++)), ?fmap_app in *; try done.
    unfold zlen in *. rewrite !length_app in *. done. }
  destruct (conn c) as [k|]; [|exact Hfail]. destruct ok; [|exact Hfail].
  split; unfold pending, in_hand; cbn -[ping_results]; rewrite ?app_nil_r; try done.
  - rewrite ping_results_snoc, H1, !fmap_app. cbn -[ping_results]. rewrite <- !(assoc_L (++)). apply Permutation_app_head.
    cbn. symmetry. apply Permutation_middle.
  - etrans; [|exact H2]. rewrite !fmap_app. cbn. apply sublist_app; [done|]. by apply sublist_cons.
  - unfold zlen in *. rewrite length_app in *. cbn in H3. lia.
Qed.

Lemma sent_accounted ok m c : not_ping m → accounted c → accounted (fst (sendEnvelope ok m c)).
Proof.
  intros Hm Hc. unfold sendEnvelope. destruct (conn c) as [k|]; [|done]. destruct ok; [|done].
  eapply accounted_ext; [..|exact Hc]; try done; [|apply Hc]. cbn [wire written fst]. rewrite ping_results_snoc.
  destruct m; try done; cbn; by rewrite app_nil_r.
Qed.

Lemma step_accounted c c' : accounted c → step c c' → accounted c'.
Proof.
  intros Hc Hs. pose proof (acc_senders c Hc) as Hn.
  assert (Hadd : ∀ m, not_ping m → accounted (set_senders (senders c ++ [m]) c)).
  { intros m Hm. eapply accounted_ext; [..|exact Hc]; try done. apply Forall_app. split; [done|by constructor]. }
  assert (Hext : ∀ c', pending c' = pending c → in_hand c' = in_hand c → wire c' = wire c →
            accepted c' = accepted c → discarded c' = discarded c → senders c' = senders c → accounted c').
  { intros c1 E1 E2 E3 E4 E5 E6. eapply accounted_ext; [..|exact Hc]; try done; [by rewrite E3|by rewrite E6]. }
  destruct Hs as [r Hf|r ok Hr|r|r| |m ok l1 l2 E|E|E|token version ok E|resp E|E Hf|todo rem ok E|E|E|E].
  - by apply QueueReport_accounted.
  - by apply QueueReport_send_accounted.
  - unfold SendTracerouteReport. destruct (isOnline c); [|done]. by apply Hadd.
  - by apply Hadd.
  - by apply Hadd.
  - rewrite E in Hn. apply Forall_app in Hn as [Hn1 [Hm Hn2]%Forall_cons]. apply sent_accounted; [done|].
    eapply accounted_ext; [..|exact Hc]; try done. by apply Forall_app.
  - by apply Hext.
  - by apply Hext.
  - unfold register. pose proof (sent_accounted ok (MRegister token version) c I Hc) as Hr.
    destruct (sendEnvelope ok (MRegister token version) c) as [c1 []];
      (eapply accounted_ext; [..|exact Hr]); try done; apply Hr.
  - unfold registered. destruct resp as [r|]; [destruct (rs_Success r)|]; by apply Hext.
  - by apply flush_begin_accounted.
  - by apply flush_one_accounted.
  - by apply Hext.
  - by apply Hext.
  - by apply Hext.
Qed.

(** *** The loop *)

Lemma wire_enqueue r c : wire (enqueue r c) = wire c ∧ conn (enqueue r c) = conn c ∧ online (enqueue r c) = online c ∧
  loop (enqueue r c) = loop c ∧ backoff (enqueue r c) = backoff c ∧ waits (enqueue r c) = waits c ∧
  next_conn (enqueue r c) = next_conn c ∧ queueMu (enqueue r c) = queueMu c.
Proof. unfold enqueue. destruct (reportQueue c); [done|]. by destruct (_ <=? _)%Z. Qed.

Lemma loop_ext c c' :
  conn c' = conn c → online c' = online c → loop c' = loop c → backoff c' = backoff c → waits c' = waits c →
  next_conn c' = next_conn c → (wire c' = wire c ∨ ∃ k m, conn c = Some k ∧ wire c' = wire c ++ [(k, m)]) →
  (∀ todo remaining, queueMu c' = Flushing todo remaining → loop c = Draining) → loop_ok c → loop_ok c'.
Proof.
  intros E1 E2 E3 E4 E5 E6 Ew Eq [H1 H2 H3 H4 H5 H6]. split; rewrite ?E1, ?E2, ?E3, ?E4, ?E5, ?E6; try done.
  intros k m Hin. destruct Ew as [Ew|(k' & m' & Ek & Ew)]; rewrite Ew in Hin; [by eapply H5|].
  apply elem_of_app in Hin as [Hin|Hin]; [by eapply H5|]. apply list_elem_of_singleton in Hin as [= -> ->]. by apply H6.
Qed.

Lemma sent_wire ok m c :
  let c' := fst (sendEnvelope ok m c) in
  wire c' = wire c ∨ ∃ k m, conn c = Some k ∧ wire c' = wire c ++ [(k, m)].
Proof. unfold sendEnvelope. destruct (conn c) as [k|]; [|by left]. destruct ok; [|by left]. right. by exists k, m. Qed.

Lemma sent_fields ok m c :
  let c' := fst (sendEnvelope ok m c) in
  conn c' = conn c ∧ online c' = online c ∧ loop c' = loop c ∧ backoff c' = backoff c ∧ waits c' = waits c ∧
  next_conn c' = next_conn c ∧ queueMu c' = queueMu c.
Proof. unfold sendEnvelope. destruct (conn c) as [k|] eqn:E; [|done]. destruct ok; cbn; by rewrite ?E. Qed.

Lemma backoff_step n :
  next_backoff (Z.min (30 * second) (2 * second * 2 ^ Z.of_nat n)) = Z.min (30 * second) (2 * second * 2 ^ Z.of_nat (S n)).
Proof.
  unfold next_backoff, second. rewrite Nat2Z.inj_succ, Z.pow_succ_r by lia.
  pose proof (Z.pow_pos_nonneg 2 (Z.of_nat n) ltac:(lia) ltac:(lia)). destruct (Z.ltb_spec (30 * 1000000000)
    (Z.min (30 * 1000000000) (2 * 1000000000 * 2 ^ Z.of_nat n) * 2)); lia.
Qed.

Lemma no_flush c : loop_ok c → loop c ≠ Draining → ∀ t r, queueMu c ≠ Flushing t r.
Proof. intros H Hd t r E. by eapply Hd, loop_flush. Qed.

Lemma disconnect_ok c : loop_ok c → loop c ≠ Draining → loop_ok (disconnect c).
Proof.
  intros H Hd. pose proof H as [H1 H2 H3 H4 H5 H6]. split; cbn; try done.
  intros t r E. exfalso. by apply (no_flush c H Hd t r).
Qed.

Lemma to_waiting c p :
  loop_ok c → loop c ≠ Draining → has_conn (loop c) = false → has_conn p = false → loop_ok (set_loop p c).
Proof.
  intros H Hd Hn Hp. pose proof H as [H1 H2 H3 H4 H5 H6]. split; cbn; try done.
  - by rewrite H1, Hn, Hp.
  - rewrite H2. by destruct (loop c), p.
  - intros t r E. exfalso. by apply (no_flush c H Hd t r).
Qed.

Lemma sent_ok ok m c : loop_ok c → loop_ok (fst (sendEnvelope ok m c)).
Proof.
  intros Hc. pose proof (sent_fields ok m c) as (F1 & F2 & F3 & F4 & F5 & F6 & F7). pose proof (sent_wire ok m c) as Fw.
  apply (loop_ext c); try done. rewrite F7. apply Hc.
Qed.

(** Only the queue, its holder or what waits to be sent changes. *)
Lemma quiet_ok c c' :
  loop_ok c → conn c' = conn c → online c' = online c → loop c' = loop c → backoff c' = backoff c → waits c' = waits c →
  next_conn c' = next_conn c → wire c' = wire c → (∀ t r, queueMu c' = Flushing t r → queueMu c = Flushing t r) → loop_ok c'.
Proof.
  intros Hc E1 E2 E3 E4 E5 E6 E7 E8. apply (loop_ext c); try done; [by left|]. intros t r E. by eapply (loop_flush _ Hc), E8.
Qed.

Lemma queue_ok r c : loop_ok c → loop_ok (enqueue r c).
Proof.
  intros Hc. destruct (wire_enqueue r c) as (E1 & E2 & E3 & E4 & E5 & E6 & E7 & E8). apply (quiet_ok c); try done. by rewrite E8.
Qed.

Lemma report_send_ok r ok c : loop_ok c → loop_ok (QueueReport_send ok r c).
Proof.
  intros Hc. unfold QueueReport_send. assert (Hf : loop_ok (set_holder Free c)) by by apply (quiet_ok c).
  pose proof (sent_ok ok (MPing r) _ Hf) as Hs. destruct (sendEnvelope ok _ _) as [d b]. cbn [fst] in Hs.
  destruct b; [done|by apply queue_ok].
Qed.

Lemma dialed_ok c : loop_ok c → loop c = Dialing → loop_ok (dialed c).
Proof.
  intros Hc E. pose proof Hc as [H1 H2 H3 H4 H5 H6]. split; cbn; try done.
  - intros t r Hq. exfalso. by apply (no_flush c Hc ltac:(by rewrite E) t r).
  - intros k m Hin. pose proof (H5 k m Hin). lia.
  - intros k [= <-]. lia.
Qed.

Lemma register_ok token version ok c : loop_ok c → loop c = Registering → loop_ok (register token version ok c).
Proof.
  intros Hc E. unfold register. pose proof (sent_ok ok (MRegister token version) c Hc) as Hs.
  pose proof (sent_fields ok (MRegister token version) c) as (_ & _ & F3 & _ & _ & _ & F7).
  destruct (sendEnvelope ok _ _) as [c1 b]. cbn [fst] in *. destruct b; [|by apply disconnect_ok; rewrite ?F3, ?E].
  split; cbn; try apply Hs.
  - rewrite (loop_conn c1 Hs), F3, E. done.
  - by rewrite (loop_online c1 Hs), F3, E.
  - intros t r. rewrite F7. intros Hq. exfalso. by apply (no_flush c Hc ltac:(by rewrite E) t r).
Qed.

Lemma flush_one_ok ok todo rem c : loop_ok c → queueMu c = Flushing todo rem → loop_ok (flush_one ok c).
Proof.
  intros Hc E. unfold flush_one. rewrite E. pose proof Hc as [H1 H2 H3 H4 H5 H6]. pose proof (H4 _ _ E) as Ed.
  destruct todo as [|r todo]; [split; cbn; try done; [by rewrite H1, Ed|by rewrite H2, Ed]|].
  pose proof (sent_ok ok (MPing (with_agent (agentID c) r)) c Hc) as Hs.
  pose proof (sent_fields ok (MPing (with_agent (agentID c) r)) c) as (_ & _ & F3 & _).
  destruct (sendEnvelope ok _ c) as [c1 b]. cbn [fst] in *. apply (loop_ext c1); try done; [by left|]. by rewrite F3.
Qed.

Lemma retry_ok c : loop_ok c → loop c = Waiting → loop_ok (retry c).
Proof.
  intros Hc E. pose proof Hc as [H1 H2 H3 H4 H5 H6]. split; cbn; try done.
  - rewrite H1, E. done.
  - rewrite H2, E. done.
  - rewrite H3. apply backoff_step.
  - intros t r Hq. exfalso. by apply (no_flush c Hc ltac:(by rewrite E) t r).
Qed.

Lemma step_loop_ok c c' : loop_ok c → step c c' → loop_ok c'.
Proof.
  intros Hc Hs. pose proof Hc as [H1 H2 H3 H4 H5 H6].
  destruct Hs as [r Hf|r ok Hr|r|r| |m ok l1 l2 E|E|E|token version ok E|resp E|E Hf|todo rem ok E|E|E|E].
  - unfold QueueReport. destruct (isOnline _); [by apply (quiet_ok c)|]. apply queue_ok. by apply (quiet_ok c).
  - by apply report_send_ok.
  - unfold SendTracerouteReport. destruct (isOnline c); [|done]. by apply (quiet_ok c).
  - by apply (quiet_ok c).
  - by apply (quiet_ok c).
  - apply sent_ok. by apply (quiet_ok c).
  - by apply dialed_ok.
  - by apply to_waiting; rewrite ?E.
  - by apply register_ok.
  - unfold registered. destruct resp as [r|]; [destruct (rs_Success r)|]; try (by apply disconnect_ok; rewrite ?E).
    split; cbn; try done. by rewrite H1, E.
  - unfold flush_begin. destruct (reportQueue c).
    + split; cbn; try done; [by rewrite H1, E|by rewrite H2, E|]. rewrite Hf. done.
    + apply (loop_ext c); try done. by left.
  - by eapply flush_one_ok.
  - apply disconnect_ok; [done|]. by rewrite E.
  - by apply retry_ok.
  - by destruct E as [E|E]; apply to_waiting; rewrite ?E.
Qed.

Lemma client_inv c : client_reachable c → accounted c ∧ loop_ok c.
Proof.
  apply (reachable_ind_inv _ _ (λ c, accounted c ∧ loop_ok c)).
  - intros c0 ->. split; split; cbn; try done; try apply sublist_nil_l.
    all: intros ? ? ?%elem_of_nil; done.
  - intros c1 c2 [H1 H2] Hs. split; [by eapply step_accounted|by eapply step_loop_ok].
Qed.

(** *** An outage *)

Definition queue_all (rs : list PingReportPayload) (c : Client) : Client := foldl (λ c r, QueueReport r c) c rs.

(** A whole [flushQueuedReports], [oks] telling which writes succeed. *)
Definition flushQueuedReports (oks : list bool) (c : Client) : Client :=
  flush_one true (foldl (λ c ok, flush_one ok c) (flush_begin c) oks).

(** The reports whose write went the way [b]. *)
Definition outcome (b : bool) (rs : list PingReportPayload) (oks : list bool) : list PingReportPayload :=
  fst <$> List.filter (λ p, Bool.eqb (snd p) b) (zip rs oks).

Lemma enqueue_keeps r c :
  (zlen (reportQueue c) <= queueMax)%Z → reportQueue (enqueue r c) = keep_last queueMax (reportQueue c ++ [r]).
Proof.
  intros Hb. unfold enqueue, keep_last. rewrite zlen_app. change (zlen [r]) with 1%Z.
  destruct (reportQueue c) as [|old q] eqn:E; cbn [reportQueue set_queue].
  { rewrite E. done. }
  destruct (Z.leb_spec queueMax (zlen (old :: q))) as [Hf|Hs]; cbn [reportQueue set_queue lost_one].
  - rewrite (proj2 (Z.ltb_lt _ _)) by lia.
    replace (zlen (old :: q) + 1 - queueMax)%Z with 1%Z by lia. done.
  - rewrite (proj2 (Z.ltb_ge _ _)) by lia. by rewrite E.
Qed.

Lemma queue_all_offline rs : ∀ c,
  online c = false → queueMu c = Free → (zlen (reportQueue c) <= queueMax)%Z →
  let c' := queue_all rs c in
  reportQueue c' = keep_last queueMax (reportQueue c ++ rs) ∧ online c' = false ∧ queueMu c' = Free ∧
  wire c' = wire c ∧ loop c' = loop c ∧ conn c' = conn c.
Proof.
  induction rs as [|r rs IH]; intros c Ho Hf Hb; simpl.
  { rewrite app_nil_r. unfold keep_last. by rewrite (proj2 (Z.ltb_ge _ _)) by lia. }
  assert (E : QueueReport r c = enqueue r (took r c)).
  { unfold QueueReport, isOnline. cbn. by rewrite Ho. }
  destruct (wire_enqueue r (took r c)) as (E1 & E2 & E3 & E4 & E5 & E6 & E7 & E8).
  pose proof (enqueue_keeps r (took r c) Hb) as Hk. rewrite E.
  destruct (IH (enqueue r (took r c))) as (F1 & F2 & F3 & F4 & F5 & F6).
  - by rewrite E3.
  - by rewrite E8.
  - rewrite Hk, keep_last_len by done. lia.
  - rewrite F1, F2, F3, F4, F5, F6, E1, E2, E4, Hk. split_and!; try done.
    rewrite keep_last_keep by done. cbn [reportQueue took]. by rewrite <- (assoc_L (++)).
Qed.

Lemma flush_loop k todo : ∀ oks remaining c,
  conn c = Some k → queueMu c = Flushing todo remaining → length oks = length todo →
  let c' := foldl (λ c ok, flush_one ok c) c oks in
  queueMu c' = Flushing [] (remaining ++ (with_agent (agentID c) <$> outcome false todo oks)) ∧
  wire c' = wire c ++ ((λ r, (k, MPing (with_agent (agentID c) r))) <$> outcome true todo oks) ∧
  conn c' = conn c ∧ agentID c' = agentID c.
Proof.
  induction todo as [|r todo IH]; intros [|ok oks] remaining c Hk Hq Hl; try done; simpl.
  { unfold outcome. simpl. by rewrite !app_nil_r. }
  unfold flush_one at 2 4 6 8. rewrite Hq. unfold sendEnvelope. rewrite Hk.
  unfold outcome. cbn [zip zip_with List.filter snd]. destruct ok; cbn [Bool.eqb].
  - edestruct (IH oks remaining (set_holder (Flushing todo remaining) (written (k, MPing (with_agent (agentID c) r)) c)))
      as (-> & -> & -> & ->); [done..|by injection Hl|]. cbn. by rewrite <- (assoc_L (++)).
  - edestruct (IH oks (remaining ++ [with_agent (agentID c) r]) (set_holder (Flushing todo (remaining ++ [with_agent (agentID c) r])) c))
      as (-> & -> & -> & ->); [done..|by injection Hl|]. cbn. by rewrite <- (assoc_L (++)).
Qed.

(** ** Properties *)

(** C5. No measurement is lost track of, in any interleaving of the pinging
    goroutines, the connection loop and the flush: each report handed to
    [QueueReport] has been written to the connection, or is kept, or was
    discarded to make room, exactly one of these and once; those kept are in the
    order they were made, and never more than 500. *)
Theorem report_accounting c :
  client_reachable c →
  accepted c ≡ₚ ping_results (wire c) ++ (pp_Results <$> (pending c ++ in_hand c)) ++ discarded c ∧
  (pp_Results <$> (pending c ++ in_hand c)) `sublist_of` accepted c ∧ (zlen (pending c) <= 500)%Z.
Proof. intros Hr. destruct (client_inv c Hr) as [[H1 H2 H3 _] _]. by split_and!. Qed.

(** C16. An outage is replayed: of the reports made while the probe is offline
    the last 500 are kept, and the flush after the next registration writes
    them to the new connection in their order, under the probe's id, keeping for
    later exactly those whose write failed. *)
Theorem outage_replayed rs oks resp c :
  online c = false → queueMu c = Free → (zlen (reportQueue c) <= 500)%Z →
  loop c = AwaitResponse → conn c ≠ None → rs_Success resp = true →
  let kept := keep_last 500 (reportQueue c ++ rs) in
  length oks = length kept → kept ≠ [] →
  let c' := flushQueuedReports oks (registered (Some resp) (queue_all rs c)) in
  (∃ k, conn c = Some k ∧
    wire c' = wire c ++ ((λ r, (k, MPing (with_agent (rs_AgentID resp) r))) <$> outcome true kept oks)) ∧
  reportQueue c' = with_agent (rs_AgentID resp) <$> outcome false kept oks ∧
  queueMu c' = Free ∧ loop c' = Serving.
Proof.
  intros Ho Hf Hb Hl Hk Hs kept Hlen Hne. destruct (queue_all_offline rs c Ho Hf Hb) as (Q1 & Q2 & Q3 & Q4 & Q5 & Q6).
  change queueMax with 500%Z in Q1. fold kept in Q1. destruct (conn c) as [k|] eqn:Ek; [|done]. clear Hk.
  unfold flushQueuedReports, registered. rewrite Hs. set (c1 := mkClient _ _ _ _ _ _ _ _ _ _ _ _ _).
  assert (E : flush_begin c1 = set_holder (Flushing kept []) c1).
  { unfold flush_begin. change (reportQueue c1) with (reportQueue (queue_all rs c)). rewrite Q1. by destruct kept. }
  rewrite E. destruct (flush_loop k kept oks [] (set_holder (Flushing kept []) c1)) as (F1 & F2 & F3 & F4);
    [cbn; by rewrite Q6|done|done|].
  set (c2 := foldl _ (set_holder _ c1) oks) in *. unfold flush_one. rewrite F1. cbn [wire reportQueue queueMu loop set_loop set_holder set_queue].
  split_and!; [|done..]. exists k. split; [done|]. rewrite F2. cbn [wire set_holder c1 agentID]. by rewrite Q4.
Qed.

(** The connection loop: it holds a connection exactly from a successful dial
    to its clean-up and calls itself online exactly while registered, and its
    wait doubles from two seconds up to thirty with each round that registers
    nowhere, starting again at every registration. *)
Theorem connection_loop_sound c :
  client_reachable c →
  (conn c ≠ None ↔ has_conn (loop c) = true) ∧ online c = is_registered (loop c) ∧
  backoff c = Z.min (30 * second) (2 * second * 2 ^ Z.of_nat (waits c)) ∧
  (2 * second <= backoff c <= 30 * second)%Z.
Proof.
  intros Hr. destruct (client_inv c Hr) as [_ [H1 H2 H3 _ _ _]]. split_and!; try done; rewrite H3; [|lia].
  pose proof (Z.pow_pos_nonneg 2 (Z.of_nat (waits c)) ltac:(lia) ltac:(lia)). unfold second. lia.
Qed.

(** ** Witnesses *)

Definition demo_report (i : Z) : PingReportPayload :=
  mkPingReport "" [mkPing "t1" "1.1.1.1" i 1 1 fzero fzero fzero fzero fzero fzero ""].

(** A report made offline, a connection, a registration, and a second report
    while online. *)
Definition demo_offline : Client := QueueReport (demo_report 1) NewClient.
Definition demo_registered : Client :=
  registered (Some (mkRegisterResponse true "a1" "")) (register "tok" "1.2.1" true (dialed demo_offline)).
Definition demo_online : Client :=
  QueueReport_send true (with_agent "a1" (demo_report 2))
    (QueueReport (demo_report 2) (flushQueuedReports [true] demo_registered)).

Lemma demo_online_reachable : client_reachable demo_online.
Proof.
  unfold demo_online, flushQueuedReports, demo_registered, demo_offline. cbn [foldl].
  eapply reach_step; [|apply step_QueueReport_send; reflexivity].
  eapply reach_step; [|apply step_QueueReport; reflexivity].
  eapply reach_step; [|eapply step_flush_one; reflexivity].
  eapply reach_step; [|eapply step_flush_one; reflexivity].
  eapply reach_step; [|apply step_flush_begin; reflexivity].
  eapply reach_step; [|apply step_registered; reflexivity].
  eapply reach_step; [|apply step_register; reflexivity].
  eapply reach_step; [|apply step_dialed; reflexivity].
  eapply reach_step; [|apply step_QueueReport; reflexivity].
  by apply reach_init.
Qed.

Example demo_wire :
  wire demo_online = [(0%nat, MRegister "tok" "1.2.1"); (0%nat, MPing (with_agent "a1" (demo_report 1)));
                      (0%nat, MPing (with_agent "a1" (demo_report 2)))].
Proof. reflexivity. Qed.

Lemma report_accounting_witness :
  accepted demo_online ≡ₚ ping_results (wire demo_online) ++ (pp_Results <$> (pending demo_online ++ in_hand demo_online))
    ++ discarded demo_online ∧
  (pp_Results <$> (pending demo_online ++ in_hand demo_online)) `sublist_of` accepted demo_online ∧
  (zlen (pending demo_online) <= 500)%Z.
Proof. apply report_accounting, demo_online_reachable. Defined.

Lemma connection_loop_sound_witness :
  (conn demo_online ≠ None ↔ has_conn (loop demo_online) = true) ∧ online demo_online = is_registered (loop demo_online) ∧
  backoff demo_online = Z.min (30 * second) (2 * second * 2 ^ Z.of_nat (waits demo_online)) ∧
  (2 * second <= backoff demo_online <= 30 * second)%Z.
Proof. apply connection_loop_sound, demo_online_reachable. Defined.

Lemma outage_replayed_witness :
  let c := register "tok" "1.2.1" true (dialed NewClient) in
  let rs := [demo_report 1; demo_report 2; demo_report 3] in
  let resp := mkRegisterResponse true "a1" "" in
  let kept := keep_last 500 (reportQueue c ++ rs) in
  let c' := flushQueuedReports [true; false; true] (registered (Some resp) (queue_all rs c)) in
  (∃ k, conn c = Some k ∧
    wire c' = wire c ++ ((λ r, (k, MPing (with_agent (rs_AgentID resp) r))) <$> outcome true kept [true; false; true])) ∧
  reportQueue c' = with_agent (rs_AgentID resp) <$> outcome false kept [true; false; true] ∧
  queueMu c' = Free ∧ loop c' = Serving.
Proof. intros c rs resp kept. by apply (outage_replayed rs [true; false; true] resp c). Defined.

Example backoff_waits :
  backoff <$> [NewClient; retry NewClient; retry (retry NewClient); retry (retry (retry NewClient));
               retry (retry (retry (retry NewClient)))] = [2 * second; 4 * second; 8 * second; 16 * second; 30 * second]%Z.
Proof. reflexivity. Qed.
