(* ===== verification/ProbeMain.v ===== *)
(** * The probe process ([agent/cmd/agent/main.go]) and an update the Host asks for

    What [main] sets going besides the client and the scheduler: the hooks the
    Host's messages start, the background updater, and the end of the process,
    which is a new start of itself, a code that makes a supervisor start it again,
    or a plain exit. Hooks and the updater are goroutines next to [main]; a step
    is what one of them does between two points where the others can come in. *)
From S2P Require Import Prelude GoStrings GoFloat GoJson Protocol Feature Model Hub Ingest FileSys Updater Installer AgentClient.

(** ** The process *)

(** Where a goroutine is: [UpdateReport] has the outcome of [RunUpdate] to report,
    [Marking] is about to mark the update, [Cancelling] to end the context. *)
Inductive task :=
  | UpdateHook
  | UpdateReport (updated : bool) (ver : string) (err : option string)
  | Marking
  | SoftExitHook
  | Cancelling.

Inductive ending := ExecSelf | Exit (code : Z).

(** [Stopping]: the scheduler, the context and the client are stopped; [Asking]: no
    update was marked, and the soft exit is looked at next. *)
Inductive main_phase := Selecting | ShuttingDown | Stopping | Asking | Ended (e : ending).

(** The last three fields record history: how many checks the Host asked for, the
    results reported, and whether it asked for a soft exit. *)
Record Process := mkProcess {
  pr_client : Client; pr_files : FS; isUpdating : bool; softExit : bool; ctx_done : bool;
  pr_tasks : list task; pr_auto : bool; pr_main : main_phase;
  pr_asked : nat; pr_results : list UpdateResultPayload; pr_soft_asked : bool
}.

(** Field updates. *)
Definition with_client (c : Client) (p : Process) : Process :=
  mkProcess c (pr_files p) (isUpdating p) (softExit p) (ctx_done p) (pr_tasks p) (pr_auto p) (pr_main p)
    (pr_asked p) (pr_results p) (pr_soft_asked p).
Definition with_tasks (l : list task) (p : Process) : Process :=
  mkProcess (pr_client p) (pr_files p) (isUpdating p) (softExit p) (ctx_done p) l (pr_auto p) (pr_main p)
    (pr_asked p) (pr_results p) (pr_soft_asked p).
Definition with_files (fs : FS) (p : Process) : Process :=
  mkProcess (pr_client p) fs (isUpdating p) (softExit p) (ctx_done p) (pr_tasks p) (pr_auto p) (pr_main p)
    (pr_asked p) (pr_results p) (pr_soft_asked p).
Definition with_main (ph : main_phase) (p : Process) : Process :=
  mkProcess (pr_client p) (pr_files p) (isUpdating p) (softExit p) (ctx_done p) (pr_tasks p) (pr_auto p) ph
    (pr_asked p) (pr_results p) (pr_soft_asked p).
Definition with_auto (a : bool) (p : Process) : Process :=
  mkProcess (pr_client p) (pr_files p) (isUpdating p) (softExit p) (ctx_done p) (pr_tasks p) a (pr_main p)
    (pr_asked p) (pr_results p) (pr_soft_asked p).
Definition markUpdating (p : Process) : Process :=
  mkProcess (pr_client p) (pr_files p) true (softExit p) (ctx_done p) (pr_tasks p) (pr_auto p) (pr_main p)
    (pr_asked p) (pr_results p) (pr_soft_asked p).
Definition markSoftExit (p : Process) : Process :=
  mkProcess (pr_client p) (pr_files p) (isUpdating p) true (ctx_done p) (pr_tasks p) (pr_auto p) (pr_main p)
    (pr_asked p) (pr_results p) (pr_soft_asked p).
Definition cancel (p : Process) : Process :=
  mkProcess (pr_client p) (pr_files p) (isUpdating p) (softExit p) true (pr_tasks p) (pr_auto p) (pr_main p)
    (pr_asked p) (pr_results p) (pr_soft_asked p).

Section Process.
Context {W : IntSize} `{TempNames} (m : Machine) (acfg : AgentConfig) (version : string).
(** The networks the updater may meet. *)
Variable reach : Net → Prop.

Definition repo : string := "guimc233/JustPing".
Definition hook_config : Config := mkConfig version (ac_ChinaMirror acfg) false repo.
Definition auto_config : Config := mkConfig version (ac_ChinaMirror acfg) true repo.

Definition start (fs : FS) : Process :=
  mkProcess NewClient fs false false false [] (IsAutoUpdateEnabled acfg) Selecting 0 [] false.

(** What a message of the Host sets going; both hooks are set. *)
Definition on_message (env : Envelope) (p : Process) : Process :=
  match react true true env with
  | AgentClient.RunUpdate =>
      mkProcess (pr_client p) (pr_files p) (isUpdating p) (softExit p) (ctx_done p) (pr_tasks p ++ [UpdateHook]) (pr_auto p)
        (pr_main p) (S (pr_asked p)) (pr_results p) (pr_soft_asked p)
  | AgentClient.SoftExit =>
      mkProcess (pr_client p) (pr_files p) (isUpdating p) (softExit p) (ctx_done p) (pr_tasks p ++ [SoftExitHook]) (pr_auto p)
        (pr_main p) (pr_asked p) (pr_results p) true
  | _ => p
  end.

(** The update hook: the check, and its report. *)
Definition run_hook (net : Net) (s : Sys) (fs : FS) : FS * task :=
  let '(fs, (updated, ver, err)) := Updater.RunUpdate m hook_config false net s fs in (fs, UpdateReport updated ver err).
Definition result_of (updated : bool) (ver : string) (err : option string) : UpdateResultPayload :=
  mkUpdateResult "" version ver updated (default "" err).
Definition report (updated : bool) (ver : string) (err : option string) (p : Process) : Process :=
  let r := result_of updated ver err in
  mkProcess (SendUpdateResult r (pr_client p)) (pr_files p) (isUpdating p) (softExit p) (ctx_done p)
    (pr_tasks p ++ (if updated then [Marking] else [])) (pr_auto p) (pr_main p) (pr_asked p) (pr_results p ++ [r]) (pr_soft_asked p).

(** One check of the background updater, and [onUpdateSuccess]. *)
Definition auto_check (net : Net) (s : Sys) (p : Process) : Process :=
  match checkAndApply m auto_config net s (pr_files p) with
  | (fs, Some _) => with_auto false (with_tasks (pr_tasks p ++ [Marking]) (with_files fs p))
  | (fs, None) => with_files fs p
  end.

(** The end of [main]: whether an update was marked, and then the soft exit.
    [exec_ok]: the executable is found and started. *)
Definition end_updating (exec_ok : bool) (p : Process) : Process :=
  with_main (if isUpdating p then Ended (if exec_ok then ExecSelf else Exit 0) else Asking) p.
Definition end_soft (p : Process) : Process := with_main (Ended (if softExit p then Exit 1 else Exit 0)) p.

Inductive process_step (p : Process) : Process → Prop :=
  | ps_client c : AgentClient.step (pr_client p) c → (∀ r, c ≠ SendUpdateResult r (pr_client p)) → process_step p (with_client c p)
  | ps_message env : loop (pr_client p) = Serving → process_step p (on_message env p)
  | ps_hook net s l1 l2 : pr_tasks p = l1 ++ UpdateHook :: l2 → reach net →
      process_step p (let '(fs, t) := run_hook net s (pr_files p) in with_tasks (l1 ++ t :: l2) (with_files fs p))
  | ps_report u v e l1 l2 : pr_tasks p = l1 ++ UpdateReport u v e :: l2 → process_step p (report u v e (with_tasks (l1 ++ l2) p))
  | ps_mark l1 l2 : pr_tasks p = l1 ++ Marking :: l2 → process_step p (markUpdating (with_tasks (l1 ++ Cancelling :: l2) p))
  | ps_soft l1 l2 : pr_tasks p = l1 ++ SoftExitHook :: l2 → process_step p (markSoftExit (with_tasks (l1 ++ Cancelling :: l2) p))
  | ps_cancel l1 l2 : pr_tasks p = l1 ++ Cancelling :: l2 → process_step p (cancel (with_tasks (l1 ++ l2) p))
  | ps_auto net s : pr_auto p = true → reach net → process_step p (auto_check net s p)
  | ps_auto_end : ctx_done p = true → process_step p (with_auto false p)
  | ps_signal : pr_main p = Selecting → process_step p (with_main ShuttingDown p)
  | ps_done : pr_main p = Selecting → ctx_done p = true → process_step p (with_main ShuttingDown p)
  | ps_stop : pr_main p = ShuttingDown → process_step p (with_main Stopping (cancel p))
  | ps_end exec_ok : pr_main p = Stopping → process_step p (end_updating exec_ok p)
  | ps_end_soft : pr_main p = Asking → process_step p (end_soft p).

(** Nothing runs on once [main] has ended. *)
Definition live_step (p p' : Process) : Prop := (∀ e, pr_main p ≠ Ended e) ∧ process_step p p'.
Definition process_reachable (fs0 : FS) : Process → Prop := reachable (λ p, p = start fs0) live_step.
End Process.

(** ** The invariant *)

(** What the client has been told to write, or has written. *)
Definition says (c : Client) (o : outgoing) : Prop := o ∈ senders c ∨ ∃ k, (k, o) ∈ wire c.

Lemma says_sent ok o c o' : says (fst (sendEnvelope ok o c)) o' → says c o' ∨ o' = o.
Proof.
  unfold sendEnvelope. destruct (conn c) as [k|]; [|by left]. destruct ok; [|by left]. cbn.
  intros [Hs|[j Hj]]; [left; by left|]. cbn in Hj. apply elem_of_app in Hj as [Hj|Hj]; [left; right; by exists j|].
  apply list_elem_of_singleton in Hj as [= _ ->]. by right.
Qed.

(** Results are only written as they were handed in. *)
Lemma says_step c c' r : AgentClient.step c c' → (∀ r0, c' ≠ SendUpdateResult r0 c) → says c' (MUpdate r) → says c (MUpdate r).
Proof.
  intros Hs Hn.
  assert (Hsend : ∀ ok o d, (∀ x, says d x → says c x) → o ≠ MUpdate r → says (fst (sendEnvelope ok o d)) (MUpdate r) → says c (MUpdate r)).
  { intros ok o d Hd Ho Hx. apply says_sent in Hx as [Hx|Hx]; [by apply Hd|by subst]. }
  destruct Hs as [r0 _|r0 ok E|r0|r0| |o ok l1 l2 E| | |token v ok _|resp _|_ _|todo rem ok E| | |].
  - unfold QueueReport, enqueue, took. cbn. destruct (isOnline _); [done|]. cbn. destruct (reportQueue c); [done|]. by destruct (_ <=? _)%Z.
  - unfold QueueReport_send. pose proof (Hsend ok (MPing r0) (set_holder Free c) ltac:(done) ltac:(done)) as Hx.
    destruct (sendEnvelope ok _ _) as [d sent]. cbn [fst] in Hx. destruct sent; [done|]. intros Hd. apply Hx. revert Hd.
    unfold enqueue. destruct (reportQueue d) as [|old q]; [done|]. by destruct (_ <=? _)%Z.
  - unfold SendTracerouteReport. destruct (isOnline c); [|done]. intros [Hx|Hx]; [|by right]. cbn in Hx.
    apply elem_of_app in Hx as [Hx|Hx]; [by left|]. by apply list_elem_of_singleton in Hx.
  - by destruct (Hn r0).
  - intros [Hx|Hx]; [|by right]. cbn in Hx. apply elem_of_app in Hx as [Hx|Hx]; [by left|]. by apply list_elem_of_singleton in Hx.
  - intros Hx. apply says_sent in Hx as [[Hx|Hx]|Hx].
    + left. rewrite E. cbn in Hx. apply elem_of_app. apply elem_of_app in Hx as [Hx|Hx]; [by left|right; by right].
    + by right.
    + left. rewrite E, Hx. apply elem_of_app. right. by left.
  - done.
  - done.
  - unfold register. pose proof (Hsend ok (MRegister token v) c ltac:(done) ltac:(done)) as Hx.
    destruct (sendEnvelope ok _ _) as [d sent]. cbn [fst] in Hx. by destruct sent.
  - unfold registered. destruct resp as [rs|]; [|done]. by destruct (rs_Success rs).
  - unfold flush_begin. by destruct (reportQueue c).
  - unfold flush_one. rewrite E. destruct todo as [|r0 todo]; [done|].
    pose proof (Hsend ok (MPing (with_agent (agentID c) r0)) c ltac:(done) ltac:(done)) as Hx.
    destruct (sendEnvelope ok _ _) as [d sent]. cbn [fst] in Hx. by destruct sent.
  - done.
  - done.
  - done.
Qed.

Definition same_result (r r0 : UpdateResultPayload) : Prop :=
  ur_CurrentVersion r = ur_CurrentVersion r0 ∧ ur_LatestVersion r = ur_LatestVersion r0 ∧
  ur_Updating r = ur_Updating r0 ∧ ur_Error r = ur_Error r0.
Definition marks (t : task) : Prop := match t with UpdateReport u _ _ => u = true | Marking => True | _ => False end.
Definition checking (t : task) : bool := match t with UpdateHook | UpdateReport _ _ _ => true | _ => false end.

Section Invariant.
Context {W : IntSize} `{TempNames} (m : Machine) (acfg : AgentConfig) (version : string) (reach : Net → Prop) (fs0 : FS).
Hypothesis Hos : m_OS m ≠ "windows".
Hypothesis Hexec : is_Some (fs0 !! m_Exec m).

(** The executable is the verified file of a release some network served. *)
Definition genuine (fs : FS) : Prop :=
  ∃ net v data mode, reach net ∧ release_file m net repo v (ac_ChinaMirror acfg) data ∧ fs !! m_Exec m = Some (File data mode).

Definition advance (fs fs' : FS) : Prop :=
  (∀ q, q ≠ m_Exec m → is_Some (fs !! q) → fs' !! q = fs !! q) ∧ (fs' !! m_Exec m = fs !! m_Exec m ∨ genuine fs').

Record process_inv (p : Process) : Prop := {
  pi_others : ∀ q, q ≠ m_Exec m → is_Some (fs0 !! q) → pr_files p !! q = fs0 !! q;
  pi_exec : pr_files p !! m_Exec m = fs0 !! m_Exec m ∨ genuine (pr_files p);
  pi_marked : isUpdating p = true → genuine (pr_files p);
  pi_marking : Forall (λ t, marks t → genuine (pr_files p)) (pr_tasks p);
  pi_told : Forall (λ r, ur_CurrentVersion r = version ∧ (ur_Updating r = true → genuine (pr_files p))) (pr_results p);
  pi_soft : softExit p = true → pr_soft_asked p = true;
  pi_softs : Forall (λ t, t = SoftExitHook → pr_soft_asked p = true) (pr_tasks p);
  pi_count : pr_asked p = (length (List.filter checking (pr_tasks p)) + length (pr_results p))%nat;
  pi_said : ∀ r, says (pr_client p) (MUpdate r) → ∃ r0, r0 ∈ pr_results p ∧ same_result r r0;
  pi_end : ∀ e, pr_main p = Ended e →
    match e with ExecSelf => isUpdating p = true | Exit c => c = 0%Z ∨ c = 1%Z ∧ softExit p = true end
}.

Lemma genuine_kept fs fs' : advance fs fs' → genuine fs → genuine fs'.
Proof.
  intros [_ [He|Hg]]; [|done]. intros (net & v & data & mode & ? & ? & ?). exists net, v, data, mode. by rewrite He.
Qed.

Lemma inv_exec p : process_inv p → is_Some (pr_files p !! m_Exec m).
Proof. intros Hp. destruct (pi_exec _ Hp) as [->|(? & ? & ? & ? & _ & _ & ->)]; [done|by eexists]. Qed.

Lemma run_hook_spec net s fs : reach net → is_Some (fs !! m_Exec m) →
  let '(fs', t) := run_hook m acfg version net s fs in
  advance fs fs' ∧ ∃ u v e, t = UpdateReport u v e ∧ (u = true → genuine fs').
Proof.
  intros Hr He. unfold run_hook.
  pose proof (RunUpdate_spec m (hook_config acfg version) false net s fs Hos He) as Hu.
  destruct (Updater.RunUpdate _ _ _ _ _ _) as [fs' [[u v] e]]. destruct Hu as [Hk Hu].
  assert (Hg : u = true → genuine fs').
  { intros ->. destruct Hu as (_ & _ & _ & data & mode & Hf & Hx). exists net, v, data, mode. by split_and!. }
  split; [split; [done|]|by exists u, v, e]. destruct u; [right; by apply Hg|left]. by destruct Hu.
Qed.

Lemma auto_check_spec net s fs : reach net → is_Some (fs !! m_Exec m) →
  let '(fs', r) := checkAndApply m (auto_config acfg version) net s fs in
  advance fs fs' ∧ (is_Some r → genuine fs').
Proof.
  intros Hr He. pose proof (check_spec m (auto_config acfg version) net s fs Hos He) as Hc.
  destruct (checkAndApply _ _ _ _ _) as [fs' r]. destruct Hc as [[Hk Hi] _].
  assert (Hg : is_Some r → genuine fs').
  { intros [v ->]. destruct Hi as (data & mode & Hf & Hx). by exists net, v, data, mode. }
  split; [split; [done|]|done]. destruct r as [v|]; [right; apply Hg; by eexists|by left].
Qed.

(** Only the files and the tasks change. *)
Lemma inv_files p fs l :
  process_inv p → advance (pr_files p) fs → Forall (λ t, marks t → genuine fs) l →
  Forall (λ t, t = SoftExitHook → pr_soft_asked p = true) l →
  length (List.filter checking l) = length (List.filter checking (pr_tasks p)) →
  process_inv (with_tasks l (with_files fs p)).
Proof.
  intros Hp Ha Hm Hs Hl. pose proof (genuine_kept _ _ Ha) as Hg. destruct Hp as [P1 P2 P3 P4 P5 P6 P7 P8 P9 P10]. split; cbn; try done.
  - intros q Hq Hx. rewrite <- P1 by done. apply Ha; [done|]. by rewrite P1.
  - destruct P2 as [E|G]; [|right; by apply Hg]. destruct Ha as [_ [E'|?]]; [left; by rewrite E'|by right].
  - intros Hu. apply Hg. auto.
  - eapply Forall_impl; [exact P5|]. intros r [? Hr]. split; [done|]. auto.
  - by rewrite Hl.
Qed.

(** Only the tasks change, to ones that were there or do no harm. *)
Lemma inv_tasks p l :
  process_inv p → Forall (λ t, marks t → genuine (pr_files p)) l →
  Forall (λ t, t = SoftExitHook → pr_soft_asked p = true) l →
  length (List.filter checking l) = length (List.filter checking (pr_tasks p)) → process_inv (with_tasks l p).
Proof.
  intros Hp Hm Hs Hl. destruct p. apply (inv_files _ _ l Hp); try done. split; [done|by left].
Qed.

Lemma inv_init : process_inv (start acfg fs0).
Proof.
  split; cbn; try done; try by constructor.
  intros r [Hr|[k Hk]]; [by apply elem_of_nil in Hr|by apply elem_of_nil in Hk].
Qed.

Lemma inv_task_step p t t' l1 l2 :
  process_inv p → pr_tasks p = l1 ++ t :: l2 → (marks t' → genuine (pr_files p)) → t' ≠ SoftExitHook → checking t = checking t' →
  process_inv (with_tasks (l1 ++ t' :: l2) p).
Proof.
  intros Hp E Hm Hs Hc. pose proof (pi_marking _ Hp) as H1. pose proof (pi_softs _ Hp) as H2.
  rewrite E in H1, H2. apply Forall_app in H1 as [A1 [A2 A3]%Forall_cons]. apply Forall_app in H2 as [B1 [B2 B3]%Forall_cons].
  apply inv_tasks; [done| | |].
  { apply Forall_app. split; [exact A1|]. constructor; [exact Hm|exact A3]. }
  { apply Forall_app. split; [exact B1|]. constructor; [|exact B3]. intros Ht. by destruct Hs. }
  rewrite E, !List.filter_app, !length_app. cbn [List.filter]. rewrite Hc. by destruct (checking t').
Qed.

Lemma inv_report p u v e l1 l2 :
  process_inv p → pr_tasks p = l1 ++ UpdateReport u v e :: l2 → process_inv (report version u v e (with_tasks (l1 ++ l2) p)).
Proof.
  intros Hp E. destruct Hp as [P1 P2 P3 P4 P5 P6 P7 P8 P9 P10]. rewrite E in P4, P7, P8.
  apply Forall_app in P4 as [A1 [A2 A3]%Forall_cons]. apply Forall_app in P7 as [B1 [B2 B3]%Forall_cons].
  split; cbn; try done.
  - rewrite !Forall_app. split_and!; try done. destruct u; [|done]. constructor; [by intros _; apply A2|done].
  - apply Forall_app. split; [done|]. constructor; [|done]. split; [done|]. cbn. intros ->. by apply A2.
  - rewrite !Forall_app. split_and!; try done. destruct u; [|done]. by constructor.
  - rewrite P8, !List.filter_app, !length_app. cbn. destruct u; cbn; lia.
  - intros r [Hr|Hr].
    + cbn in Hr. apply elem_of_app in Hr as [Hr|Hr].
      * destruct (P9 r (or_introl Hr)) as (r0 & ? & ?). exists r0. split; [apply elem_of_app; by left|done].
      * apply list_elem_of_singleton in Hr as [= ->]. exists (result_of version u v e). split; [apply elem_of_app; right; by left|done].
    + destruct (P9 r (or_intror Hr)) as (r0 & ? & ?). exists r0. split; [apply elem_of_app; by left|done].
Qed.

Lemma inv_hook p net s l1 l2 :
  process_inv p → pr_tasks p = l1 ++ UpdateHook :: l2 → reach net →
  process_inv (let '(fs, t) := run_hook m acfg version net s (pr_files p) in with_tasks (l1 ++ t :: l2) (with_files fs p)).
Proof.
  intros Hp E Hr. pose proof (run_hook_spec net s (pr_files p) Hr (inv_exec p Hp)) as Hh.
  destruct (run_hook _ _ _ _ _ _) as [fs t]. destruct Hh as [Ha (u & v & e & -> & Hu)].
  pose proof (pi_marking _ Hp) as H1. pose proof (pi_softs _ Hp) as H2. rewrite E in H1, H2.
  apply Forall_app in H1 as [H1 [_ H1']%Forall_cons]. apply Forall_app in H2 as [? [? ?]%Forall_cons].
  assert (Hg : ∀ l, Forall (λ t, marks t → genuine (pr_files p)) l → Forall (λ t, marks t → genuine fs) l).
  { intros l Hl. eapply Forall_impl; [exact Hl|]. intros t Ht Hm. by apply (genuine_kept _ _ Ha), Ht. }
  apply inv_files; [done..| | |].
  - apply Forall_app. split; [auto|]. constructor; [done|auto].
  - by apply Forall_app; split; [|constructor].
  - rewrite E, !List.filter_app, !length_app. cbn. lia.
Qed.

Lemma inv_auto p net s : process_inv p → reach net → process_inv (auto_check m acfg version net s p).
Proof.
  intros Hp Hr. pose proof (auto_check_spec net s (pr_files p) Hr (inv_exec p Hp)) as Hc. unfold auto_check.
  destruct (checkAndApply _ _ _ _ _) as [fs r]. destruct Hc as [Ha Hg].
  assert (Hm : Forall (λ t, marks t → genuine fs) (pr_tasks p)).
  { eapply Forall_impl; [exact (pi_marking _ Hp)|]. intros t Ht Hm. by apply (genuine_kept _ _ Ha), Ht. }
  assert (Hf : process_inv (with_tasks (pr_tasks p) (with_files fs p))) by (apply inv_files; [done..|exact (pi_softs _ Hp)|done]).
  destruct r as [v|]; [|by destruct p].
  assert (H1 : process_inv (with_tasks (pr_tasks p ++ [Marking]) (with_files fs p))).
  { apply inv_files; [done..| | |].
    - apply Forall_app. split; [done|]. constructor; [|done]. intros _. by apply Hg.
    - apply Forall_app. split; [exact (pi_softs _ Hp)|]. by constructor.
    - rewrite List.filter_app, length_app. cbn. lia. }
  by destruct H1.
Qed.

Lemma inv_message env p : process_inv p → process_inv (on_message env p).
Proof.
  intros Hp. unfold on_message. destruct (react true true env); try done; destruct Hp as [P1 P2 P3 P4 P5 P6 P7 P8 P9 P10]; split; cbn; try done.
  - apply Forall_app. split; [done|]. by constructor.
  - apply Forall_app. split; [done|]. by constructor.
  - rewrite P8, List.filter_app, length_app. cbn. lia.
  - apply Forall_app. split; [done|]. by constructor.
  - apply Forall_true. done.
  - rewrite P8, List.filter_app, length_app. cbn. lia.
Qed.

Lemma inv_step p p' : process_inv p → process_step m acfg version reach p p' → (∀ e, pr_main p ≠ Ended e) → process_inv p'.
Proof.
  intros Hp Hs Hlive.
  assert (Hmain : ∀ ph, (∀ e, ph = Ended e → match e with ExecSelf => isUpdating p = true | Exit c => c = 0%Z ∨ c = 1%Z ∧ softExit p = true end) →
                        process_inv (with_main ph p)) by (intros ph Hph; destruct Hp; by split).
  destruct Hs as [c Hc Hn|env _|net s l1 l2 E Hr|u v e l1 l2 E|l1 l2 E|l1 l2 E|l1 l2 E|net s _ Hr|_|_|_ _|_|x _|_].
  - destruct Hp as [P1 P2 P3 P4 P5 P6 P7 P8 P9 P10]. split; cbn; try done. intros r Hr. apply P9. by apply (says_step _ c).
  - by apply inv_message.
  - by apply inv_hook.
  - by apply inv_report.
  - assert (Hg : genuine (pr_files p)).
    { pose proof (pi_marking _ Hp) as Hm. rewrite E in Hm. apply Forall_app in Hm as [_ [Hm _]%Forall_cons]. by apply Hm. }
    apply (inv_task_step p Marking Cancelling l1 l2) in Hp; [|done..]. destruct Hp as [P1 P2 P3 P4 P5 P6 P7 P8 P9 P10].
    split; cbn; try done. intros e He. by destruct (Hlive e).
  - assert (Hq : pr_soft_asked p = true).
    { pose proof (pi_softs _ Hp) as Hm. rewrite E in Hm. apply Forall_app in Hm as [_ [Hm _]%Forall_cons]. by apply Hm. }
    apply (inv_task_step p SoftExitHook Cancelling l1 l2) in Hp; [|done..]. destruct Hp as [P1 P2 P3 P4 P5 P6 P7 P8 P9 P10].
    split; cbn; try done. intros e He. by destruct (Hlive e).
  - pose proof (pi_marking _ Hp) as H1. pose proof (pi_softs _ Hp) as H2. rewrite E in H1, H2.
    apply Forall_app in H1 as [? [_ ?]%Forall_cons]. apply Forall_app in H2 as [? [_ ?]%Forall_cons].
    assert (Ht : process_inv (with_tasks (l1 ++ l2) p)).
    { apply inv_tasks; [done|by apply Forall_app..|]. by rewrite E, !List.filter_app. }
    by destruct Ht.
  - by apply inv_auto.
  - by destruct Hp.
  - by apply Hmain.
  - by apply Hmain.
  - assert (Hc : process_inv (cancel p)) by (by destruct Hp). by destruct Hc.
  - apply Hmain. intros e. destruct (isUpdating p); [|done]. destruct x; intros [= <-]; [done|by left].
  - apply Hmain. intros e [= <-]. destruct (softExit p); [by right|by left].
Qed.

Lemma process_invariant p : process_reachable m acfg version reach fs0 p → process_inv p.
Proof. apply reachable_ind_inv; [intros s ->; apply inv_init|]. intros s s' Hi [Hl Hs]. by apply (inv_step s). Qed.
End Invariant.

(** ** The end of a run *)

Lemma rtc_live {W : IntSize} `{TempNames} m acfg version reach p p1 p' :
  (∀ e, pr_main p ≠ Ended e) → process_step m acfg version reach p p1 → rtc (live_step m acfg version reach) p1 p' →
  rtc (live_step m acfg version reach) p p'.
Proof. intros Hl Hs Hr. eapply rtc_l; [split; [exact Hl|exact Hs]|exact Hr]. Qed.

(** With an update to report, and nothing else going on, the process reports it and
    starts the new file. *)
Lemma update_restarts {W : IntSize} `{TempNames} m acfg version reach p v e l1 l2 :
  pr_tasks p = l1 ++ UpdateReport true v e :: l2 → pr_main p = Selecting →
  ∃ p', rtc (live_step m acfg version reach) p p' ∧ pr_main p' = Ended ExecSelf ∧ pr_files p' = pr_files p ∧
        pr_results p' = pr_results p ++ [result_of version true v e].
Proof.
  intros Et Em.
  eexists. split; [|split; [|split]].
  - eapply rtc_live; [by rewrite Em|by apply ps_report with (1 := Et)|].
    eapply rtc_live; [by cbn; rewrite Em|by apply ps_mark with (l1 := l1 ++ l2) (l2 := [])|].
    eapply rtc_live; [by cbn; rewrite Em|by apply ps_cancel with (l1 := l1 ++ l2) (l2 := [])|].
    eapply rtc_live; [by cbn; rewrite Em|by apply ps_done|].
    eapply rtc_live; [done|by apply ps_stop|].
    eapply rtc_live; [done|by apply (ps_end _ _ _ _ _ true)|]. apply rtc_refl.
  - done.
  - done.
  - done.
Qed.

(** An update request the hub accepts waits at the end of the probe's queue. *)
Lemma update_queued {W : IntSize} `{MapOrder} id h h' :
  hub_reachable h → RequestUpdateCheck id h = (h', None) →
  ∃ k ac, agents h !! id = Some k ∧ hconns h' !! k = Some ac ∧ last (ac_Send ac) = Some PUpdateCheck ∧
          Supports (ac_Version ac) UpdateCheck = true.
Proof.
  intros Hh%hub_inv. unfold RequestUpdateCheck, liveProbe. destruct (agents h !! id) as [k|] eqn:Ek; [|done].
  cbn [mbind option_bind]. destruct (hconns h !! k) as [ac|] eqn:Ec; [|done].
  destruct (Supports (ac_Version ac) UpdateCheck) eqn:Es; cbn [negb]; [|done].
  unfold SendToAgent. cbn [agents hconns]. rewrite Ek, Ec. cbn [mbind option_bind]. unfold SafeSend.
  pose proof (Forall_lookup_1 _ _ _ _ (inv_conns _ Hh) Ec) as Hc. destruct (ac_closed ac) eqn:Ea; [done|].
  rewrite (conn_chan _ Hc), Ea. destruct (_ <? _)%nat; [|done]. intros [= <-]. exists k. eexists. split; [done|].
  unfold set_conn. cbn [hconns]. rewrite list_lookup_insert_eq by (by eapply lookup_lt_Some). split; [done|].
  cbn [ac_Send ac_Version]. by rewrite last_snoc.
Qed.

(** ** Properties *)

(** C8. The probe process, on a system other than Windows: whatever the Host sends,
    whatever the networks serve, whichever calls fail and however the hooks, the
    background updater and the end of the process interleave, the executable is the
    one it started with or the verified file of a release, and no other file that
    was there changes. It only starts itself again when the executable is such a
    file, and only exits with a failure when the Host asked for a soft exit. Every
    check the Host asks for is reported once, an update is never reported before
    the file is in place, and the connection carries no other results. *)
Theorem probe_process {W : IntSize} `{TempNames} m acfg version reach fs0 p :
  m_OS m ≠ "windows" → is_Some (fs0 !! m_Exec m) → process_reachable m acfg version reach fs0 p →
  let genuine := genuine m acfg reach in
  (∀ q, q ≠ m_Exec m → is_Some (fs0 !! q) → pr_files p !! q = fs0 !! q) ∧
  (pr_files p !! m_Exec m = fs0 !! m_Exec m ∨ genuine (pr_files p)) ∧
  (pr_main p = Ended ExecSelf → genuine (pr_files p)) ∧
  (∀ c, pr_main p = Ended (Exit c) → c = 0%Z ∨ c = 1%Z ∧ pr_soft_asked p = true) ∧
  pr_asked p = (length (List.filter checking (pr_tasks p)) + length (pr_results p))%nat ∧
  Forall (λ r, ur_CurrentVersion r = version ∧ (ur_Updating r = true → genuine (pr_files p))) (pr_results p) ∧
  (∀ r, says (pr_client p) (MUpdate r) → ∃ r0, r0 ∈ pr_results p ∧ same_result r r0).
Proof.
  intros Hos Hex Hp gen. apply process_invariant in Hp; [|done..]. destruct Hp as [P1 P2 P3 P4 P5 P6 P7 P8 P9 P10].
  split_and!; try done.
  - intros He. by apply P3, (P10 _ He).
  - intros c Hc. destruct (P10 _ Hc) as [?|[? ?]]; [by left|right; auto].
Qed.

(** C4. An update from the console to the probe and back. A request the Host accepts
    is the last message of the connection of a probe that knows it, and has the
    probe run its updater; the result the probe sends back is what the console then
    shows. If that says the probe is updating, the executable is the verified file of
    the release named, which is not the running one, and the process can go on to
    start it; if not, the executable is what it was, and no error means that the
    running release is the one the result names as the latest. *)
Theorem update_end_to_end {W : IntSize} {TT : TimeText} `{Columns} `{MapOrder} `{TempNames} id h h' agentID m acfg version net s fs now fl db hub :
  id ≠ "" → m_OS m ≠ "windows" → is_Some (fs !! m_Exec m) →
  hub_reachable h → RequestUpdateCheck id h = (h', None) →
  (∃ k ac, agents h !! id = Some k ∧ hconns h' !! k = Some ac ∧ last (ac_Send ac) = Some PUpdateCheck ∧
           Supports (ac_Version ac) UpdateCheck = true) ∧
  (∀ j, react true true (mkEnvelope TypeUpdateCheck j) = AgentClient.RunUpdate) ∧
  let '(fs', t) := run_hook m acfg version net s fs in
  ∃ u v e, t = UpdateReport u v e ∧
    let res := mkUpdateResult agentID version v u (default "" e) in
    SendUpdateResult (result_of version u v e) (mkClient None true agentID [] Free [] Serving 0 0 [] [] [] 0)
      = mkClient None true agentID [] Free [MUpdate res] Serving 0 0 [] [] [] 0 ∧
    handleIncomingMessage id now fl (mkEnvelope TypeUpdateResult (enc_UpdateResult res)) db = (db, UpdateReported res) ∧
    updates (RecordUpdateStatus now id res hub) !! id = Some (mkUpdateStatus version v u (default "" e) now) ∧
    if u then
      e = None ∧ Version.Clean version ≠ Version.Clean v ∧
      (∃ data mode, release_file m net repo v (ac_ChinaMirror acfg) data ∧ fs' !! m_Exec m = Some (File data mode)) ∧
      ∀ reach p l1 l2, pr_tasks p = l1 ++ t :: l2 → pr_main p = Selecting →
        ∃ p', rtc (live_step m acfg version reach) p p' ∧ pr_main p' = Ended ExecSelf ∧ pr_files p' = pr_files p
    else fs' !! m_Exec m = fs !! m_Exec m ∧ (e = None → Version.Clean version = Version.Clean v).
Proof.
  intros Hid Hos Hex Hhub Hreq. split; [by apply update_queued in Hreq|]. split; [done|].
  unfold run_hook. pose proof (RunUpdate_spec m (hook_config acfg version) false net s fs Hos Hex) as Hu.
  destruct (Updater.RunUpdate _ _ _ _ _ _) as [fs' [[u v] e]]. exists u, v, e. split; [done|]. cbv zeta. split; [done|]. split.
  { unfold handleIncomingMessage. cbn [env_Type env_Payload].
    change (TypeUpdateResult =? TypeHeartbeat)%string with false. change (TypeUpdateResult =? TypePingReport)%string with false.
    change (TypeUpdateResult =? TypeTracerouteReport)%string with false. change (TypeUpdateResult =? TypeUpdateResult)%string with true.
    cbv iota. unfold decode. change (enc_UpdateResult ?r) with (wire_enc r). by rewrite wire_roundtrip. }
  split.
  { unfold RecordUpdateStatus. rewrite (proj2 (String.eqb_neq _ _) Hid). cbn [updates]. apply lookup_insert_eq. }
  destruct Hu as [_ Hu]. destruct u.
  - destruct Hu as (He & _ & Hv & Hf). split_and!; [done|by destruct Hv as [?|?]|done|].
    intros reach p l1 l2 Et Em. destruct (update_restarts m acfg version reach p v e l1 l2 Et Em) as (p' & ? & ? & ? & _). by exists p'.
  - destruct Hu as [He Hv]. split; [done|]. intros E. by apply Hv.
Qed.

(** ** Witnesses *)

Definition demo_acfg : AgentConfig := mkAgentConfig "https://ping.example" "tok" true (Some false).
Definition demo_reach (net : Net) : Prop := net = demo_net.
Definition demo_check : Envelope := mkEnvelope TypeUpdateCheck JNull.

(** A process connected to its Host, and asked to update. *)
Definition demo_client : Client :=
  flush_begin (registered (Some (mkRegisterResponse true "a1" "")) (register "tok" "1.2.1" true (dialed NewClient))).
Definition demo_connected : Process := with_client demo_client (start demo_acfg demo_fs).
Definition demo_asked {W : IntSize} : Process := on_message demo_check demo_connected.
Definition demo_hooked {W : IntSize} `{TempNames} : Process :=
  let '(fs, t) := run_hook demo_machine demo_acfg "1.2.1" demo_net all_ok (pr_files demo_asked) in with_tasks [t] (with_files fs demo_asked).

Lemma demo_connected_reachable {W : IntSize} `{TempNames} :
  process_reachable demo_machine demo_acfg "1.2.1" demo_reach demo_fs demo_connected.
Proof.
  assert (Hstep : ∀ p c, process_reachable demo_machine demo_acfg "1.2.1" demo_reach demo_fs p → pr_main p = Selecting →
    AgentClient.step (pr_client p) c → senders c = senders (pr_client p) →
    process_reachable demo_machine demo_acfg "1.2.1" demo_reach demo_fs (with_client c p)).
  { intros p c Hp Hm Hc Hn. eapply reach_step; [exact Hp|]. split; [by rewrite Hm|]. apply ps_client; [done|].
    intros r ->. apply (f_equal length) in Hn. cbn in Hn. rewrite length_app in Hn. cbn in Hn. lia. }
  set (c1 := dialed NewClient). set (c2 := register "tok" "1.2.1" true c1).
  set (c3 := registered (Some (mkRegisterResponse true "a1" "")) c2).
  change demo_connected with (with_client (flush_begin c3) (with_client c3 (with_client c2 (with_client c1 (start demo_acfg demo_fs))))).
  apply Hstep; [|done|by apply step_flush_begin|done]. apply Hstep; [|done|by apply step_registered|done].
  apply Hstep; [|done|by apply step_register|done]. apply Hstep; [by apply reach_init|done|by apply step_dialed|done].
Qed.

Lemma probe_process_witness :
  let _ := int64_size in let _ := counted_names in
  pr_tasks demo_hooked = [UpdateReport true "v1.3.0" None] ∧
  genuine demo_machine demo_acfg demo_reach (pr_files demo_hooked) ∧ pr_asked demo_hooked = 1.
Proof.
  intros W T. split; [vm_compute; reflexivity|]. split; [|reflexivity].
  assert (R1 : process_reachable demo_machine demo_acfg "1.2.1" demo_reach demo_fs demo_asked).
  { eapply reach_step; [exact demo_connected_reachable|]. split; [done|]. by apply (ps_message _ _ _ _ _ demo_check). }
  assert (R2 : process_reachable demo_machine demo_acfg "1.2.1" demo_reach demo_fs demo_hooked).
  { eapply reach_step; [exact R1|]. split; [done|]. by apply (ps_hook _ _ _ _ _ demo_net all_ok [] []). }
  pose proof (probe_process demo_machine demo_acfg "1.2.1" demo_reach demo_fs demo_hooked ltac:(discriminate)
    ltac:(eexists; vm_compute; reflexivity) R2) as (_ & [He|Hg] & _); [|exact Hg].
  exfalso. assert (Hn : pr_files demo_hooked !! m_Exec demo_machine = Some (File demo_file 493)) by (vm_compute; reflexivity).
  rewrite Hn in He. revert He. vm_compute. discriminate.
Defined.

Lemma update_end_to_end_witness :
  let _ := int64_size in let _ := binary_time in let _ := counted_names in let _ := in_key_order in let _ := simple_columns in
  ∃ h' res, RequestUpdateCheck "a1" demo_hub = (h', None) ∧
    res = mkUpdateResult "a1" "1.2.1" "v1.3.0" true "" ∧
    updates (RecordUpdateStatus 0 "a1" res NewHub) !! "a1" = Some (mkUpdateStatus "1.2.1" "v1.3.0" true "" 0).
Proof.
  intros W TT T O C.
  assert (Hr : snd (RequestUpdateCheck "a1" demo_hub) = None) by (vm_compute; reflexivity).
  destruct (RequestUpdateCheck "a1" demo_hub) as [h' e] eqn:E. cbn in Hr. subst e. exists h'. eexists. split; [done|]. split; [done|].
  destruct (update_end_to_end "a1" demo_hub h' "a1" demo_machine demo_acfg "1.2.1" demo_net all_ok demo_fs 0 no_faults (mkDb [] [] [] []) NewHub)
    as (_ & _ & Hu); [discriminate|discriminate|eexists; vm_compute; reflexivity|exact demo_hub_reachable|exact E|].
  assert (Ht : snd (run_hook demo_machine demo_acfg "1.2.1" demo_net all_ok demo_fs) = UpdateReport true "v1.3.0" None) by (vm_compute; reflexivity).
  destruct (run_hook _ _ _ _ _ _) as [fs' t]. cbn in Ht. subst t. destruct Hu as (u & v & e & [= <- <- <-] & _ & _ & Hs & _). exact Hs.
Defined.

(** A signal that comes while an update is about to be marked: the process starts
    itself again instead of ending. *)
Example signal_restarts :
  let _ := int64_size in let _ := counted_names in
  let p := report "1.2.1" true "v1.3.0" None (with_tasks [] demo_hooked) in
  let stopping := with_main Stopping (cancel (with_main ShuttingDown p)) in
  pr_tasks stopping = [Marking] ∧ pr_main (end_updating true (markUpdating (with_tasks [Cancelling] stopping))) = Ended ExecSelf.
Proof. by vm_compute. Qed.
