(* ===== verification/Scheduler.v ===== *)
(** * The probe's scheduler ([agent/cmd/agent/scheduler.go])

    One goroutine per target pings it, another one traces routes one after the
    other; both work on tables a mutex guards. A step is one critical section,
    one round of pinging, or the end of one trace. *)
From S2P Require Import Prelude GoStrings GoFloat GoJson Protocol Pinger Detector.

Definition TracerouteInterval : Z := (12 * 3600 * 1000000000)%Z.
Definition MinTraceCooldown : Z := (30 * 60 * 1000000000)%Z.

(** A goroutine of [runTargetLoop]: its context, and whether it has its ticker. *)
Record worker := mkWorker { wk_target : TargetConfig; wk_cancelled : bool; wk_ticking : bool }.

(** What the tracing goroutine is doing: waiting, going through a copy of the
    targets, or tracing one since an instant with others to go. *)
Inductive tracing :=
  | Idle
  | Serial (todo : list TargetConfig)
  | InTrace (t : TargetConfig) (start : Z) (todo : list TargetConfig).

(** [running] has the cancel functions, by the worker they cancel. The last
    three fields record history: the reports queued and the traces made, with
    their instants, and whether the process died of a panic. *)
Record Scheduler := mkScheduler {
  stopped : bool;
  running : gmap string nat;
  workers : gmap nat worker;
  next_worker : nat;
  targets : list TargetConfig;
  traceTrigger : bool;
  shiftTriggers : list string;
  lastTracedAt : gmap string Z;
  detectors : gmap string LatencyShiftDetector;
  pinger : Pinger;
  tracer : tracing;
  clock : Z;
  reports : list SinglePingResult;
  traces : list (string * Z * Z);
  crashed : bool
}.

Definition NewTargetScheduler (windows : bool) (now : Z) : Scheduler :=
  mkScheduler false ∅ ∅ 0 [] false [] ∅ ∅ (NewPinger windows) Idle now [] [] false.

(** Field updates. *)
Definition set_workers (r : gmap string nat) (w : gmap nat worker) (n : nat) (s : Scheduler) : Scheduler :=
  mkScheduler (stopped s) r w n (targets s) (traceTrigger s) (shiftTriggers s) (lastTracedAt s) (detectors s)
    (pinger s) (tracer s) (clock s) (reports s) (traces s) (crashed s).
Definition set_targets (ts : list TargetConfig) (d : gmap string LatencyShiftDetector) (trigger : bool) (s : Scheduler) : Scheduler :=
  mkScheduler (stopped s) (running s) (workers s) (next_worker s) ts trigger (shiftTriggers s) (lastTracedAt s) d
    (pinger s) (tracer s) (clock s) (reports s) (traces s) (crashed s).
Definition set_shift (l : list string) (d : gmap string LatencyShiftDetector) (s : Scheduler) : Scheduler :=
  mkScheduler (stopped s) (running s) (workers s) (next_worker s) (targets s) (traceTrigger s) l (lastTracedAt s) d
    (pinger s) (tracer s) (clock s) (reports s) (traces s) (crashed s).
Definition set_tracer (t : tracing) (trigger : bool) (shifts : list string) (s : Scheduler) : Scheduler :=
  mkScheduler (stopped s) (running s) (workers s) (next_worker s) (targets s) trigger shifts (lastTracedAt s)
    (detectors s) (pinger s) t (clock s) (reports s) (traces s) (crashed s).
Definition pinged (p : Pinger) (r : SinglePingResult) (s : Scheduler) : Scheduler :=
  mkScheduler (stopped s) (running s) (workers s) (next_worker s) (targets s) (traceTrigger s) (shiftTriggers s)
    (lastTracedAt s) (detectors s) p (tracer s) (clock s) (reports s ++ [r]) (traces s) (crashed s).
Definition at_time (now : Z) (s : Scheduler) : Scheduler :=
  mkScheduler (stopped s) (running s) (workers s) (next_worker s) (targets s) (traceTrigger s) (shiftTriggers s)
    (lastTracedAt s) (detectors s) (pinger s) (tracer s) now (reports s) (traces s) (crashed s).
Definition panicked (s : Scheduler) : Scheduler :=
  mkScheduler (stopped s) (running s) (workers s) (next_worker s) (targets s) (traceTrigger s) (shiftTriggers s)
    (lastTracedAt s) (detectors s) (pinger s) (tracer s) (clock s) (reports s) (traces s) true.

(** ** [SyncTargets] *)

Definition cancel (w : worker) : worker := mkWorker (wk_target w) true (wk_ticking w).

(** Calls every cancel function of [running]. *)
Definition cancel_running (s : Scheduler) : gmap nat worker :=
  map_imap (λ w wk, Some (if existsb (Nat.eqb w) (snd <$> map_to_list (running s)) then cancel wk else wk)) (workers s).

Definition ensure_detector (d : gmap string LatencyShiftDetector) (t : TargetConfig) : gmap string LatencyShiftDetector :=
  match d !! tc_ID t with
  | Some _ => d
  | None => <[tc_ID t := NewLatencyShiftDetector 30]> d
  end.

(** Starts a worker; its context is cancelled from the start after [Stop]. *)
Definition start_worker (s : Scheduler) (t : TargetConfig) : Scheduler :=
  set_workers (<[tc_ID t := next_worker s]> (running s))
    (<[next_worker s := mkWorker t (stopped s) false]> (workers s)) (S (next_worker s)) s.

Definition SyncTargets (ts : list TargetConfig) (s : Scheduler) : Scheduler :=
  let s := set_workers ∅ (cancel_running s) (next_worker s) s in
  let s := set_targets ts (foldl ensure_detector (detectors s) ts) true s in
  foldl start_worker s ts.

Definition Stop (s : Scheduler) : Scheduler :=
  mkScheduler true ∅ (cancel <$> workers s) (next_worker s) (targets s) (traceTrigger s) (shiftTriggers s)
    (lastTracedAt s) (detectors s) (pinger s) (tracer s) (clock s) (reports s) (traces s) (crashed s).

(** ** [runTargetLoop] *)

(** [time.Duration(n)*time.Second]: 64-bit arithmetic that wraps around. *)
Definition ticker_interval (t : TargetConfig) : Z :=
  let intervalSec := if (tc_IntervalSec t <=? 0)%Z then 30%Z else tc_IntervalSec t in
  wrap64 (intervalSec * 1000000000).

Definition checkLatencyShift (t : TargetConfig) (res : SinglePingResult) (s : Scheduler) : Scheduler :=
  if tc_DisableRoute t || fle (pr_AvgRTT res) fzero then s
  else
    match detectors s !! tc_ID t with
    | None => s
    | Some det =>
        let '(det, hasShift) := Feed (pr_AvgRTT res) det in
        set_shift (if hasShift && (zlen (shiftTriggers s) <? 64)%Z then shiftTriggers s ++ [tc_ID t] else shiftTriggers s)
          (<[tc_ID t := det]> (detectors s)) s
    end.

(** One ping, its report, and the shift check; allocating the window may panic. *)
Definition ping_round `{Alloc} (linux : bool) (env : bool → ping_env) (t : TargetConfig) (s : Scheduler) : Scheduler :=
  match PingTargetOnce linux (clock s) env t (pinger s) with
  | None => panicked s
  | Some (p, res) => checkLatencyShift t res (pinged p res s)
  end.

(** The first round of a worker, up to its [NewTicker], which panics on an
    interval that is not positive. *)
Definition first_round `{Alloc} (linux : bool) (env : bool → ping_env) (w : nat) (wk : worker) (s : Scheduler) : Scheduler :=
  let s := ping_round linux env (wk_target wk) s in
  if (ticker_interval (wk_target wk) <=? 0)%Z then panicked s
  else set_workers (running s) (<[w := mkWorker (wk_target wk) (wk_cancelled wk) true]> (workers s)) (next_worker s) s.

(** ** [runSerialTracerouteLoop] *)

(** [time.Since], which saturates. *)
Definition Since (now last : Z) : Z := Z.max (- 2 ^ 63) (Z.min (2 ^ 63 - 1) (now - last)).
Definition last_traced (id : string) (s : Scheduler) : Z := default 0%Z (lastTracedAt s !! id).
Definition cooling (id : string) (s : Scheduler) : bool := (Since (clock s) (last_traced id s) <? MinTraceCooldown)%Z.

(** [executeSerialTraces]: the copy, and one iteration up to the trace. The
    callers pass [force = false]. *)
Definition serial_begin (s : Scheduler) : Scheduler :=
  set_tracer (match targets s with [] => Idle | ts => Serial ts end) (traceTrigger s) (shiftTriggers s) s.

Definition serial_next (s : Scheduler) : Scheduler :=
  let go t := set_tracer t (traceTrigger s) (shiftTriggers s) s in
  match tracer s with
  | Serial [] => go Idle
  | Serial (t :: todo) =>
      if stopped s then go Idle
      else if tc_DisableRoute t then go (Serial todo)
      else if cooling (tc_ID t) s then go (Serial todo)
      else go (InTrace t (clock s) todo)
  | _ => s
  end.

(** [executeSingleShiftTrace] up to the trace. *)
Definition shift_trace (targetID : string) (s : Scheduler) : Scheduler :=
  match List.find (λ t, (tc_ID t =? targetID)%string) (targets s) with
  | None => s
  | Some t =>
      if tc_DisableRoute t then s
      else if cooling targetID s then s
      else set_tracer (InTrace t (clock s) []) (traceTrigger s) (shiftTriggers s) s
  end.

(** The end of a trace: [lastTracedAt], and back to the loop. *)
Definition trace_end (s : Scheduler) : Scheduler :=
  match tracer s with
  | InTrace t start todo =>
      mkScheduler (stopped s) (running s) (workers s) (next_worker s) (targets s) (traceTrigger s) (shiftTriggers s)
        (<[tc_ID t := clock s]> (lastTracedAt s)) (detectors s) (pinger s) (Serial todo) (clock s) (reports s)
        (traces s ++ [(tc_ID t, start, clock s)]) (crashed s)
  | _ => s
  end.

(** ** Interleavings

    [allowed] is what the Host sends as targets. Nothing happens after a panic. *)
Inductive step `{Alloc} (allowed : list TargetConfig → Prop) (s : Scheduler) : Scheduler → Prop :=
  | step_sync ts : crashed s = false → allowed ts → step allowed s (SyncTargets ts s)
  | step_first linux env w wk :
      crashed s = false → workers s !! w = Some wk → wk_ticking wk = false → step allowed s (first_round linux env w wk s)
  | step_tick linux env w wk :
      crashed s = false → workers s !! w = Some wk → wk_ticking wk = true → step allowed s (ping_round linux env (wk_target wk) s)
  | step_exit w wk :
      crashed s = false → workers s !! w = Some wk → wk_cancelled wk = true →
      step allowed s (set_workers (running s) (delete w (workers s)) (next_worker s) s)
  | step_serial : crashed s = false → tracer s = Idle → step allowed s (serial_begin s)
  | step_trigger :
      crashed s = false → tracer s = Idle → traceTrigger s = true →
      step allowed s (serial_begin (set_tracer Idle false (shiftTriggers s) s))
  | step_next todo : crashed s = false → tracer s = Serial todo → step allowed s (serial_next s)
  | step_shift id l :
      crashed s = false → tracer s = Idle → shiftTriggers s = id :: l →
      step allowed s (shift_trace id (set_tracer Idle (traceTrigger s) l s))
  | step_trace_end t start todo : crashed s = false → tracer s = InTrace t start todo → step allowed s (trace_end s)
  | step_time now : (clock s <= now)%Z → step allowed s (at_time now s)
  | step_stop : crashed s = false → step allowed s (Stop s).

Definition scheduler_reachable `{Alloc} (allowed : list TargetConfig → Prop) : Scheduler → Prop :=
  reachable (λ s, ∃ windows now, s = NewTargetScheduler windows now) (step allowed).

(** ** Lemmas *)

(** What pinging leaves alone. *)
Record same_tables (s s' : Scheduler) : Prop := {
  st_stopped : stopped s' = stopped s; st_running : running s' = running s; st_workers : workers s' = workers s;
  st_next : next_worker s' = next_worker s; st_targets : targets s' = targets s; st_last : lastTracedAt s' = lastTracedAt s;
  st_tracer : tracer s' = tracer s; st_clock : clock s' = clock s; st_traces : traces s' = traces s
}.

Lemma same_refl s : same_tables s s.
Proof. by split. Qed.

Lemma check_same t res s : same_tables s (checkLatencyShift t res s).
Proof.
  unfold checkLatencyShift. destruct (_ || _); [apply same_refl|]. destruct (detectors s !! _); [|apply same_refl].
  destruct (Feed _ _). by split.
Qed.

Lemma ping_round_same `{Alloc} linux env t s : same_tables s (ping_round linux env t s).
Proof.
  unfold ping_round. destruct (PingTargetOnce _ _ _ _ _) as [[p r]|]; [|by split].
  destruct (check_same t r (pinged p r s)). by split.
Qed.

(** *** The workers *)

Definition live (s : Scheduler) (w : nat) (t : TargetConfig) : Prop :=
  ∃ wk, workers s !! w = Some wk ∧ wk_cancelled wk = false ∧ wk_target wk = t.

Record workers_ok (s : Scheduler) : Prop := {
  wk_fresh w wk : workers s !! w = Some wk → (w < next_worker s)%nat;
  wk_owned w t : live s w t → stopped s = false ∧ running s !! tc_ID t = Some w ∧ t ∈ targets s;
  wk_all t : stopped s = false → t ∈ targets s → ∃ w, live s w t
}.

Lemma workers_ext s s' :
  stopped s' = stopped s → running s' = running s → workers s' = workers s → next_worker s' = next_worker s →
  targets s' = targets s → workers_ok s → workers_ok s'.
Proof.
  intros E1 E2 E3 E4 E5 [H1 H2 H3]. split.
  - intros w wk. rewrite E3, E4. apply H1.
  - intros w t. unfold live. rewrite E3, E1, E2, E5. apply H2.
  - intros t. unfold live. rewrite E3, E1, E5. apply H3.
Qed.

Lemma same_workers_ok s s' : same_tables s s' → workers_ok s → workers_ok s'.
Proof. intros []. by apply workers_ext. Qed.

(** After the first loop of [SyncTargets] nobody is left running. *)
Lemma cancel_running_spec s w wk :
  workers_ok s → cancel_running s !! w = Some wk → wk_cancelled wk = true ∧ (w < next_worker s)%nat.
Proof.
  intros Hi. unfold cancel_running. rewrite map_lookup_imap.
  destruct (workers s !! w) as [wk0|] eqn:E; [|done]. cbn. pose proof (wk_fresh s Hi _ _ E) as Hf.
  destruct (existsb _ _) eqn:Ee; intros [= <-]; [done|]. split; [|done].
  destruct (wk_cancelled wk0) eqn:Ec; [done|].
  destruct (wk_owned s Hi w (wk_target wk0)) as (_ & Hr & _); [by exists wk0|].
  apply not_true_iff_false in Ee. exfalso. apply Ee, existsb_exists. exists w. split; [|apply Nat.eqb_refl].
  apply list_elem_of_In, list_elem_of_fmap. exists (tc_ID (wk_target wk0), w). split; [done|]. by apply elem_of_map_to_list.
Qed.

(** The starting loop, from a state with nobody running. *)
Lemma start_all ts : ∀ s,
  NoDup (tc_ID <$> ts) →
  let s' := foldl start_worker s ts in
  next_worker s' = (next_worker s + length ts)%nat ∧ stopped s' = stopped s ∧ targets s' = targets s ∧
  (∀ k t, ts !! k = Some t → running s' !! tc_ID t = Some (next_worker s + k)%nat) ∧
  (∀ w, workers s' !! w = if decide (w < next_worker s)%nat then workers s !! w
                          else match ts !! (w - next_worker s)%nat with
                               | Some t => Some (mkWorker t (stopped s) false)
                               | None => workers s !! w
                               end).
Proof.
  induction ts as [|t ts IH] using rev_ind; intros s Hnd; cbn zeta.
  { cbn. split_and!; try done; try lia. intros w. by destruct (decide _). }
  rewrite fmap_app in Hnd. apply NoDup_app in Hnd as (Hnd & Hdis & _).
  rewrite foldl_snoc. destruct (IH s Hnd) as (En & Es & Et & Er & Ew). set (s' := foldl start_worker s ts) in *.
  unfold start_worker. cbn [next_worker stopped targets running workers set_workers]. rewrite En, Es, Et, length_app.
  split_and!; try done; [cbn; lia| |].
  - intros k u [[Hk E]|[-> ->]]%lookup_snoc_Some.
    + rewrite lookup_insert_ne; [by apply Er|]. intros Heq. apply (Hdis (tc_ID u)).
      * apply list_elem_of_fmap. exists u. split; [done|]. by eapply list_elem_of_lookup_2.
      * rewrite <- Heq. cbn. left.
    + by rewrite lookup_insert_eq.
  - intros w. destruct (decide (w = (next_worker s + length ts)%nat)) as [->|Hne].
    + rewrite lookup_insert_eq, decide_False by lia.
      replace (next_worker s + length ts - next_worker s)%nat with (length ts) by lia.
      rewrite lookup_app_r, Nat.sub_diag by lia. done.
    + rewrite lookup_insert_ne, Ew by done. destruct (decide _); [done|].
      destruct (decide (w - next_worker s < length ts)%nat) as [Hlt|Hge].
      * by rewrite lookup_app_l.
      * rewrite (lookup_ge_None_2 ts), (lookup_ge_None_2 (ts ++ [t])); rewrite ?length_app; cbn; done || lia.
Qed.

Lemma SyncTargets_ok ts s : NoDup (tc_ID <$> ts) → workers_ok s → workers_ok (SyncTargets ts s).
Proof.
  intros Hnd Hi. unfold SyncTargets. set (s0 := set_targets _ _ _ _).
  destruct (start_all ts s0 Hnd) as (En & Es & Et & Er & Ew). set (s' := foldl start_worker s0 ts) in *.
  assert (Hlive : ∀ w t, live s' w t ↔ stopped s = false ∧ ∃ k, w = (next_worker s + k)%nat ∧ ts !! k = Some t).
  { intros w t. unfold live. rewrite Ew. change (next_worker s0) with (next_worker s).
    change (stopped s0) with (stopped s). change (workers s0) with (cancel_running s). split.
    - intros (wk & E & Ec & <-). destruct (decide _) as [Hlt|Hge].
      { apply cancel_running_spec in E as [E _]; [congruence|done]. }
      destruct (ts !! _) as [u|] eqn:Ek.
      + injection E as <-. split; [done|]. exists (w - next_worker s)%nat. split; [lia|done].
      + apply cancel_running_spec in E as [E _]; [congruence|done].
    - intros (Hs & k & -> & Ek). rewrite decide_False by lia.
      replace (next_worker s + k - next_worker s)%nat with k by lia. rewrite Ek. eexists. split; [done|]. by rewrite Hs. }
  split.
  - intros w wk. rewrite Ew, En. change (next_worker s0) with (next_worker s). change (workers s0) with (cancel_running s).
    destruct (decide _); [lia|]. destruct (ts !! _) as [u|] eqn:Ek.
    + apply lookup_lt_Some in Ek. intros _. lia.
    + intros E. apply cancel_running_spec in E as [_ E]; [lia|done].
  - intros w t (Hs & k & -> & Ek)%Hlive. rewrite Es, Et. split_and!; [done|by apply Er|]. by eapply list_elem_of_lookup_2.
  - intros t Hstop (k & Ek)%list_elem_of_lookup. rewrite Es in Hstop. rewrite Et in Ek. exists (next_worker s + k)%nat. apply Hlive. split; [exact Hstop|]. exists k. split; [done|exact Ek].
Qed.

Lemma step_workers_ok `{Alloc} s s' :
  workers_ok s → step (λ ts, NoDup (tc_ID <$> ts)) s s' → workers_ok s'.
Proof.
  intros Hi Hs. assert (Hx : ∀ s', stopped s' = stopped s → running s' = running s → workers s' = workers s →
    next_worker s' = next_worker s → targets s' = targets s → workers_ok s').
  { intros s1 ? ? ? ? ?. by apply (workers_ext s). }
  destruct Hs as [ts _ Hts|linux env w wk _ E Et|linux env w wk _ E Et|w wk _ E Ec|_ E|_ E Et|todo _ E|id l _ E El|t start todo _ E|now Hn|_].
  - by apply SyncTargets_ok.
  - unfold first_round. pose proof (ping_round_same linux env (wk_target wk) s) as Hr.
    set (s1 := ping_round linux env (wk_target wk) s) in *. pose proof (same_workers_ok _ _ Hr Hi) as H1.
    destruct (_ <=? _)%Z; [by apply (workers_ext s1)|].
    assert (Hw : workers s1 !! w = Some wk) by (destruct Hr; congruence).
    assert (Hl : ∀ v t, live (set_workers (running s1) (<[w:=mkWorker (wk_target wk) (wk_cancelled wk) true]> (workers s1)) (next_worker s1) s1) v t ↔ live s1 v t).
    { intros v t. unfold live. cbn [workers set_workers]. destruct (decide (v = w)) as [->|Hne].
      - rewrite lookup_insert_eq, Hw. split; intros (wk0 & [= <-] & ? & ?); eauto.
      - by rewrite lookup_insert_ne. }
    split.
    + intros v wk0. cbn. intros [[<- <-]|[_ Hv]]%lookup_insert_Some; [by eapply wk_fresh|by eapply wk_fresh].
    + intros v t. rewrite Hl. apply H1.
    + intros t Ha Hb. destruct (wk_all s1 H1 t Ha Hb) as [v Hv]. exists v. by apply Hl.
  - apply (same_workers_ok s); [apply ping_round_same|done].
  - assert (Hl : ∀ v t, live (set_workers (running s) (delete w (workers s)) (next_worker s) s) v t ↔ live s v t).
    { intros v t. unfold live. cbn [workers set_workers]. destruct (decide (v = w)) as [->|Hne].
      - rewrite lookup_delete_eq. split; intros (wk0 & ? & ? & ?); [done|congruence].
      - by rewrite lookup_delete_ne. }
    split.
    + intros v wk0. cbn. intros [_ Hv]%lookup_delete_Some. by eapply wk_fresh.
    + intros v t. rewrite Hl. apply Hi.
    + intros t Ha Hb. destruct (wk_all s Hi t Ha Hb) as [v Hv]. exists v. by apply Hl.
  - by apply Hx.
  - by apply Hx.
  - unfold serial_next. rewrite E. destruct todo as [|t todo]; [by apply Hx|].
    destruct (stopped s) eqn:Es; [by apply Hx|]. destruct (tc_DisableRoute t); [by apply Hx|].
    destruct (cooling _ _); by apply Hx.
  - unfold shift_trace. destruct (List.find _ _) as [t|]; [|by apply Hx].
    destruct (tc_DisableRoute t); [by apply Hx|]. destruct (cooling _ _); by apply Hx.
  - unfold trace_end. rewrite E. by apply Hx.
  - by apply Hx.
  - split; cbn.
    + intros w wk. rewrite lookup_fmap, fmap_Some. intros (wk0 & E & ->). by eapply wk_fresh.
    + intros w t (wk & E & Ec & _). cbn in E. rewrite lookup_fmap, fmap_Some in E. destruct E as (wk0 & _ & ->). done.
    + done.
Qed.

(** *** The cooldown *)

Definition traced_id (e : string * Z * Z) : string := e.1.1.
Definition trace_start (e : string * Z * Z) : Z := e.1.2.
Definition trace_stop (e : string * Z * Z) : Z := e.2.

(** [e1] was over for half an hour when [e2] began, if they are of one target. *)
Definition spaced (e1 e2 : string * Z * Z) : Prop :=
  traced_id e1 = traced_id e2 → (trace_stop e1 + MinTraceCooldown <= trace_start e2)%Z.

Record traces_ok (s : Scheduler) : Prop := {
  tr_spaced : StronglySorted spaced (traces s);
  tr_serial : StronglySorted (λ e1 e2, trace_stop e1 <= trace_start e2)%Z (traces s);
  tr_last e : e ∈ traces s → (trace_stop e <= last_traced (traced_id e) s)%Z;
  tr_clock e : e ∈ traces s → (trace_start e <= trace_stop e <= clock s)%Z;
  tr_known id : lastTracedAt s !! id ≠ None → (last_traced id s <= clock s)%Z;
  tr_running t start todo : tracer s = InTrace t start todo →
    (start <= clock s)%Z ∧ (∀ e, e ∈ traces s → trace_stop e <= start)%Z ∧
    (∀ e, e ∈ traces s → traced_id e = tc_ID t → trace_stop e + MinTraceCooldown <= start)%Z
}.

Lemma not_cooling id s e :
  traces_ok s → cooling id s = false → e ∈ traces s → traced_id e = id → (trace_stop e + MinTraceCooldown <= clock s)%Z.
Proof.
  intros Hi Hc He Hid. pose proof (tr_last s Hi e He) as Hl. rewrite Hid in Hl.
  unfold cooling, Since, MinTraceCooldown in *. apply Z.ltb_ge in Hc. lia.
Qed.

Lemma traces_ext s s' :
  traces s' = traces s → lastTracedAt s' = lastTracedAt s → (clock s <= clock s')%Z →
  (∀ t start todo, tracer s' = InTrace t start todo → tracer s = tracer s' ∨
     start = clock s ∧ clock s' = clock s ∧ cooling (tc_ID t) s = false) →
  traces_ok s → traces_ok s'.
Proof.
  intros E1 E2 Hc Ht Hi. pose proof Hi as [H1 H2 H3 H4 H5 H6].
  split; rewrite ?E1; unfold last_traced in *; rewrite ?E2; try done.
  - intros e He. specialize (H4 e He). lia.
  - intros id Hk. specialize (H5 id Hk). lia.
  - intros t start todo E. destruct (Ht t start todo E) as [Es|(-> & Hcl & Hcool)].
    + rewrite E in Es. destruct (H6 t start todo Es) as (Ha & Hb & Hd). split_and!; [lia|done|done].
    + split_and!; [lia| |].
      * intros e He. apply H4, He.
      * intros e He Hid. by apply (not_cooling (tc_ID t)).
Qed.

Lemma StronglySorted_snoc {A} (R : A → A → Prop) l x :
  StronglySorted R l → (∀ y, y ∈ l → R y x) → StronglySorted R (l ++ [x]).
Proof.
  induction 1 as [|y l Hl IH Hy]; intros Hx; cbn; [repeat constructor|]. constructor.
  - apply IH. intros z Hz. apply Hx. by right.
  - apply Forall_app. split; [done|]. constructor; [|done]. apply Hx. left.
Qed.

Lemma start_keeps ts : ∀ s,
  let s' := foldl start_worker s ts in
  tracer s' = tracer s ∧ traces s' = traces s ∧ lastTracedAt s' = lastTracedAt s ∧ clock s' = clock s ∧
  crashed s' = crashed s ∧ pinger s' = pinger s ∧ shiftTriggers s' = shiftTriggers s.
Proof. induction ts as [|t ts IH]; intros s; [done|]. exact (IH (start_worker s t)). Qed.

Lemma trace_end_ok t start todo s : tracer s = InTrace t start todo → traces_ok s → traces_ok (trace_end s).
Proof.
  intros E [H1 H2 H3 H4 H5 H6]. destruct (H6 t start todo E) as (Hs & Ha & Hb).
  unfold trace_end. rewrite E. split; cbn.
  - apply StronglySorted_snoc; [done|]. intros e He Hid. cbn. by apply Hb.
  - apply StronglySorted_snoc; [done|]. intros e He. cbn. by apply Ha.
  - intros e. rewrite elem_of_app, list_elem_of_singleton. unfold last_traced. cbn. intros [He| ->]; cbn.
    + destruct (decide (traced_id e = tc_ID t)) as [->|Hne].
      * rewrite lookup_insert_eq. cbn. apply (H4 e He).
      * rewrite lookup_insert_ne by done. by apply H3.
    + rewrite lookup_insert_eq. cbn. lia.
  - intros e. rewrite elem_of_app, list_elem_of_singleton. intros [He| ->]; cbn; [by apply H4|lia].
  - intros id. unfold last_traced. cbn. destruct (decide (id = tc_ID t)) as [->|Hne].
    + rewrite lookup_insert_eq. cbn. lia.
    + rewrite lookup_insert_ne by done. apply H5.
  - done.
Qed.

Lemma step_traces_ok `{Alloc} allowed s s' : traces_ok s → step allowed s s' → traces_ok s'.
Proof.
  intros Hi Hs. assert (Hx : ∀ s', traces s' = traces s → lastTracedAt s' = lastTracedAt s → clock s' = clock s →
    (tracer s' = tracer s ∨ ∀ t start todo, tracer s' ≠ InTrace t start todo) → traces_ok s').
  { intros s1 E1 E2 E3 E4. apply (traces_ext s); try done; [lia|]. intros t start todo E. left.
    destruct E4 as [E4|E4]; [done|]. by destruct (E4 t start todo). }
  assert (Hping : ∀ linux env t, traces_ok (ping_round linux env t s)).
  { intros linux env t. destruct (ping_round_same linux env t s). apply Hx; try done. by left. }
  destruct Hs as [ts _ Hts|linux env w wk _ E Et|linux env w wk _ E Et|w wk _ E Ec|_ E|_ E Et|todo _ E|id l _ E El|t start todo _ E|now Hn|_].
  - unfold SyncTargets. set (s0 := set_targets _ _ _ _). destruct (start_keeps ts s0) as (? & ? & ? & ? & _).
    apply Hx; try done. by left.
  - unfold first_round. specialize (Hping linux env (wk_target wk)). destruct (_ <=? _)%Z;
      (apply (traces_ext (ping_round linux env (wk_target wk) s)); [done|done|cbn; lia| |done]; by left).
  - apply Hping.
  - apply Hx; try done. by left.
  - apply Hx; try done. right. cbn. by destruct (targets s).
  - apply Hx; try done. right. cbn. by destruct (targets s).
  - unfold serial_next. rewrite E. destruct todo as [|t todo]; [apply Hx; try done; by right|].
    destruct (stopped s) eqn:Es; [apply Hx; try done; by right|].
    destruct (tc_DisableRoute t); [apply Hx; try done; by right|].
    destruct (cooling _ _) eqn:Ec; [apply Hx; try done; by right|].
    apply (traces_ext s); try done. intros t0 start0 todo0 [= <- <- <-]. by right.
  - unfold shift_trace. cbn [targets set_tracer]. destruct (List.find _ _) as [t|] eqn:Ef; [|apply Hx; try done; by right].
    destruct (tc_DisableRoute t); [apply Hx; try done; by right|].
    change (cooling id (set_tracer Idle (traceTrigger s) l s)) with (cooling id s).
    destruct (cooling _ _) eqn:Ec; [apply Hx; try done; by right|].
    apply (traces_ext s); try done. intros t0 start0 todo0 [= <- <- <-]. right. split_and!; try done.
    apply find_some in Ef as [_ Ef%String.eqb_eq]. by rewrite Ef.
  - by apply (trace_end_ok t start todo).
  - apply (traces_ext s); try done. intros. by left.
  - apply Hx; try done. by left.
Qed.

(** *** No panic *)

(** What a target may ask for without harm. *)
Definition target_harmless `{Alloc} (t : TargetConfig) : Prop :=
  (tc_PacketCount t * stat_size <= max_alloc)%Z ∧ (20 * stat_size <= max_alloc)%Z ∧ (tc_IntervalSec t <= 9223372036)%Z.

Lemma ping_round_harmless `{Alloc} linux env t s : target_harmless t → crashed (ping_round linux env t s) = crashed s.
Proof.
  intros (Hp & Hd & _). unfold ping_round. assert (∃ pr, PingTargetOnce linux (clock s) env t (pinger s) = Some pr) as [[p r] ->].
  { unfold PingTargetOnce, GetOrCreateWindow, NewTargetWindow, make_stats.
    set (n := if (tc_PacketCount t <=? 0)%Z then 20%Z else tc_PacketCount t).
    assert (Hn : (0 < n)%Z ∧ (n * stat_size <= max_alloc)%Z) by (unfold n; destruct (Z.leb_spec (tc_PacketCount t) 0); lia).
    rewrite (proj2 (Z.leb_gt n 0)), (proj2 (Z.leb_gt n 0)), (proj2 (Z.ltb_ge n 0)), (proj2 (Z.ltb_ge max_alloc _)) by lia.
    cbn. destruct (p_windows (pinger s) !! tc_ID t); cbn; destruct (ExecuteSinglePing _ _ _ _) as [st pv];
      destruct (st_Success st); eexists; done. }
  unfold checkLatencyShift. destruct (_ || _); [done|]. cbn. destruct (detectors s !! _); [|done]. by destruct (Feed _ _).
Qed.

Lemma ticker_harmless `{Alloc} t : target_harmless t → (0 < ticker_interval t)%Z.
Proof.
  intros (_ & _ & Hi). unfold ticker_interval, wrap64.
  set (n := if (tc_IntervalSec t <=? 0)%Z then 30%Z else tc_IntervalSec t).
  assert (Hn : (0 < n <= 9223372036)%Z) by (unfold n; destruct (Z.leb_spec (tc_IntervalSec t) 0); lia).
  rewrite Z.mod_small; lia.
Qed.

(** A worker's first round panics when the window or the ticker cannot be made. *)
Lemma first_round_panics `{Alloc} linux env w wk s :
  (ticker_interval (wk_target wk) <= 0)%Z → crashed (first_round linux env w wk s) = true.
Proof. intros Hi. unfold first_round. by rewrite (proj2 (Z.leb_le _ _) Hi). Qed.

Record harmless_inv `{Alloc} (s : Scheduler) : Prop := {
  hi_crashed : crashed s = false;
  hi_workers w wk : workers s !! w = Some wk → target_harmless (wk_target wk);
  hi_shift : (zlen (shiftTriggers s) <= 64)%Z
}.

Lemma check_shift t res s : (zlen (shiftTriggers s) <= 64)%Z → (zlen (shiftTriggers (checkLatencyShift t res s)) <= 64)%Z.
Proof.
  intros Hz. unfold checkLatencyShift. destruct (_ || _); [done|]. destruct (detectors s !! _); [|done].
  destruct (Feed _ _) as [d []]; cbn; [|done]. destruct (Z.ltb_spec (zlen (shiftTriggers s)) 64); [|done].
  rewrite zlen_app. unfold zlen in *. cbn. lia.
Qed.

Lemma ping_round_harmless_inv `{Alloc} linux env t s :
  target_harmless t → harmless_inv s → harmless_inv (ping_round linux env t s).
Proof.
  intros Ht [H1 H2 H3]. pose proof (ping_round_same linux env t s) as Hs. split.
  - by rewrite ping_round_harmless.
  - intros w wk. rewrite (st_workers _ _ Hs). apply H2.
  - unfold ping_round. destruct (PingTargetOnce _ _ _ _ _) as [[p r]|]; [|done]. by apply check_shift.
Qed.

Lemma step_harmless `{Alloc} s s' :
  harmless_inv s → step (Forall target_harmless) s s' → harmless_inv s'.
Proof.
  intros Hi Hs. pose proof Hi as [H1 H2 H3].
  destruct Hs as [ts _ Hts|linux env w wk _ E Et|linux env w wk _ E Et|w wk _ E Ec|_ E|_ E Et|todo _ E|id l _ E El|t start todo _ E|now Hn|_].
  - unfold SyncTargets. set (s0 := set_targets _ _ _ _).
    assert (Hi0 : harmless_inv s0).
    { split; [done| |done]. intros w wk. change (workers s0) with (cancel_running s). unfold cancel_running.
      rewrite map_lookup_imap. destruct (workers s !! w) as [wk0|] eqn:E; [|done]. cbn. intros [= <-].
      specialize (H2 w wk0 E). by destruct (existsb _ _). }
    clearbody s0. revert s0 Hi0. induction Hts as [|t ts Ht _ IH]; intros s0 Hi0; [done|].
    cbn. apply IH. destruct Hi0 as [Ha Hb Hc]. split; [done| |done]. cbn.
    intros w wk [[<- <-]|[_ Hw]]%lookup_insert_Some; [done|by eapply Hb].
  - pose proof (H2 w wk E) as Ht. unfold first_round. pose proof (ticker_harmless _ Ht).
    rewrite (proj2 (Z.leb_gt _ _)) by done. destruct (ping_round_harmless_inv linux env _ s Ht Hi) as [Ha Hb Hc].
    split; [done| |done]. cbn. intros v wk0 [[<- <-]|[_ Hw]]%lookup_insert_Some; [done|by eapply Hb].
  - apply ping_round_harmless_inv; [by eapply H2|done].
  - split; [done| |done]. cbn. intros v wk0 [_ Hv]%lookup_delete_Some. by eapply H2.
  - by split.
  - by split.
  - unfold serial_next. rewrite E. destruct todo; [by split|]. destruct (stopped s); [by split|].
    destruct (tc_DisableRoute _); [by split|]. destruct (cooling _ _); by split.
  - assert (Hl : (zlen l <= 64)%Z) by (rewrite El in H3; unfold zlen in *; cbn in H3; lia).
    unfold shift_trace. destruct (List.find _ _) as [t|]; [|by split].
    destruct (tc_DisableRoute t); [by split|]. destruct (cooling _ _); by split.
  - unfold trace_end. rewrite E. by split.
  - by split.
  - split; [done| |done]. cbn. intros w wk. rewrite lookup_fmap, fmap_Some. intros (wk0 & E & ->). exact (H2 w wk0 E).
Qed.

Lemma scheduler_workers `{Alloc} s : scheduler_reachable (λ ts, NoDup (tc_ID <$> ts)) s → workers_ok s.
Proof.
  revert s. apply (reachable_ind_inv _ _ workers_ok); [|intros; by eapply step_workers_ok].
  intros s0 (windows & now & ->). split; [done|by intros w t (wk & ? & _)|]. intros t _ Ht. by apply elem_of_nil in Ht.
Qed.

Lemma workers_unique s : workers_ok s →
  (stopped s = false → ∀ t, t ∈ targets s → ∃ w, live s w t) ∧
  (∀ w t, live s w t → stopped s = false ∧ t ∈ targets s) ∧
  (∀ w1 w2 t1 t2, live s w1 t1 → live s w2 t2 → tc_ID t1 = tc_ID t2 → w1 = w2).
Proof.
  intros [H1 H2 H3]. split_and!.
  - intros Hs t Ht. by apply H3.
  - intros w t Hl. destruct (H2 w t Hl) as (? & _ & ?). done.
  - intros w1 w2 t1 t2 Ha Hb E. destruct (H2 _ _ Ha) as (_ & Ra & _). destruct (H2 _ _ Hb) as (_ & Rb & _). congruence.
Qed.

Lemma scheduler_harmless `{Alloc} s : scheduler_reachable (Forall target_harmless) s → harmless_inv s.
Proof.
  revert s. apply (reachable_ind_inv _ _ harmless_inv); [|intros; by eapply step_harmless].
  intros s0 (windows & now & ->). split; [done|done|]. by vm_compute.
Qed.

(** ** Properties *)

(** Whatever the order of events, as long as the Host never sends one target
    twice in a list: each target of the last list has a worker that is not
    cancelled, it has only that one, and every other worker is cancelled; after
    [Stop] all are. *)
Theorem one_worker_per_target `{Alloc} s :
  scheduler_reachable (λ ts, NoDup (tc_ID <$> ts)) s →
  (stopped s = false → ∀ t, t ∈ targets s → ∃ w, live s w t) ∧
  (∀ w t, live s w t → stopped s = false ∧ t ∈ targets s) ∧
  (∀ w1 w2 t1 t2, live s w1 t1 → live s w2 t2 → tc_ID t1 = tc_ID t2 → w1 = w2).
Proof. intros Hr. by apply workers_unique, scheduler_workers. Qed.

(** C30. Routes are traced one at a time, and a target's never sooner than thirty
    minutes after its previous trace ended, however the periodic runs, the
    Host's updates and the latency shifts fall. *)
Theorem trace_cooldown `{Alloc} allowed s :
  scheduler_reachable allowed s →
  StronglySorted (λ e1 e2, trace_stop e1 <= trace_start e2)%Z (traces s) ∧
  StronglySorted (λ e1 e2, traced_id e1 = traced_id e2 →
                           trace_stop e1 + 30 * 60 * 1000000000 <= trace_start e2)%Z (traces s).
Proof.
  intros Hr. assert (Hi : traces_ok s); [|by destruct Hi].
  revert s Hr. apply (reachable_ind_inv _ _ traces_ok); [|intros; by eapply step_traces_ok].
  intros s0 (windows & now & ->). split; cbn; [constructor|constructor| | |done|done];
    intros e He; by apply elem_of_nil in He.
Qed.

(** Targets whose window fits in memory and whose interval fits in a
    duration (all that the console accepts) never bring the probe down, and the
    queue of shift-triggered traces never exceeds 64. *)
Theorem harmless_targets_never_panic `{Alloc} s :
  scheduler_reachable (Forall target_harmless) s → crashed s = false ∧ (zlen (shiftTriggers s) <= 64)%Z.
Proof. by intros []%scheduler_harmless. Qed.

(** With a target sent twice, one of its two workers stays when the targets are
    replaced: nobody holds its cancel function any more. *)
Example duplicate_leaks :
  let t := mkTargetConfig "t1" "One" "one.example" 20 30 false in
  let s := SyncTargets [] (SyncTargets [t; t] (NewTargetScheduler false 0)) in
  targets s = [] ∧ wk_cancelled <$> (workers s !! 0%nat) = Some false ∧ wk_cancelled <$> (workers s !! 1%nat) = Some true.
Proof. vm_compute. done. Qed.

(** ** A run *)

Definition demo_t1 : TargetConfig := mkTargetConfig "t1" "One" "one.example" 20 30 false.
Definition demo_t2 : TargetConfig := mkTargetConfig "t2" "Two" "two.example" 20 30 false.

Definition demo_env (priv : bool) : ping_env := mkPingEnv (Ok ["192.0.2.1"]) None None (Some 8125%Z) None.

(** An instant of these years. *)
Definition demo_now : Z := 63900000000000000000.

(** Two targets, a round of the first one, a trace of it, then only the other. *)
Definition demo_synced : Scheduler := SyncTargets [demo_t1; demo_t2] (NewTargetScheduler false demo_now).
Definition demo_pinged : Scheduler :=
  let _ := alloc_amd64 in first_round true demo_env 0 (mkWorker demo_t1 false false) demo_synced.
Definition demo_tracing : Scheduler := serial_next (serial_begin (set_tracer Idle false (shiftTriggers demo_pinged) demo_pinged)).
Definition demo_s : Scheduler := SyncTargets [demo_t2] (trace_end (at_time (demo_now + 5000) demo_tracing)).

Lemma demo_s_reachable (allowed : list TargetConfig → Prop) :
  let _ := alloc_amd64 in
  allowed [demo_t1; demo_t2] → allowed [demo_t2] → scheduler_reachable allowed demo_s.
Proof.
  intros A H1 H2.
  assert (R1 : scheduler_reachable allowed demo_synced).
  { eapply reach_step; [apply reach_init; by exists false, demo_now|]. by apply step_sync. }
  assert (R2 : scheduler_reachable allowed demo_pinged).
  { eapply reach_step; [exact R1|]. by apply step_first. }
  assert (R3 : scheduler_reachable allowed demo_tracing).
  { eapply reach_step; [|by eapply step_next; vm_compute].
    eapply reach_step; [exact R2|]. by apply step_trigger; vm_compute. }
  eapply reach_step; [|by apply step_sync; vm_compute].
  eapply reach_step; [|by apply (step_trace_end _ _ demo_t1 demo_now [demo_t2]); vm_compute].
  eapply reach_step; [exact R3|]. apply step_time. vm_compute. done.
Qed.

Example demo_s_traced : traces demo_s = [("t1", demo_now, (demo_now + 5000)%Z)] ∧ pr_TargetID <$> reports demo_s = ["t1"].
Proof. by vm_compute. Qed.

Lemma one_worker_per_target_witness :
  let _ := alloc_amd64 in
  (stopped demo_s = false → ∀ t, t ∈ targets demo_s → ∃ w, live demo_s w t) ∧
  (∀ w t, live demo_s w t → stopped demo_s = false ∧ t ∈ targets demo_s) ∧
  (∀ w1 w2 t1 t2, live demo_s w1 t1 → live demo_s w2 t2 → tc_ID t1 = tc_ID t2 → w1 = w2).
Proof.
  intros A. apply one_worker_per_target, demo_s_reachable; apply (bool_decide_unpack _); vm_compute; exact I.
Defined.

Lemma trace_cooldown_witness :
  let _ := alloc_amd64 in
  StronglySorted (λ e1 e2, trace_stop e1 <= trace_start e2)%Z (traces demo_s) ∧
  StronglySorted (λ e1 e2, traced_id e1 = traced_id e2 →
                           trace_stop e1 + 30 * 60 * 1000000000 <= trace_start e2)%Z (traces demo_s).
Proof. intros A. apply (trace_cooldown (λ _, True)), demo_s_reachable; done. Defined.

Lemma harmless_targets_never_panic_witness :
  let _ := alloc_amd64 in crashed demo_s = false ∧ (zlen (shiftTriggers demo_s) <= 64)%Z.
Proof.
  intros A. apply harmless_targets_never_panic, demo_s_reachable; repeat constructor; vm_compute; discriminate.
Defined.
