(* ===== verification/KeepAlive.v ===== *)
(** * Deadlines and keep-alives

    The connection of a probe in time: the handshake with its ten seconds, the
    heartbeats the Host acknowledges, the Host's pings, and the read deadlines of
    ninety seconds that both sides push back. Then the tunnel client's own
    connection, which only pongs keep alive. Times are nanoseconds. *)
From S2P Require Import Prelude GoStrings GoNet GoEncoding GoFloat GoJson Protocol.
Local Open Scope Z_scope.

Definition seconds (n : Z) : Z := n * 1000000000.

(** When a ticker that fired at [t] and is served at [now] fires next: its channel
    holds one tick, the others are dropped. *)
Definition next_tick (every t now : Z) : Z := t + every * (Z.max 0 (now - t) / every + 1).

(** ** The connection of a probe *)

(** Frames. [UReport] and [DOther] are the messages that nothing depends on here:
    measurements, results and the traffic of tunnels. *)
Inductive up_frame := URegister | UBeat | UReport | UPong.
Inductive down_frame := DResponse | DAck | DOther | DPing.

(** The Host's end: waiting for the first message, in the hub's table, running its
    pumps, or closed. *)
Inductive host_phase := Shaking | Entered | Pumps | Left.

(** [h_hand]: the message [readPump] (or [HandleWebSocket]) is handling, and since
    when. [h_queue]: [ac.Send], with the times of queueing. [h_tick]: when
    [writePump]'s ticker fires next. [h_heard]: when the last frame was read. *)
Record HostEnd := mkHostEnd {
  h_phase : host_phase;
  h_deadline : Z;
  h_hand : option (Z * up_frame);
  h_queue : list (Z * down_frame);
  h_tick : Z;
  h_heard : Z
}.

(** The probe's end: [connectAndServe] waits for the answer to its registration,
    serves, or has returned. *)
Inductive probe_phase := Registering | Living | Ended.

(** [p_beats]: whether [heartbeatLoop] runs. [p_heard]: when the last message was
    read. *)
Record ProbeEnd := mkProbeEnd {
  p_phase : probe_phase;
  p_deadline : Z;
  p_beats : bool;
  p_tick : Z;
  p_heard : Z
}.

(** With the frames under way and when they were sent, the oldest first. *)
Record Link := mkLink {
  l_now : Z;
  l_host : HostEnd;
  l_probe : ProbeEnd;
  l_up : list (Z * up_frame);
  l_down : list (Z * down_frame)
}.

(** The Host's upgrade, [ago] before the probe sends its request. *)
Definition link_start (ago : Z) : Link :=
  mkLink 0 (mkHostEnd Shaking (seconds 10 - ago) None [] 0 0)
    (mkProbeEnd Registering (seconds 10) false 0 0) [(0, URegister)] [].

(** *** The Host *)

Definition sendBuffer : nat := 256.
(** [SafeSend] *)
Definition push (t : Z) (f : down_frame) (q : list (Z * down_frame)) : list (Z * down_frame) :=
  if (length q <? sendBuffer)%nat then q ++ [(t, f)] else q.

Definition host_leave (h : HostEnd) : HostEnd :=
  mkHostEnd Left (h_deadline h) None (h_queue h) (h_tick h) (h_heard h).

(** A frame is read: the pong handler or [ReadMessage]. *)
Definition host_read (t : Z) (f : up_frame) (h : HostEnd) : HostEnd :=
  match h_phase h, f with
  | Shaking, UPong => h
  | Shaking, URegister => mkHostEnd Shaking (h_deadline h) (Some (t, f)) (h_queue h) (h_tick h) t
  | Shaking, _ => host_leave h
  | Pumps, UPong => mkHostEnd Pumps (t + seconds 90) (h_hand h) (h_queue h) (h_tick h) t
  | Pumps, _ => mkHostEnd Pumps (t + seconds 90) (Some (t, f)) (h_queue h) (h_tick h) t
  | _, _ => h
  end.

(** [handleIncomingMessage] returns. *)
Definition host_done (t : Z) (h : HostEnd) : HostEnd :=
  mkHostEnd (h_phase h) (h_deadline h) None
    (match h_hand h with Some (_, UBeat) => push t DAck (h_queue h) | _ => h_queue h end) (h_tick h) (h_heard h).

(** [HandleWebSocket]: [h.Register], then the answer, the targets and the pumps. *)
Definition host_enter (h : HostEnd) : HostEnd :=
  mkHostEnd Entered (h_deadline h) (h_hand h) (h_queue h) (h_tick h) (h_heard h).
Definition host_greet (t : Z) (h : HostEnd) : HostEnd :=
  mkHostEnd Pumps (t + seconds 90) None (push t DOther (push t DResponse (h_queue h))) (t + seconds 30) (h_heard h).

Definition host_queue (t : Z) (h : HostEnd) : HostEnd :=
  mkHostEnd (h_phase h) (h_deadline h) (h_hand h) (push t DOther (h_queue h)) (h_tick h) (h_heard h).

(** [writePump]: its ticker. *)
Definition host_ping (t : Z) (h : HostEnd) : HostEnd :=
  mkHostEnd (h_phase h) (h_deadline h) (h_hand h) (h_queue h) (next_tick (seconds 30) (h_tick h) t) (h_heard h).
Definition host_unqueue (q : list (Z * down_frame)) (h : HostEnd) : HostEnd :=
  mkHostEnd (h_phase h) (h_deadline h) (h_hand h) q (h_tick h) (h_heard h).

(** Whether a goroutine of the Host is in a read with the deadline. *)
Definition host_reads (h : HostEnd) : Prop := (h_phase h = Shaking ∨ h_phase h = Pumps) ∧ h_hand h = None.

(** *** The probe *)

Definition probe_finish (p : ProbeEnd) : ProbeEnd := mkProbeEnd Ended (p_deadline p) false (p_tick p) (p_heard p).

(** A frame is read; a ping is answered by the library. After the registration
    [queued] reports are flushed and the heartbeats start. *)
Definition probe_read (t : Z) (f : down_frame) (queued : nat) (p : ProbeEnd) : ProbeEnd * list (Z * up_frame) :=
  match f, p_phase p with
  | _, Ended => (p, [])
  | DPing, _ => (p, [(t, UPong)])
  | DResponse, Registering => (mkProbeEnd Living (t + seconds 90) true (t + seconds 25) t, replicate queued (t, UReport))
  | _, Registering => (probe_finish p, [])
  | _, Living => (mkProbeEnd Living (t + seconds 90) (p_beats p) (p_tick p) t, [])
  end.

(** [heartbeatLoop]: its ticker. *)
Definition probe_beat (t : Z) (p : ProbeEnd) : ProbeEnd :=
  mkProbeEnd (p_phase p) (p_deadline p) (p_beats p) (next_tick (seconds 25) (p_tick p) t) (p_heard p).
Definition stop_beats (p : ProbeEnd) : ProbeEnd :=
  mkProbeEnd (p_phase p) (p_deadline p) false (p_tick p) (p_heard p).

Definition probe_reads (p : ProbeEnd) : Prop := p_phase p ≠ Ended.

(** *** Steps *)

Definition with_host (h : HostEnd) (c : Link) : Link := mkLink (l_now c) h (l_probe c) (l_up c) (l_down c).
Definition with_probe (p : ProbeEnd) (c : Link) : Link := mkLink (l_now c) (l_host c) p (l_up c) (l_down c).
Definition send_down (f : down_frame) (c : Link) : Link :=
  mkLink (l_now c) (l_host c) (l_probe c) (l_up c) (l_down c ++ [(l_now c, f)]).
Definition send_up (f : up_frame) (c : Link) : Link :=
  mkLink (l_now c) (l_host c) (l_probe c) (l_up c ++ [(l_now c, f)]) (l_down c).
Definition wait (d : Z) (c : Link) : Link := mkLink (l_now c + d) (l_host c) (l_probe c) (l_up c) (l_down c).

(** A read on either side. *)
Definition read_up (f : up_frame) (rest : list (Z * up_frame)) (c : Link) : Link :=
  mkLink (l_now c) (host_read (l_now c) f (l_host c)) (l_probe c) rest (l_down c).
Definition read_down (f : down_frame) (queued : nat) (rest : list (Z * down_frame)) (c : Link) : Link :=
  let '(p, out) := probe_read (l_now c) f queued (l_probe c) in
  mkLink (l_now c) (l_host c) p (l_up c ++ out) rest.

(** What the two programs do by themselves. *)
Inductive own_step (c : Link) : Link → Prop :=
  | own_wait d : 0 <= d → own_step c (wait d c)
  | own_done : h_phase (l_host c) = Pumps → h_hand (l_host c) ≠ None → own_step c (with_host (host_done (l_now c) (l_host c)) c)
  | own_enter : h_phase (l_host c) = Shaking → h_hand (l_host c) ≠ None → own_step c (with_host (host_enter (l_host c)) c)
  | own_greet : h_phase (l_host c) = Entered → own_step c (with_host (host_greet (l_now c) (l_host c)) c)
  | own_queue : h_phase (l_host c) = Pumps → own_step c (with_host (host_queue (l_now c) (l_host c)) c)
  | own_write s f q :
      h_phase (l_host c) = Pumps → h_queue (l_host c) = (s, f) :: q →
      own_step c (send_down f (with_host (host_unqueue q (l_host c)) c))
  | own_ping :
      h_phase (l_host c) = Pumps → h_tick (l_host c) <= l_now c →
      own_step c (send_down DPing (with_host (host_ping (l_now c) (l_host c)) c))
  | own_report : p_phase (l_probe c) = Living → own_step c (send_up UReport c)
  | own_beat :
      p_phase (l_probe c) = Living → p_beats (l_probe c) = true → p_tick (l_probe c) <= l_now c →
      own_step c (send_up UBeat (with_probe (probe_beat (l_now c) (l_probe c)) c))
  (* the deadline of a read passes *)
  | own_host_expired : host_reads (l_host c) → h_deadline (l_host c) <= l_now c → own_step c (with_host (host_leave (l_host c)) c)
  | own_probe_expired :
      probe_reads (l_probe c) → p_deadline (l_probe c) <= l_now c → own_step c (with_probe (probe_finish (l_probe c)) c).

(** What the connection brings. *)
Inductive net_reads (c : Link) : Link → Prop :=
  | reads_up s f rest : l_up c = (s, f) :: rest → host_reads (l_host c) → net_reads c (read_up f rest c)
  | reads_down s f queued rest :
      l_down c = (s, f) :: rest → probe_reads (l_probe c) → net_reads c (read_down f queued rest c).

(** What may go wrong: a token that is refused, errors of reads and writes, and a
    message of another goroutine of the Host for a probe that is in the hub's table
    and has not been answered. *)
Inductive fault (c : Link) : Link → Prop :=
  | fault_host : h_phase (l_host c) ≠ Left → fault c (with_host (host_leave (l_host c)) c)
  | fault_probe : probe_reads (l_probe c) → fault c (with_probe (probe_finish (l_probe c)) c)
  | fault_beats : fault c (with_probe (stop_beats (l_probe c)) c)
  | fault_early : h_phase (l_host c) = Entered → fault c (with_host (host_queue (l_now c) (l_host c)) c).

(** ** Healthy connections *)

(** [B], [L] and [D] bound how long a message is handled, how late a goroutine runs
    that is due, and how long after its sending a frame is read. *)
Section Timely.
Variables (D B L : Z).

Record prompt (c : Link) : Prop := {
  pr_hand s f : h_hand (l_host c) = Some (s, f) → l_now c <= s + B;
  pr_queue s f : h_phase (l_host c) = Pumps → (s, f) ∈ h_queue (l_host c) → l_now c <= s + L;
  pr_ping : h_phase (l_host c) = Pumps → l_now c <= h_tick (l_host c) + L;
  pr_beat : p_phase (l_probe c) = Living → p_beats (l_probe c) = true → l_now c <= p_tick (l_probe c) + L;
  pr_host : host_reads (l_host c) → l_now c <= h_deadline (l_host c) + L;
  pr_probe : probe_reads (l_probe c) → l_now c <= p_deadline (l_probe c) + L
}.

Record carried (c : Link) : Prop := {
  ca_up s f : (s, f) ∈ l_up c → h_phase (l_host c) ≠ Left → l_now c <= s + D;
  ca_down s f : (s, f) ∈ l_down c → probe_reads (l_probe c) → l_now c <= s + D
}.

Definition healthy : Link → Prop :=
  reachable (λ c, ∃ ago, 0 <= ago <= D ∧ c = link_start ago)
    (λ c c', (own_step c c' ∨ net_reads c c') ∧ prompt c' ∧ carried c').

(** *** What is to come *)

Definition text (e : Z * down_frame) : bool := match e.2 with DPing => false | _ => true end.

(** A time by which the Host will have read a frame. *)
Definition up_by (c : Link) (b : Z) : Prop :=
  (∃ s f, (s, f) ∈ l_up c ∧ b = s + D) ∨
  (p_phase (l_probe c) = Living ∧ b = p_tick (l_probe c) + L + D) ∨
  (p_phase (l_probe c) = Registering ∧ h_phase (l_host c) = Pumps ∧ b = seconds 35 + L + D).

(** A time by which a probe that serves will have read a message. *)
Definition reply_by (c : Link) (b : Z) : Prop :=
  (∃ s f, (s, f) ∈ l_down c ∧ f ≠ DPing ∧ b = s + D) ∨
  (∃ s f, (s, f) ∈ h_queue (l_host c) ∧ b = s + L + D) ∨
  (∃ s, h_hand (l_host c) = Some (s, UBeat) ∧ b = s + B + L + D) ∨
  (∃ s, (s, UBeat) ∈ l_up c ∧ b = s + D + B + L + D) ∨
  b = p_tick (l_probe c) + L + D + B + L + D.

(** And one that registers: the answer is the first message it reads. *)
Definition answer_by (c : Link) (b : Z) : Prop :=
  match h_phase (l_host c) with
  | Shaking | Entered =>
      l_down c = [] ∧ h_queue (l_host c) = [] ∧
      ((h_phase (l_host c) = Shaking ∧ h_hand (l_host c) = None ∧ l_up c = [(0, URegister)] ∧ b = D + B + L + D) ∨
       ∃ s, h_hand (l_host c) = Some (s, URegister) ∧ l_up c = [] ∧ b = s + B + L + D)
  | Pumps =>
      (∃ s l, List.filter text (l_down c) = (s, DResponse) :: l ∧ b = s + D) ∨
      (List.filter text (l_down c) = [] ∧ ∃ s l, h_queue (l_host c) = (s, DResponse) :: l ∧ b = s + L + D)
  | Left => False
  end.

Record alive (c : Link) : Prop := {
  al_prompt : prompt c;
  al_carried : carried c;
  al_now : 0 <= l_now c;
  al_up s f : (s, f) ∈ l_up c → s <= l_now c;
  al_queue s f : (s, f) ∈ h_queue (l_host c) → s <= l_now c ∧ f ≠ DPing;
  al_tick : p_tick (l_probe c) <= l_now c + seconds 25;
  al_stage : (p_phase (l_probe c) = Registering ∧ p_deadline (l_probe c) = seconds 10 ∧
              ∃ b, answer_by c b ∧ b < seconds 10) ∨
             (p_phase (l_probe c) = Living ∧ h_phase (l_host c) = Pumps ∧ p_beats (l_probe c) = true ∧
              ∃ b, reply_by c b ∧ b < p_deadline (l_probe c));
  al_host : (h_phase (l_host c) = Shaking ∧ h_hand (l_host c) = None) ∨ h_phase (l_host c) = Pumps →
            ∃ b, up_by c b ∧ b < h_deadline (l_host c)
}.

Hypothesis HD : 0 <= D.
Hypothesis HB : 0 <= B.
Hypothesis HL : 0 <= L.
Hypothesis Hsum : D + B + L + D < seconds 10.

Lemma up_by_now c b : alive c → h_phase (l_host c) ≠ Left → (p_phase (l_probe c) = Registering → l_now c < seconds 10) →
  up_by c b → l_now c <= b.
Proof.
  intros Hc Hh Hn [(s & f & Hin & ->)|[[Hp ->]|(Hp & Hpu & ->)]].
  - exact (ca_up c (al_carried c Hc) s f Hin Hh).
  - destruct (al_stage c Hc) as [[E _]|(_ & _ & Hbe & _)]; [by rewrite Hp in E|]. pose proof (pr_beat c (al_prompt c Hc) Hp Hbe). lia.
  - specialize (Hn Hp). unfold seconds in *. lia.
Qed.

Lemma reply_by_now c b : alive c → p_phase (l_probe c) = Living → h_phase (l_host c) = Pumps → p_beats (l_probe c) = true →
  reply_by c b → l_now c <= b.
Proof.
  intros Hc Hp Hh Hbe [(s & f & Hin & _ & ->)|[(s & f & Hin & ->)|[(s & Hs & ->)|[(s & Hin & ->)| ->]]]].
  - apply (ca_down c (al_carried c Hc) s f Hin). unfold probe_reads. by rewrite Hp.
  - pose proof (pr_queue c (al_prompt c Hc) s f Hh Hin). lia.
  - pose proof (pr_hand c (al_prompt c Hc) s _ Hs). lia.
  - pose proof (ca_up c (al_carried c Hc) s _ Hin). rewrite Hh in *. assert (l_now c <= s + D) by auto. lia.
  - pose proof (pr_beat c (al_prompt c Hc) Hp Hbe). lia.
Qed.

Lemma answer_by_now c b : alive c → p_phase (l_probe c) = Registering → answer_by c b → l_now c <= b.
Proof.
  intros Hc Hp Ha. assert (Hr : probe_reads (l_probe c)) by (unfold probe_reads; by rewrite Hp).
  assert (Hleft : h_phase (l_host c) ≠ Left) by (intros E; unfold answer_by in Ha; by rewrite E in Ha).
  assert (Hearly : (h_phase (l_host c) = Shaking ∧ h_hand (l_host c) = None ∧ l_up c = [(0, URegister)] ∧ b = D + B + L + D) ∨
       (∃ s, h_hand (l_host c) = Some (s, URegister) ∧ l_up c = [] ∧ b = s + B + L + D) → l_now c <= b).
  { intros [(_ & _ & Eu & ->)|(s & Es & _ & ->)].
    - assert (l_now c <= 0 + D) by (apply (ca_up c (al_carried c Hc) 0 URegister); [rewrite Eu; by left|done]). lia.
    - pose proof (pr_hand c (al_prompt c Hc) s _ Es). lia. }
  unfold answer_by in Ha. destruct (h_phase (l_host c)) eqn:Eh; [by apply Hearly, Ha|by apply Hearly, Ha| |done].
  destruct Ha as [(s & l & El & ->)|(_ & s & l & El & ->)].
  - assert (Hin : (s, DResponse) ∈ l_down c).
    { apply list_elem_of_In. apply (proj1 (filter_In text (s, DResponse) (l_down c))). rewrite El. by left. }
    by apply (ca_down c (al_carried c Hc) s _ Hin).
  - assert (l_now c <= s + L) by (apply (pr_queue c (al_prompt c Hc) s DResponse); [done|rewrite El; by left]). lia.
Qed.

(** Neither deadline has been reached. *)
Lemma alive_probe c : alive c → probe_reads (l_probe c) ∧ l_now c < p_deadline (l_probe c).
Proof.
  intros Hc. destruct (al_stage c Hc) as [(Hp & -> & b & Ha & Hb)|(Hp & Hh & Hbe & b & Ha & Hb)]; unfold probe_reads; rewrite Hp.
  - pose proof (answer_by_now c b Hc Hp Ha). split; [done|lia].
  - pose proof (reply_by_now c b Hc Hp Hh Hbe Ha). split; [done|lia].
Qed.

Lemma alive_host c : alive c → h_phase (l_host c) ≠ Left ∧ (host_reads (l_host c) → l_now c < h_deadline (l_host c)).
Proof.
  intros Hc. assert (Hl : h_phase (l_host c) ≠ Left).
  { destruct (al_stage c Hc) as [(_ & _ & b & Ha & _)|(_ & E & _)]; [|by rewrite E].
    intros E. unfold answer_by in Ha. by rewrite E in Ha. }
  split; [done|]. intros [Hph Hh]. destruct (al_host c Hc) as (b & Hb & Hlt); [by destruct Hph; [left|right]|].
  assert (l_now c <= b); [|lia]. apply (up_by_now c b Hc Hl); [|done].
  intros Hp. destruct (alive_probe c Hc) as [_ Hd]. destruct (al_stage c Hc) as [(_ & E & _)|(E & _)]; [lia|by rewrite Hp in E].
Qed.

(** *** Steps *)

Lemma up_by_mono c c' b :
  (∀ e, e ∈ l_up c → e ∈ l_up c') → p_phase (l_probe c') = p_phase (l_probe c) → p_tick (l_probe c') = p_tick (l_probe c) →
  h_phase (l_host c') = h_phase (l_host c) → up_by c b → up_by c' b.
Proof.
  intros Hu Ep Et Eh [(s & f & Hin & ->)|[[Hp ->]|(Hp & Hh & ->)]]; [left; by eauto|right; left|right; right].
  - by rewrite Ep, Et.
  - by rewrite Ep, Eh.
Qed.

Lemma reply_by_mono c c' b :
  (∀ s f, (s, f) ∈ l_down c → f ≠ DPing → (s, f) ∈ l_down c') →
  (∀ e, e ∈ h_queue (l_host c) → e ∈ h_queue (l_host c')) →
  (∀ s, h_hand (l_host c) = Some (s, UBeat) → h_hand (l_host c') = Some (s, UBeat)) →
  (∀ s, (s, UBeat) ∈ l_up c → (s, UBeat) ∈ l_up c') → p_tick (l_probe c') = p_tick (l_probe c) →
  reply_by c b → reply_by c' b.
Proof.
  intros Hd Hq Hh Hu Et [(s & f & Hin & Hf & ->)|[(s & f & Hin & ->)|[(s & Hs & ->)|[(s & Hin & ->)| ->]]]]; unfold reply_by.
  - left. exists s, f. auto.
  - right. left. exists s, f. auto.
  - do 2 right. left. exists s. auto.
  - do 3 right. left. exists s. auto.
  - do 4 right. by rewrite Et.
Qed.

Lemma with_probe_same c : with_probe (l_probe c) c = c.
Proof. by destruct c. Qed.

Lemma push_cases t f q : push t f q = q ++ [(t, f)] ∨ push t f q = q ∧ q ≠ [].
Proof. unfold push. destruct (Nat.ltb_spec (length q) sendBuffer); [by left|right]. split; [done|]. intros ->. simpl in *. unfold sendBuffer in *. lia. Qed.

Lemma push_sub t f q e : e ∈ q → e ∈ push t f q.
Proof. destruct (push_cases t f q) as [->|[-> _]]; [|done]. intros He. apply elem_of_app. by left. Qed.

Lemma push_in t f q e : e ∈ push t f q → e ∈ q ∨ e = (t, f).
Proof. destruct (push_cases t f q) as [->|[-> _]]; [|by left]. intros [He|He%list_elem_of_singleton]%elem_of_app; auto. Qed.

(** A message that is not queued finds others in the queue. *)
Lemma push_some t f q : (∀ s g, (s, g) ∈ q → s <= t) → ∃ s g, (s, g) ∈ push t f q ∧ s <= t.
Proof.
  intros Hq. destruct (push_cases t f q) as [->|[-> Hne]].
  - exists t, f. split; [apply elem_of_app; right; by left|lia].
  - destruct q as [|[s g] q]; [done|]. exists s, g. split; [by left|]. apply (Hq s g). by left.
Qed.

Lemma push_head t f q e l : q = e :: l → ∃ l', push t f q = e :: l'.
Proof. intros ->. destruct (push_cases t f (e :: l)) as [->|[-> _]]; eauto. Qed.

Lemma filter_texts l l' : List.filter text (l ++ l') = List.filter text l ++ List.filter text l'.
Proof. apply List.filter_app. Qed.

Lemma next_tick_le e t now : 0 < e → t <= now → next_tick e t now <= now + e.
Proof.
  intros He Ht. unfold next_tick. rewrite Z.max_r by lia. pose proof (Z.mul_div_le (now - t) e He). lia.
Qed.

(** A step that changes only what the Host's goroutines have and queues messages. *)
Lemma alive_host_step c h' :
  alive c → prompt (with_host h' c) → carried (with_host h' c) →
  h_phase h' = h_phase (l_host c) → h_deadline h' = h_deadline (l_host c) →
  (h_hand h' = h_hand (l_host c) ∨ h_phase h' = Pumps) →
  (∀ e, e ∈ h_queue (l_host c) → e ∈ h_queue h') →
  (∀ s f, (s, f) ∈ h_queue h' → s <= l_now c ∧ f ≠ DPing) →
  (h_queue h' = h_queue (l_host c) ∨ h_phase h' = Pumps ∧ ∀ e l, h_queue (l_host c) = e :: l → ∃ l', h_queue h' = e :: l') →
  (∀ s, h_hand (l_host c) = Some (s, UBeat) → h_hand h' = Some (s, UBeat) ∨
    ∃ s' f, (s', f) ∈ h_queue h' ∧ s' <= s + B) →
  alive (with_host h' c).
Proof.
  intros Hc Hp Hca Eph Edl Ehand Hsub Hq Hhead Hbeat. destruct Hc as [ap ac an au aq at' ast ah].
  split; simpl; try done.
  - destruct ast as [(E1 & E2 & b & Ha & Hb)|(E1 & E2 & E3 & b & Ha & Hb)]; [left|right].
    + split_and!; [done..|]. exists b. split; [|done]. unfold answer_by in *. simpl. rewrite Eph.
      destruct (h_phase (l_host c)) eqn:Eh; [..|done].
      * destruct Ehand as [->|E]; [|by rewrite Eph in E]. destruct Hhead as [->|[E _]]; [done|by rewrite Eph in E].
      * destruct Ehand as [->|E]; [|by rewrite Eph in E]. destruct Hhead as [->|[E _]]; [done|by rewrite Eph in E].
      * destruct Ha as [Ha|(Ht & s & l & El & ->)]; [by left|right]. split; [done|].
        destruct Hhead as [->|[_ Hl]]; [by eauto|]. destruct (Hl _ _ El) as (l' & El'). by eauto.
    + split_and!; [done|congruence|done|]. destruct Ha as [Ha|[(s & f & Hin & ->)|[(s & Hs & ->)|[Ha|Ha]]]].
      * exists b. split; [|done]. by left.
      * exists (s + L + D). split; [|done]. right. left. exists s, f. auto.
      * destruct (Hbeat s Hs) as [Hs'|(s' & f & Hin & Hle)].
        -- exists (s + B + L + D). split; [|done]. do 2 right. left. exists s. auto.
        -- exists (s' + L + D). split; [|lia]. right. left. exists s', f. auto.
      * exists b. split; [|done]. do 3 right. by left.
      * exists b. split; [|done]. do 4 right. done.
  - rewrite Eph, Edl. intros Hr. destruct ah as (b & Hb & Hlt).
    + destruct Hr as [[E1 E2]|E1]; [|by right]. left. split; [done|]. destruct Ehand as [E|E]; [by rewrite <- E|].
      by rewrite Eph, E1 in E.
    + exists b. split; [|done]. by apply (up_by_mono c).
Qed.

Lemma alive_start ago : 0 <= ago <= D → alive (link_start ago).
Proof.
  intros Ha. unfold seconds in *. split; simpl; unfold seconds; try done; try lia.
  - split; simpl; unfold seconds; try done; try lia.
  - split; simpl; [|by intros s f ?%not_elem_of_nil]. intros s f [= -> ->]%list_elem_of_singleton _. lia.
  - by intros s f [= -> ->]%list_elem_of_singleton.
  - by intros s f ?%not_elem_of_nil.
  - left. split_and!; [done..|]. exists (D + B + L + D). split; [|done]. unfold answer_by. simpl. split_and!; [done..|by left].
  - intros _. exists (0 + D). split; [left; exists 0, URegister; split; [by left|done]|lia].
Qed.

Lemma alive_wait c d : alive c → 0 <= d → prompt (wait d c) → carried (wait d c) → alive (wait d c).
Proof.
  intros [ap ac an au aq at' ast ah] Hd Hp Hca. split; simpl; try done; try lia.
  - intros s f Hin. pose proof (au s f Hin). lia.
  - intros s f Hin. destruct (aq s f Hin). split; [lia|done].
Qed.

Lemma alive_push c f h' :
  alive c → f ≠ DPing → h_phase (l_host c) = Pumps →
  h_phase h' = Pumps → h_deadline h' = h_deadline (l_host c) → h_queue h' = push (l_now c) f (h_queue (l_host c)) →
  h_hand h' = h_hand (l_host c) ∨ (∃ s, h_hand (l_host c) = Some (s, UBeat)) →
  prompt (with_host h' c) → carried (with_host h' c) → alive (with_host h' c).
Proof.
  intros Hc Hf Hph Eph Edl Eq Ehand Hp Hca. pose proof (al_queue c Hc) as aq.
  apply alive_host_step; try done; rewrite ?Eq.
  - by rewrite Hph.
  - by right.
  - intros e. apply push_sub.
  - intros s g [Hin|[= -> ->]]%push_in; [by apply aq|]. split; [lia|done].
  - right. split; [done|]. intros e l. apply push_head.
  - intros s Hs. right. destruct (push_some (l_now c) f (h_queue (l_host c))) as (s' & g & Hin & Hle); [by intros s' g Hin; apply aq in Hin as [? _]|].
    exists s', g. split; [done|]. pose proof (pr_hand c (al_prompt c Hc) s _ Hs). lia.
Qed.

Lemma alive_done c :
  alive c → h_phase (l_host c) = Pumps → prompt (with_host (host_done (l_now c) (l_host c)) c) →
  carried (with_host (host_done (l_now c) (l_host c)) c) → alive (with_host (host_done (l_now c) (l_host c)) c).
Proof.
  intros Hc Hph Hp Hca. pose proof (al_queue c Hc) as aq. unfold host_done in *.
  destruct (h_hand (l_host c)) as [[s f]|] eqn:Eh; [destruct f|].
  2: by apply (alive_push c DAck); [..|right; exists s|done|done].
  all: apply alive_host_step; try done; simpl; rewrite ?Eh; try done; [by right|by left].
Qed.

Lemma alive_enter c :
  alive c → h_phase (l_host c) = Shaking → h_hand (l_host c) ≠ None → prompt (with_host (host_enter (l_host c)) c) →
  carried (with_host (host_enter (l_host c)) c) → alive (with_host (host_enter (l_host c)) c).
Proof.
  intros [ap ac an au aq at' ast ah] Hph Hh Hp Hca. split; simpl; try done.
  - destruct ast as [(E1 & E2 & b & Ha & Hb)|(_ & E & _)]; [left|by rewrite Hph in E]. split_and!; [done..|].
    exists b. split; [|done]. unfold answer_by in *. rewrite Hph in Ha. simpl. destruct Ha as (H1 & H2 & Ha). split_and!; [done..|].
    right. destruct Ha as [(_ & E & _)|Ha]; [done|exact Ha].
  - by intros [[]|].
Qed.

Lemma alive_greet c :
  alive c → h_phase (l_host c) = Entered → prompt (with_host (host_greet (l_now c) (l_host c)) c) →
  carried (with_host (host_greet (l_now c) (l_host c)) c) → alive (with_host (host_greet (l_now c) (l_host c)) c).
Proof.
  intros [ap ac an au aq at' ast ah] Hph Hp Hca.
  destruct ast as [(E1 & E2 & b & Ha & Hb)|(_ & E & _)]; [|by rewrite Hph in E].
  unfold answer_by in Ha. rewrite Hph in Ha. destruct Ha as (Ed & Eq & [(E & _)|(s & Es & Eu & ->)]); [done|].
  pose proof (pr_hand c ap s _ Es). split; simpl; try done.
  - rewrite Eq. simpl. intros s' f [[= -> ->]|[[= -> ->]|?%not_elem_of_nil]%elem_of_cons]%elem_of_cons; [split; [lia|done]..|done].
  - left. split_and!; [done..|]. exists (l_now c + L + D). split; [|lia]. unfold answer_by. simpl. right.
    rewrite Ed, Eq. split; [done|]. by eexists _, _.
  - intros _. exists (seconds 35 + L + D). split; [by do 2 right|]. unfold seconds in *. lia.
Qed.

Lemma alive_write c s f q :
  alive c → h_phase (l_host c) = Pumps → h_queue (l_host c) = (s, f) :: q →
  let c' := send_down f (with_host (host_unqueue q (l_host c)) c) in prompt c' → carried c' → alive c'.
Proof.
  intros Hc Hph Eq c' Hp Hca. destruct Hc as [ap ac an au aq at' ast ah].
  assert (Hs : l_now c <= s + L) by (apply (pr_queue c ap s f Hph); rewrite Eq; by left).
  assert (Hf : f ≠ DPing) by (apply (aq s f); rewrite Eq; by left).
  split; simpl; try done.
  - intros s' f' Hin. apply aq. rewrite Eq. by right.
  - destruct ast as [(E1 & E2 & b & Ha & Hb)|(E1 & E2 & E3 & b & Ha & Hb)]; [left|right]; split_and!; try done.
    + unfold answer_by in *. simpl. rewrite Hph in *. destruct Ha as [(s0 & l & El & ->)|(Et & s0 & l & El & ->)].
      * exists (s0 + D). split; [|done]. left. rewrite filter_texts, El. by eexists _, _.
      * rewrite Eq in El. injection El as -> -> ->. exists (l_now c + D). split; [|lia]. left. rewrite filter_texts, Et. by eexists _, _.
    + destruct Ha as [(s0 & g & Hin & Hg & ->)|[(s0 & g & Hin & ->)|Ha]].
      * exists (s0 + D). split; [|done]. left. exists s0, g. split_and!; [apply elem_of_app; by left|done..].
      * rewrite Eq in Hin. apply elem_of_cons in Hin as [[= -> ->]|Hin].
        -- exists (l_now c + D). split; [|lia]. left. exists (l_now c), f. split_and!; [apply elem_of_app; right; by left|done..].
        -- exists (s0 + L + D). split; [|done]. right. left. exists s0, g. auto.
      * exists b. split; [|done]. by do 2 right.
Qed.

Lemma alive_ping c :
  alive c → h_phase (l_host c) = Pumps → let c' := send_down DPing (with_host (host_ping (l_now c) (l_host c)) c) in
  prompt c' → carried c' → alive c'.
Proof.
  intros [ap ac an au aq at' ast ah] Hph c' Hp Hca. split; simpl; try done.
  destruct ast as [(E1 & E2 & b & Ha & Hb)|(E1 & E2 & E3 & b & Ha & Hb)]; [left|right]; split_and!; try done; exists b;
    (split; [|done]).
  - unfold answer_by in *. simpl. rewrite Hph in *. by rewrite filter_texts, app_nil_r.
  - apply (reply_by_mono c); simpl; try done. intros s f Hin _. apply elem_of_app. by left.
Qed.

Lemma alive_sent c f p' :
  alive c → f ≠ URegister → p_phase p' = Living → p_phase (l_probe c) = Living → p_deadline p' = p_deadline (l_probe c) →
  p_beats p' = p_beats (l_probe c) → p_tick p' <= l_now c + seconds 25 →
  (p_tick p' = p_tick (l_probe c) ∨ f = UBeat) →
  let c' := send_up f (with_probe p' c) in prompt c' → carried c' → alive c'.
Proof.
  intros Hc Hf Ep' Ep Ed Eb Ht Hbeat c' Hp Hca. pose proof Hc as [ap ac an au aq at' ast ah].
  destruct ast as [(E & _)|(_ & Hh & Hbe & b & Ha & Hb)]; [by rewrite Ep in E|]. pose proof (pr_beat c ap Ep Hbe) as Hl.
  assert (Hin : (l_now c, f) ∈ l_up c ++ [(l_now c, f)]) by (apply elem_of_app; right; by left).
  assert (Hsub : ∀ e, e ∈ l_up c → e ∈ l_up c ++ [(l_now c, f)]) by (intros e ?; apply elem_of_app; by left).
  split; simpl; try done.
  - intros s g [Hin'|[= -> ->]%list_elem_of_singleton]%elem_of_app; [by apply (au s g)|lia].
  - right. split_and!; [done..|congruence|]. rewrite Ed. destruct Hbeat as [Et| ->].
    + exists b. split; [|done]. apply (reply_by_mono c); simpl; auto.
    + destruct Ha as [Ha|[Ha|[Ha|[(s & Hs & ->)| ->]]]].
      * exists b. split; [|done]. by left.
      * exists b. split; [|done]. by right; left.
      * exists b. split; [|done]. by do 2 right; left.
      * exists (s + D + B + L + D). split; [|done]. do 3 right. left. exists s. split; [by apply Hsub|done].
      * exists (l_now c + D + B + L + D). split; [|lia]. do 3 right. left. by exists (l_now c).
  - intros Hr. destruct (ah Hr) as (b' & Hb' & Hlt). destruct Hb' as [(s & g & Hs & ->)|[(_ & ->)|(E & _)]]; [..|by rewrite Ep in E].
    + exists (s + D). split; [|done]. left. exists s, g. auto.
    + exists (l_now c + D). split; [|lia]. left. by exists (l_now c), f.
Qed.

Lemma alive_read_up c s f rest :
  alive c → l_up c = (s, f) :: rest → host_reads (l_host c) →
  prompt (read_up f rest c) → carried (read_up f rest c) → alive (read_up f rest c).
Proof.
  intros Hc Eu [Hph Hno] Hp Hca. pose proof Hc as [ap ac an au aq at' ast ah].
  pose proof (alive_probe c Hc) as [_ Hnow]. pose proof (alive_host c Hc) as [Hleft _].
  assert (Hs : l_now c <= s + D) by (apply (ca_up c ac s f); [rewrite Eu; by left|done]).
  assert (Hin : ∀ e, e ∈ rest → e ∈ l_up c) by (intros e ?; rewrite Eu; by right).
  destruct Hph as [Hph|Hph].
  - destruct ast as [(E1 & E2 & b & Ha & Hb)|(_ & E & _)]; [|by rewrite Hph in E].
    unfold answer_by in Ha. rewrite Hph in Ha. destruct Ha as (Ed & Eq & [(_ & _ & Eu' & ->)|(s' & E & _)]); [|by rewrite Hno in E].
    rewrite Eu in Eu'. injection Eu' as -> -> ->. unfold read_up, host_read in *. rewrite Hph in *. split; simpl; try done.
    + intros s' g Hin'. by apply not_elem_of_nil in Hin'.
    + left. split_and!; [done..|]. exists (l_now c + B + L + D). split; [|lia]. unfold answer_by. simpl. split_and!; [done..|].
      right. by exists (l_now c).
    + by intros [[_ ?]|?].
  - assert (Eh : ∃ h', host_read (l_now c) f (l_host c) = h' ∧ h_phase h' = Pumps ∧ h_deadline h' = l_now c + seconds 90 ∧
      h_queue h' = h_queue (l_host c) ∧ (f = UBeat → h_hand h' = Some (l_now c, UBeat))).
    { unfold host_read. rewrite Hph. destruct f; by eexists. }
    unfold read_up in *. destruct Eh as (h' & Er & Eph & Edl & Eq & Ebt). rewrite Er in *. split; simpl; rewrite ?Eq; try done.
    + intros s' g Hin'. by apply (au s' g), Hin.
    + destruct ast as [(E1 & E2 & b & Ha & Hb)|(E1 & E2 & E3 & b & Ha & Hb)]; [left|right]; split_and!; try done.
      * exists b. split; [|done]. unfold answer_by in *. simpl. by rewrite Hph, ?Eph, ?Eq in *.
      * destruct Ha as [Ha|[Ha|[(s' & E & _)|[(s' & Hs' & ->)| ->]]]].
        -- exists b. split; [|done]. by left.
        -- exists b. split; [|done]. right. left. simpl. by rewrite Eq.
        -- by rewrite Hno in E.
        -- rewrite Eu in Hs'. apply elem_of_cons in Hs' as [[= -> <-]|Hs'].
           ++ exists (l_now c + B + L + D). split; [|lia]. do 2 right. left. exists (l_now c). split; [by apply Ebt|done].
           ++ exists (s' + D + B + L + D). split; [|done]. do 3 right. left. by exists s'.
        -- eexists. split; [by do 4 right|done].
    + intros _. rewrite Edl. destruct ast as [(E1 & E2 & _)|(E1 & _)].
      * exists (seconds 35 + L + D). split; [by do 2 right|]. unfold seconds in *. lia.
      * exists (p_tick (l_probe c) + L + D). split; [by right; left|]. unfold seconds in *. lia.
Qed.

(** The probe's reads: with the queue's head gone and [out] sent. *)
Lemma alive_pong c s rest :
  alive c → l_down c = (s, DPing) :: rest →
  let c' := mkLink (l_now c) (l_host c) (l_probe c) (l_up c ++ [(l_now c, UPong)]) rest in prompt c' → carried c' → alive c'.
Proof.
  intros [ap ac an au aq at' ast ah] Ed c' Hp Hca.
  assert (Hsub : ∀ e, e ∈ l_up c → e ∈ l_up c ++ [(l_now c, UPong)]) by (intros e ?; apply elem_of_app; by left).
  split; simpl; try done.
  - intros s' g [Hin'|[= -> ->]%list_elem_of_singleton]%elem_of_app; [by apply (au s' g)|lia].
  - destruct ast as [(E1 & E2 & b & Ha & Hb)|(E1 & E2 & E3 & b & Ha & Hb)]; [left|right]; split_and!; try done; exists b;
      (split; [|done]).
    + unfold answer_by in *. simpl. rewrite Ed in Ha. by destruct (h_phase (l_host c)); [destruct Ha|destruct Ha|..].
    + apply (reply_by_mono c); simpl; auto. rewrite Ed. intros s' f [[= -> ->]|Hin]%elem_of_cons ?; [done|done].
  - intros Hr. destruct (ah Hr) as (b & Hb & Hlt). exists b. split; [|done]. by apply (up_by_mono c).
Qed.

Lemma alive_registered c s rest queued :
  alive c → l_down c = (s, DResponse) :: rest → p_phase (l_probe c) = Registering →
  prompt (read_down DResponse queued rest c) → carried (read_down DResponse queued rest c) →
  alive (read_down DResponse queued rest c).
Proof.
  intros Hc Ed Ep Hp Hca. pose proof Hc as [ap ac an au aq at' ast ah]. pose proof (alive_probe c Hc) as [_ Hnow].
  destruct ast as [(_ & E2 & b & Ha & Hb)|(E & _)]; [|by rewrite Ep in E]. rewrite E2 in Hnow.
  assert (Hph : h_phase (l_host c) = Pumps).
  { unfold answer_by in Ha. rewrite Ed in Ha. by destruct (h_phase (l_host c)); [destruct Ha|destruct Ha|..]. }
  unfold read_down, probe_read in *. rewrite Ep in *. split; simpl; try done.
  - intros s' f [Hin|[[= -> ->] _]%elem_of_replicate]%elem_of_app; [by apply (au s' f)|lia].
  - right. split_and!; [done..|]. exists (l_now c + seconds 25 + L + D + B + L + D). split; [by do 4 right|]. unfold seconds in *. lia.
  - intros _. destruct ah as (b' & Hb' & Hlt); [by right|]. destruct Hb' as [(s' & g & Hs & ->)|[(E & _)|(_ & _ & ->)]]; [..|by rewrite Ep in E|].
    + exists (s' + D). split; [|done]. left. exists s', g. split; [apply elem_of_app; by left|done].
    + exists (l_now c + seconds 25 + L + D). split; [by right; left|]. unfold seconds in *. lia.
Qed.

Lemma alive_message c s f rest :
  alive c → l_down c = (s, f) :: rest → f ≠ DPing → p_phase (l_probe c) = Living →
  let c' := mkLink (l_now c) (l_host c) (mkProbeEnd Living (l_now c + seconds 90) (p_beats (l_probe c)) (p_tick (l_probe c)) (l_now c))
              (l_up c ++ []) rest in
  prompt c' → carried c' → alive c'.
Proof.
  intros [ap ac an au aq at' ast ah] Ed Hf Ep c' Hp Hca. destruct ast as [(E & _)|(_ & Hh & Hbe & _)]; [by rewrite Ep in E|].
  unfold c' in *. rewrite app_nil_r in *. split; simpl; try done.
  - right. split_and!; [done..|]. eexists. split; [by do 4 right|]. simpl. unfold seconds in *. lia.
  - intros Hr. destruct (ah Hr) as (b' & [Hb'|[[_ ->]|(E & _)]] & Hlt); [..|by rewrite Ep in E]; (eexists; split; [|exact Hlt]); [by left|by right; left].
Qed.

(** While the probe registers, the answer is the first message. *)
Lemma first_message c s f rest b :
  l_down c = (s, f) :: rest → answer_by c b → f = DPing ∨ f = DResponse.
Proof.
  intros Ed Ha. unfold answer_by in Ha. rewrite Ed in Ha. destruct (h_phase (l_host c)); [by destruct Ha|by destruct Ha| |done].
  destruct f; [by right|..|by left]; by destruct Ha as [(? & ? & E & _)|[E _]].
Qed.

Lemma alive_read_down c s f queued rest :
  alive c → l_down c = (s, f) :: rest →
  prompt (read_down f queued rest c) → carried (read_down f queued rest c) → alive (read_down f queued rest c).
Proof.
  intros Hc Ed Hp Hca. destruct (p_phase (l_probe c)) eqn:Ep.
  - destruct (al_stage c Hc) as [(_ & _ & b & Ha & _)|(E & _)]; [|by rewrite Ep in E].
    destruct (first_message c s f rest b Ed Ha) as [->| ->]; [|by eapply alive_registered].
    unfold read_down, probe_read in *. rewrite Ep in *. by eapply alive_pong.
  - destruct f; unfold read_down, probe_read in *; rewrite Ep in *; first [by eapply alive_message|by eapply alive_pong].
  - by destruct (alive_probe c Hc) as [? _].
Qed.

Lemma healthy_alive c : healthy c → alive c.
Proof.
  apply reachable_ind_inv; [intros ? (ago & Ha & ->); by apply alive_start|].
  intros c1 c2 Hc ([Hs|Hs] & Hp & Hca); pose proof (alive_probe c1 Hc) as [Hpr Hpd]; pose proof (alive_host c1 Hc) as [Hho Hhd].
  - destruct Hs as [d|Hph Hh|Hph Hh|Hph|Hph|s f q Hph Eq|Hph Ht|Ep|Ep Eb Et|Hr Hd|Hr Hd].
    + by apply alive_wait.
    + by apply alive_done.
    + by apply alive_enter.
    + by apply alive_greet.
    + by apply (alive_push c1 DOther); [..|left|done|done].
    + by eapply alive_write.
    + by apply alive_ping.
    + rewrite <- (with_probe_same c1) in Hp, Hca |- *. apply (alive_sent c1 UReport); try done; [apply (al_tick c1 Hc)|by left].
    + apply (alive_sent c1 UBeat); try done; [|by right]. simpl. apply next_tick_le; [by unfold seconds|done].
    + specialize (Hhd Hr). lia.
    + lia.
  - destruct Hs as [s f rest Eu Hr|s f queued rest Ed Hr]; [by eapply alive_read_up|by eapply alive_read_down].
Qed.

(** C25. A connection whose frames and goroutines are not too late stays up: if the
    delays of a round trip stay below ten seconds, then the probe is registered
    within its ten seconds, the Host's and the probe's read deadlines are never
    reached, whatever either side sends or does not send besides, and neither end
    closes. The probe's deadline holds by the acknowledgements of its heartbeats
    alone: the Host's pings do not push it back, and an acknowledgement that finds
    the queue full finds other messages in it. *)
Theorem healthy_connection c :
  healthy c →
  h_phase (l_host c) ≠ Left ∧ p_phase (l_probe c) ≠ Ended ∧
  (host_reads (l_host c) → l_now c < h_deadline (l_host c)) ∧ l_now c < p_deadline (l_probe c) ∧
  (seconds 10 <= l_now c → p_phase (l_probe c) = Living).
Proof.
  intros Hc%healthy_alive. pose proof (alive_probe c Hc) as [H1 H2]. pose proof (alive_host c Hc) as [H3 H4].
  split_and!; try done. intros Hn. destruct (al_stage c Hc) as [(_ & E & _)|[E _]]; [lia|done].
Qed.

(** *** A connection that has gone silent *)

Definition any_link : Link → Prop :=
  reachable (λ c, ∃ ago, 0 <= ago <= seconds 10 ∧ c = link_start ago)
    (λ c c', (own_step c c' ∨ net_reads c c' ∨ fault c c') ∧ prompt c').

(** What neither side hears anything in. *)
Definition silent : Link → Link → Prop := rtc (λ c c', (own_step c c' ∨ fault c c') ∧ prompt c').

Record due_by (T : Z) (c : Link) : Prop := {
  du_prompt : prompt c;
  du_hand s f : h_hand (l_host c) = Some (s, f) → s <= T;
  du_entered : h_phase (l_host c) = Entered → h_hand (l_host c) ≠ None;
  du_host : h_deadline (l_host c) <= T + seconds 90 + B;
  du_probe : p_deadline (l_probe c) <= T + seconds 90
}.

Lemma due_step T c c' : due_by T c → own_step c c' ∨ fault c c' → prompt c' → due_by T c'.
Proof.
  intros [dp dh de dd dq] Hs. revert Hs.
  intros [[d|Hph Hh|Hph Hh|Hph|Hph|s f q Hph Eq|Hph Ht|Ep|Ep Eb Et|Hr Hd|Hr Hd]|[Hph|Hph| |Hph]] Hp;
    (split; [exact Hp|..]); simpl; try done; try (match goal with Hph : h_phase _ = _ |- _ => by intros E; rewrite Hph in E end).
  destruct (h_hand (l_host c)) as [[s f]|] eqn:Eh; [|by destruct (de Hph)].
  pose proof (dh s f eq_refl). pose proof (pr_hand c dp s f Eh). lia.
Qed.

Lemma due_reads T c c' : due_by T c → T <= l_now c → net_reads c c' → prompt c' → due_by (l_now c) c'.
Proof.
  intros [dp dh de dd dq] HT Hs Hp. destruct Hs as [s f rest Eu [Hph Hno]|s f queued rest Ed Hr].
  - split; [done|..]; unfold read_up; simpl; [..|lia]; unfold host_read.
    + intros s' g. destruct Hph as [-> | ->], f; simpl; try congruence; intros [= <- <-]; lia.
    + destruct Hph as [E|E]; rewrite E; destruct f; simpl; congruence.
    + destruct Hph as [-> | ->], f; simpl; lia.
  - destruct (probe_read (l_now c) f queued (l_probe c)) as [p out] eqn:Ep. unfold read_down in *. rewrite Ep in *.
    split; [done|..]; simpl; try done; try lia; [intros s' g Hh; specialize (dh s' g Hh); lia|].
    unfold probe_read in Ep. destruct f, (p_phase (l_probe c)); injection Ep as <- _; simpl; lia.
Qed.

Lemma any_due c : any_link c → due_by (l_now c) c.
Proof.
  apply (reachable_ind_inv _ _ (λ c, due_by (l_now c) c)).
  - intros ? (ago & Ha & ->). unfold seconds in *. split; [split|..]; simpl; unfold seconds; try done; try lia.
  - intros c1 c2 Hc (Hs & Hp). assert (Hmono : ∀ T T' x, T <= T' → due_by T x → due_by T' x).
    { intros T T' x HT [dp dh de dd dq]. split; try done; try lia. intros s f Hh. specialize (dh s f Hh). lia. }
    assert (Hnow : l_now c1 <= l_now c2).
    { destruct Hs as [[]|[[]|[]]]; simpl; try lia. unfold read_down. destruct (probe_read _ _ _ _). simpl. lia. }
    apply (Hmono (l_now c1)); [done|]. destruct Hs as [Hs|[Hs|Hs]].
    + apply (due_step _ c1); auto.
    + apply (due_reads (l_now c1) c1); [done|lia|done..].
    + apply (due_step _ c1); auto.
Qed.

(** C32. Silence is noticed: whatever state a connection is in, once nothing has been read
    on it for ninety seconds, and for as long as a message may still be handled and
    a goroutine may be late, both ends have closed it. *)
Theorem silence_noticed c c' :
  any_link c → silent c c' → l_now c + seconds 90 + B + L < l_now c' →
  h_phase (l_host c') = Left ∧ p_phase (l_probe c') = Ended.
Proof.
  intros Hc%any_due Hs Hlt. assert (Hd : due_by (l_now c) c').
  { clear Hlt. set (T := l_now c) in *. clearbody T. induction Hs as [|c1 c2 c3 [Hs Hp] _ IH]; [done|]. by eapply IH, due_step. }
  destruct Hd as [dp dh de dd dq]. unfold seconds in *. split.
  - destruct (h_hand (l_host c')) as [[s f]|] eqn:Eh.
    + pose proof (dh s f eq_refl). pose proof (pr_hand c' dp s f Eh). lia.
    + destruct (h_phase (l_host c')) eqn:Ep; [|by destruct de| |done].
      all: assert (l_now c' <= h_deadline (l_host c') + L); [|lia]; apply (pr_host c' dp); split; [rewrite Ep; auto|done].
  - destruct (p_phase (l_probe c')) eqn:Ep; [..|done].
    all: assert (l_now c' <= p_deadline (l_probe c') + L); [|lia]; apply (pr_probe c' dp); unfold probe_reads; by rewrite Ep.
Qed.

End Timely.

(** *** Runs *)

Inductive link_move :=
  | MWait (d : Z) | MReadUp | MDone | MEnter | MGreet | MQueue | MEarly | MWrite | MPing
  | MReport | MBeat | MReadDown (queued : nat) | MExpireHost | MExpireProbe.

Definition is_phase (p q : host_phase) : bool :=
  match p, q with Shaking, Shaking | Entered, Entered | Pumps, Pumps | Left, Left => true | _, _ => false end.
Definition handling (h : HostEnd) : bool := match h_hand h with Some _ => true | None => false end.
Definition living (p : ProbeEnd) : bool := match p_phase p with Living => true | _ => false end.
Definition ended (p : ProbeEnd) : bool := match p_phase p with Ended => true | _ => false end.
Definition host_reading (h : HostEnd) : bool := (is_phase (h_phase h) Shaking || is_phase (h_phase h) Pumps) && negb (handling h).

Definition link_play1 (m : link_move) (c : Link) : option Link :=
  let h := l_host c in let p := l_probe c in let now := l_now c in
  let ok (b : bool) (c' : Link) := if b then Some c' else None in
  let pumps := is_phase (h_phase h) Pumps in
  match m with
  | MWait d => ok (0 <=? d) (wait d c)
  | MReadUp => match l_up c with (s, f) :: rest => ok (host_reading h) (read_up f rest c) | [] => None end
  | MDone => ok (pumps && handling h) (with_host (host_done now h) c)
  | MEnter => ok (is_phase (h_phase h) Shaking && handling h) (with_host (host_enter h) c)
  | MGreet => ok (is_phase (h_phase h) Entered) (with_host (host_greet now h) c)
  | MQueue => ok pumps (with_host (host_queue now h) c)
  | MEarly => ok (is_phase (h_phase h) Entered) (with_host (host_queue now h) c)
  | MWrite => match h_queue h with (s, f) :: q => ok pumps (send_down f (with_host (host_unqueue q h) c)) | [] => None end
  | MPing => ok (pumps && (h_tick h <=? now)) (send_down DPing (with_host (host_ping now h) c))
  | MReport => ok (living p) (send_up UReport c)
  | MBeat => ok (living p && p_beats p && (p_tick p <=? now)) (send_up UBeat (with_probe (probe_beat now p) c))
  | MReadDown queued => match l_down c with (s, f) :: rest => ok (negb (ended p)) (read_down f queued rest c) | [] => None end
  | MExpireHost => ok (host_reading h && (h_deadline h <=? now)) (with_host (host_leave h) c)
  | MExpireProbe => ok (negb (ended p) && (p_deadline p <=? now)) (with_probe (probe_finish p) c)
  end.

Lemma is_phase_eq p q : is_phase p q = true ↔ p = q.
Proof. by destruct p, q. Qed.

Lemma link_play1_step m c c' :
  link_play1 m c = Some c' → match m with MEarly => h_phase (l_host c) = Entered ∧ c' = with_host (host_queue (l_now c) (l_host c)) c
                       | MReadUp | MReadDown _ => net_reads c c' | _ => own_step c c' end.
Proof.
  assert (Hh : handling (l_host c) = true → h_hand (l_host c) ≠ None) by (by unfold handling; destruct (h_hand (l_host c))).
  assert (Hl : living (l_probe c) = true → p_phase (l_probe c) = Living) by (by unfold living; destruct (p_phase (l_probe c))).
  assert (He : ended (l_probe c) = false → probe_reads (l_probe c)) by (by unfold ended, probe_reads; destruct (p_phase (l_probe c))).
  assert (Hr : host_reading (l_host c) = true → host_reads (l_host c)).
  { unfold host_reading, host_reads, handling. rewrite andb_true_iff, orb_true_iff, !is_phase_eq.
    intros [Hp Hn]. split; [done|]. by destruct (h_hand (l_host c)). }
  destruct m; simpl; intros E; repeat (case_match; try done); simplify_eq;
    repeat match goal with
    | H : _ && _ = true |- _ => apply andb_true_iff in H as [? ?]
    | H : is_phase _ _ = true |- _ => apply is_phase_eq in H
    | H : negb _ = true |- _ => apply negb_true_iff in H
    | H : (_ <=? _) = true |- _ => apply Z.leb_le in H
    end; first [by constructor; auto|by econstructor; auto|done].
Qed.

(** A run whose every step passes [ok]. *)
Fixpoint link_play (ok : Link → Link → bool) (l : list link_move) (c : Link) : option Link :=
  match l with
  | [] => Some c
  | m :: l => c' ← link_play1 m c; if ok c c' then link_play ok l c' else None
  end.

Lemma link_play_rtc (R : Link → Link → Prop) (good : link_move → bool) ok l :
  (∀ m c c', good m = true → link_play1 m c = Some c' → ok c c' = true → R c c') → forallb good l = true →
  ∀ c c', link_play ok l c = Some c' → rtc R c c'.
Proof.
  intros HR. induction l as [|m l IH]; intros Hg c c'; simpl; [by intros [= <-]; apply rtc_refl|].
  simpl in Hg. apply andb_true_iff in Hg as [Hm Hg].
  destruct (link_play1 m c) as [c1|] eqn:E; [|done]. simpl. destruct (ok c c1) eqn:Eo; [|done].
  intros Hl. eapply rtc_l; [by apply (HR m)|]. by apply IH.
Qed.

(** The moves of a healthy connection, and those without reads. *)
Definition regular (m : link_move) : bool := match m with MEarly => false | _ => true end.
Definition unheard (m : link_move) : bool := match m with MReadUp | MReadDown _ => false | _ => true end.

Section Checks.
Variables (D B L : Z).

Definition prompt_check (c : Link) : bool :=
  let h := l_host c in let p := l_probe c in let now := l_now c in
  match h_hand h with Some (s, _) => now <=? s + B | None => true end &&
  (if is_phase (h_phase h) Pumps then forallb (λ e : Z * down_frame, now <=? e.1 + L) (h_queue h) && (now <=? h_tick h + L) else true) &&
  (if living p && p_beats p then now <=? p_tick p + L else true) &&
  (if host_reading h then now <=? h_deadline h + L else true) &&
  (if ended p then true else now <=? p_deadline p + L).

Definition carried_check (c : Link) : bool :=
  (is_phase (h_phase (l_host c)) Left || forallb (λ e : Z * up_frame, l_now c <=? e.1 + D) (l_up c)) &&
  (ended (l_probe c) || forallb (λ e : Z * down_frame, l_now c <=? e.1 + D) (l_down c)).

Lemma prompt_checked c : prompt_check c = true → prompt B L c.
Proof.
  unfold prompt_check. rewrite !andb_true_iff. intros ((((H1 & H2) & H3) & H4) & H5). split.
  - intros s f E. rewrite E in H1. lia.
  - intros s f E Hin. rewrite E in H2. simpl in H2. apply andb_true_iff in H2 as [H2 _].
    rewrite forallb_forall in H2. specialize (H2 (s, f) (proj1 (list_elem_of_In _ _) Hin)). simpl in H2. lia.
  - intros E. rewrite E in H2. simpl in H2. apply andb_true_iff in H2 as [_ H2]. lia.
  - unfold living in H3. intros E Eb. rewrite E, Eb in H3. simpl in H3. lia.
  - intros [E1 E2]. unfold host_reading, handling in H4. rewrite E2 in H4. destruct E1 as [E1|E1]; rewrite E1 in H4; simpl in H4; lia.
  - unfold probe_reads, ended in *. destruct (p_phase (l_probe c)); [lia..|done].
Qed.

Lemma carried_checked c : carried_check c = true → carried D c.
Proof.
  unfold carried_check. rewrite !andb_true_iff, !orb_true_iff, is_phase_eq, !forallb_forall. intros (H1 & H2). split.
  - intros s f Hin%list_elem_of_In E. destruct H1 as [H1|H1]; [done|]. specialize (H1 _ Hin). simpl in H1. lia.
  - intros s f Hin%list_elem_of_In E. destruct H2 as [H2|H2]; [by unfold ended, probe_reads in *; destruct (p_phase _)|].
    specialize (H2 _ Hin). simpl in H2. lia.
Qed.
End Checks.

(** The handshake, with two reports to flush, heartbeats and pings for 100 seconds. *)
Definition handshake (queued : nat) : list link_move :=
  [MReadUp; MEnter; MGreet; MWrite; MWrite; MReadDown queued; MReadDown 0].
Definition beat_round : list link_move := [MBeat; MReadUp; MDone; MWrite; MReadDown 0].
Definition pong_round : list link_move := [MPing; MReadDown 0; MReadUp].
Definition pause (n : Z) : link_move := MWait (seconds n).
Definition demo_moves : list link_move :=
  handshake 2 ++ [MReadUp; MDone; MReadUp; MDone; pause 25] ++ beat_round ++ [pause 5] ++ pong_round ++ [pause 20] ++
  beat_round ++ [pause 10] ++ pong_round ++ [pause 15] ++ beat_round ++ [pause 15] ++ pong_round ++ [pause 10] ++ beat_round.

Definition timely (D B L : Z) (c c' : Link) : bool := prompt_check B L c' && carried_check D c'.
Definition demo_link : Link := default (link_start 0) (link_play (timely (seconds 1) (seconds 1) (seconds 1)) demo_moves (link_start 0)).

Lemma demo_link_healthy : healthy (seconds 1) (seconds 1) (seconds 1) demo_link.
Proof.
  apply (reachable_rtc _ _ (link_start 0)); [apply reach_init; exists 0; split; [by vm_compute|done]|].
  apply (link_play_rtc _ regular (timely (seconds 1) (seconds 1) (seconds 1)) demo_moves); [|by vm_compute..].
  intros m c c' Hm Hs [Hp%prompt_checked Hc%carried_checked]%andb_true_iff. split; [|done].
  apply link_play1_step in Hs. destruct m; auto. done.
Qed.

Lemma healthy_connection_witness : l_now demo_link = seconds 100 ∧ p_phase (l_probe demo_link) = Living.
Proof.
  split; [by vm_compute|]. apply (healthy_connection (seconds 1) (seconds 1) (seconds 1) ltac:(by vm_compute) ltac:(by vm_compute)
    ltac:(by vm_compute) ltac:(by vm_compute) demo_link demo_link_healthy). by vm_compute.
Defined.

(** The network is gone: heartbeats and pings go out, nothing arrives. *)
Definition silent_moves : list link_move :=
  [pause 20; MPing; pause 5; MBeat; pause 25; MBeat; MPing; pause 25; MBeat; pause 5; MPing; pause 10; MExpireProbe;
   MExpireHost; pause 3].
Definition demo_silent : Link :=
  default demo_link (link_play (λ _, prompt_check (seconds 1) (seconds 1)) silent_moves demo_link).

Lemma silence_noticed_witness : h_phase (l_host demo_silent) = Left ∧ p_phase (l_probe demo_silent) = Ended.
Proof.
  apply (silence_noticed (seconds 1) (seconds 1) ltac:(by vm_compute) ltac:(by vm_compute) demo_link).
  - apply (reachable_rtc _ _ (link_start 0)); [apply reach_init; exists 0; split; [by vm_compute|done]|].
    apply (link_play_rtc _ regular (λ _, prompt_check (seconds 1) (seconds 1)) demo_moves); [|by vm_compute..].
    intros m c c' Hm Hs Hp%prompt_checked. split; [|done]. apply link_play1_step in Hs. destruct m; auto. done.
  - apply (link_play_rtc _ unheard (λ _, prompt_check (seconds 1) (seconds 1)) silent_moves); [|by vm_compute..].
    intros m c c' Hm Hs Hp%prompt_checked. split; [|done]. apply link_play1_step in Hs. destruct m; auto; try done.
    right. destruct Hs as [E ->]. by apply fault_early.
  - by vm_compute.
Defined.

(** *** What goes wrong *)

(** A message of another goroutine, between [h.Register] and the answer, is the first
    one the probe reads. It takes it for the answer and ends the connection, however
    fast everything is. *)
Definition race_moves : list link_move := [MReadUp; MEnter; MEarly; MGreet; MWrite; MReadDown 0].
Definition demo_race : Link := default (link_start 0) (link_play (timely 0 0 0) race_moves (link_start 0)).

Theorem registration_race :
  rtc (λ c c', (own_step c c' ∨ net_reads c c' ∨ fault c c') ∧ prompt 0 0 c' ∧ carried 0 c') (link_start 0) demo_race ∧
  h_phase (l_host demo_race) = Pumps ∧ p_phase (l_probe demo_race) = Ended.
Proof.
  split; [|by vm_compute]. apply (link_play_rtc _ (λ _, true) (timely 0 0 0) race_moves); [|by vm_compute..].
  intros m c c' _ Hs [Hp%prompt_checked Hc%carried_checked]%andb_true_iff. split; [|done].
  apply link_play1_step in Hs. destruct m; auto. right. right. destruct Hs as [E ->]. by apply fault_early.
Qed.

(** The JSON of a list of targets does decode as an answer, one without success. *)
Lemma targets_as_answer {W : IntSize} t :
  decode (A := RegisterResponse) (env_Payload (envelope (PTargetSync t))) = Some (mkRegisterResponse false "" "").
Proof. reflexivity. Qed.

(** Clients that read slowly. Every chunk from the probe may make [HandleAgent] wait
    for almost five seconds, with all the probe's later messages behind it, and so
    the acknowledgements of its heartbeats: although the Host never rests while
    something has arrived and each message is handled within five seconds, the
    probe's deadline passes and every tunnel of the probe ends. *)
Definition slow_round : list link_move := [MReadUp; pause 5; MDone].
Definition slow_moves : list link_move :=
  handshake 0 ++ replicate 20 MReport ++ concat (replicate 5 slow_round) ++ [MBeat] ++ slow_round ++ [MPing; MReadDown 0] ++
  concat (replicate 4 slow_round) ++ [MBeat] ++ concat (replicate 2 slow_round) ++ [MPing; MReadDown 0] ++
  concat (replicate 3 slow_round) ++ [MBeat] ++ concat (replicate 3 slow_round) ++ [MPing; MReadDown 0; MExpireProbe].

(** Time passes only while nothing can be read or written. *)
Definition eager (c c' : Link) : bool :=
  (l_now c' <=? l_now c) ||
  ((match l_up c with [] => true | _ => negb (host_reading (l_host c)) end) &&
   match l_down c, h_queue (l_host c) with [], [] => true | _, _ => false end).
Definition slow_ok (c c' : Link) : bool := prompt_check (seconds 5) 0 c' && eager c c'.
Definition demo_slow : Link := default (link_start 0) (link_play slow_ok slow_moves (link_start 0)).

Definition eager_step (c c' : Link) : Prop :=
  (own_step c c' ∨ net_reads c c') ∧ prompt (seconds 5) 0 c' ∧
  (l_now c < l_now c' → (l_up c = [] ∨ host_reading (l_host c) = false) ∧ l_down c = [] ∧ h_queue (l_host c) = []).

Theorem slow_clients_cut_probe :
  rtc eager_step (link_start 0) demo_slow ∧ h_phase (l_host demo_slow) = Pumps ∧ p_phase (l_probe demo_slow) = Ended.
Proof.
  split; [|by vm_compute]. apply (link_play_rtc _ regular slow_ok slow_moves); [|by vm_compute..].
  intros m c c' Hm Hs [Hp%prompt_checked He]%andb_true_iff. split_and!; [|done|].
  - apply link_play1_step in Hs. destruct m; auto. done.
  - intros Hlt. unfold eager in He. apply orb_true_iff in He as [He|He]; [lia|]. apply andb_true_iff in He as [H1 H2].
    destruct (l_down c), (h_queue (l_host c)); try done. split; [|done].
    destruct (l_up c); [by left|right]. by apply negb_true_iff in H1.
Qed.

(** ** The tunnel client *)

(** A tunnel's WebSocket as [dialTarget] leaves it: the read deadline, [keepAlive]'s
    ticker, the pings that have not been answered, the pongs that have arrived and
    have not been read, and whether the relay is reading (or writing what it read to
    the local client). *)
Record TunnelEnd := mkTunnelEnd {
  u_now : Z;
  u_open : bool;
  u_deadline : Z;
  u_tick : Z;
  u_pings : list Z;
  u_pongs : list Z;
  u_reading : bool
}.

Definition keepAliveInterval : Z := seconds 25.
Definition keepAliveTimeout : Z := seconds 90.

Definition tunnel_start : TunnelEnd := mkTunnelEnd 0 true keepAliveTimeout keepAliveInterval [] [] true.

Inductive tunnel_step (c : TunnelEnd) : TunnelEnd → Prop :=
  | u_wait d : 0 <= d →
      tunnel_step c (mkTunnelEnd (u_now c + d) (u_open c) (u_deadline c) (u_tick c) (u_pings c) (u_pongs c) (u_reading c))
  | u_ping : u_open c = true → u_tick c <= u_now c →
      tunnel_step c (mkTunnelEnd (u_now c) (u_open c) (u_deadline c) (next_tick keepAliveInterval (u_tick c) (u_now c))
                       (u_pings c ++ [u_now c]) (u_pongs c) (u_reading c))
  (* the Host's library answers a ping *)
  | u_pong s rest : u_pings c = s :: rest →
      tunnel_step c (mkTunnelEnd (u_now c) (u_open c) (u_deadline c) (u_tick c) rest (u_pongs c ++ [u_now c]) (u_reading c))
  (* the pong handler, which runs inside a read *)
  | u_handler s rest : u_open c = true → u_reading c = true → u_now c < u_deadline c → u_pongs c = s :: rest →
      tunnel_step c (mkTunnelEnd (u_now c) (u_open c) (u_now c + keepAliveTimeout) (u_tick c) (u_pings c) rest (u_reading c))
  (* the read returns data, which the relay writes to the local client *)
  | u_data : u_open c = true → u_reading c = true → u_now c < u_deadline c →
      tunnel_step c (mkTunnelEnd (u_now c) (u_open c) (u_deadline c) (u_tick c) (u_pings c) (u_pongs c) false)
  | u_written : u_reading c = false →
      tunnel_step c (mkTunnelEnd (u_now c) (u_open c) (u_deadline c) (u_tick c) (u_pings c) (u_pongs c) true)
  (* the deadline: a read that waits, or one that starts, fails *)
  | u_expired : u_open c = true → u_reading c = true → u_deadline c <= u_now c →
      tunnel_step c (mkTunnelEnd (u_now c) false (u_deadline c) (u_tick c) (u_pings c) (u_pongs c) true).

(** [R] bounds the time to an answered ping, [S] how long a pong that has arrived
    waits to be read, [L] how late the ticker is served. *)
Section Tunnel.
Variables (R S L : Z).

Record tunnel_prompt (c : TunnelEnd) : Prop := {
  tp_ping s : s ∈ u_pings c → u_now c <= s + R;
  tp_pong s : s ∈ u_pongs c → u_now c <= s + S;
  tp_tick : u_open c = true → u_now c <= u_tick c + L
}.

Definition tunnel_reachable : TunnelEnd → Prop :=
  reachable (λ c, c = tunnel_start) (λ c c', tunnel_step c c' ∧ tunnel_prompt c').

Definition pong_by (c : TunnelEnd) (b : Z) : Prop :=
  (∃ s, s ∈ u_pongs c ∧ b = s + S) ∨ (∃ s, s ∈ u_pings c ∧ b = s + R + S) ∨ b = u_tick c + L + R + S.

Record tunnel_alive (c : TunnelEnd) : Prop := {
  ta_prompt : tunnel_prompt c;
  ta_open : u_open c = true;
  ta_tick : u_tick c <= u_now c + seconds 25;
  ta_pong : ∃ b, pong_by c b ∧ b < u_deadline c
}.

Hypothesis HR : 0 <= R.
Hypothesis HS : 0 <= S.
Hypothesis HL : 0 <= L.
Hypothesis Hsum : seconds 25 + L + R + S < seconds 90.

Lemma tunnel_now c : tunnel_alive c → u_now c < u_deadline c.
Proof.
  intros [[tp tq tt] to' tk (b & Hb & Hlt)]. specialize (tt to').
  destruct Hb as [(s & Hs & ->)|[(s & Hs & ->)| ->]]; [specialize (tq s Hs)|specialize (tp s Hs)|]; lia.
Qed.

Lemma tunnel_step_alive c c' : tunnel_alive c → tunnel_step c c' → tunnel_prompt c' → tunnel_alive c'.
Proof.
  intros Hc Hs. pose proof (tunnel_now c Hc) as Hnow. pose proof Hc as [[tp tq tt] to' tk (b & Hb & Hlt)]. revert Hs.
  intros [d Hd|Ho Ht|s rest E|s rest Ho Hr Hd E|Ho Hr Hd|Hr|Ho Hr Hd] Hp; (split; [exact Hp|..]); simpl; try done; try lia.
  - by exists b.
  - by apply next_tick_le.
  - destruct Hb as [Hb|[(s & Hs & ->)| ->]]; [exists b; split; [by left|done]|exists (s + R + S)|exists (u_now c + R + S)].
    + split; [|done]. right. left. exists s. split; [apply elem_of_app; by left|done].
    + split; [|specialize (tt Ho); lia]. right. left. exists (u_now c). split; [apply elem_of_app; right; by left|done].
  - destruct Hb as [(s' & Hs & ->)|[(s' & Hs & ->)| ->]].
    + exists (s' + S). split; [|done]. left. exists s'. split; [apply elem_of_app; by left|done].
    + rewrite E in Hs. apply elem_of_cons in Hs as [->|Hs].
      * exists (u_now c + S). assert (u_now c <= s + R) by (apply tp; rewrite E; by left). split; [|lia].
        left. exists (u_now c). split; [apply elem_of_app; right; by left|done].
      * exists (s' + R + S). split; [|done]. right. left. by exists s'.
    + exists (u_tick c + L + R + S). split; [by right; right|done].
  - exists (u_tick c + L + R + S). split; [by right; right|]. unfold keepAliveTimeout, seconds in *. lia.
  - by exists b.
  - by exists b.
Qed.

(** A tunnel whose pings are answered, and whose relay is never kept from reading for
    long, stays open however long no data comes. *)
Theorem healthy_tunnel c : tunnel_reachable c → u_open c = true ∧ u_now c < u_deadline c.
Proof.
  intros Hc. assert (Ha : tunnel_alive c); [|split; [apply Ha|by apply tunnel_now]]. revert c Hc. apply reachable_ind_inv.
  - intros ? ->. unfold tunnel_start, keepAliveInterval, keepAliveTimeout. split; simpl; try done.
    + split; simpl; [by intros s ?%not_elem_of_nil..|]. unfold seconds. lia.
    + exists (seconds 25 + L + R + S). split; [by right; right|done].
  - intros c1 c2 Hc [Hs Hp]. by eapply tunnel_step_alive.
Qed.
End Tunnel.

Lemma tunnel_via R S L c c' : tunnel_reachable R S L c → tunnel_step c c' → tunnel_prompt R S L c' → tunnel_reachable R S L c'.
Proof. intros Hc Hs Hp. eapply reach_step; [exact Hc|done]. Qed.

Lemma tunnel_prompt_intro R S L c :
  forallb (λ s, u_now c <=? s + R) (u_pings c) && forallb (λ s, u_now c <=? s + S) (u_pongs c) && (u_now c <=? u_tick c + L) = true →
  tunnel_prompt R S L c.
Proof.
  rewrite !andb_true_iff, !forallb_forall. intros [[H1 H2] H3]. split.
  - intros s Hs%list_elem_of_In. specialize (H1 s Hs). lia.
  - intros s Hs%list_elem_of_In. specialize (H2 s Hs). lia.
  - intros _. lia.
Qed.

Ltac tunnel_go H step :=
  eapply tunnel_via in H; [|eapply step; by vm_compute|apply tunnel_prompt_intro; by vm_compute]; cbn in H.

Lemma healthy_tunnel_witness :
  ∃ c, tunnel_reachable (seconds 1) (seconds 1) (seconds 1) c ∧ u_now c = seconds 27 ∧ u_deadline c = seconds 117 ∧ u_open c = true.
Proof.
  assert (H : tunnel_reachable (seconds 1) (seconds 1) (seconds 1) tunnel_start) by by apply reach_init.
  tunnel_go H (u_wait tunnel_start (seconds 25)). tunnel_go H u_ping.
  tunnel_go H (u_wait (mkTunnelEnd (seconds 25) true (seconds 90) (seconds 50) [seconds 25] [] true) (seconds 1)).
  tunnel_go H u_pong.
  tunnel_go H (u_wait (mkTunnelEnd (seconds 26) true (seconds 90) (seconds 50) [] [seconds 26] true) (seconds 1)).
  tunnel_go H u_handler. eexists. split; [exact H|]. split; [by vm_compute|]. split; [by vm_compute|].
  exact (proj1 (healthy_tunnel (seconds 1) (seconds 1) (seconds 1) ltac:(by vm_compute) ltac:(by vm_compute) ltac:(by vm_compute)
    ltac:(by vm_compute) _ H)).
Defined.

(** The deadline watches the relay, not the peer: a local client that takes nothing
    for ninety seconds (a paused download) loses its tunnel, although every ping was
    answered at once. *)
Theorem stalled_client_loses_tunnel :
  ∃ c, tunnel_reachable 0 (seconds 90) 0 c ∧ u_now c = seconds 90 ∧ u_open c = false ∧ u_pings c = [] ∧
    u_pongs c = [seconds 25; seconds 50; seconds 75].
Proof.
  assert (H : tunnel_reachable 0 (seconds 90) 0 tunnel_start) by by apply reach_init.
  tunnel_go H u_data.
  tunnel_go H (u_wait (mkTunnelEnd 0 true (seconds 90) (seconds 25) [] [] false) (seconds 25)).
  tunnel_go H u_ping. tunnel_go H u_pong.
  tunnel_go H (u_wait (mkTunnelEnd (seconds 25) true (seconds 90) (seconds 50) [] [seconds 25] false) (seconds 25)).
  tunnel_go H u_ping. tunnel_go H u_pong.
  tunnel_go H (u_wait (mkTunnelEnd (seconds 50) true (seconds 90) (seconds 75) [] [seconds 25; seconds 50] false) (seconds 25)).
  tunnel_go H u_ping. tunnel_go H u_pong.
  tunnel_go H (u_wait (mkTunnelEnd (seconds 75) true (seconds 90) (seconds 100) [] [seconds 25; seconds 50; seconds 75] false) (seconds 15)).
  tunnel_go H u_written. tunnel_go H u_expired. eexists. split; [exact H|]. by vm_compute.
Qed.
