(* ===== verification/TunnelNet.v ===== *)
(** * A tunnel from end to end

    The Host's tunnel service and one probe's proxy manager, joined by the probe's
    WebSocket: two queues of messages, in the order they were sent. The goroutines
    of both programs interleave; the theorems follow the bytes of one tunnel from
    the client to the target and back, over one connection of the probe, up to and
    past its loss. Other tunnels, other probes and revocations go on meanwhile. *)
From S2P Require Import Prelude GoStrings GoNet GoEncoding GoFloat GoJson Protocol ProxySession ProxyService AgentProxy.

(** ** State *)

(** Where the Host's goroutine of a tunnel is: before its request to the probe,
    waiting for the answer, or reading from the client. *)
Inductive stage :=
  | Asking (host : string) (port : Z)
  | Waiting
  | Pumping.

(** History: the tab that was made for a tunnel, the chunks read from the client and
    from the target, the tunnels for which sending a chunk failed on the Host and on
    the probe, those whose target ended the stream (or failed) while the probe still
    had them, and those the Host finished because the probe said so. *)
Record Past := mkPast {
  tab_of : gmap string nat;
  from_client : gmap string (list string);
  from_target : gmap string (list string);
  cut_down : gset string;
  cut_up : gset string;
  ended : gset string;
  told : gset string
}.

(** [down] and [up]: what was sent to and by the probe and is not handled yet, the
    oldest first. [linked] is whether the connection is up, [readers] the tabs whose
    [readLoop] runs, [broken] those whose [writeLoop] gave up. *)
Record Net := mkNet {
  svc : Service;
  prb : proxyManager;
  down : list Payload;
  up : list Payload;
  linked : bool;
  stages : gmap nat stage;
  readers : gset nat;
  broken : gset nat;
  past : Past
}.

Definition net_start : Net := mkNet NewService AgentProxy.init [] [] true ∅ ∅ ∅ (mkPast ∅ ∅ ∅ ∅ ∅ ∅ ∅).

Definition chunks (id : string) (m : gmap string (list string)) : list string := default [] (m !! id).
Definition add_chunk (id data : string) (m : gmap string (list string)) : gmap string (list string) :=
  if (data =? "")%string then m else <[id := chunks id m ++ [data]]> m.

(** Compares the types of messages. *)
Ltac env_simpl :=
  cbn [envelope env_Type env_Payload];
  repeat match goal with
  | |- context [(?x =? ?y)%string] =>
      let b := eval vm_compute in (x =? y)%string in
      match b with
      | true => change (x =? y)%string with true
      | false => change (x =? y)%string with false
      end
  end; cbv iota; unfold decode.

(** The probe whose connection it is. *)
Class Probe := probe_name : string.

Section Net.
Context {W : IntSize} `{MapOrder} {A : Probe}.

(** *** Setters *)

(** What a step of the service gave the bridge for this probe. *)
Definition to_probe (l : list (string * Payload)) : list Payload :=
  omap (λ e : string * Payload, if (e.1 =? A)%string then Some e.2 else None) l.
Definition news (s s' : Service) : list Payload := to_probe (skipn (length (sent s)) (sent s')).

Definition set_host (s' : Service) (n : Net) : Net :=
  mkNet s' (prb n) (down n ++ if linked n then news (svc n) s' else []) (up n) (linked n) (stages n)
    (readers n) (broken n) (past n).

Definition set_probe (m' : proxyManager) (n : Net) : Net :=
  mkNet (svc n) m' (down n) (up n ++ if linked n then skipn (length (outbox (prb n))) (outbox m') else [])
    (linked n) (stages n) (readers n) (broken n)
    (mkPast (tabs m' ∪ tab_of (past n)) (from_client (past n)) (from_target (past n)) (cut_down (past n))
       (cut_up (past n)) (ended (past n)) (told (past n))).

Definition with_stages (g : gmap nat stage) (n : Net) : Net :=
  mkNet (svc n) (prb n) (down n) (up n) (linked n) g (readers n) (broken n) (past n).
Definition with_past (p : Past) (n : Net) : Net :=
  mkNet (svc n) (prb n) (down n) (up n) (linked n) (stages n) (readers n) (broken n) p.
Definition with_down (l : list Payload) (n : Net) : Net :=
  mkNet (svc n) (prb n) l (up n) (linked n) (stages n) (readers n) (broken n) (past n).
Definition with_up (l : list Payload) (n : Net) : Net :=
  mkNet (svc n) (prb n) (down n) l (linked n) (stages n) (readers n) (broken n) (past n).
Definition with_loops (r b : gset nat) (n : Net) : Net :=
  mkNet (svc n) (prb n) (down n) (up n) (linked n) (stages n) r b (past n).

(** *** The Host's goroutine of a tunnel *)

(** [openTunnel]: the request. *)
Definition ask (q : nat) (t : tunnel) (host : string) (port : Z) (bridge : option (bool * result unit)) (n : Net) : Net :=
  match bridgeSend bridge A (PProxyOpen (mkProxyOpen (t_id t) host port)) (svc n) with
  | (s, Ok _) => with_stages (<[q := Waiting]> (stages n)) (set_host s n)
  | (s, Err _) => with_stages (delete q (stages n)) (set_host (finish_take (t_id t) "agent offline" false s) n)
  end.

(** [openTunnel]: its [select], which may take any case that is ready. *)
Definition ready (t : tunnel) (e : open_event) : Prop :=
  match e with
  | SendFailed _ => False
  | DialResult res => t_opened t = Some res
  | OpenTimeout => True
  | TunnelDone => t_done t = true
  end.

Definition answered (q : nat) (t : tunnel) (e : open_event) (n : Net) : Net :=
  let s := match e with DialResult _ => on_tunnel q (set_opened None) (svc n) | _ => svc n end in
  match open_outcome e with
  | (Ok _, _) => with_stages (<[q := Pumping]> (stages n)) (set_host s n)
  | (Err _, Some (reason, notify)) => with_stages (delete q (stages n)) (set_host (finish_take (t_id t) reason notify s) n)
  | (Err _, None) => with_stages (delete q (stages n)) (set_host s n)
  end.

(** One read of [pump]. *)
Definition client_past (id data : string) (failed : bool) (h : Past) : Past :=
  mkPast (tab_of h) (add_chunk id data (from_client h)) (from_target h)
    (if failed then {[id]} ∪ cut_down h else cut_down h) (cut_up h) (ended h) (told h).

Definition client_read (q : nat) (t : tunnel) (data : string) (err : bool) (bridge : option (bool * result unit)) (n : Net) : Net :=
  let '(s, goes_on) := pump_read q data err bridge (svc n) in
  let failed := negb (data =? "")%string && match bridge with Some (true, Ok _) => false | _ => true end in
  with_past (client_past (t_id t) data failed (past n))
    (with_stages (if goes_on then stages n else delete q (stages n)) (set_host s n)).

(** The probe's messages on the Host, one at a time: [readPump] handles the next one
    when [HandleAgent] has returned from the last. *)
Definition idle (s : Service) : Prop :=
  ∀ q raw t, (q, raw) ∈ pending s → tobjs s !! q = Some t → t_agentID t ≠ A.

Definition tell (id : string) (h : Past) : Past :=
  mkPast (tab_of h) (from_client h) (from_target h) (cut_down h) (cut_up h) (ended h) ({[id]} ∪ told h).

Definition handle_up (msg : Payload) (rest : list Payload) (n : Net) : Net :=
  let a := HandleAgent A (envelope msg) (svc n) in
  with_past (match msg, a with PProxyClose _, Finish id _ _ => tell id (past n) | _, _ => past n end)
    (set_host (act a (svc n)) (with_up rest n)).

(** *** The probe's goroutines *)

Definition dialled (p : nat) (req : ProxyOpenPayload) (ok : bool) (m : proxyManager) (n : Net) : Net :=
  let starts := match ptabs m !! p with Some t => ok && negb (p_closed t) | None => false end in
  with_loops (if starts then {[p]} ∪ readers n else readers n) (broken n) (set_probe (dial_ok p req ok m) n).

Definition target_past (id data : string) (failed : bool) (h : Past) : Past :=
  mkPast (tab_of h) (from_client h) (add_chunk id data (from_target h)) (cut_down h)
    (if failed then {[id]} ∪ cut_up h else cut_up h) (ended h) (told h).
Definition end_past (id : string) (h : Past) : Past :=
  mkPast (tab_of h) (from_client h) (from_target h) (cut_down h) (cut_up h) ({[id]} ∪ ended h) (told h).

Definition target_read (p : nat) (id data : string) (ok err : bool) (n : Net) : Net :=
  let failed := negb (data =? "")%string && negb ok in
  let n' := set_probe (read_chunk p id data ok err (prb n)) n in
  let h := target_past id data failed (past n') in
  with_past (if err && negb failed && bool_decide (tabs (prb n) !! id = Some p) then end_past id h else h)
    (with_loops (if err || failed then readers n ∖ {[p]} else readers n) (broken n) n').

Definition target_write (p : nat) (id : string) (t : proxyTunnel) (ok : bool) (n : Net) : Net :=
  let m := set_tab p (write_next ok t) (prb n) in
  if ok then set_probe m n
  else with_loops (readers n) ({[p]} ∪ broken n) (set_probe (dropIf id (Some p) true m) n).

Definition disconnect (n : Net) : Net :=
  let n := set_probe (dropAll (prb n)) n in
  mkNet (svc n) (prb n) [] (up n) false (stages n) (readers n) (broken n) (past n).

(** *** Steps *)

Inductive net_step (n : Net) : Net → Prop :=
  (* openTunnel: newTunnel, whose id is sixteen random bytes, and addTunnel *)
  | h_add id sid raw host port s q :
      id ≠ "" → (∀ p t, tobjs (svc n) !! p = Some t → t_id t ≠ id) →
      ParseConnectTarget raw = Ok (host, port) →
      addTunnel (newTunnel id A sid) (svc n) = (s, Ok q) →
      net_step n (with_stages (<[q := Asking host port]> (stages n)) (set_host s n))
  | h_ask q t host port bridge :
      stages n !! q = Some (Asking host port) → tobjs (svc n) !! q = Some t →
      net_step n (ask q t host port bridge n)
  | h_answered q t e :
      stages n !! q = Some Waiting → tobjs (svc n) !! q = Some t → ready t e → net_step n (answered q t e n)
  (* the entry points: the hijack or the first write to the client fails *)
  | h_abandon q t reason :
      stages n !! q = Some Pumping → tobjs (svc n) !! q = Some t →
      net_step n (with_stages (delete q (stages n)) (set_host (finish_take (t_id t) reason true (svc n)) n))
  (* pump: a read from the client *)
  | h_read q t data err bridge :
      stages n !! q = Some Pumping → tobjs (svc n) !! q = Some t →
      (Z.of_nat (slen data) <= ProxyService.proxyChunkSize)%Z → net_step n (client_read q t data err bridge n)
  (* HandleAgent on the next message *)
  | h_agent msg rest : up n = msg :: rest → idle (svc n) → net_step n (handle_up msg rest n)
  (* deliveries, finishing (also by DropAgent and dropSession), writing to clients *)
  | h_local s : local_step (svc n) s → net_step n (set_host s n)
  (* the tunnels and messages of other probes *)
  | h_add_other id (B : string) sid :
      B ≠ A → (∀ p t, tobjs (svc n) !! p = Some t → t_id t ≠ id) →
      net_step n (set_host (fst (addTunnel (newTunnel id B sid) (svc n))) n)
  | h_send_other (B : string) bridge msg : B ≠ A → net_step n (set_host (fst (bridgeSend bridge B msg (svc n))) n)
  | h_agent_other (B : string) env : B ≠ A → net_step n (set_host (act (HandleAgent B env (svc n)) (svc n)) n)
  (* the probe handles the next message *)
  | p_message msg rest :
      linked n = true → down n = msg :: rest →
      net_step n (set_probe (fst (handleProxyMessage (envelope msg) (prb n))) (with_down rest n))
  | p_dial_failed p req err l1 l2 :
      dialing (prb n) = l1 ++ (p, req) :: l2 →
      net_step n (set_probe (dial_failed p req err (with_dialing (l1 ++ l2) (prb n))) n)
  | p_dial_ok p req ok l1 l2 :
      dialing (prb n) = l1 ++ (p, req) :: l2 → (ok = true → linked n = true) →
      net_step n (dialled p req ok (with_dialing (l1 ++ l2) (prb n)) n)
  | p_read p id data ok err :
      p ∈ readers n → tab_of (past n) !! id = Some p → (Z.of_nat (slen data) <= AgentProxy.proxyChunkSize)%Z →
      (ok = true → linked n = true) → net_step n (target_read p id data ok err n)
  (* writing a chunk to the target, which fails once the connection is closed *)
  | p_write p id t c ok :
      tab_of (past n) !! id = Some p → ptabs (prb n) !! p = Some t → p_conn t = Some c → p ∉ broken n →
      p_writes t ≠ [] → (ok = true → conns (prb n) !! c = Some true) → net_step n (target_write p id t ok n)
  | p_close p notify l1 l2 :
      dropped (prb n) = l1 ++ (p, notify) :: l2 →
      net_step n (set_probe (close_dropped p notify (with_dropped (l1 ++ l2) (prb n))) n)
  | p_disconnect : net_step n (disconnect n).

Definition net_reachable : Net → Prop := reachable (λ n, n = net_start) net_step.

(** ** Schedules *)

(** A schedule names the next goroutine and what it meets; the queues are served in
    order. *)
Inductive move :=
  | Add (id sid raw : string)
  | Ask (q : nat)
  | Answer (q : nat)
  | Closed (q : nat)
  | ReadClient (q : nat) (data : string) (err : bool)
  | HandleUp
  | Deliver1
  | Revoke (id reason : string)
  | CloseNext
  | WriteClient (q : nat)
  | WriterExit (q : nat)
  | HandleDown
  | DialOk
  | ReadTarget (p : nat) (id data : string) (err : bool)
  | WriteTarget (p : nat) (id : string)
  | CloseTab
  | Unlink.

Local Notation "'when' P ; e" := (if decide P then e else None) (at level 10, P at level 99, e at level 200).

Definition online (n : Net) : option (bool * result unit) := Some (linked n, Ok tt).
Definition locally (s : Service) (n : Net) : option Net := Some (set_host s n).

Definition play1 (m : move) (n : Net) : option Net :=
  let s := svc n in let b := prb n in
  match m with
  | Add id sid raw =>
      when (id ≠ "" ∧ Forall (λ t, t_id t ≠ id) (tobjs s));
      match ParseConnectTarget raw, addTunnel (newTunnel id A sid) s with
      | Ok (host, port), (s', Ok q) => Some (with_stages (<[q := Asking host port]> (stages n)) (set_host s' n))
      | _, _ => None
      end
  | Ask q =>
      t ← tobjs s !! q;
      match stages n !! q with Some (Asking host port) => Some (ask q t host port (online n) n) | _ => None end
  | Answer q =>
      t ← tobjs s !! q; res ← t_opened t;
      match stages n !! q with Some Waiting => Some (answered q t (DialResult res) n) | _ => None end
  | Closed q =>
      t ← tobjs s !! q; when (t_done t = true);
      match stages n !! q with Some Waiting => Some (answered q t TunnelDone n) | _ => None end
  | ReadClient q data err =>
      t ← tobjs s !! q; when (Z.of_nat (slen data) <= ProxyService.proxyChunkSize)%Z;
      match stages n !! q with Some Pumping => Some (client_read q t data err (online n) n) | _ => None end
  | HandleUp =>
      when (forallb (λ e : nat * string, if tobjs s !! e.1 is Some t then negb (t_agentID t =? A)%string else true) (pending s) = true);
      match up n with msg :: rest => Some (handle_up msg rest n) | [] => None end
  | Deliver1 =>
      match pending s with
      | (q, raw) :: l =>
          t ← tobjs s !! q; when (length (t_inbound t) < inboundQueue)%nat;
          locally (on_tunnel q (ProxyService.enqueue raw) (drop_pending [] l s)) n
      | [] => None
      end
  | Revoke id reason => locally (finish_take id reason true s) n
  | CloseNext =>
      match closing s with
      | (q, reason, notify) :: l =>
          locally (finish_close (linked n) q reason notify (mkService (tunnels s) (tobjs s) (pending s) l (sent s))) n
      | [] => None
      end
  | WriteClient q =>
      t ← tobjs s !! q; when (t_exit t = None);
      if t_inbound t is [] then None else locally (on_tunnel q (write_head true) s) n
  | WriterExit q =>
      t ← tobjs s !! q; when (t_exit t = None ∧ t_done t = true ∧ t_inbound t = []);
      locally (on_tunnel q writer_exit s) n
  | HandleDown =>
      when (linked n = true);
      match down n with
      | msg :: rest => Some (set_probe (fst (handleProxyMessage (envelope msg) b)) (with_down rest n))
      | [] => None
      end
  | DialOk =>
      when (linked n = true);
      match dialing b with (p, req) :: l => Some (dialled p req true (with_dialing l b) n) | [] => None end
  | ReadTarget p id data err =>
      when (linked n = true ∧ p ∈ readers n ∧ tab_of (past n) !! id = Some p ∧
             (Z.of_nat (slen data) <= AgentProxy.proxyChunkSize)%Z);
      Some (target_read p id data true err n)
  | WriteTarget p id =>
      t ← ptabs b !! p; c ← p_conn t;
      when (tab_of (past n) !! id = Some p ∧ (p ∉ broken n) ∧ p_writes t ≠ [] ∧ conns b !! c = Some true);
      Some (target_write p id t true n)
  | CloseTab =>
      match dropped b with
      | (p, notify) :: l => Some (set_probe (close_dropped p notify (with_dropped l b)) n)
      | [] => None
      end
  | Unlink => Some (disconnect n)
  end.

Fixpoint play (l : list move) (n : Net) : option Net :=
  match l with [] => Some n | m :: l => n' ← play1 m n; play l n' end.

Ltac play_simpl E :=
  repeat match type of E with
  | Some _ = Some _ => injection E as <-
  | None = Some _ => discriminate E
  | mbind _ _ = Some _ => apply bind_Some in E as (? & ? & E)
  | (if decide ?P then _ else _) = Some _ => destruct (decide P); [|discriminate E]
  | match ?x with _ => _ end = Some _ => destruct x eqn:?; try discriminate E
  end.

Lemma play1_step m n n' : play1 m n = Some n' → net_step n n'.
Proof.
  destruct m; cbn [play1]; unfold locally; intros E; play_simpl E; destruct_and?.
  - eapply h_add; try done. by apply Forall_lookup.
  - by apply h_ask.
  - by apply h_answered.
  - by apply h_answered.
  - by apply h_read.
  - apply h_agent; [done|]. intros q raw t Hin Ht.
    match goal with H : forallb _ _ = true |- _ => rename H into Hf end.
    rewrite forallb_forall in Hf. specialize (Hf (q, raw) (proj1 (list_elem_of_In _ _) Hin)). cbn in Hf. rewrite Ht in Hf.
    intros Ha. by rewrite Ha, String.eqb_refl in Hf.
  - by eapply h_local, (local_deliver _ _ _ []).
  - apply h_local, local_finish.
  - by apply h_local, (local_finish_close _ _ _ _ []).
  - by eapply h_local, local_write.
  - by eapply h_local, local_writer_exit.
  - by apply p_message.
  - by apply (p_dial_ok n _ _ true []).
  - by apply p_read.
  - by eapply (p_write n _ _ _ _ true).
  - by apply (p_close n _ _ []).
  - apply p_disconnect.
Qed.

Lemma play_reachable l : ∀ n n', net_reachable n → play l n = Some n' → net_reachable n'.
Proof.
  induction l as [|m l IH]; intros n n' Hn; simpl; [by intros [= <-]|].
  intros (n1 & Hm & Hl)%bind_Some. eapply IH; [|exact Hl]. eapply reach_step; [exact Hn|by eapply play1_step].
Qed.

(** ** What a queue still delivers *)

Definition chunk_of (d : ProxyDataPayload) : string := default "" (B64Decode (pd_Data d)).

(** The chunks of tunnel [id] that will be taken from the queue by a receiver that
    has the tunnel ([o]) or not, and whether it then has it. *)
Fixpoint run (id : string) (o : bool) (l : list Payload) : list string * bool :=
  match l with
  | [] => ([], o)
  | PProxyOpen r :: l => run id (o || (po_TunnelID r =? id)%string) l
  | PProxyClose c :: l => run id (o && negb (pc_TunnelID c =? id)%string) l
  | PProxyData d :: l =>
      let '(k, o') := run id o l in
      (if o && (pd_TunnelID d =? id)%string then chunk_of d :: k else k, o')
  | _ :: l => run id o l
  end.

Lemma run_app id l l' : ∀ o,
  run id o (l ++ l') = ((run id o l).1 ++ (run id (run id o l).2 l').1, (run id (run id o l).2 l').2).
Proof.
  induction l as [|m l IH]; intros o; simpl; [by destruct (run id o l')|].
  destruct m; simpl; rewrite ?IH; try done.
  destruct (run id o l) as [k o1]. simpl. by destruct (o && _).
Qed.

Definition opens (id : string) (l : list Payload) : Prop := ∃ r, PProxyOpen r ∈ l ∧ po_TunnelID r = id.

Definition open_count (id : string) (l : list Payload) : nat :=
  length (List.filter (λ m, match m with PProxyOpen r => (po_TunnelID r =? id)%string | _ => false end) l).

Lemma opens_count id l : opens id l ↔ open_count id l ≠ 0.
Proof.
  unfold opens, open_count. induction l as [|m l IH]; simpl.
  - split; [by intros (r & ?%not_elem_of_nil & _)|done].
  - destruct m as [| | | | |r| | | |]; simpl.
    6: destruct (String.eqb_spec (po_TunnelID r) id); simpl; [split; [done|]; intros _; exists r; split; [by left|done]|].
    all: rewrite <- IH; split; intros (r' & Hr & ?); exists r'; (split; [|done]); [|by right];
      apply elem_of_cons in Hr as [[= ->]|?]; done.
Qed.

Lemma open_count_app id l l' : open_count id (l ++ l') = open_count id l + open_count id l'.
Proof. unfold open_count. by rewrite List.filter_app, length_app. Qed.

Lemma run_false id l : ¬ opens id l → run id false l = ([], false).
Proof.
  induction l as [|m l IH]; intros Hn; [done|].
  assert (Hl : ¬ opens id l) by (intros (r & ? & ?); apply Hn; exists r; split; [by right|done]).
  destruct m as [| | | | |r| | | |]; simpl; rewrite ?IH by done; try done.
  destruct (String.eqb_spec (po_TunnelID r) id); [|by apply IH].
  destruct Hn. exists r. split; [by left|done].
Qed.

(** Only data of the tunnel is delivered, and only its close ends it. *)
Lemma run_quiet id l : ∀ o,
  (∀ d, PProxyData d ∈ l → pd_TunnelID d ≠ id) → (run id o l).1 = [].
Proof.
  induction l as [|m l IH]; intros o Hd; [done|].
  assert (Hl : ∀ o, (run id o l).1 = []) by (intros o'; apply IH; intros d ?; apply Hd; by right).
  destruct m as [| | | | | | |d| |]; simpl; rewrite ?Hl; try done.
  specialize (Hl o). destruct (run id o l). simpl in *. subst.
  rewrite (proj2 (String.eqb_neq _ _)) by (apply Hd; by left). by rewrite andb_false_r.
Qed.

Lemma run_stays id l : ∀ o,
  (∀ c, PProxyClose c ∈ l → pc_TunnelID c ≠ id) → o = true → (run id o l).2 = true.
Proof.
  induction l as [|m l IH]; intros o Hd Ho; [done|].
  assert (Hl : ∀ o, o = true → (run id o l).2 = true) by (intros o'; apply IH; intros d ?; apply Hd; by right).
  destruct m as [| | | | | | |d|c|]; simpl; subst; try by apply Hl.
  - specialize (Hl true eq_refl). by destruct (run id true l).
  - apply Hl. rewrite (proj2 (String.eqb_neq _ _)); [done|]. apply Hd. by left.
Qed.

Lemma run_le id l o : ¬ opens id l → (run id o l).2 = true → o = true.
Proof. destruct o; [done|]. intros Hn. by rewrite run_false. Qed.

(** *** The invariant, from here on *)

Definition acc (id : string) (n : Net) : list string :=
  match tab_of (past n) !! id ≫= λ p, ptabs (prb n) !! p with Some t => p_accepted t | None => [] end.
Definition opened (id : string) (n : Net) : bool := bool_decide (is_Some (tabs (prb n) !! id)).
Definition held (id : string) (s : Service) : bool := bool_decide (is_Some (tunnels s !! id)).
Definition pend (q : nat) (l : list (nat * string)) : list string :=
  omap (λ e : nat * string, if (e.1 =? q)%nat then Some e.2 else None) l.
Definition ours (s : Service) (q : nat) : Prop := ∃ t, tobjs s !! q = Some t ∧ t_agentID t = A.

Definition ok_open (r : ProxyOpenPayload) : Prop :=
  po_TunnelID r ≠ "" ∧ po_Host r ≠ "" ∧ (1 <= po_Port r <= 65535)%Z.
Definition ok_data (d : ProxyDataPayload) : Prop :=
  pd_TunnelID d ≠ "" ∧ ∃ raw, pd_Data d = B64Encode raw ∧ raw ≠ "" ∧ (Z.of_nat (slen raw) <= 16384)%Z.

(** Every tunnel of the probe but those of [id] that the Host has not asked for yet. *)
Definition unasked (id : string) (n : Net) : Prop :=
  ∀ q t, tobjs (svc n) !! q = Some t → t_id t = id → t_agentID t = A → ∃ h p, stages n !! q = Some (Asking h p).

Record base_inv (n : Net) : Prop := {
  b_svc : ProxyService.inv (svc n);
  b_prb : AgentProxy.inv (prb n);
  b_ids p q t u : tobjs (svc n) !! p = Some t → tobjs (svc n) !! q = Some u → t_id t = t_id u → p = q;
  b_ne q t : tobjs (svc n) !! q = Some t → t_agentID t = A → t_id t ≠ "";
  b_stage q st : stages n !! q = Some st → ours (svc n) q;
  b_asking q h p : stages n !! q = Some (Asking h p) → h ≠ "" ∧ (1 <= p <= 65535)%Z;
  b_pend q raw : (q, raw) ∈ pending (svc n) → (q < length (tobjs (svc n)))%nat;
  b_one l : l `sublist_of` pending (svc n) → Forall (λ e : nat * string, ours (svc n) e.1) l → (length l <= 1)%nat;
  b_tabs : tabs (prb n) ⊆ tab_of (past n);
  b_inj i j p : tab_of (past n) !! i = Some p → tab_of (past n) !! j = Some p → i = j;
  b_lt i p : tab_of (past n) !! i = Some p → (p < length (ptabs (prb n)))%nat;
  b_unlinked : linked n = false → down n = [] ∧ tabs (prb n) = ∅;
  b_open r : PProxyOpen r ∈ down n → ok_open r ∧ tab_of (past n) !! po_TunnelID r = None;
  b_open1 id : (open_count id (down n) <= 1)%nat;
  b_down d : PProxyData d ∈ down n → ok_data d;
  b_up d : PProxyData d ∈ up n → ok_data d ∧ is_Some (tab_of (past n) !! pd_TunnelID d);
  b_up_open r : PProxyOpen r ∉ up n;
  b_up_close c : PProxyClose c ∈ up n →
    is_Some (tab_of (past n) !! pc_TunnelID c) ∧ tabs (prb n) !! pc_TunnelID c = None;
  b_unasked id : unasked id n →
    tab_of (past n) !! id = None ∧ chunks id (from_client (past n)) = [] ∧ ¬ opens id (down n)
}.

(** From the client to the target. *)
Record down_inv (n : Net) : Prop := {
  d_flow id :
    ((acc id n ++ (run id (opened id n) (down n)).1) `prefix_of` chunks id (from_client (past n))) ∧
    ((run id (opened id n) (down n)).2 = true → id ∉ cut_down (past n) →
     acc id n ++ (run id (opened id n) (down n)).1 = chunks id (from_client (past n)));
  d_stage q st t : stages n !! q = Some st → tobjs (svc n) !! q = Some t → t_id t ∉ cut_down (past n);
  d_held id : is_Some (tunnels (svc n) !! id) → id ∉ cut_down (past n);
  d_cut id : id ∈ cut_down (past n) → ∃ q t, tobjs (svc n) !! q = Some t ∧ t_id t = id;
  d_tab p t : ptabs (prb n) !! p = Some t →
    p_written t `prefix_of` p_accepted t ∧ (p ∉ broken n → p_accepted t = p_written t ++ p_writes t);
  d_broken id p : tabs (prb n) !! id = Some p → p ∉ broken n;
  d_lt p : p ∈ broken n → (p < length (ptabs (prb n)))%nat
}.

(** From the target to the client. *)
Record up_inv (n : Net) : Prop := {
  u_flow q t : tobjs (svc n) !! q = Some t → t_agentID t = A →
    let r := run (t_id t) (held (t_id t) (svc n)) (up n) in
    ((t_accepted t ++ pend q (pending (svc n)) ++ r.1) `prefix_of` chunks (t_id t) (from_target (past n))) ∧
    (is_Some (tunnels (svc n) !! t_id t) → t_id t ∉ cut_up (past n) → r.2 = true ∨ t_id t ∈ ended (past n) →
     t_accepted t ++ pend q (pending (svc n)) ++ r.1 = chunks (t_id t) (from_target (past n)));
  u_read p : p ∈ readers n → ∃ id t, tab_of (past n) !! id = Some p ∧ (id ∉ cut_up (past n)) ∧
    ptabs (prb n) !! p = Some t ∧ p_conn t ≠ None;
  u_none id : tab_of (past n) !! id = None →
    chunks id (from_target (past n)) = [] ∧ (id ∉ told (past n)) ∧ id ∉ cut_up (past n);
  u_dial p req : (p, req) ∈ dialing (prb n) → tab_of (past n) !! po_TunnelID req = Some p ∧
    (po_TunnelID req ∉ cut_up (past n)) ∧ po_TunnelID req ∉ ended (past n);
  u_dropped p id : (p, Some id) ∈ dropped (prb n) → tab_of (past n) !! id = Some p;
  u_ended id : id ∈ ended (past n) → (id ∉ cut_up (past n)) ∧ tabs (prb n) !! id = None ∧
    ∃ p, tab_of (past n) !! id = Some p ∧ p ∉ readers n;
  u_told id : id ∈ told (past n) → tabs (prb n) !! id = None ∧ tunnels (svc n) !! id = None ∧
    (id ∈ ended (past n) → ∀ q t, tobjs (svc n) !! q = Some t → t_agentID t = A → t_id t = id →
      t_accepted t = chunks id (from_target (past n)) ∧ (t_done t = true → t_at_done t = t_accepted t))
}.

End Net.
