(* ===== verification/TunnelHost.v ===== *)
(** * A tunnel from end to end: the steps of the Host

    Every step of the Host's side of TunnelNet preserves [net_inv]: new tunnels,
    requests, reads from clients, deliveries, finishing and the probe's messages. *)
From S2P Require Import Prelude GoStrings GoNet GoEncoding GoFloat GoJson Protocol ProxySession ProxyService AgentProxy TunnelNet.

Section Net.
Context {W : IntSize} `{MapOrder} {A : Probe}.

(** ** Steps of the service that leave the streams alone *)

Record host_quiet (s s' : Service) : Prop := {
  hq_inv : ProxyService.inv s';
  hq_tun : tunnels s' ⊆ tunnels s;
  hq_len : length (tobjs s') = length (tobjs s);
  hq_obj q t' : tobjs s' !! q = Some t' → ∃ t, tobjs s !! q = Some t ∧ t_id t' = t_id t ∧ t_agentID t' = t_agentID t ∧
    (t_agentID t = A →
      (t_accepted t' ++ pend q (pending s') = t_accepted t ++ pend q (pending s) ∨
       ((t_accepted t' ++ pend q (pending s')) `prefix_of` (t_accepted t ++ pend q (pending s))) ∧ tunnels s' !! t_id t = None) ∧
      (pend q (pending s) = [] → t_accepted t' = t_accepted t ∧ pend q (pending s') = [] ∧
        (t_done t' = true → t_at_done t' = t_accepted t' ∨ t_done t = true ∧ t_at_done t' = t_at_done t)));
  hq_sent : ∃ l, sent s' = sent s ++ l ∧ Forall (λ e : string * Payload, e.1 = A → ∃ c, e.2 = PProxyClose c) l;
  hq_pend : pending s' `sublist_of` pending s
}.

Lemma pend_app q l l' : pend q (l ++ l') = pend q l ++ pend q l'.
Proof. unfold pend. by rewrite omap_app. Qed.

(** The probe's messages are handled one at a time. *)
Lemma pend_others n q x l1 l2 :
  base_inv n → pending (svc n) = l1 ++ (q, x) :: l2 → ours (svc n) q → ∀ p y, (p, y) ∈ l1 ++ l2 → ¬ ours (svc n) p.
Proof.
  intros Hb E Ho p y Hin Hp. assert (Hlen : ∀ l, l `sublist_of` pending (svc n) → length l = 2 →
    Forall (λ e : nat * string, ours (svc n) e.1) l → False) by (intros l Hl El Hf; pose proof (b_one n Hb l Hl Hf); lia).
  apply elem_of_app in Hin as [(k1 & k2 & ->)%list_elem_of_split|(k1 & k2 & ->)%list_elem_of_split].
  - apply (Hlen [(p, y); (q, x)]); [|done|by repeat constructor]. rewrite E, <- (assoc_L (++)). apply sublist_inserts_l.
    simpl. apply sublist_skip, sublist_inserts_l, sublist_skip, sublist_nil_l.
  - apply (Hlen [(q, x); (p, y)]); [|done|by repeat constructor]. rewrite E. apply sublist_inserts_l.
    apply sublist_skip, sublist_inserts_l, sublist_skip, sublist_nil_l.
Qed.

Lemma pend_one q l1 x l2 n :
  base_inv n → pending (svc n) = l1 ++ (q, x) :: l2 → ours (svc n) q → pend q l1 = [] ∧ pend q l2 = [].
Proof.
  intros Hb E Ho. pose proof (pend_others n q x l1 l2 Hb E Ho) as Hno.
  assert (Hnil : ∀ l, (∀ y, (q, y) ∉ l) → pend q l = []).
  { induction l as [|[p y] l IH]; intros Hl; [done|]. simpl. destruct (Nat.eqb_spec p q) as [->|].
    - destruct (Hl y). by left.
    - apply IH. intros z ?. apply (Hl z). by right. }
  split; apply Hnil; intros y ?; apply (Hno q y); [apply elem_of_app|done|apply elem_of_app|done]; auto.
Qed.

Lemma quiet_refl s : ProxyService.inv s → host_quiet s s.
Proof.
  intros Hi. split; try done.
  - intros q t Ht. exists t. split_and!; try done. intros _. split; [by left|]. intros Hp. by split_and!; [..|right].
  - exists []. by rewrite app_nil_r.
Qed.

Lemma quiet_trans s1 s2 s3 : host_quiet s1 s2 → host_quiet s2 s3 → host_quiet s1 s3.
Proof.
  intros [i2 t2 l2 o2 n2 p2] [i3 t3 l3 o3 n3 p3]. split; [done|by etrans|congruence| | |by etrans].
  - intros q t'' Ht''. destruct (o3 _ _ Ht'') as (t' & Ht' & E1 & E2 & Hf). destruct (o2 _ _ Ht') as (t & Ht & E1' & E2' & Hf').
    exists t. split_and!; [done|congruence..|]. intros Ha. rewrite E2' in Hf.
    destruct (Hf Ha) as [Hfl He], (Hf' Ha) as [Hfl' He']. split.
    + assert (Hsub : tunnels s2 !! t_id t = None → tunnels s3 !! t_id t = None) by (intros Hn; by eapply lookup_weaken_None).
      rewrite E1' in Hfl. destruct Hfl as [->|[? ?]], Hfl' as [Hfl'|[? ?]]; rewrite ?Hfl' in *; auto.
      right. split; [by etrans|done].
    + intros Hp. destruct (He' Hp) as (Ea & Hp' & Hd'). destruct (He Hp') as (Ea' & Hp'' & Hd). split_and!; [congruence|done|].
      intros Hdone. destruct (Hd Hdone) as [|[Hdn E]]; [by left|]. destruct (Hd' Hdn) as [|[? ?]]; [left|right]; split || idtac; congruence.
  - destruct n2 as (k & E2 & ?), n3 as (k' & -> & ?). rewrite E2. exists (k ++ k'). rewrite (assoc_L (++)). split; [done|by apply Forall_app].
Qed.

Lemma quiet_finish id reason notify s : ProxyService.inv s → host_quiet s (finish_take id reason notify s).
Proof.
  intros Hi. pose proof (finish_take_inv id reason notify s Hi) as Hi'. unfold finish_take in *.
  destruct (tunnels s !! id) as [p|] eqn:E; [|by apply quiet_refl]. split; simpl; try done.
  - apply delete_subseteq.
  - intros q t Ht. exists t. split_and!; try done. intros _. split; [by left|]. intros Hp. by split_and!; [..|right].
  - exists []. by rewrite app_nil_r.
Qed.

Lemma quiet_on_tunnel p f s :
  ProxyService.inv s → ProxyService.inv (on_tunnel p f s) →
  (∀ t, tobjs s !! p = Some t → t_id (f t) = t_id t ∧ t_agentID (f t) = t_agentID t ∧ t_accepted (f t) = t_accepted t ∧
    (t_done (f t) = true → t_at_done (f t) = t_accepted t ∨ t_done t = true ∧ t_at_done (f t) = t_at_done t)) →
  host_quiet s (on_tunnel p f s).
Proof.
  intros Hi Hi' Hf. split; try done.
  - simpl. by rewrite length_alter.
  - intros q t'. rewrite on_tunnel_lookup. case_decide as Hq; [subst q|].
    + intros (t & Ht & ->)%fmap_Some. destruct (Hf t Ht) as (E1 & E2 & E3 & E4). exists t. split_and!; try done.
      intros _. rewrite E3. split; [by left|]. intros Hp. by split_and!.
    + intros Ht. exists t'. split_and!; try done. intros _. split; [by left|]. intros Hp. by split_and!; [..|right].
  - exists []. by rewrite app_nil_r.
Qed.

(** The table, the heap and the queue as they were, and at most notices sent. *)
Lemma quiet_sent s s' l :
  ProxyService.inv s' → tunnels s' = tunnels s → tobjs s' = tobjs s → pending s' = pending s →
  sent s' = sent s ++ l → Forall (λ e : string * Payload, e.1 = A → ∃ c, e.2 = PProxyClose c) l → host_quiet s s'.
Proof.
  intros Hi Et Eo Ep Es Hl. split; [done|by rewrite Et|by rewrite Eo| |by exists l|by rewrite Ep].
  rewrite Eo, Ep. intros q t Ht. exists t. split_and!; try done. intros _. split; [by left|]. intros Hp.
  by split_and!; [..|right].
Qed.

Lemma write_head_quiet ok t : t_id (write_head ok t) = t_id t ∧ t_agentID (write_head ok t) = t_agentID t ∧
  t_accepted (write_head ok t) = t_accepted t ∧
  (t_done (write_head ok t) = true → t_at_done (write_head ok t) = t_accepted t ∨
   t_done t = true ∧ t_at_done (write_head ok t) = t_at_done t).
Proof. unfold write_head. destruct (t_inbound t); (split_and!; [done..|]); by right. Qed.

Lemma local_quiet n s' : base_inv n → local_step (svc n) s' → host_quiet (svc n) s'.
Proof.
  intros Hb Hs. pose proof (b_svc n Hb) as Hi. pose proof (local_step_inv _ _ Hi Hs) as Hi'.
  assert (Hdrop : ∀ p x l1 l2 t s', pending (svc n) = l1 ++ (p, x) :: l2 → tobjs (svc n) !! p = Some t →
    tunnels s' !! t_id t = None → ProxyService.inv s' → tunnels s' ⊆ tunnels (svc n) → tobjs s' = tobjs (svc n) →
    pending s' = l1 ++ l2 → sent s' = sent (svc n) → host_quiet (svc n) s').
  { clear Hs Hi' s'. intros p x l1 l2 t s' E Ht Hn Hi' Hsub Eo Ep Es. split; try done.
    - by rewrite Eo.
    - rewrite Eo. intros q u Hu. exists u. split_and!; try done. intros Ha. rewrite Ep, E, !pend_app. simpl.
      destruct (Nat.eqb_spec p q) as [->|].
      + destruct (pend_one q l1 x l2 n Hb E) as [-> ->]; [by exists u|]. simplify_eq. split; [|done]. right. split; [|done].
        rewrite app_nil_r. by apply prefix_app_r.
      + split; [by left|]. intros ->. by split_and!; [..|right].
    - exists []. by rewrite app_nil_r.
    - rewrite E, Ep. apply sublist_app; [done|]. by apply sublist_cons. }
  destruct Hs as [p raw l1 l2 t E Ht Hl|p raw l1 l2 t E Ht Hd|p raw l1 l2 t E Ht|id reason notify|
    p reason notify l1 l2 bridge E|p t c rest Ht He Ei|p t c rest Ht He Ei|p t Ht He Hd Ei].
  - split; try done.
    + simpl. by rewrite length_alter.
    + intros q t'. rewrite on_tunnel_lookup. simpl. case_decide as Hq; [subst q|].
      * rewrite Ht. intros [= <-]. exists t. split_and!; try done. intros Ha.
        destruct (pend_one p l1 raw l2 n Hb E) as [E1 E2]; [by exists t|]. rewrite E, !pend_app. simpl.
        rewrite Nat.eqb_refl, E1, E2, app_nil_r. split; [by left|done].
      * intros Ht'. exists t'. split_and!; try done. intros Ha. rewrite E, !pend_app. simpl.
        rewrite (proj2 (Nat.eqb_neq p q)) by done. split; [by left|]. intros ->. by split_and!; [..|right].
    + exists []. by rewrite app_nil_r.
    + simpl. rewrite E. apply sublist_app; [done|]. by apply sublist_cons.
  - eapply (Hdrop p raw l1 l2 t); try done. simpl. destruct (tunnels (svc n) !! t_id t) as [q|] eqn:Eq; [|done].
    destruct (table_live _ (proj2 Hi) _ _ Eq) as (u & Hu & Hid & Hdu).
    rewrite (b_ids n Hb q p u t) in Hu by done. congruence.
  - eapply (Hdrop p raw l1 l2 t); try done; unfold finish_take; simpl; destruct (tunnels (svc n) !! t_id t) eqn:Eq; try done.
    + simpl. apply lookup_delete_eq.
    + simpl. apply delete_subseteq.
  - by apply quiet_finish.
  - set (s0 := mkService (tunnels (svc n)) (tobjs (svc n)) (pending (svc n)) (l1 ++ l2) (sent (svc n))) in *.
    pose proof (finish_close_inv false p reason notify l1 l2 _ Hi E) as Hi1. fold s0 in Hi1.
    assert (Hc : ProxyService.inv (on_tunnel p close_tunnel s0)).
    { unfold finish_close in Hi1. rewrite andb_false_r in Hi1. by destruct (tobjs (on_tunnel p close_tunnel s0) !! p). }
    assert (H0 : ProxyService.inv s0).
    { destruct Hi as [Hfl [Hl Hcl Hn]]. split; [done|]. split; [done| |done]. intros q r m Hin. apply (Hcl q r m).
      simpl in Hin. rewrite E. apply elem_of_app in Hin as [?|?]; apply elem_of_app; [by left|right; by right]. }
    apply (quiet_trans _ s0); [by apply (quiet_sent _ _ []); simpl; rewrite ?app_nil_r|].
    apply (quiet_trans _ (on_tunnel p close_tunnel s0)).
    + apply quiet_on_tunnel; [done..|]. intros t Ht. split_and!; try done. simpl.
      destruct (t_done t); [by right|by left].
    + unfold finish_close in *. destruct (tobjs (on_tunnel p close_tunnel s0) !! p) as [t|]; [|by apply quiet_refl].
      destruct (notify && bridge); [|by apply quiet_refl].
      eapply (quiet_sent _ _ [_]); try done. repeat constructor. intros _. by eexists.
  - apply quiet_on_tunnel; [done..|]. intros u _. apply write_head_quiet.
  - assert (Hw : ProxyService.inv (on_tunnel p (write_head false) (svc n))).
    { apply on_tunnel_inv; [done| |].
      - intros u. unfold write_head. by destruct (t_inbound u).
      - intros u Hu. simplify_eq. by apply write_flow. }
    apply (quiet_trans _ (on_tunnel p (write_head false) (svc n))); [|by apply quiet_finish].
    apply quiet_on_tunnel; [done..|]. intros u _. apply write_head_quiet.
  - apply quiet_on_tunnel; [done..|]. intros u Hu. split_and!; try done. simpl. by right.
Qed.

(** *** They preserve the invariant *)

Definition is_close (m : Payload) : Prop := ∃ c, m = PProxyClose c.

Lemma to_probe_app l l' : to_probe (l ++ l') = to_probe l ++ to_probe l'.
Proof. apply omap_app. Qed.

Lemma news_sent s s' l : sent s' = sent s ++ l → news s s' = to_probe l.
Proof. intros E. unfold news. by rewrite E, skipn_app, skipn_all, Nat.sub_diag. Qed.

Lemma quiet_news s s' : host_quiet s s' → Forall is_close (news s s').
Proof.
  intros [_ _ _ _ (l & E & Hl) _]. rewrite (news_sent s s' l E). clear E. unfold to_probe.
  induction Hl as [|[a m] l Hc _ IH]; simpl in *; [constructor|].
  destruct (String.eqb_spec a A) as [Ha|]; [constructor; [exact (Hc Ha)|]|]; exact IH.
Qed.

Lemma run_closes id o l k : Forall is_close k →
  (run id o (l ++ k)).1 = (run id o l).1 ∧ ((run id o (l ++ k)).2 = true → (run id o l).2 = true).
Proof.
  intros Hk. rewrite Forall_forall in Hk. rewrite run_app. simpl. split.
  - rewrite (run_quiet id k), app_nil_r; [done|]. by intros d [c ?]%Hk.
  - apply run_le. by intros (r & [c ?]%Hk & _).
Qed.

Definition linked_news (s' : Service) (n : Net) : list Payload := if linked n then news (svc n) s' else [].

Lemma linked_closes n s' : host_quiet (svc n) s' → Forall is_close (linked_news s' n).
Proof. intros Hq%quiet_news. unfold linked_news. by destruct (linked n). Qed.

Lemma elem_of_closes k l m :
  Forall is_close k → m ∈ l ++ k → ¬ is_close m → m ∈ l.
Proof. rewrite Forall_forall. intros Hk [?|Hm%Hk]%elem_of_app ?; done. Qed.

(** The goroutines of tunnels end, or get past their request. *)
Definition stages_on (g g' : gmap nat stage) : Prop :=
  ∀ q st, g' !! q = Some st → ∃ st0, g !! q = Some st0 ∧ ∀ h p, st = Asking h p → st0 = st.

Lemma stages_same g : stages_on g g.
Proof. intros q st. eauto. Qed.

Lemma stages_delete g q : stages_on g (delete q g).
Proof. intros p st [_ ?]%lookup_delete_Some. eauto. Qed.

Lemma stages_insert g q st0 st : g !! q = Some st0 → (∀ h p, st ≠ Asking h p) → stages_on g (<[q := st]> g).
Proof. intros E Hn p st' [[<- <-]|[_ ?]]%lookup_insert_Some; [|by eauto]. exists st0. split; [done|]. intros h p E2. by destruct (Hn h p E2). Qed.

Lemma quiet_base n s' g :
  base_inv n → host_quiet (svc n) s' → stages_on (stages n) g → base_inv (with_stages g (set_host s' n)).
Proof.
  intros Hb Hq Hg. pose proof (linked_closes n s' Hq) as Hk. destruct Hq as [qi qt ql qo _ qp].
  assert (Hours : ∀ q, ours s' q → ours (svc n) q).
  { intros q (t' & Ht' & Ha). destruct (qo _ _ Ht') as (t & Ht & _ & E & _). exists t. split; congruence. }
  assert (Hback : ∀ q t, tobjs (svc n) !! q = Some t → ∃ t', tobjs s' !! q = Some t' ∧ t_id t' = t_id t ∧ t_agentID t' = t_agentID t).
  { intros q t Ht. destruct (lookup_lt_is_Some_2 (tobjs s') q) as [t' Ht']; [rewrite ql; by eapply lookup_lt_Some|].
    exists t'. destruct (qo _ _ Ht') as (u & Hu & ? & ? & _). split_and!; [done|congruence..]. }
  assert (Hin : ∀ m, m ∈ down n ++ linked_news s' n → ¬ is_close m → m ∈ down n) by eauto using elem_of_closes.
  split; simpl; try apply Hb; try done.
  - intros p q t' u' Ht' Hu' E. destruct (qo _ _ Ht') as (t & Ht & E1 & _), (qo _ _ Hu') as (u & Hu & E2 & _).
    eapply (b_ids n Hb p q t u); [done..|congruence].
  - intros q t' Ht' Ha. destruct (qo _ _ Ht') as (t & Ht & E1 & E2 & _). rewrite E1. eapply (b_ne n Hb q t); congruence.
  - intros q st (st0 & Hs & _)%Hg. destruct (b_stage n Hb q st0 Hs) as (t & Ht & Ha).
    destruct (Hback _ _ Ht) as (t' & Ht' & _ & E). exists t'. split; congruence.
  - intros q h p (st0 & Hs & E)%Hg. rewrite (E h p eq_refl) in Hs. by apply (b_asking n Hb q).
  - intros q raw Hin'. rewrite ql. apply (b_pend n Hb q raw). eapply elem_of_sublist; [done|]. done.
  - intros l Hl Ho. apply (b_one n Hb); [by etrans|]. eapply Forall_impl; [exact Ho|]. intros e. apply Hours.
  - intros Hl. fold (linked_news s' n). destruct (b_unlinked n Hb Hl) as [-> ?]. split; [|done].
    unfold linked_news. by rewrite Hl.
  - intros r Hr. apply (b_open n Hb). apply Hin; [done|]. by intros [c ?].
  - intros id. fold (linked_news s' n). rewrite open_count_app. pose proof (b_open1 n Hb id).
    assert (open_count id (linked_news s' n) = 0) as ->; [|lia]. apply dec_stable. rewrite <- opens_count.
    rewrite Forall_forall in Hk. by intros (r & [c ?]%Hk & _).
  - intros d Hd. apply (b_down n Hb). apply Hin; [done|]. by intros [c ?].
  - intros id Hu. assert (Hun : unasked id n).
    { intros q t Ht Hid Ha. destruct (Hback _ _ Ht) as (t' & Ht' & E1 & E2).
      destruct (Hu q t') as (h & p & Hs); simpl in *; [done|congruence..|]. exists h, p.
      destruct (Hg _ _ Hs) as (st0 & Hs0 & E). by rewrite (E h p eq_refl) in Hs0. }
    destruct (b_unasked n Hb id Hun) as (? & ? & Ho). split_and!; [done..|]. intros (r & Hr & Hid).
    apply Ho. exists r. split; [|done]. apply Hin; [done|]. by intros [c ?].
Qed.

Definition net_inv (n : Net) : Prop := base_inv n ∧ down_inv n ∧ up_inv n.

Lemma quiet_down n s' g :
  net_inv n → host_quiet (svc n) s' → stages_on (stages n) g → down_inv (with_stages g (set_host s' n)).
Proof.
  intros (Hb & [df ds dh dc dt db dl] & _) Hq Hg. pose proof (linked_closes n s' Hq) as Hk.
  destruct Hq as [qi qt ql qo _ qp]. split; simpl; try done.
  - intros id. fold (linked_news s' n). destruct (run_closes id (opened id n) (down n) _ Hk) as [E1 E2].
    change (acc id (with_stages g (set_host s' n))) with (acc id n).
    change (opened id (with_stages g (set_host s' n))) with (opened id n). rewrite E1.
    destruct (df id) as [Hp He]. split; [done|]. auto.
  - intros q st t' (st0 & Hs & _)%Hg Ht'. destruct (qo _ _ Ht') as (t & Ht & -> & _). by eapply (ds q st0).
  - intros id [q Hid]. apply dh. exists q. by eapply lookup_weaken.
  - intros id Hid. destruct (dc id Hid) as (q & t & Ht & E).
    destruct (lookup_lt_is_Some_2 (tobjs s') q) as [t' Ht']; [rewrite ql; by eapply lookup_lt_Some|].
    destruct (qo _ _ Ht') as (u & Hu & ? & _). exists q, t'. split; congruence.
Qed.

Lemma quiet_up n s' g :
  net_inv n → host_quiet (svc n) s' → stages_on (stages n) g → up_inv (with_stages g (set_host s' n)).
Proof.
  intros (Hb & _ & [uf ur un ud up' ue ut]) [qi qt ql qo _ qp] Hg. split; simpl; try done.
  - intros q t' Ht' Ha. destruct (qo _ _ Ht') as (t & Ht & E1 & E2 & Hf). rewrite E1, E2 in *.
    destruct (Hf Ha) as [Hfl _]. destruct (uf q t Ht Ha) as [Hp He]. unfold held in *.
    assert (Hnone : tunnels s' !! t_id t = None →
      ((t_accepted t ++ pend q (pending (svc n))) `prefix_of` chunks (t_id t) (from_target (past n)))).
    { intros _. etrans; [|exact Hp]. rewrite (assoc_L (++)). by apply prefix_app_r. }
    assert (Hup : ¬ opens (t_id t) (up n)) by (intros (r & Hr & _); by apply (b_up_open n Hb r)).
    destruct (tunnels s' !! t_id t) as [p|] eqn:Et.
    + rewrite (lookup_weaken _ _ _ _ Et qt) in *. destruct Hfl as [Hfl|[_ ?]]; [|done].
      rewrite !(assoc_L (++)) in *. by rewrite Hfl.
    + rewrite bool_decide_eq_false_2, run_false, app_nil_r by (done || by intros [? ?]). split; [|by intros [? ?]].
      destruct Hfl as [->|[Hfl _]]; [by apply Hnone|]. etrans; [exact Hfl|by apply Hnone].
  - intros id Hid. destruct (ut id Hid) as (? & Hn & He). split_and!; [done|by eapply lookup_weaken_None|].
    intros Hend q t' Ht' Ha Eid. destruct (qo _ _ Ht') as (t & Ht & E1 & E2 & Hf). rewrite E1, E2 in *.
    destruct (He Hend q t Ht Ha Eid) as [Hacc Hdone]. destruct (uf q t Ht Ha) as [[k Hp] _].
    rewrite Eid, <- Hacc, <- !(assoc_L (++)) in Hp.
    assert (Hpn : pend q (pending (svc n)) = []).
    { apply (f_equal length) in Hp. rewrite !length_app in Hp. apply nil_length_inv. lia. }
    destruct (Hf Ha) as [_ Hq]. destruct (Hq Hpn) as (-> & _ & Hd). split; [done|]. intros Hdn.
    destruct (Hd Hdn) as [?|[Hd' ->]]; [done|by apply Hdone].
Qed.

Lemma quiet_step n s' g :
  net_inv n → host_quiet (svc n) s' → stages_on (stages n) g → net_inv (with_stages g (set_host s' n)).
Proof. intros Hi Hq Hg. split_and!; [apply quiet_base; [apply Hi|done..]|by apply quiet_down|by apply quiet_up]. Qed.

Lemma quiet_send_other (B : string) bridge msg s :
  ProxyService.inv s → B ≠ A → host_quiet s (fst (bridgeSend bridge B msg s)).
Proof.
  intros Hi HB. pose proof (bridgeSend_inv bridge B msg s Hi) as Hi'. unfold bridgeSend in *.
  destruct bridge as [[[] []]|]; try by apply quiet_refl. eapply (quiet_sent _ _ [_]); try done.
  constructor; [|constructor]. simpl. done.
Qed.

Lemma set_host_trans n s1 s2 k1 k2 :
  sent s1 = sent (svc n) ++ k1 → sent s2 = sent s1 ++ k2 → set_host s2 (set_host s1 n) = set_host s2 n.
Proof.
  intros E1 E2. unfold set_host. simpl. f_equal. rewrite <- (assoc_L (++)). f_equal. destruct (linked n); [|done].
  rewrite (news_sent _ _ k1 E1), (news_sent _ _ k2 E2), (news_sent (svc n) s2 (k1 ++ k2)).
  - by rewrite to_probe_app.
  - by rewrite E2, E1, (assoc_L (++)).
Qed.

(** *** New tunnels *)

Lemma fresh_unasked n id : (∀ p t, tobjs (svc n) !! p = Some t → t_id t ≠ id) → unasked id n.
Proof. intros Hf q t Ht Hid. by destruct (Hf q t Ht). Qed.

Lemma no_data_unasked n id : base_inv n → tab_of (past n) !! id = None → ∀ o, (run id o (up n)).1 = [].
Proof.
  intros Hb Hn o. apply run_quiet. intros d Hd <-. destruct (b_up n Hb d Hd) as [_ [p Hp]]. congruence.
Qed.

Section Add.
Variables (n : Net) (id sid B : string) (g : gmap nat stage).
Hypothesis Hi : net_inv n.
Hypothesis Hfresh : ∀ p t, tobjs (svc n) !! p = Some t → t_id t ≠ id.
Let t0 := newTunnel id B sid.
Let q0 := length (tobjs (svc n)).
Let s' := mkService (<[id := q0]> (tunnels (svc n))) (tobjs (svc n) ++ [t0]) (pending (svc n)) (closing (svc n)) (sent (svc n)).
Hypothesis Hs' : ProxyService.inv s'.
Hypothesis Hg : ∀ q st, g !! q = Some st → stages n !! q = Some st ∨
  q = q0 ∧ B = A ∧ ∃ h p, st = Asking h p ∧ h ≠ "" ∧ (1 <= p <= 65535)%Z.
Hypothesis Hg0 : B = A → id ≠ "" ∧ ∃ h p, g !! q0 = Some (Asking h p).
Let n' := with_stages g (set_host s' n).

Lemma add_news : (if linked n then news (svc n) s' else []) = [].
Proof. rewrite (news_sent _ _ []) by (by rewrite app_nil_r). by destruct (linked n). Qed.

Lemma add_lookup q t : (tobjs (svc n) ++ [t0]) !! q = Some t → tobjs (svc n) !! q = Some t ∨ q = q0 ∧ t = t0.
Proof.
  intros [?|[? E]]%lookup_app_Some; [by left|]. apply list_lookup_singleton_Some in E as [? <-].
  right. split; [unfold q0; lia|done].
Qed.

Lemma add_new : (tobjs (svc n) ++ [t0]) !! q0 = Some t0.
Proof. unfold q0. by rewrite lookup_app_r, Nat.sub_diag by done. Qed.

Lemma add_old q t : tobjs (svc n) !! q = Some t → (tobjs (svc n) ++ [t0]) !! q = Some t.
Proof. intros E. by rewrite (lookup_app_l_Some _ _ _ t). Qed.

Lemma add_base : base_inv n'.
Proof.
  pose proof (proj1 Hi) as Hb. split; simpl; try rewrite add_news, app_nil_r; try apply Hb; try done.
  - intros p q t u [Ht|[-> ->]]%add_lookup [Hu|[-> ->]]%add_lookup E; simpl in E; try done.
    + by eapply (b_ids n Hb p q t u).
    + by destruct (Hfresh p t Ht E).
    + by destruct (Hfresh q u Hu (eq_sym E)).
  - intros q t [Ht|[-> ->]]%add_lookup Ha; [by eapply (b_ne n Hb q)|]. by apply Hg0.
  - intros q st [Hst|(-> & HB & _)]%Hg; [|exists t0; split; [apply add_new|done]].
    destruct (b_stage n Hb q st Hst) as (t & Ht & Ha). exists t. split; [by apply add_old|done].
  - intros q h p [Hst|(-> & _ & h' & p' & [= -> ->] & ?)]%Hg; [by eapply (b_asking n Hb q)|done].
  - intros q raw Hin. rewrite length_app. pose proof (b_pend n Hb q raw Hin). lia.
  - intros l Hl Ho. apply (b_one n Hb l Hl). apply Forall_forall. intros [q x] Hin. rewrite Forall_forall in Ho.
    destruct (Ho _ Hin) as (t & Ht & Ha). simpl in Ht. exists t. split; [|done].
    destruct (add_lookup q t Ht) as [?|[-> _]]; [done|]. simpl.
    assert (q0 < q0)%nat; [|lia]. apply (b_pend n Hb q0 x). by eapply elem_of_sublist.
  - intros i Hu. apply (b_unasked n Hb i). intros q t Ht Hid Ha. destruct (Hu q t) as (h & p & Hst); [by apply add_old|done..|].
    destruct (Hg _ _ Hst) as [?|(-> & _)]; [by eauto|]. apply lookup_lt_Some in Ht. unfold q0 in Ht. lia.
Qed.

Lemma add_down : down_inv n'.
Proof.
  destruct Hi as (Hb & [df ds dh dc dt db dl] & _). split; simpl; try done; try rewrite add_news, app_nil_r.
  - apply df.
  - intros q st t [Hst|(-> & _)]%Hg Ht.
    + destruct (b_stage n Hb q st Hst) as (u & Hu & _). rewrite (add_old q u Hu) in Ht. injection Ht as <-. by eapply ds.
    + rewrite add_new in Ht. injection Ht as <-. simpl. intros (q & t & Ht & E)%dc. by destruct (Hfresh q t Ht).
  - intros i [p [[<- <-]|[_ Hp]]%lookup_insert_Some]; [|by apply dh; exists p].
    intros (q & t & Ht & E)%dc. by destruct (Hfresh q t Ht).
  - intros i (q & t & Ht & E)%dc. exists q, t. split; [by apply add_old|done].
Qed.

Lemma add_up : up_inv n'.
Proof.
  destruct Hi as (Hb & _ & [uf ur un ud up' ue ut]). pose proof (b_unasked n Hb id (fresh_unasked n id Hfresh)) as (Hno & _).
  split; simpl; try done.
  - intros q t [Ht|[-> ->]]%add_lookup Ha.
    + unfold held. simpl. rewrite lookup_insert_ne by (intros E; by destruct (Hfresh q t Ht (eq_sym E))). by apply uf.
    + simpl. rewrite (no_data_unasked n id Hb Hno). destruct (un id Hno) as [-> _].
      assert (pend q0 (pending (svc n)) = []) as ->; [|done].
      assert (Hlt : ∀ p x, (p, x) ∈ pending (svc n) → p ≠ q0) by (intros p x Hin%(b_pend n Hb); unfold q0; lia).
      clear -Hlt. induction (pending (svc n)) as [|[p x] l IH]; [done|]. simpl.
      rewrite (proj2 (Nat.eqb_neq p q0)) by (apply (Hlt p x); by left). apply IH. intros p' x' ?. apply (Hlt p' x'). by right.
  - intros i Hin. destruct (ut i Hin) as (? & ? & He).
    assert (i ≠ id) by (intros ->; by apply (proj1 (proj2 (un id Hno)))). split_and!; [done|by rewrite lookup_insert_ne|].
    intros Hend q t [Ht|[-> ->]]%add_lookup Ha E; [by apply (He Hend q t)|done].
Qed.

Lemma add_step : net_inv n'.
Proof. split_and!; [apply add_base|apply add_down|apply add_up]. Qed.
End Add.

(** *** What the Host sends *)

(** The way up does not see what goes down. *)
Lemma up_ext n n' :
  up_inv n → tunnels (svc n') = tunnels (svc n) → tobjs (svc n') = tobjs (svc n) → pending (svc n') = pending (svc n) →
  prb n' = prb n → up n' = up n → readers n' = readers n → tab_of (past n') = tab_of (past n) →
  from_target (past n') = from_target (past n) → cut_up (past n') = cut_up (past n) →
  ended (past n') = ended (past n) → told (past n') = told (past n) → up_inv n'.
Proof.
  intros [uf ur un ud up' ue ut] E1 E2 E3 E4 E5 E6 E7 E8 E9 E10 E11.
  split; unfold held; rewrite ?E1, ?E2, ?E3, ?E4, ?E5, ?E6, ?E7, ?E8, ?E9, ?E10, ?E11; done.
Qed.

Definition gave (msg : Payload) (s : Service) : Service :=
  mkService (tunnels s) (tobjs s) (pending s) (closing s) (sent s ++ [(A, msg)]).

Lemma gave_inv msg s : ProxyService.inv s → ProxyService.inv (gave msg s).
Proof. intros [? [? ? ?]]. by split. Qed.

Lemma gave_news msg n : (if linked n then news (svc n) (gave msg (svc n)) else []) = if linked n then [msg] else [].
Proof. rewrite (news_sent _ _ [(A, msg)]) by done. simpl. by rewrite String.eqb_refl. Qed.

Lemma asking_unasked n q t h p :
  base_inv n → stages n !! q = Some (Asking h p) → tobjs (svc n) !! q = Some t → unasked (t_id t) n.
Proof. intros Hb Hs Ht q' t' Ht' E _. rewrite (b_ids n Hb q' q t' t) by done. eauto. Qed.

Lemma ask_step n q t h p :
  net_inv n → stages n !! q = Some (Asking h p) → tobjs (svc n) !! q = Some t →
  net_inv (with_stages (<[q := Waiting]> (stages n)) (set_host (gave (PProxyOpen (mkProxyOpen (t_id t) h p)) (svc n)) n)).
Proof.
  intros Hi Hs Ht. pose proof Hi as (Hb & Hd & Hu). pose proof (b_unasked n Hb _ (asking_unasked n q t h p Hb Hs Ht)) as (Hno & Hc & Hop).
  destruct (b_stage n Hb q _ Hs) as (t' & Ht' & Ha). rewrite Ht in Ht'. injection Ht' as <-.
  assert (Hst : stages_on (stages n) (<[q:=Waiting]> (stages n))) by (by eapply stages_insert).
  set (m := PProxyOpen _). split_and!.
  - split; simpl; rewrite ?gave_news; try apply Hb; try done.
    + by apply gave_inv, Hb.
    + intros q' st (st0 & ? & _)%Hst. by apply (b_stage n Hb q' st0).
    + intros q' h' p' (st0 & Hs' & E)%Hst. rewrite (E _ _ eq_refl) in Hs'. by apply (b_asking n Hb q').
    + intros Hl. rewrite Hl. destruct (b_unlinked n Hb Hl) as [-> ?]. done.
    + intros r [Hr|Hr]%elem_of_app; [by apply (b_open n Hb)|]. destruct (linked n); [|by apply not_elem_of_nil in Hr].
      apply list_elem_of_singleton in Hr. injection Hr as ->. split; [|done]. split; [by eapply (b_ne n Hb)|].
      by apply (b_asking n Hb q).
    + intros id. rewrite open_count_app. pose proof (b_open1 n Hb id). destruct (linked n); [|change (open_count id []) with 0; lia].
      unfold open_count at 2. simpl. destruct (String.eqb_spec (t_id t) id) as [<-|]; simpl; [|lia].
      assert (open_count (t_id t) (down n) = 0) as ->; [|lia]. apply dec_stable. by rewrite <- opens_count.
    + intros d [Hd'|Hd']%elem_of_app; [by apply (b_down n Hb)|]. destruct (linked n); [|by apply not_elem_of_nil in Hd'].
      by apply list_elem_of_singleton in Hd'.
    + intros id Hun. assert (Hun' : unasked id n).
      { intros q' t' Ht' Hid Ha'. destruct (Hun q' t' Ht' Hid Ha') as (h' & p' & (st0 & Hs' & E)%Hst).
        rewrite (E _ _ eq_refl) in Hs'. eauto. }
      destruct (b_unasked n Hb id Hun') as (? & ? & Ho). split_and!; [done..|]. intros (r & [Hr|Hr]%elem_of_app & Hid).
      * apply Ho. by exists r.
      * destruct (linked n); [|by apply not_elem_of_nil in Hr]. apply list_elem_of_singleton in Hr. injection Hr as ->.
        simpl in Hid. destruct (Hun q t Ht Hid Ha) as (h' & p' & Hw). simpl in Hw. rewrite lookup_insert_eq in Hw. done.
  - destruct Hd as [df ds dh dc dt db dl]. split; simpl; rewrite ?gave_news; try done.
    + intros id. change (acc id (with_stages _ _)) with (acc id n). change (opened id (with_stages _ _)) with (opened id n).
      destruct (linked n); [|rewrite app_nil_r; apply df]. rewrite run_app. simpl. rewrite app_nil_r.
      destruct (df id) as [Hp He]. split; [done|]. destruct (String.eqb_spec (t_id t) id) as [<-|]; [|by rewrite orb_false_r].
      intros _ _. unfold acc, opened. rewrite Hno. simpl. rewrite bool_decide_eq_false_2, run_false; [by rewrite Hc|done|].
      intros [x Hx]. apply (lookup_weaken _ (tab_of (past n))) in Hx; [congruence|apply Hb].
    + intros q' st t' (st0 & Hs' & _)%Hst Ht'. by eapply ds.
  - by eapply up_ext.
Qed.

Lemma chunks_add id id' data m :
  chunks id (add_chunk id' data m) = if (id' =? id)%string && negb (data =? "")%string then chunks id m ++ [data] else chunks id m.
Proof.
  unfold add_chunk, chunks. destruct (data =? "")%string; [by rewrite andb_false_r|]. rewrite andb_true_r.
  destruct (String.eqb_spec id' id) as [->|]; [by rewrite lookup_insert_eq|by rewrite lookup_insert_ne].
Qed.

Definition data_msg (id data : string) : Payload := PProxyData (mkProxyData id (B64Encode data)).

Lemma chunk_of_data id data : chunk_of (mkProxyData id (B64Encode data)) = data.
Proof. unfold chunk_of. simpl. by rewrite B64Decode_Encode. Qed.

Lemma data_step n q t data :
  net_inv n → stages n !! q = Some Pumping → tobjs (svc n) !! q = Some t → data ≠ "" → (Z.of_nat (slen data) <= 16384)%Z →
  net_inv (with_past (client_past (t_id t) data false (past n)) (set_host (gave (data_msg (t_id t) data) (svc n)) n)).
Proof.
  intros Hi Hs Ht Hne Hlen. pose proof Hi as (Hb & Hd & Hu).
  destruct (b_stage n Hb q _ Hs) as (t' & Ht' & Ha). rewrite Ht in Ht'. injection Ht' as <-.
  pose proof (proj2 (String.eqb_neq _ _) Hne) as Eb. split_and!.
  - split; simpl; rewrite ?gave_news; try apply Hb; try done.
    + by apply gave_inv, Hb.
    + intros Hl. rewrite Hl. destruct (b_unlinked n Hb Hl) as [-> ?]. done.
    + intros r [Hr|Hr]%elem_of_app; [by apply (b_open n Hb)|]. destruct (linked n); [|by apply not_elem_of_nil in Hr].
      by apply list_elem_of_singleton in Hr.
    + intros id. rewrite open_count_app. pose proof (b_open1 n Hb id).
      destruct (linked n); unfold open_count at 2; simpl; lia.
    + intros d [Hd'|Hd']%elem_of_app; [by apply (b_down n Hb)|]. destruct (linked n); [|by apply not_elem_of_nil in Hd'].
      apply list_elem_of_singleton in Hd'. injection Hd' as ->. split; [by eapply (b_ne n Hb)|]. by exists data.
    + intros id Hun. destruct (b_unasked n Hb id Hun) as (? & ? & Ho). split_and!; [done| |].
      * rewrite chunks_add. destruct (String.eqb_spec (t_id t) id) as [Hid|]; [|done].
        destruct (Hun q t Ht Hid Ha) as (h & p & E). simpl in E; congruence.
      * intros (r & [Hr|Hr]%elem_of_app & Hid); [apply Ho; by exists r|]. destruct (linked n); [|by apply not_elem_of_nil in Hr].
        by apply list_elem_of_singleton in Hr.
  - destruct Hd as [df ds dh dc dt db dl]. split; simpl; rewrite ?gave_news; try done.
    intros id. change (acc id (with_past _ _)) with (acc id n). change (opened id (with_past _ _)) with (opened id n).
    destruct (df id) as [Hp He]. rewrite chunks_add, Eb, andb_true_r. destruct (linked n) eqn:El.
    + rewrite run_app. simpl. rewrite chunk_of_data. destruct (String.eqb_spec (t_id t) id) as [<-|].
      * destruct (run _ (opened _ n) (down n)) as [k []]; simpl in *; rewrite ?app_nil_r; [|split; [by apply prefix_app_r|done]].
        rewrite (assoc_L (++)), He; [done|done|]. by eapply ds.
      * rewrite andb_false_r, app_nil_r. done.
    + rewrite app_nil_r. destruct (b_unlinked n Hb El) as [Edn Et]. destruct (String.eqb_spec (t_id t) id) as [<-|]; [|done].
      split; [by apply prefix_app_r|]. unfold opened. rewrite Et, Edn, lookup_empty. simpl. done.
  - by eapply up_ext.
Qed.

(** A chunk that could not be sent: the goroutine of the tunnel is over, and the
    tunnel is no longer in the table. *)
Lemma cut_step n q t data :
  net_inv n → tobjs (svc n) !! q = Some t → t_agentID t = A → stages n !! q = None → tunnels (svc n) !! t_id t = None →
  net_inv (with_past (client_past (t_id t) data true (past n)) n).
Proof.
  intros (Hb & Hd & Hu) Ht Ha Hs Hn. split_and!.
  - split; simpl; try apply Hb; try done. intros id Hun. destruct (b_unasked n Hb id Hun) as (? & ? & Ho). split_and!; [done| |done].
    rewrite chunks_add. destruct (String.eqb_spec (t_id t) id) as [Hid|]; [|done].
    destruct (Hun q t Ht Hid Ha) as (h & p & E). simpl in E. congruence.
  - destruct Hd as [df ds dh dc dt db dl]. split; simpl; try done.
    + intros id. change (acc id (with_past _ _)) with (acc id n). change (opened id (with_past _ _)) with (opened id n).
      destruct (df id) as [Hp He]. rewrite chunks_add. destruct (String.eqb_spec (t_id t) id) as [<-|]; simpl.
      * split; [destruct (negb _); [by apply prefix_app_r|done]|]. intros _ []. apply elem_of_union_l. by apply elem_of_singleton.
      * split; [done|]. intros E Hnc. apply He; [done|]. intros ?. by apply Hnc, elem_of_union_r.
    + intros q' st t' Hs' Ht'. apply not_elem_of_union. split; [|by eapply ds]. intros E%elem_of_singleton.
      rewrite (b_ids n Hb q' q t' t) in Hs' by done. congruence.
    + intros id Hid. apply not_elem_of_union. split; [|by apply dh]. intros ->%elem_of_singleton. destruct Hid as [? ?]. congruence.
    + intros id [->%elem_of_singleton|?]%elem_of_union; [by exists q, t|by apply dc].
  - by eapply up_ext.
Qed.

Lemma finish_sent id reason notify s : sent (finish_take id reason notify s) = sent s ++ [].
Proof. rewrite app_nil_r. unfold finish_take. by destruct (_ !! _). Qed.

Lemma finish_gone id reason notify s : tunnels (finish_take id reason notify s) !! id = None.
Proof. unfold finish_take. destruct (tunnels s !! id) eqn:E; simpl; [apply lookup_delete_eq|done]. Qed.

Lemma finish_objs id reason notify s : tobjs (finish_take id reason notify s) = tobjs s.
Proof. unfold finish_take. by destruct (_ !! _). Qed.

Lemma client_past_nil id h : client_past id "" false h = h.
Proof. by destruct h. Qed.

(** Every way the Host's goroutine of a tunnel can finish it. *)
Lemma finish_step n q id reason notify :
  net_inv n → net_inv (with_stages (delete q (stages n)) (set_host (finish_take id reason notify (svc n)) n)).
Proof. intros Hi. apply quiet_step; [done|apply quiet_finish, Hi|apply stages_delete]. Qed.

Lemma client_read_step n q t data err bridge :
  net_inv n → stages n !! q = Some Pumping → tobjs (svc n) !! q = Some t → (Z.of_nat (slen data) <= 16384)%Z →
  net_inv (client_read q t data err bridge n).
Proof.
  intros Hi Hs Ht Hlen. pose proof Hi as (Hb & _). destruct (b_stage n Hb q _ Hs) as (t' & Ht' & Ha).
  rewrite Ht in Ht'. injection Ht' as <-. unfold client_read, pump_read. rewrite Ht.
  destruct (String.eqb_spec data "") as [->|Hne]; simpl.
  - rewrite client_past_nil. change (past n) with (past (with_stages (stages n) (set_host (svc n) n))) at 1.
    destruct err; [|exact (quiet_step n _ _ Hi (quiet_refl _ (b_svc n Hb)) (stages_same _))].
    by apply finish_step.
  - assert (Hcut : ∀ e b, bridgeSend bridge (t_agentID t) (data_msg (t_id t) data) (svc n) = (svc n, Err e) → b = true →
      net_inv (with_past (client_past (t_id t) data b (past n)) (with_stages (delete q (stages n))
        (set_host (finish_take (t_id t) "send failed" false (svc n)) n)))).
    { intros e b _ ->. pose proof (finish_step n q (t_id t) "send failed" false Hi) as Hf.
      eapply (cut_step _ q t data Hf); simpl; rewrite ?finish_objs; try done; [apply lookup_delete_eq|apply finish_gone]. }
    unfold data_msg in Hcut. unfold bridgeSend in *. destruct bridge as [[[] [[]|e]]|]; simpl; try by eapply Hcut.
    rewrite Ha. pose proof (data_step n q t data Hi Hs Ht Hne Hlen) as Hd.
    destruct err; [|by destruct n].
    refine (eq_ind _ net_inv (finish_step _ q (t_id t) "client closed" true Hd) _ _).
    set (s1 := gave (data_msg (t_id t) data) (svc n)).
    transitivity (with_stages (delete q (stages n)) (with_past (client_past (t_id t) data false (past n))
      (set_host (finish_take (t_id t) "client closed" true s1) (set_host s1 n)))); [done|].
    by rewrite (set_host_trans n s1 _ [(A, data_msg (t_id t) data)] []) by (try apply finish_sent; done).
Qed.

Lemma ask_any n q t h p bridge :
  net_inv n → stages n !! q = Some (Asking h p) → tobjs (svc n) !! q = Some t → net_inv (ask q t h p bridge n).
Proof.
  intros Hi Hs Ht. unfold ask, bridgeSend.
  destruct bridge as [[[] [[]|e]]|]; [exact (ask_step n q t h p Hi Hs Ht)|by apply finish_step..].
Qed.

Lemma quiet_opened q o s : ProxyService.inv s → host_quiet s (on_tunnel q (set_opened o) s).
Proof.
  intros Hi. apply quiet_on_tunnel; [done| |].
  - apply on_tunnel_inv; [done|done|]. intros t _. apply set_opened_flow.
  - intros t _. split_and!; try done. simpl. by right.
Qed.

Lemma answered_step n q t e :
  net_inv n → stages n !! q = Some Waiting → tobjs (svc n) !! q = Some t → net_inv (answered q t e n).
Proof.
  intros Hi Hs Ht. pose proof (b_svc n (proj1 Hi)) as Hsv. unfold answered.
  set (s := match e with DialResult _ => _ | _ => _ end).
  assert (Hq : host_quiet (svc n) s) by (unfold s; destruct e; first [by apply quiet_refl|by apply quiet_opened]).
  destruct (open_outcome e) as [[[]|m] [[reason notify]|]].
  - apply quiet_step; [done..|by eapply stages_insert].
  - apply quiet_step; [done..|by eapply stages_insert].
  - apply quiet_step; [done| |apply stages_delete]. eapply quiet_trans; [exact Hq|]. apply quiet_finish, Hq.
  - apply quiet_step; [done..|apply stages_delete].
Qed.

(** *** What the Host receives *)

Lemma handle_data d raw s :
  pd_TunnelID d ≠ "" → pd_Data d = B64Encode raw → raw ≠ "" → (Z.of_nat (slen raw) <= 16384)%Z →
  HandleAgent A (envelope (PProxyData d)) s =
    match own_tunnel A (pd_TunnelID d) s with Some (q, _) => Deliver q raw | None => Ignore end.
Proof.
  intros Hid Hd Hne Hl. unfold HandleAgent. env_simpl. rewrite wire_roundtrip by done.
  rewrite (proj2 (String.eqb_neq _ _) Hid), Hd, (proj2 (String.eqb_neq _ _) (B64Encode_nonempty raw Hne)). simpl.
  destruct (own_tunnel _ _ _) as [[q t]|]; [|done]. rewrite B64Decode_Encode.
  destruct raw as [|c raw]; [done|]. rewrite (proj2 (Z.ltb_ge _ _)); [done|]. unfold ProxyService.proxyChunkSize. lia.
Qed.

Lemma handle_close c s :
  HandleAgent A (envelope (PProxyClose c)) s =
    if (pc_TunnelID c =? "")%string then Ignore
    else match own_tunnel A (pc_TunnelID c) s with Some (_, t) => Finish (t_id t) "agent closed" false | None => Ignore end.
Proof. unfold HandleAgent. env_simpl. by rewrite wire_roundtrip. Qed.

Lemma payload_kind msg : (∃ d, msg = PProxyData d) ∨ (∃ c, msg = PProxyClose c) ∨
  ((∀ d, msg ≠ PProxyData d) ∧ ∀ c, msg ≠ PProxyClose c).
Proof. destruct msg; eauto; right; right; split; discriminate. Qed.

Lemma handle_rest m s :
  (∀ d, m ≠ PProxyData d) → (∀ c, m ≠ PProxyClose c) →
  HandleAgent A (envelope m) s = Ignore ∨ ∃ q res, HandleAgent A (envelope m) s = Opened q res.
Proof.
  intros Hd Hc. destruct m; try by left. 2: by destruct (Hd _ eq_refl). 2: by destruct (Hc _ eq_refl).
  unfold HandleAgent. env_simpl. destruct (wire_dec _ _) as [res|]; [|by left]. destruct (_ =? _)%string; [by left|].
  destruct (own_tunnel _ _ _) as [[q t]|]; [|by left]. right. by eexists _, _.
Qed.

Lemma own_tunnel_Some B id s q t :
  ProxyService.inv s → own_tunnel B id s = Some (q, t) →
  tunnels s !! id = Some q ∧ tobjs s !! q = Some t ∧ t_agentID t = B ∧ t_id t = id ∧ t_done t = false.
Proof.
  intros [_ Hi]. unfold own_tunnel, lookup_tunnel. destruct (tunnels s !! id) as [p|] eqn:Et; [|done]. simpl.
  destruct (tobjs s !! p) as [u|] eqn:Eu; [|done]. simpl. destruct (String.eqb_spec (t_agentID u) B); [|done].
  intros [= <- <-]. destruct (table_live s Hi _ _ Et) as (v & Hv & ? & ?). simplify_eq. done.
Qed.

(** The tunnel of an id, if it is the probe's, is the one its messages reach. *)
Lemma own_tunnel_None n id q t :
  base_inv n → own_tunnel A id (svc n) = None → tobjs (svc n) !! q = Some t → t_agentID t = A → t_id t = id →
  tunnels (svc n) !! id = None.
Proof.
  intros Hb Ho Ht Ha <-. destruct (tunnels (svc n) !! t_id t) as [p|] eqn:Et; [|done].
  destruct (table_live _ (proj2 (b_svc n Hb)) _ _ Et) as (u & Hu & E & _).
  pose proof (b_ids n Hb _ _ _ _ Hu Ht E) as ->. unfold own_tunnel, lookup_tunnel in Ho. rewrite Et in Ho. simpl in Ho.
  rewrite Ht in Ho. simpl in Ho. by rewrite Ha, String.eqb_refl in Ho.
Qed.

Lemma down_ext n n' :
  down_inv n → tunnels (svc n') = tunnels (svc n) → tobjs (svc n') = tobjs (svc n) → tabs (prb n') = tabs (prb n) → ptabs (prb n') = ptabs (prb n) → down n' = down n →
  stages n' = stages n → broken n' = broken n → tab_of (past n') = tab_of (past n) →
  from_client (past n') = from_client (past n) → cut_down (past n') = cut_down (past n) → down_inv n'.
Proof.
  intros [df ds dh dc dt db dl] E1 E2 E3 E3' E4 E5 E6 E7 E8 E9.
  split; unfold acc, opened in *; rewrite ?E1, ?E2, ?E3, ?E3', ?E4, ?E5, ?E6, ?E7, ?E8, ?E9; done.
Qed.

Lemma pop_base n m rest : base_inv n → up n = m :: rest → base_inv (with_up rest n).
Proof.
  intros Hb E. assert (Hin : ∀ x, x ∈ rest → x ∈ up n) by (intros x ?; rewrite E; by right).
  split; simpl; try apply Hb; try done.
  - intros d Hd. by apply (b_up n Hb), Hin.
  - intros r Hr. by apply (b_up_open n Hb r), Hin.
  - intros c Hc. by apply (b_up_close n Hb), Hin.
Qed.

Lemma pop_step n m rest :
  net_inv n → up n = m :: rest →
  (∀ q t, tobjs (svc n) !! q = Some t → t_agentID t = A →
    (∀ o, run (t_id t) o (m :: rest) = run (t_id t) o rest) ∨ tunnels (svc n) !! t_id t = None) →
  net_inv (with_up rest n).
Proof.
  intros (Hb & Hd & [uf ur un ud up' ue ut]) E Hm. split_and!; [by eapply pop_base|by eapply down_ext|].
  split; simpl; try done. intros q t Ht Ha. destruct (uf q t Ht Ha) as [Hp He]. rewrite E in Hp, He.
  destruct (Hm q t Ht Ha) as [Hr|Hn]; [by rewrite Hr in Hp, He|].
  assert (Hup : ∀ l, (∀ x, x ∈ l → x ∈ up n) → ¬ opens (t_id t) l) by (intros l Hl (r & Hr & _); by apply (b_up_open n Hb r), Hl).
  unfold held in *. rewrite Hn, bool_decide_eq_false_2 in * by (by intros [? ?]).
  rewrite run_false in * by (apply Hup; rewrite E; by (done || right)). done.
Qed.

Lemma tell_step n id :
  net_inv n → is_Some (tab_of (past n) !! id) → tabs (prb n) !! id = None → tunnels (svc n) !! id = None →
  (id ∈ ended (past n) → ∀ q t, tobjs (svc n) !! q = Some t → t_agentID t = A → t_id t = id →
    t_accepted t = chunks id (from_target (past n)) ∧ (t_done t = true → t_at_done t = t_accepted t)) →
  net_inv (with_past (tell id (past n)) n).
Proof.
  intros (Hb & Hd & [uf ur un ud up' ue ut]) Hs Hn Ht He. split_and!; [split; simpl; try apply Hb; done|by eapply down_ext|].
  split; simpl; try done.
  - intros i Hi. destruct (un i Hi) as (? & Hnt & ?). split_and!; [done| |done]. intros [->%elem_of_singleton|?]%elem_of_union; [|done].
    destruct Hs as [? ?]. congruence.
  - intros i [->%elem_of_singleton|?]%elem_of_union; [done|by apply ut].
Qed.

Lemma pend_deliver q q' raw l : pend q (l ++ [(q', raw)]) = pend q l ++ if (q' =? q)%nat then [raw] else [].
Proof. rewrite pend_app. simpl. by destruct (q' =? q)%nat. Qed.

Lemma idle_pend s q : idle s → ours s q → pend q (pending s) = [].
Proof.
  intros Hid (t & Ht & Ha). assert (Hno : ∀ x, (q, x) ∉ pending s) by (intros x Hx; by apply (Hid q x t)).
  clear -Hno. induction (pending s) as [|[p x] l IH]; [done|]. simpl. destruct (Nat.eqb_spec p q) as [->|].
  - destruct (Hno x). by left.
  - apply IH. intros y ?. apply (Hno y). by right.
Qed.

Definition delivering (q : nat) (raw : string) (s : Service) : Service :=
  mkService (tunnels s) (tobjs s) (pending s ++ [(q, raw)]) (closing s) (sent s).

Lemma set_host_silent s' n : sent s' = sent (svc n) → set_host s' n =
  mkNet s' (prb n) (down n) (up n) (linked n) (stages n) (readers n) (broken n) (past n).
Proof.
  intros E. unfold set_host. rewrite (news_sent _ _ []) by (by rewrite app_nil_r).
  destruct (linked n); by rewrite app_nil_r.
Qed.

Lemma deliver_base n q raw :
  base_inv n → idle (svc n) ∨ ¬ ours (svc n) q → (q < length (tobjs (svc n)))%nat →
  base_inv (set_host (delivering q raw (svc n)) n).
Proof.
  intros Hb Hq Hlt. rewrite set_host_silent by done. split; simpl; try apply Hb; try done.
  - exact (act_inv (Deliver q raw) _ (b_svc n Hb)).
  - intros p x [?|E]%elem_of_app; [by eapply (b_pend n Hb)|]. apply list_elem_of_singleton in E. by injection E as -> ->.
  - intros l Hl Ho. destruct Hq as [Hid|Hno].
    + apply sublist_app_r in Hl as (k1 & k2 & -> & Hk1 & Hk2). apply sublist_cons_r in Hk2 as [Hk2|(k & -> & Hk2)].
      * apply sublist_nil_r in Hk2 as ->. rewrite app_nil_r in Ho |- *. by apply (b_one n Hb).
      * apply sublist_nil_r in Hk2 as ->. apply Forall_app in Ho as [Ho _]. rewrite length_app. simpl.
        assert (k1 = []) as ->; [|done]. destruct k1 as [|[p x] k1]; [done|]. apply Forall_cons in Ho as [(t & Ht & Ha) _].
        exfalso. apply (Hid p x t); [|done..]. eapply elem_of_sublist; [by left|done].
    + apply sublist_app_r in Hl as (k1 & k2 & -> & Hk1 & Hk2). apply sublist_cons_r in Hk2 as [Hk2|(k & -> & Hk2)].
      * apply sublist_nil_r in Hk2 as ->. rewrite app_nil_r in Ho |- *. by apply (b_one n Hb).
      * apply Forall_app in Ho as [_ Ho]. by apply Forall_cons in Ho as [? _].
Qed.

(** A chunk of the probe's next message, on its way to the client. *)
Lemma deliver_step n d raw rest q t :
  net_inv n → up n = PProxyData d :: rest → pd_Data d = B64Encode raw → idle (svc n) →
  own_tunnel A (pd_TunnelID d) (svc n) = Some (q, t) → net_inv (set_host (delivering q raw (svc n)) (with_up rest n)).
Proof.
  intros (Hb & Hd & [uf ur un ud up' ue ut]) E Hraw Hidle Ho.
  destruct (own_tunnel_Some _ _ _ _ _ (b_svc n Hb) Ho) as (Htn & Hto & Ha & Hid & _).
  split_and!.
  - apply (deliver_base (with_up rest n)); [by eapply pop_base|by left|]. simpl. by eapply lookup_lt_Some.
  - rewrite set_host_silent by done. by eapply down_ext.
  - rewrite set_host_silent by done. split; simpl; try done.
    + intros q' t' Ht' Ha'. destruct (uf q' t' Ht' Ha') as [Hp He]. rewrite E in Hp, He.
      unfold held in *. simpl in *. rewrite pend_deliver. destruct (Nat.eqb_spec q q') as [<-|Hne].
      * rewrite Hto in Ht'. injection Ht' as <-. rewrite (idle_pend _ q Hidle) in * by (by exists t). simpl.
        rewrite Hid, Htn in *. rewrite bool_decide_eq_true_2, String.eqb_refl in * by done.
        destruct (run (pd_TunnelID d) true rest) as [k o] eqn:Er. simpl in *. unfold chunk_of in *.
        rewrite Hraw, B64Decode_Encode in *. simpl in *. done.
      * rewrite app_nil_r. assert (t_id t' ≠ pd_TunnelID d) by (intros E'; apply Hne; eapply (b_ids n Hb); [done..|congruence]).
        rewrite (proj2 (String.eqb_neq (pd_TunnelID d) (t_id t'))) in * by congruence. rewrite andb_false_r in *.
        destruct (run _ _ rest). done.
Qed.

Lemma with_past_same n : with_past (past n) n = n.
Proof. by destruct n. Qed.

Lemma set_host_same n : set_host (svc n) n = n.
Proof. rewrite set_host_silent by done. by destruct n. Qed.

(** A message that changes nothing in the table. *)
Lemma skip_step n msg rest s' :
  net_inv n → up n = msg :: rest → host_quiet (svc n) s' → sent s' = sent (svc n) →
  (∀ q t, tobjs (svc n) !! q = Some t → t_agentID t = A →
    (∀ o, run (t_id t) o (msg :: rest) = run (t_id t) o rest) ∨ tunnels s' !! t_id t = None) →
  net_inv (with_past (past n) (set_host s' (with_up rest n))).
Proof.
  intros Hi E Hq Hs Hm. pose proof (quiet_step n s' _ Hi Hq (stages_same _)) as H1.
  rewrite set_host_silent in H1 |- * by done. apply (pop_step _ msg rest H1 E).
  intros q t' Ht' Ha. destruct (hq_obj _ _ Hq q t' Ht') as (t & Ht & E1 & E2 & _). rewrite E1. apply (Hm q t Ht). congruence.
Qed.

Lemma run_other_data id d rest o : pd_TunnelID d ≠ id → run id o (PProxyData d :: rest) = run id o rest.
Proof.
  intros Hne. simpl. rewrite (proj2 (String.eqb_neq _ _) Hne), andb_false_r. by destruct (run id o rest).
Qed.

Lemma run_other_close id c rest o : pc_TunnelID c ≠ id → run id o (PProxyClose c :: rest) = run id o rest.
Proof. intros Hne. simpl. by rewrite (proj2 (String.eqb_neq _ _) Hne), andb_true_r. Qed.

Lemma data_up_step n d rest : net_inv n → up n = PProxyData d :: rest → idle (svc n) → net_inv (handle_up (PProxyData d) rest n).
Proof.
  intros Hi E Hidle. pose proof Hi as (Hb & _). destruct (b_up n Hb d) as [(Hne & raw & Hraw & Hrn & Hlen) _]; [rewrite E; by left|].
  unfold handle_up. rewrite (handle_data d raw) by done. destruct (own_tunnel _ _ _) as [[q t]|] eqn:Eo.
  - pose proof (deliver_step n d raw rest q t Hi E Hraw Hidle Eo) as H1. by rewrite <- with_past_same in H1.
  - apply (skip_step n _ _ _ Hi E); [by apply quiet_refl, Hb|done|]. intros q t Ht Ha.
    destruct (String.eqb_spec (pd_TunnelID d) (t_id t)) as [Eid|]; [|left; intros o; by apply run_other_data].
    right. rewrite <- Eid. by eapply own_tunnel_None.
Qed.

Lemma close_up_step n c rest : net_inv n → up n = PProxyClose c :: rest → idle (svc n) → net_inv (handle_up (PProxyClose c) rest n).
Proof.
  intros Hi E Hidle. pose proof Hi as (Hb & _ & Hu). pose proof (b_svc n Hb) as Hsv. unfold handle_up. rewrite handle_close.
  destruct (String.eqb_spec (pc_TunnelID c) "") as [E0|Hne].
  { apply (skip_step n _ _ _ Hi E); [by apply quiet_refl|done|]. intros q t Ht Ha. left. intros o. apply run_other_close.
    rewrite E0. intros E'. by apply (b_ne n Hb q t Ht Ha). }
  destruct (own_tunnel _ _ _) as [[q t]|] eqn:Eo.
  2: { apply (skip_step n _ _ _ Hi E); [by apply quiet_refl|done|]. intros q t Ht Ha.
    destruct (String.eqb_spec (pc_TunnelID c) (t_id t)) as [Eid|]; [|left; intros o; by apply run_other_close].
    right. rewrite <- Eid. by eapply own_tunnel_None. }
  destruct (own_tunnel_Some _ _ _ _ _ Hsv Eo) as (Htn & Hto & Ha & Hid & Hdn). cbn [act].
  set (s' := finish_take (t_id t) "agent closed" false (svc n)).
  assert (Hs : sent s' = sent (svc n)) by (unfold s'; by rewrite finish_sent, app_nil_r).
  assert (H1 : net_inv (with_past (past n) (set_host s' (with_up rest n)))).
  { apply (skip_step n _ _ _ Hi E); [by apply quiet_finish|done|]. intros q' t' Ht' Ha'.
    destruct (String.eqb_spec (pc_TunnelID c) (t_id t')) as [Eid|]; [|left; intros o; by apply run_other_close].
    right. rewrite <- Eid, <- Hid. apply finish_gone. }
  destruct (b_up_close n Hb c) as [Htab Hnt]; [rewrite E; by left|].
  change (net_inv (with_past (tell (t_id t) (past (with_past (past n) (set_host s' (with_up rest n)))))
    (with_past (past n) (set_host s' (with_up rest n))))).
  rewrite set_host_silent in H1 |- * by done. apply tell_step; simpl; rewrite ?Hid; try done.
  - rewrite <- Hid. apply finish_gone.
  - unfold s'. rewrite finish_objs. intros Hend q' t' Ht' Ha' Eid.
    rewrite <- Hid in Eid. pose proof (b_ids n Hb _ _ _ _ Ht' Hto Eid) as ->. rewrite Hto in Ht'. injection Ht' as <-.
    split; [|by rewrite Hdn]. destruct (u_flow n Hu q t Hto Ha) as [_ He]. rewrite E, (idle_pend _ q Hidle) in He by (by exists t).
    rewrite Hid in He. simpl in He. rewrite String.eqb_refl, andb_false_r, run_false in He.
    + rewrite <- He; [by rewrite app_nil_r|by eexists|by apply (u_ended n Hu)|by right].
    + intros (r & Hr & _). apply (b_up_open n Hb r). rewrite E. by right.
Qed.

Lemma handle_up_step n msg rest :
  net_inv n → up n = msg :: rest → idle (svc n) → net_inv (handle_up msg rest n).
Proof.
  intros Hi E Hidle. pose proof Hi as (Hb & _). pose proof (b_svc n Hb) as Hsv.
  destruct (payload_kind msg) as [[d ->]|[[c ->]|[Hd Hc]]]; [by apply data_up_step|by apply close_up_step|].
  assert (Hq : ∀ s', host_quiet (svc n) s' → sent s' = sent (svc n) → net_inv (with_past (past n) (set_host s' (with_up rest n)))).
  { intros s' Hq Hs. apply (skip_step n _ _ _ Hi E Hq Hs). intros q t Ht Ha. left. intros o.
    destruct msg as [| | | | |r| | | |]; try done; [|by destruct (Hd _ eq_refl)|by destruct (Hc _ eq_refl)]. destruct (b_up_open n Hb r). rewrite E. by left. }
  unfold handle_up. destruct (handle_rest msg (svc n) Hd Hc) as [->|(q & res & ->)].
  - destruct msg; (apply Hq; [by apply quiet_refl|done]).
  - assert (Ho : host_quiet (svc n) (act (Opened q res) (svc n))).
    { apply quiet_on_tunnel; [done|by apply (act_inv (Opened q res))|]. intros t _. destruct (t_opened t); split_and!; try done; by right. }
    destruct msg; (apply Hq; [exact Ho|done]).
Qed.

(** *** Other probes *)

Lemma agent_other_step n (B : string) env :
  net_inv n → B ≠ A → net_inv (set_host (act (HandleAgent B env (svc n)) (svc n)) n).
Proof.
  intros Hi HB. pose proof Hi as (Hb & Hd & Hu). pose proof (b_svc n Hb) as Hsv.
  assert (Hown : ∀ id q t, own_tunnel B id (svc n) = Some (q, t) → ¬ ours (svc n) q ∧ (q < length (tobjs (svc n)))%nat).
  { intros id q t (_ & Hto & Ha & _)%own_tunnel_Some; [|done]. split; [|by eapply lookup_lt_Some].
    intros (u & Hu' & Hua). congruence. }
  assert (Hq : ∀ s', host_quiet (svc n) s' → net_inv (set_host s' n)) by
    (intros s' Hq; exact (quiet_step n s' _ Hi Hq (stages_same _))).
  assert (Ha : (∃ q raw, HandleAgent B env (svc n) = Deliver q raw ∧ ¬ ours (svc n) q ∧ (q < length (tobjs (svc n)))%nat) ∨
    host_quiet (svc n) (act (HandleAgent B env (svc n)) (svc n))).
  { unfold HandleAgent. repeat case_match; simplify_eq; simpl; try (right; by apply quiet_refl); try (right; by apply quiet_finish).
    - right. apply quiet_on_tunnel; [done|by apply (act_inv (Opened _ _))|]. intros u _. destruct (t_opened u); split_and!; try done; by right.
    - left. eexists _, _. split; [done|]. by eapply Hown. }
  destruct Ha as [(q & raw & -> & Hno & Hlt)|Hq']; [|by apply Hq]. split_and!.
  - apply (deliver_base n q raw Hb); [by right|done].
  - rewrite set_host_silent by done. by eapply down_ext.
  - destruct Hu as [uf ur un ud up' ue ut]. rewrite set_host_silent by done. split; simpl; try done.
    intros q' t' Ht' Ha'. destruct (Nat.eqb_spec q q') as [->|]; [by destruct Hno; exists t'|].
    rewrite pend_deliver, (proj2 (Nat.eqb_neq q q')), app_nil_r by done. by apply uf.
Qed.

End Net.
