(* ===== verification/TunnelProbe.v ===== *)
(** * A tunnel from end to end: the steps of the probe

    Every step of the probe's side of TunnelNet preserves [net_inv]: its messages,
    dials, reads from and writes to targets, and the loss of the connection. *)
From S2P Require Import Prelude GoStrings GoNet GoEncoding GoFloat GoJson Protocol ProxySession ProxyService AgentProxy TunnelNet TunnelHost.

Section Net.
Context {W : IntSize} `{MapOrder} {A : Probe}.

(** ** Steps of the probe that leave the streams alone *)

Record probe_quiet (m m' : proxyManager) : Prop := {
  pq_inv : AgentProxy.inv m';
  pq_tabs : tabs m' ⊆ tabs m;
  pq_len : length (ptabs m') = length (ptabs m);
  pq_tab p t' : ptabs m' !! p = Some t' → ∃ t, ptabs m !! p = Some t ∧ p_accepted t' = p_accepted t ∧
    (p_conn t ≠ None → p_conn t' ≠ None);
  pq_dial x : x ∈ dialing m' → x ∈ dialing m;
  pq_dropped p id : (p, Some id) ∈ dropped m' → (p, Some id) ∈ dropped m ∨ tabs m !! id = Some p;
  pq_out : ∃ l, outbox m' = outbox m ++ l ∧
    Forall (λ x, (∃ r, x = POpenResult r) ∨ ∃ c p, x = PProxyClose c ∧ (p, Some (pc_TunnelID c)) ∈ dropped m) l
}.

Lemma pquiet_refl m : AgentProxy.inv m → probe_quiet m m.
Proof. intros Hi. split; eauto. exists []. by rewrite app_nil_r. Qed.

Definition probe_news (m' : proxyManager) (n : Net) : list Payload :=
  if linked n then skipn (length (outbox (prb n))) (outbox m') else [].

Lemma probe_news_sent m' n l : outbox m' = outbox (prb n) ++ l → probe_news m' n = if linked n then l else [].
Proof. intros E. unfold probe_news. by rewrite E, skipn_app, skipn_all, Nat.sub_diag. Qed.

(** [readLoop]s that go on, end, or start with a connection. *)
Definition readers_on (n : Net) (m' : proxyManager) (r : gset nat) : Prop :=
  ∀ p, p ∈ r → p ∈ readers n ∨ ∃ id t, tab_of (past n) !! id = Some p ∧ (id ∉ cut_up (past n)) ∧ (id ∉ ended (past n)) ∧
    ptabs m' !! p = Some t ∧ p_conn t ≠ None.

(** The tabs' own flow, which these steps may advance. *)
Definition tabs_ok (m : proxyManager) (b : gset nat) : Prop :=
  (∀ p t, ptabs m !! p = Some t → p_written t `prefix_of` p_accepted t ∧ (p ∉ b → p_accepted t = p_written t ++ p_writes t)) ∧
  (∀ id p, tabs m !! id = Some p → p ∉ b) ∧ ∀ p, p ∈ b → (p < length (ptabs m))%nat.

Lemma tab_union m m' (g : gmap string nat) : tabs m ⊆ g → tabs m' ⊆ tabs m → tabs m' ∪ g = g.
Proof. intros H1 H2. apply map_subseteq_union. by etrans. Qed.

Lemma probe_quiet_step n m' r b :
  net_inv n → probe_quiet (prb n) m' → tabs_ok m' b → readers_on n m' r → net_inv (with_loops r b (set_probe m' n)).
Proof.
  intros (Hb & Hd & Hu) Hq (Ht1 & Ht2 & Ht3) Hr. destruct Hq as [qi qt ql qa qd qr (l & Eo & Hl)].
  assert (Hnone : ∀ id, tabs (prb n) !! id = None → tabs m' !! id = None) by (intros id Hn; by eapply lookup_weaken_None).
  assert (Htab : tabs m' ∪ tab_of (past n) = tab_of (past n)) by (eapply tab_union; [apply (b_tabs n Hb)|done]).
  assert (Hup : ∀ x, x ∈ up n ++ probe_news m' n → x ∈ up n ∨ (∃ r, x = POpenResult r) ∨
    ∃ c p, x = PProxyClose c ∧ (p, Some (pc_TunnelID c)) ∈ dropped (prb n)).
  { intros x [?|Hx]%elem_of_app; [by left|]. right. rewrite (probe_news_sent m' n l Eo) in Hx.
    destruct (linked n); [|by apply not_elem_of_nil in Hx]. rewrite Forall_forall in Hl. auto. }
  split_and!.
  - split; simpl; try rewrite Htab; try apply Hb; try done.
    + etrans; [exact qt|apply Hb].
    + intros i p Hi. rewrite ql. by apply (b_lt n Hb i).
    + intros Hln. destruct (b_unlinked n Hb Hln) as [? E]. split; [done|]. rewrite E in qt. apply map_empty. intros i. by eapply lookup_weaken_None; [apply lookup_empty|].
    + intros d [?|[[? ?]|(? & ? & ? & _)]]%Hup; [by apply (b_up n Hb)|done..].
    + intros r0 [?|[[? ?]|(? & ? & ? & _)]]%Hup; [by apply (b_up_open n Hb r0)|done..].
    + intros c [Hc|[[? ?]|(c' & p & [= <-] & Hdr)]]%Hup; [|done|].
      * destruct (b_up_close n Hb c Hc) as [? ?]. split; [done|by apply Hnone].
      * pose proof (u_dropped n Hu _ _ Hdr) as E. split; [by eexists|]. apply Hnone.
        destruct (inv_dropped _ _ _ (b_prb n Hb) _ _ Hdr) as [_ Hno].
        destruct (tabs (prb n) !! pc_TunnelID c) as [p'|] eqn:Et; [|done]. exfalso. apply (Hno (pc_TunnelID c)).
        pose proof (lookup_weaken _ _ _ _ Et (b_tabs n Hb)). congruence.
  - destruct Hd as [df ds dh dc dt db dl]. split; simpl; try done. intros id. unfold acc, opened in *. simpl. rewrite Htab.
    destruct (df id) as [Hp He].
    assert (Hacc : match tab_of (past n) !! id ≫= λ p, ptabs m' !! p with Some t => p_accepted t | None => [] end = acc id n).
    { unfold acc. destruct (tab_of (past n) !! id) as [p|] eqn:E; [|done]. simpl.
      destruct (lookup_lt_is_Some_2 (ptabs m') p) as [t' Ht']; [rewrite ql; by eapply (b_lt n Hb)|].
      destruct (qa _ _ Ht') as (t & -> & Ea & _). by rewrite Ht'. }
    rewrite Hacc. destruct (tabs m' !! id) as [p|] eqn:Et; [by rewrite (lookup_weaken _ _ _ _ Et qt) in *|].
    destruct (tabs (prb n) !! id) as [p|] eqn:Et'; [|done]. rewrite bool_decide_eq_false_2 by (by intros [? ?]).
    assert (Hop : ¬ opens id (down n)).
    { intros (r0 & Hr0 & <-). destruct (b_open n Hb r0 Hr0) as [_ E].
      pose proof (lookup_weaken _ _ _ _ Et' (b_tabs n Hb)). congruence. }
    rewrite run_false by done. split; [|done]. simpl. rewrite app_nil_r. etrans; [|exact Hp]. by apply prefix_app_r.
  - destruct Hu as [uf ur un ud up' ue ut]. split; simpl; try rewrite Htab; try done.
    + intros q t Ht Ha. fold (probe_news m' n). destruct (uf q t Ht Ha) as [Hp He].
      assert (Hnews : ∀ o, (run (t_id t) o (up n ++ probe_news m' n)).1 = (run (t_id t) o (up n)).1 ∧
        ((run (t_id t) o (up n ++ probe_news m' n)).2 = true → (run (t_id t) o (up n)).2 = true)).
      { intros o. rewrite run_app. simpl. rewrite (run_quiet (t_id t) (probe_news m' n)), app_nil_r.
        - split; [done|]. apply run_le. intros (r0 & Hr0 & _). destruct (Hup (PProxyOpen r0)) as [?|[[? ?]|(? & ? & ? & _)]];
            [apply elem_of_app; by right|by apply (b_up_open n Hb r0)|done..].
        - intros d Hd'. rewrite (probe_news_sent m' n l Eo) in Hd'. destruct (linked n); [|by apply not_elem_of_nil in Hd'].
          rewrite Forall_forall in Hl. by destruct (Hl _ Hd') as [[? ?]|(? & ? & ? & _)]. }
      destruct (Hnews (held (t_id t) (svc n))) as [-> Hs]. split; [done|]. intros H1 H2 [H3|H3]; apply He; auto.
    + intros p [Hp|(id & t & ? & ? & ? & ? & ?)]%Hr; [|by exists id, t]. destruct (ur p Hp) as (id & t & ? & ? & Hpt & Hc).
      destruct (lookup_lt_is_Some_2 (ptabs m') p) as [t' Ht']; [rewrite ql; by eapply lookup_lt_Some|].
      destruct (qa _ _ Ht') as (u & Hu & _ & Hcc). exists id, t'. split_and!; try done. apply Hcc. congruence.
    + intros p req Hin%qd. by apply ud.
    + intros p id [?|E]%qr; [by apply up'|]. by eapply lookup_weaken; [|apply Hb].
    + intros id Hend. destruct (ue id Hend) as (? & ? & p & ? & Hnr). split_and!; [done|by apply Hnone|]. exists p. split; [done|].
      intros [?|(i & t & Hi & _ & Hni & _)]%Hr; [done|]. rewrite (b_inj n Hb i id p) in Hni; done.
    + intros id Ht. destruct (ut id Ht) as (? & ? & ?). split_and!; [by apply Hnone|done..].
Qed.

(** [m1] with a tab perhaps dropped and messages perhaps sent. *)
Lemma pquiet_drop m m1 id e b msgs :
  let m2 := dropIf id e b m1 in
  let m' := mkManager (tabs m2) (ptabs m2) (conns m2) (dialing m2) (dropped m2) (outbox m2 ++ msgs) (crashed m2) in
  AgentProxy.inv m' → tabs m1 = tabs m → length (ptabs m1) = length (ptabs m) →
  (∀ p t', ptabs m1 !! p = Some t' → ∃ t, ptabs m !! p = Some t ∧ p_accepted t' = p_accepted t ∧ (p_conn t ≠ None → p_conn t' ≠ None)) →
  (∀ x, x ∈ dialing m1 → x ∈ dialing m) → (∀ x, x ∈ dropped m1 → x ∈ dropped m) → outbox m1 = outbox m →
  Forall (λ x, ∃ r, x = POpenResult r) msgs → probe_quiet m m'.
Proof.
  intros m2 m' Hi Et El Ha Hd Hr Eo Hm.
  assert (Hout : Forall (λ x, (∃ r, x = POpenResult r) ∨ ∃ c p, x = PProxyClose c ∧ (p, Some (pc_TunnelID c)) ∈ dropped m) msgs)
    by (eapply Forall_impl; [exact Hm|]; intros x ?; by left).
  subst m' m2. revert Hi. unfold dropIf. rewrite Et. destruct (tabs m !! id) as [p|] eqn:E; [case_bool_decide|]; intros Hi.
  1,3: by (split; [exact Hi|..]; simpl; rewrite ?Et, ?Eo; eauto).
  split; [exact Hi|..]; simpl; rewrite ?Et, ?Eo; try done; [apply delete_subseteq| |by eauto].
  intros q i [?|Hin]%elem_of_app; [auto|]. apply list_elem_of_singleton in Hin. right. destruct b; by simplify_eq.
Qed.

Lemma tabs_of_inv n : net_inv n → tabs_ok (prb n) (broken n).
Proof. intros (_ & [_ _ _ _ dt db dl] & _). done. Qed.

(** Only what tabs carry changes, not which there are. *)
Lemma tabs_ok_same n m : net_inv n → (∀ id p, tabs m !! id = Some p → tabs (prb n) !! id = Some p) →
  length (ptabs m) = length (ptabs (prb n)) →
  (∀ p t, ptabs m !! p = Some t → p_written t `prefix_of` p_accepted t ∧ (p ∉ broken n → p_accepted t = p_written t ++ p_writes t)) →
  tabs_ok m (broken n).
Proof.
  intros (_ & Hd & _) Ht El Hp. split_and!; [done| |].
  - intros id p Hid%Ht. by apply (d_broken n Hd) in Hid.
  - intros p. rewrite El. apply Hd.
Qed.

Lemma readers_same n m' : readers_on n m' (readers n).
Proof. intros p ?. by left. Qed.

Lemma dropIf_tabs id e b m i p : tabs (dropIf id e b m) !! i = Some p → tabs m !! i = Some p.
Proof. unfold dropIf. repeat case_match; simpl; first [done|by intros [_ ?]%lookup_delete_Some]. Qed.

Lemma dropIf_ptabs id e b m : ptabs (dropIf id e b m) = ptabs m.
Proof. unfold dropIf. by repeat case_match. Qed.

Lemma tabs_ok_drop id e x m b : tabs_ok m b → tabs_ok (dropIf id e x m) b.
Proof.
  intros (H1 & H2 & H3). split_and!; rewrite ?dropIf_ptabs; [done| |done]. intros i p Hp%dropIf_tabs. by apply H2 in Hp.
Qed.

Lemma dial_failed_step n p req err l1 l2 :
  net_inv n → dialing (prb n) = l1 ++ (p, req) :: l2 →
  net_inv (set_probe (dial_failed p req err (with_dialing (l1 ++ l2) (prb n))) n).
Proof.
  intros Hi E. assert (Hinv : AgentProxy.inv (dial_failed p req err (with_dialing (l1 ++ l2) (prb n)))).
  { refine (manager_step_inv _ _ (b_prb n (proj1 Hi)) _). by apply AgentProxy.step_dial_failed. }
  apply (probe_quiet_step n _ (readers n) (broken n) Hi); [| |apply readers_same].
  - apply (pquiet_drop _ (with_dialing (l1 ++ l2) (prb n))); simpl; eauto.
    intros x. rewrite E, !elem_of_app, elem_of_cons. tauto.
  - exact (tabs_ok_drop _ _ _ (with_dialing (l1 ++ l2) (prb n)) _ (tabs_of_inv n Hi)).
Qed.

Lemma close_step n p notify l1 l2 :
  net_inv n → dropped (prb n) = l1 ++ (p, notify) :: l2 →
  net_inv (set_probe (close_dropped p notify (with_dropped (l1 ++ l2) (prb n))) n).
Proof.
  intros Hi E. assert (Hinv : AgentProxy.inv (close_dropped p notify (with_dropped (l1 ++ l2) (prb n)))).
  { refine (manager_step_inv _ _ (b_prb n (proj1 Hi)) _). by apply AgentProxy.step_close. }
  destruct (inv_dropped _ _ _ (b_prb n (proj1 Hi)) p notify) as [Hlt Hno]; [rewrite E; apply elem_of_app; right; by left|].
  destruct (lookup_lt_is_Some_2 _ _ Hlt) as [t Ht]. unfold close_dropped in *. simpl in *. rewrite Ht in *.
  destruct (tab_close t) as [[t' c]|] eqn:Ec; [|by pose proof (inv_crashed _ _ _ Hinv)].
  assert (Ht' : p_accepted t' = p_accepted t ∧ p_conn t' = p_conn t ∧ p_writes t' = p_writes t ∧ p_written t' = p_written t).
  { unfold tab_close in Ec. repeat case_match; by simplify_eq. }
  destruct Ht' as (Ea & Ecn & Ew & Ewn).
  assert (Hdr : ∀ x, x ∈ l1 ++ l2 → x ∈ dropped (prb n)) by (intros x; rewrite E, !elem_of_app, elem_of_cons; tauto).
  assert (Htab : ∀ q u, <[p:=t']> (ptabs (prb n)) !! q = Some u → ∃ u0, ptabs (prb n) !! q = Some u0 ∧
    p_accepted u = p_accepted u0 ∧ p_conn u = p_conn u0 ∧ p_writes u = p_writes u0 ∧ p_written u = p_written u0).
  { intros q u [(<- & <- & _)|[_ ?]]%list_lookup_insert_Some; [by exists t|by exists u]. }
  apply (probe_quiet_step n _ (readers n) (broken n) Hi); [|apply (tabs_ok_same n _ Hi)|apply readers_same].
  - destruct c, notify as [id|]; (split; simpl; rewrite ?length_insert; try done; try by eauto).
    all: try (intros q u (u0 & ? & ? & Hc & _)%Htab; exists u0; by rewrite Hc).
    all: try (exists []; rewrite app_nil_r; by split; [|constructor]).
    all: eexists; split; [done|]; constructor; [|constructor]; right; eexists _, p; split; [done|];
      simpl; rewrite E; apply elem_of_app; right; by left.
  - intros id q. by destruct c, notify.
  - destruct c, notify; simpl; by rewrite length_insert.
  - intros q u Hu. assert (Hu' : <[p:=t']> (ptabs (prb n)) !! q = Some u) by (by destruct c, notify).
    apply Htab in Hu' as (u0 & Hu0 & -> & _ & -> & ->). by apply (tabs_of_inv n Hi).
Qed.

Lemma unlink_step n :
  net_inv n → tabs (prb n) = ∅ →
  net_inv (mkNet (svc n) (prb n) [] (up n) false (stages n) (readers n) (broken n) (past n)).
Proof.
  intros (Hb & Hd & Hu) Et. split_and!.
  - split; simpl; try apply Hb; try done; try (by intros ? ?%not_elem_of_nil).
    + intros id. unfold open_count. simpl. lia.
    + intros id Hun. destruct (b_unasked n Hb id Hun) as (? & ? & _). split_and!; [done..|]. by intros (r & ?%not_elem_of_nil & _).
  - destruct Hd as [df ds dh dc dt db dl]. split; simpl; try done. intros id. destruct (df id) as [Hp _].
    unfold acc, opened in *. simpl. rewrite Et, lookup_empty. simpl. split; [|done]. rewrite app_nil_r. etrans; [|exact Hp]. by apply prefix_app_r.
  - by eapply up_ext.
Qed.

Lemma disconnect_step n : net_inv n → net_inv (disconnect n).
Proof.
  intros Hi. assert (Hinv : AgentProxy.inv (dropAll (prb n))) by apply dropAll_inv, Hi.
  assert (H1 : net_inv (set_probe (dropAll (prb n)) n)).
  { apply (probe_quiet_step n _ (readers n) (broken n) Hi); [| |apply readers_same].
    - split; simpl; try done; eauto; [apply map_empty_subseteq| |].
      + intros p id [?|Hin]%elem_of_app; [by left|]. by apply list_elem_of_fmap in Hin as (x & [=] & _).
      + exists []. by rewrite app_nil_r.
    - apply (tabs_ok_same n _ Hi); [|done|apply (tabs_of_inv n Hi)]. intros id p. simpl. by rewrite lookup_empty. }
  by apply (unlink_step _ H1).
Qed.

Lemma pquiet_drop0 m m1 id e b :
  AgentProxy.inv (dropIf id e b m1) → tabs m1 = tabs m → length (ptabs m1) = length (ptabs m) →
  (∀ p t', ptabs m1 !! p = Some t' → ∃ t, ptabs m !! p = Some t ∧ p_accepted t' = p_accepted t ∧ (p_conn t ≠ None → p_conn t' ≠ None)) →
  (∀ x, x ∈ dialing m1 → x ∈ dialing m) → (∀ x, x ∈ dropped m1 → x ∈ dropped m) → outbox m1 = outbox m →
  probe_quiet m (dropIf id e b m1).
Proof.
  intros Hi. intros. pose proof (pquiet_drop m m1 id e b []) as Hq. simpl in Hq. rewrite app_nil_r in Hq.
  destruct (dropIf id e b m1). by apply Hq.
Qed.

(** The manager with one tab advanced. *)
Lemma pquiet_set m m' p t t' :
  AgentProxy.inv m' → ptabs m !! p = Some t → p_accepted t' = p_accepted t → (p_conn t ≠ None → p_conn t' ≠ None) →
  tabs m' = tabs m → ptabs m' = <[p := t']> (ptabs m) → (∀ x, x ∈ dialing m' → x ∈ dialing m) → dropped m' = dropped m →
  (∃ l, outbox m' = outbox m ++ l ∧ Forall (λ x, ∃ r, x = POpenResult r) l) → probe_quiet m m'.
Proof.
  intros Hi Ht Ha Hc Et Ep Hd Hr (l & Eo & Hl). split; rewrite ?Et, ?Ep, ?Hr; try done; [by rewrite length_insert| |by left|].
  - intros q u [(<- & <- & _)|[_ ?]]%list_lookup_insert_Some; [by exists t|by exists u].
  - exists l. split; [done|]. eapply Forall_impl; [exact Hl|]. intros x ?. by left.
Qed.

Lemma set_tab_lookup m p t t' :
  ptabs m !! p = Some t → p_accepted t' = p_accepted t → (p_conn t ≠ None → p_conn t' ≠ None) →
  ∀ q u, <[p := t']> (ptabs m) !! q = Some u → ∃ u0, ptabs m !! q = Some u0 ∧ p_accepted u = p_accepted u0 ∧ (p_conn u0 ≠ None → p_conn u ≠ None).
Proof. intros Ht Ha Hc q u [(<- & <- & _)|[_ ?]]%list_lookup_insert_Some; [by exists t|by exists u]. Qed.

Lemma dial_ok_step n p req ok l1 l2 :
  net_inv n → dialing (prb n) = l1 ++ (p, req) :: l2 → net_inv (dialled p req ok (with_dialing (l1 ++ l2) (prb n)) n).
Proof.
  intros Hi E. set (m0 := with_dialing (l1 ++ l2) (prb n)).
  assert (Hinv : AgentProxy.inv (dial_ok p req ok m0)).
  { refine (manager_step_inv _ _ (b_prb n (proj1 Hi)) _). by apply AgentProxy.step_dial_ok. }
  assert (Hin : (p, req) ∈ dialing (prb n)) by (rewrite E; apply elem_of_app; right; by left).
  assert (Hdl : ∀ x, x ∈ l1 ++ l2 → x ∈ dialing (prb n)) by (intros x; rewrite E, !elem_of_app, elem_of_cons; tauto).
  destruct (inv_dial _ _ _ (b_prb n (proj1 Hi)) _ _ Hin) as (t & Ht & Hcn).
  destruct (u_dial n (proj2 (proj2 Hi)) _ _ Hin) as (Etab & Hcut & Hend).
  unfold dialled, dial_ok in *. change (ptabs m0) with (ptabs (prb n)) in *. rewrite Ht in *. unfold setConn in *.
  destruct (p_closed t) eqn:Ecl; cbn [negb] in *.
  - rewrite andb_false_r. apply (probe_quiet_step n _ (readers n) (broken n) Hi); [|apply (tabs_of_inv n Hi)|apply readers_same].
    split; simpl; try done; [by eauto|by eauto|exists []; by rewrite app_nil_r].
  - rewrite andb_true_r. set (c := length (conns m0)) in *.
    set (t' := mkTab (Some c) _ _ _ _ _) in *.
    set (m1 := set_tab p t' _) in *.
    assert (Htab : tabs_ok m1 (broken n)).
    { apply (tabs_ok_same n _ Hi); [done|simpl; by rewrite length_insert|]. simpl. intros q u [(<- & <- & _)|[_ ?]]%list_lookup_insert_Some;
        [exact (proj1 (tabs_of_inv n Hi) p t Ht)|by apply (tabs_of_inv n Hi)]. }
    destruct ok.
    + apply (probe_quiet_step n _ _ (broken n) Hi).
      * eapply (pquiet_set _ _ p t t'); simpl; try done. eexists. split; [done|]. repeat constructor. by eexists.
      * exact Htab.
      * intros q [->%elem_of_singleton|?]%elem_of_union; [|by left]. right. exists (po_TunnelID req), t'. split_and!; try done.
        simpl. by rewrite list_lookup_insert_eq by (by eapply lookup_lt_Some).
    + apply (probe_quiet_step n _ _ (broken n) Hi); [|by apply tabs_ok_drop|apply readers_same].
      apply pquiet_drop0; simpl; try done; [by rewrite length_insert|]. by eapply set_tab_lookup.
Qed.

Lemma write_step n p id t c ok :
  net_inv n → tab_of (past n) !! id = Some p → ptabs (prb n) !! p = Some t → p_conn t = Some c → p ∉ broken n →
  p_writes t ≠ [] → net_inv (target_write p id t ok n).
Proof.
  intros Hi Etab Ht Hc Hbr Hw.
  assert (Hcn : p_conn t ≠ None) by congruence.
  pose proof (manager_step_inv _ _ (b_prb n (proj1 Hi)) (AgentProxy.step_write _ p t ok id Ht Hcn)) as Hinv.
  destruct (p_writes t) as [|d rest] eqn:Ew; [done|]. destruct (proj1 (tabs_of_inv n Hi) p t Ht) as [Hp He].
  specialize (He Hbr). unfold target_write.
  assert (p_accepted (write_next ok t) = p_accepted t ∧ p_conn (write_next ok t) = p_conn t) as [Hwa Hwc] by (unfold write_next; by rewrite Ew).
  assert (Hok : ∀ b, (ok = true ∨ p ∈ b) → broken n ⊆ b → ∀ q u, <[p:=write_next ok t]> (ptabs (prb n)) !! q = Some u →
    p_written u `prefix_of` p_accepted u ∧ (q ∉ b → p_accepted u = p_written u ++ p_writes u)).
  { intros b Hb Hsub q u [(<- & <- & _)|[_ Hu]]%list_lookup_insert_Some.
    - unfold write_next. rewrite Ew. simpl. rewrite He, Ew. destruct ok.
      + rewrite <- (assoc_L (++)). split; [|done]. exists rest. by rewrite <- (assoc_L (++)).
      + destruct Hb as [|Hb]; [done|]. split; [by eexists|done].
    - destruct (proj1 (tabs_of_inv n Hi) q u Hu) as [? Hq]. split; [done|]. intros Hnb. apply Hq. intros ?. by apply Hnb, Hsub. }
  destruct ok.
  - apply (probe_quiet_step n _ (readers n) (broken n) Hi); [|apply (tabs_ok_same n _ Hi)|apply readers_same].
    + eapply (pquiet_set _ _ p t); simpl; try done; [congruence|]. exists []. by rewrite app_nil_r.
    + done.
    + simpl. by rewrite length_insert.
    + apply Hok; [by left|done].
  - apply (probe_quiet_step n _ (readers n) ({[p]} ∪ broken n) Hi); [|split_and!|apply readers_same].
    + apply pquiet_drop0; simpl; try done; [by rewrite length_insert|]. eapply set_tab_lookup; [done|done|congruence].
    + rewrite dropIf_ptabs. apply Hok; [right; by apply elem_of_union_l, elem_of_singleton|apply union_subseteq_r].
    + intros i q Hq. pose proof (dropIf_tabs _ _ _ _ _ _ Hq) as Hq'. simpl in Hq'. apply not_elem_of_union.
      split; [|by apply (proj1 (proj2 (tabs_of_inv n Hi))) in Hq']. intros ->%elem_of_singleton.
      pose proof (lookup_weaken _ _ _ _ Hq' (b_tabs n (proj1 Hi))) as Ei. pose proof (b_inj n (proj1 Hi) _ _ _ Ei Etab) as ->.
      unfold dropIf in Hq. simpl in Hq. rewrite Hq' in Hq. rewrite bool_decide_eq_false_2 in Hq by (by intros [_ ?]).
      simpl in Hq. by rewrite lookup_delete_eq in Hq.
    + rewrite dropIf_ptabs. simpl. rewrite length_insert. intros q [->%elem_of_singleton|?]%elem_of_union;
        [by eapply lookup_lt_Some|by apply (tabs_of_inv n Hi)].
Qed.

(** *** Reading from the target *)

Lemma skipn_new {T} (l k l' : list T) : l' = l ++ k → skipn (length l) l' = k.
Proof. intros ->. by rewrite skipn_app, skipn_all, Nat.sub_diag. Qed.

Lemma set_probe_trans n m1 m2 k1 k2 :
  outbox m1 = outbox (prb n) ++ k1 → outbox m2 = outbox m1 ++ k2 → tabs m2 ∪ (tabs m1 ∪ tab_of (past n)) = tabs m2 ∪ tab_of (past n) →
  set_probe m2 (set_probe m1 n) = set_probe m2 n.
Proof.
  intros E1 E2 Et. unfold set_probe. simpl. rewrite Et. f_equal. rewrite <- (assoc_L (++)). f_equal. destruct (linked n); [|done].
  rewrite (skipn_new _ _ _ E1), (skipn_new _ _ _ E2). symmetry. apply skipn_new. by rewrite E2, E1, (assoc_L (++)).
Qed.

Lemma no_empty_tab n : base_inv n → tab_of (past n) !! "" = None.
Proof. intros Hb. apply (b_unasked n Hb ""). intros q t Ht E Ha. by destruct (b_ne n Hb q t Ht Ha). Qed.

Lemma target_past_nil id h : target_past id "" false h = h.
Proof. by destruct h. Qed.

Lemma tdata_step n p id data :
  net_inv n → p ∈ readers n → tab_of (past n) !! id = Some p → data ≠ "" → (Z.of_nat (slen data) <= 16384)%Z → linked n = true →
  let n' := set_probe (send (data_msg id data) (prb n)) n in
  net_inv (with_past (target_past id data false (past n')) n').
Proof.
  intros (Hb & Hd & Hu) Hr Etab Hne Hlen Hl n'. pose proof (proj2 (String.eqb_neq _ _) Hne) as Eb.
  assert (Hid : id ≠ "") by (intros ->; by rewrite no_empty_tab in Etab).
  assert (Htab : tabs (prb n) ∪ tab_of (past n) = tab_of (past n)) by (eapply tab_union; [apply (b_tabs n Hb)|done]).
  assert (Hout : (if linked n then skipn (length (outbox (prb n))) (outbox (prb n) ++ [data_msg id data]) else []) = [data_msg id data]).
  { by rewrite Hl, skipn_app, skipn_all, Nat.sub_diag. }
  assert (Hx : ∀ x, x ∈ up n ++ [data_msg id data] → x ∈ up n ∨ x = data_msg id data).
  { intros x [?|Hx]%elem_of_app; [by left|]. right. by apply list_elem_of_singleton in Hx. }
  destruct (u_read n Hu p Hr) as (i & t0 & Ei & Hcut & _). pose proof (b_inj n Hb _ _ _ Ei Etab) as ->.
  split_and!.
  - split; simpl; rewrite ?Hout, ?Htab; try apply Hb; try done.
    + by apply send_inv, Hb.
    + intros d [?|[= ->]]%Hx; [by apply (b_up n Hb)|]. split; [split; [done|by exists data]|by eexists].
    + intros r [?|?]%Hx; [by apply (b_up_open n Hb r)|done].
    + intros c [?|?]%Hx; [by apply (b_up_close n Hb)|done].
  - by apply (down_ext n); simpl; rewrite ?Htab.
  - destruct Hu as [uf ur un ud up' ue ut]. split; simpl; rewrite ?Hout, ?Htab; try done.
    + intros q t Ht Ha. destruct (uf q t Ht Ha) as [Hp He]. rewrite chunks_add, Eb, andb_true_r, run_app. simpl.
      rewrite chunk_of_data. destruct (String.eqb_spec id (t_id t)) as [->|].
      2: { rewrite andb_false_r, app_nil_r. done. }
      destruct (run (t_id t) (held (t_id t) (svc n)) (up n)) as [k o] eqn:Er. simpl in *.
      unfold held in Er. destruct (tunnels (svc n) !! t_id t) as [x|] eqn:Et.
      * destruct o; simpl.
        -- rewrite app_nil_r || idtac. rewrite !(assoc_L (++)). rewrite (assoc_L (++)) in He.
           rewrite He by (done || by left || by eexists). done.
        -- rewrite app_nil_r. split; [by apply prefix_app_r|]. intros Hs Hc [?|Hend]; [done|].
           destruct (ue _ Hend) as (_ & _ & p' & Ep & Hnr). congruence.
      * rewrite bool_decide_eq_false_2, run_false in Er by (try (by intros [? ?]); intros (r & Hr' & _); by apply (b_up_open n Hb r)).
        injection Er as <- <-. simpl. rewrite app_nil_r in *. split; [by apply prefix_app_r|by intros [? ?]].
    + intros i Hi. rewrite chunks_add. destruct (un i Hi) as (-> & ? & ?). split_and!; [|done..].
      destruct (String.eqb_spec id i) as [->|]; [congruence|done].
    + intros i Hi. destruct (ut i Hi) as (Htn & ? & He). split_and!; [done..|]. intros Hend q t Ht Ha Eid.
      rewrite chunks_add. destruct (String.eqb_spec id i) as [<-|]; [|by apply (He Hend q)].
      destruct (ue _ Hend) as (_ & _ & p' & Ep & Hnr). congruence.
Qed.

Lemma drop_step n id e b : net_inv n → net_inv (set_probe (dropIf id e b (prb n)) n).
Proof.
  intros Hi. apply (probe_quiet_step n (dropIf id e b (prb n)) (readers n) (broken n) Hi).
  - by apply pquiet_drop0; [apply dropIf_Inv, (b_prb n (proj1 Hi))|eauto..].
  - exact (tabs_ok_drop _ _ _ _ _ (tabs_of_inv n Hi)).
  - apply readers_same.
Qed.

(** The goroutine is over: the tab is dropped. *)
Lemma reader_off n p id b :
  net_inv n → net_inv (with_loops (readers n ∖ {[p]}) (broken n) (set_probe (dropIf id (Some p) b (prb n)) n)).
Proof.
  intros Hi. apply (probe_quiet_step n _ _ _ Hi).
  - by apply pquiet_drop0; [apply dropIf_Inv, (b_prb n (proj1 Hi))|eauto..].
  - exact (tabs_ok_drop _ _ _ _ _ (tabs_of_inv n Hi)).
  - intros q [? _]%elem_of_difference. by left.
Qed.

Lemma dropIf_gone n p id b : base_inv n → tab_of (past n) !! id = Some p → tabs (dropIf id (Some p) b (prb n)) !! id = None.
Proof.
  intros Hb Etab. unfold dropIf. destruct (tabs (prb n) !! id) as [q|] eqn:E; [|done].
  pose proof (lookup_weaken _ _ _ _ E (b_tabs n Hb)) as E'. rewrite Etab in E'. injection E' as <-.
  rewrite bool_decide_eq_false_2 by (by intros [_ ?]). simpl. apply lookup_delete_eq.
Qed.

Lemma end_ghost n p id :
  net_inv n → tab_of (past n) !! id = Some p → p ∉ readers n → tabs (prb n) !! id = None → id ∉ cut_up (past n) →
  id ∉ told (past n) → (∀ c, PProxyClose c ∈ up n → pc_TunnelID c ≠ id) → (∀ req, (p, req) ∉ dialing (prb n)) →
  net_inv (with_past (end_past id (past n)) n).
Proof.
  intros (Hb & Hd & [uf ur un ud up' ue ut]) Etab Hr Hn Hc Ht Hup Hdl. split_and!; [split; simpl; try apply Hb; done|by apply (down_ext n)|].
  split; simpl; try done.
  - intros q t Hto Ha. destruct (uf q t Hto Ha) as [Hp He]. split; [done|]. intros Hs Hcu Hor. apply He; [done..|].
    destruct Hor as [?|[E%elem_of_singleton|?]%elem_of_union]; [by left| |by right]. left.
    unfold held. rewrite bool_decide_eq_true_2 by done. apply run_stays; [by rewrite E|done].
  - intros q req Hin. destruct (ud q req Hin) as (E & ? & ?). split_and!; [done..|].
    intros [E'%elem_of_singleton|?]%elem_of_union; [|done]. rewrite E', Etab in E. injection E as <-. by apply (Hdl req).
  - intros i [->%elem_of_singleton|?]%elem_of_union; [by eauto|by apply ue].
  - intros i Hi. destruct (ut i Hi) as (? & ? & He). split_and!; [done..|]. intros [->%elem_of_singleton|Hend]%elem_of_union; [done|].
    by apply He.
Qed.

(** A chunk that the probe could not send. *)
Lemma tcut_step n p id data :
  net_inv n → tab_of (past n) !! id = Some p → p ∉ readers n → id ∉ ended (past n) → (∀ req, (p, req) ∉ dialing (prb n)) →
  net_inv (with_past (target_past id data true (past n)) n).
Proof.
  intros (Hb & Hd & [uf ur un ud up' ue ut]) Etab Hr Hend Hdl. split_and!; [split; simpl; try apply Hb; done|by apply (down_ext n)|].
  split; simpl; try done.
  - intros q t Hto Ha. destruct (uf q t Hto Ha) as [Hp He]. rewrite chunks_add. split.
    + destruct (_ && _); [by apply prefix_app_r|done].
    + intros Hs Hc%not_elem_of_union Hor. destruct Hc as [Hne Hc]. destruct (String.eqb_spec id (t_id t)) as [->|]; [|by apply He].
      by destruct Hne; apply elem_of_singleton.
  - intros q Hq. destruct (ur q Hq) as (i & t & Ei & Hc & ? & ?). exists i, t. split_and!; try done.
    apply not_elem_of_union. split; [|done]. intros ->%elem_of_singleton. congruence.
  - intros i Hi. rewrite chunks_add. destruct (un i Hi) as (-> & ? & ?). split_and!; [|done|].
    + destruct (String.eqb_spec id i) as [->|]; [congruence|done].
    + apply not_elem_of_union. split; [|done]. intros ->%elem_of_singleton. congruence.
  - intros q req Hin. destruct (ud q req Hin) as (E & ? & ?). split_and!; [done| |done]. apply not_elem_of_union. split; [|done].
    intros E'%elem_of_singleton. rewrite E', Etab in E. injection E as <-. by apply (Hdl req).
  - intros i Hi. destruct (ue i Hi) as (? & ? & ?). split_and!; [|done..]. apply not_elem_of_union. split; [|done].
    intros ->%elem_of_singleton. done.
  - intros i Hi. destruct (ut i Hi) as (? & ? & He). split_and!; [done..|]. intros Hen q t Hto Ha E. rewrite chunks_add.
    destruct (String.eqb_spec id i) as [->|]; [done|by apply (He Hen q)].
Qed.

Lemma reader_facts n p id :
  net_inv n → p ∈ readers n → tab_of (past n) !! id = Some p →
  (id ∉ cut_up (past n)) ∧ (id ∉ ended (past n)) ∧ (∀ req, (p, req) ∉ dialing (prb n)) ∧
  (tabs (prb n) !! id = Some p → (id ∉ told (past n)) ∧ ∀ c, PProxyClose c ∈ up n → pc_TunnelID c ≠ id).
Proof.
  intros (Hb & Hd & Hu) Hr Etab. destruct (u_read n Hu p Hr) as (i & t & Ei & Hc & Ht & Hcn).
  pose proof (b_inj n Hb _ _ _ Ei Etab) as ->. split_and!; [done| | |].
  - intros (_ & _ & q & Eq & Hnr)%(u_ended n Hu). congruence.
  - intros req Hin. destruct (inv_dial _ _ _ (b_prb n Hb) _ _ Hin) as (u & Hu' & Hun). congruence.
  - intros Et. split.
    + intros (E & _)%(u_told n Hu). congruence.
    + intros c [_ E]%(b_up_close n Hb) Eid. rewrite Eid in E. congruence.
Qed.

Lemma probe_tabs n m' : base_inv n → tabs m' ⊆ tabs (prb n) → tab_of (past (set_probe m' n)) = tab_of (past n).
Proof. intros Hb Hs. simpl. eapply tab_union; [apply (b_tabs n Hb)|done]. Qed.

Lemma dropIf_sub id e b m : tabs (dropIf id e b m) ⊆ tabs m.
Proof. apply map_subseteq_spec. intros i q. apply dropIf_tabs. Qed.

Lemma dropIf_outbox id e b m : outbox (dropIf id e b m) = outbox m.
Proof. unfold dropIf. by repeat case_match. Qed.

Lemma set_probe_same n : base_inv n → set_probe (prb n) n = n.
Proof.
  intros Hb. pose proof (probe_tabs n (prb n) Hb (reflexivity _)) as E. unfold set_probe in *. simpl in E. rewrite E.
  rewrite (skipn_new _ [] _) by (by rewrite app_nil_r). destruct n as [? ? ? ? [] ? ? ? []]; simpl; by rewrite app_nil_r.
Qed.

(** The goroutine ends because the target did. *)
Lemma target_end_step n p id :
  net_inv n → p ∈ readers n → tab_of (past n) !! id = Some p →
  let n' := with_loops (readers n ∖ {[p]}) (broken n) (set_probe (dropIf id (Some p) true (prb n)) n) in
  net_inv (with_past (if bool_decide (tabs (prb n) !! id = Some p) then end_past id (past n') else past n') n').
Proof.
  intros Hi Hr Etab n'. destruct (reader_facts n p id Hi Hr Etab) as (Hc & He & Hdl & Ht).
  pose proof (reader_off n p id true Hi) as H1. fold n' in H1.
  case_bool_decide as Et; [|by rewrite with_past_same]. destruct (Ht Et) as [Hto Hup].
  apply (end_ghost n' p id H1); simpl; try done.
  - rewrite (tab_union _ _ _ (b_tabs n (proj1 Hi))); [done|apply dropIf_sub].
  - intros [_ Hn]%elem_of_difference. by apply Hn, elem_of_singleton.
  - by apply dropIf_gone; [apply Hi|].
  - rewrite (skipn_new _ []) by (by rewrite dropIf_outbox, app_nil_r). intros c. destruct (linked n); rewrite app_nil_r; apply Hup.
  - intros req. rewrite dropIf_dialing. apply Hdl.
Qed.

Lemma target_read_step n p id data ok err :
  net_inv n → p ∈ readers n → tab_of (past n) !! id = Some p → (Z.of_nat (slen data) <= 16384)%Z →
  (ok = true → linked n = true) → net_inv (target_read p id data ok err n).
Proof.
  intros Hi Hr Etab Hlen Hl. pose proof Hi as (Hb & _). destruct (reader_facts n p id Hi Hr Etab) as (Hc & He & Hdl & _).
  unfold target_read, read_chunk. destruct (String.eqb_spec data "") as [->|Hne]; cbn [negb andb].
  - rewrite target_past_nil, orb_false_r, andb_true_r. destruct err.
    + exact (target_end_step n p id Hi Hr Etab).
    + rewrite set_probe_same by done. simpl. by destruct n.
  - destruct ok; cbn [negb].
    + rewrite orb_false_r, andb_true_r. pose proof (tdata_step n p id data Hi Hr Etab Hne Hlen (Hl eq_refl)) as H1.
      unfold data_msg in H1. set (m1 := send _ (prb n)) in *. cbv zeta in H1. destruct err; cbn [andb]; [|exact H1].
      set (n1 := with_past _ _) in H1. pose proof (target_end_step n1 p id H1) as H2.
      assert (Es : set_probe (dropIf id (Some p) true m1) n1 =
        with_past (target_past id data false (past (set_probe (dropIf id (Some p) true m1) n))) (set_probe (dropIf id (Some p) true m1) n)).
      { unfold n1. rewrite <- (set_probe_trans n m1 (dropIf id (Some p) true m1) [data_msg id data] []); [done|done| |].
        - by rewrite dropIf_outbox, app_nil_r.
        - by rewrite (tab_union (prb n) m1 _ (b_tabs n Hb)). }
      cbv zeta in H2. change (prb n1) with m1 in H2. rewrite Es in H2. apply H2; simpl; [done|].
      by rewrite (tab_union (prb n) (prb n) _ (b_tabs n Hb)).
    + rewrite orb_true_r, andb_false_r. pose proof (reader_off n p id false Hi) as H1.
      apply (tcut_step _ p id data H1); simpl; try done.
      * rewrite (tab_union _ _ _ (b_tabs n Hb)); [done|apply dropIf_sub].
      * intros [_ Hn]%elem_of_difference. by apply Hn, elem_of_singleton.
      * intros req. rewrite dropIf_dialing. apply Hdl.
Qed.

(** *** What the probe receives *)

Lemma pop_down n m rest :
  net_inv n → down n = m :: rest → (∀ r, m ≠ PProxyOpen r) →
  (∀ id, run id (opened id n) (m :: rest) = run id (opened id n) rest) → net_inv (with_down rest n).
Proof.
  intros (Hb & [df ds dh dc dt db dl] & Hu) E Hno Hm. assert (Hin : ∀ x, x ∈ rest → x ∈ down n) by (intros x ?; rewrite E; by right).
  split_and!.
  - split; simpl; try apply Hb; try done.
    + intros Hl. destruct (b_unlinked n Hb Hl) as [Ed ?]. by rewrite Ed in E.
    + intros r Hr. by apply (b_open n Hb), Hin.
    + intros id. pose proof (b_open1 n Hb id) as Ho. rewrite E in Ho. unfold open_count in *. simpl in Ho.
      by destruct m; try exact Ho; destruct (Hno p).
    + intros d Hd. by apply (b_down n Hb), Hin.
    + intros id Hun. destruct (b_unasked n Hb id Hun) as (? & ? & Ho). split_and!; [done..|]. intros (r & Hr & ?).
      apply Ho. exists r. split; [by apply Hin|done].
  - split; simpl; try done. intros id. specialize (df id). rewrite E, Hm in df. exact df.
  - by apply (up_ext n).
Qed.

Lemma opened_no_opens n id : base_inv n → is_Some (tabs (prb n) !! id) → ¬ opens id (down n).
Proof.
  intros Hb [p Hp] (r & Hr & <-). destruct (b_open n Hb r Hr) as [_ E].
  pose proof (lookup_weaken _ _ _ _ Hp (b_tabs n Hb)). congruence.
Qed.

Lemma open_step n r rest :
  net_inv n → linked n = true → down n = PProxyOpen r :: rest →
  net_inv (set_probe (AgentProxy.open r (prb n)) (with_down rest n)).
Proof.
  intros (Hb & Hd & Hu) Hl E. destruct (b_open n Hb r) as [(Hid & Hh & Hp) Hno]; [rewrite E; by left|].
  pose proof (open_inv r _ (b_prb n Hb)) as Hinv.
  assert (Htn : tabs (prb n) !! po_TunnelID r = None).
  { destruct (tabs (prb n) !! po_TunnelID r) eqn:Et; [|done]. pose proof (lookup_weaken _ _ _ _ Et (b_tabs n Hb)). congruence. }
  unfold AgentProxy.open in *. rewrite (proj2 (Z.ltb_ge _ _)), (proj2 (Z.ltb_ge _ _)), (proj2 (String.eqb_neq _ _) Hh) in * by lia.
  cbn [orb] in *. rewrite Htn in *. set (p := length (ptabs (prb n))) in *. set (t0 := mkTab None [] false false [] []) in *.
  assert (Hin : ∀ x, x ∈ rest → x ∈ down n) by (intros x ?; rewrite E; by right).
  assert (Hg : <[po_TunnelID r:=p]> (tabs (prb n)) ∪ tab_of (past n) = <[po_TunnelID r:=p]> (tab_of (past n))).
  { rewrite <- insert_union_l. f_equal. by eapply tab_union; [apply (b_tabs n Hb)|]. }
  assert (Hlt : ∀ i q, tab_of (past n) !! i = Some q → q ≠ p) by (intros i q Hq; pose proof (b_lt n Hb _ _ Hq); unfold p; lia).
  assert (Hnew : (ptabs (prb n) ++ [t0]) !! p = Some t0) by (unfold p; by rewrite lookup_app_r, Nat.sub_diag by done).
  assert (Hold : ∀ q, q ≠ p → (ptabs (prb n) ++ [t0]) !! q = ptabs (prb n) !! q).
  { intros q Hne. destruct (decide (q < p)%nat); [by rewrite lookup_app_l|].
    rewrite !lookup_ge_None_2; [done|unfold p in *; lia|rewrite length_app; unfold p in *; simpl; lia]. }
  assert (Hopn : ¬ opens (po_TunnelID r) rest).
  { rewrite opens_count. pose proof (b_open1 n Hb (po_TunnelID r)) as Ho. rewrite E in Ho. unfold open_count in *. simpl in Ho.
    rewrite String.eqb_refl in Ho. simpl in Ho. lia. }
  assert (Hout : ∀ l : list Payload, l ++ (if linked n then skipn (length (outbox (prb n))) (outbox (prb n)) else []) = l).
  { intros l. rewrite (skipn_new _ [] _) by (by rewrite app_nil_r). by destruct (linked n); rewrite app_nil_r. }
  split_and!.
  - split; simpl; rewrite ?Hg, ?Hout; try apply Hb; try done.
    + apply insert_mono, Hb.
    + intros i j q [[<- <-]|[? Hi]]%lookup_insert_Some [[<- Hj]|[? Hj]]%lookup_insert_Some; try done.
      * by destruct (Hlt _ _ Hj).
      * subst. by destruct (Hlt _ _ Hi).
      * by eapply (b_inj n Hb).
    + intros i q [[<- <-]|[? Hi]]%lookup_insert_Some; rewrite length_app; simpl; [unfold p; lia|].
      pose proof (b_lt n Hb _ _ Hi). lia.
    + congruence.
    + intros r' Hr'. destruct (b_open n Hb r' (Hin _ Hr')) as [? E']. split; [done|]. rewrite lookup_insert_ne; [done|].
      intros Eid. apply Hopn. by exists r'.
    + intros id. pose proof (b_open1 n Hb id) as Ho. rewrite E in Ho. unfold open_count in *. simpl in Ho.
      destruct (_ =? _)%string in Ho; simpl in Ho; lia.
    + intros d Hd'. by apply (b_down n Hb), Hin.
    + intros d Hd'. destruct (b_up n Hb d Hd') as [? [q Hq]]. split; [done|]. rewrite lookup_insert_ne by congruence. by exists q.
    + intros c Hc. destruct (b_up_close n Hb c Hc) as [[q Hq] ?]. rewrite !lookup_insert_ne by congruence. split; [by exists q|done].
    + intros id Hun. destruct (b_unasked n Hb id Hun) as (? & ? & Ho). assert (id ≠ po_TunnelID r).
      { intros ->. apply Ho. exists r. split; [rewrite E; by left|done]. }
      split_and!; [by rewrite lookup_insert_ne|done|]. intros (r' & Hr' & ?). apply Ho. exists r'. split; [by apply Hin|done].
  - destruct Hd as [df ds dh dc dt db dl]. split; simpl; try done.
    + intros id. specialize (df id). unfold acc, opened in *. simpl. rewrite Hg. rewrite E in df.
      destruct (decide (id = po_TunnelID r)) as [->|Hne].
      * rewrite !lookup_insert_eq. rewrite Hno, Htn in df. simpl in *. rewrite String.eqb_refl in df. rewrite Hnew. exact df.
      * rewrite !lookup_insert_ne by done. simpl in df. rewrite (proj2 (String.eqb_neq (po_TunnelID r) id)), orb_false_r in df by done.
        destruct (tab_of (past n) !! id) as [q|] eqn:Eq; [|exact df]. simpl in *. rewrite (Hold q) by (by eapply Hlt). exact df.
    + intros q t [Ht|[_ Ht]]%lookup_app_Some; [by apply dt|]. by apply list_lookup_singleton_Some in Ht as [_ <-].
    + intros i q [[<- <-]|[? Hq]]%lookup_insert_Some; [intros Hp0%dl; unfold p in Hp0; lia|by eapply db].
    + intros q Hq%dl. rewrite length_app. lia.
  - destruct Hu as [uf ur un ud up' ue ut]. split; simpl; rewrite ?Hg, ?Hout; try done.
    + intros q Hq. destruct (ur q Hq) as (i & t & Hi & ? & ? & ?). exists i, t. rewrite lookup_insert_ne by congruence.
      rewrite (Hold q) by (by eapply Hlt). done.
    + intros i [Hi _]%lookup_insert_None. by apply un.
    + intros q req [Hq|Hq]%elem_of_app.
      * destruct (ud q req Hq) as (? & ? & ?). split_and!; [|done..]. rewrite lookup_insert_ne by congruence. done.
      * apply list_elem_of_singleton in Hq. injection Hq as -> ->. destruct (un _ Hno) as (_ & _ & ?).
        split_and!; [by rewrite lookup_insert_eq|done|]. intros (_ & _ & q & ? & _)%ue. congruence.
    + intros q i Hq%up'. rewrite lookup_insert_ne by congruence. done.
    + intros i Hi. destruct (ue i Hi) as (? & ? & q & Hq & ?). split_and!; [done|by rewrite lookup_insert_ne by congruence|].
      exists q. by rewrite lookup_insert_ne by congruence.
    + intros i Hi. destruct (ut i Hi) as (? & ? & ?). split_and!; [|done..]. rewrite lookup_insert_ne; [done|].
      intros <-. by apply (proj1 (proj2 (un _ Hno))).
Qed.

Lemma set_probe_down n rest : base_inv n → set_probe (prb n) (with_down rest n) = with_down rest n.
Proof. intros Hb. exact (f_equal (with_down rest) (set_probe_same n Hb)). Qed.

Lemma run_closed id d rest : run id false (PProxyData d :: rest) = run id false rest.
Proof. simpl. by destruct (run id false rest). Qed.

(** A chunk for a tab with room. *)
Lemma accept_step n d raw rest p t :
  net_inv n → down n = PProxyData d :: rest → pd_Data d = B64Encode raw →
  tabs (prb n) !! pd_TunnelID d = Some p → ptabs (prb n) !! p = Some t → (length (p_writes t) < proxyWriteQueue)%nat →
  net_inv (set_probe (set_tab p (mkTab (p_conn t) (p_writes t ++ [raw]) (p_chan_closed t) (p_closed t) (p_accepted t ++ [raw]) (p_written t))
    (prb n)) (with_down rest n)).
Proof.
  intros (Hb & Hd & Hu) E Hraw Et Ht Hlen. set (t' := mkTab _ _ _ _ _ _). set (id := pd_TunnelID d) in *.
  pose proof (lookup_weaken _ _ _ _ Et (b_tabs n Hb)) as Eg.
  assert (Hin : ∀ x, x ∈ rest → x ∈ down n) by (intros x ?; rewrite E; by right).
  assert (Hg : tabs (prb n) ∪ tab_of (past n) = tab_of (past n)) by (eapply tab_union; [apply (b_tabs n Hb)|done]).
  assert (Hout : ∀ l : list Payload, l ++ (if linked n then skipn (length (outbox (prb n))) (outbox (prb n)) else []) = l).
  { intros l. rewrite (skipn_new _ [] _) by (by rewrite app_nil_r). by destruct (linked n); rewrite app_nil_r. }
  pose proof (Forall_lookup_1 _ _ _ _ (inv_ok _ _ _ (b_prb n Hb)) Ht) as [Hch Hq].
  split_and!.
  - split; simpl; rewrite ?Hg, ?Hout, ?length_insert; try apply Hb; try done.
    + apply (set_tab_inv _ _ p t); [apply Hb|done..|]. split; simpl; [done|]. rewrite length_app. simpl. lia.
    + intros Hl. destruct (b_unlinked n Hb Hl) as [Ed ?]. by rewrite Ed in E.
    + intros r Hr. by apply (b_open n Hb), Hin.
    + intros i. pose proof (b_open1 n Hb i) as Ho. rewrite E in Ho. exact Ho.
    + intros d' Hd'. by apply (b_down n Hb), Hin.
    + intros i Hun. destruct (b_unasked n Hb i Hun) as (? & ? & Ho). split_and!; [done..|]. intros (r & Hr & ?).
      apply Ho. exists r. split; [by apply Hin|done].
  - destruct Hd as [df ds dh dc dt db dl]. split; simpl; rewrite ?length_insert; try done.
    + intros i. specialize (df i). unfold acc, opened in *. simpl. rewrite Hg. rewrite E in df. destruct (decide (i = id)) as [->|Hne].
      * rewrite Eg, Et in *. simpl in *. rewrite list_lookup_insert_eq by (by eapply lookup_lt_Some). rewrite Ht in df.
        unfold id in df. rewrite String.eqb_refl in df. fold id in df.
        destruct (run id true rest) as [k o]. simpl in *. unfold chunk_of in df. rewrite Hraw, B64Decode_Encode in df. simpl in df.
        rewrite <- (assoc_L (++)). exact df.
      * rewrite run_other_data in df by done. destruct (tab_of (past n) !! i) as [q|] eqn:Eq; [|exact df]. simpl in *.
        rewrite list_lookup_insert_ne; [exact df|]. intros ->. by rewrite (b_inj n Hb i id q) in Hne.
    + intros q u [(<- & <- & _)|[_ ?]]%list_lookup_insert_Some; [|by apply dt]. destruct (dt p t Ht) as [? He]. simpl.
      split; [by apply prefix_app_r|]. intros Hnb. by rewrite (He Hnb), (assoc_L (++)).
  - destruct Hu as [uf ur un ud up' ue ut]. split; simpl; rewrite ?Hg, ?Hout; try done.
    intros q Hq'. destruct (ur q Hq') as (i & u & ? & ? & Hu' & ?). destruct (decide (q = p)) as [->|].
    + rewrite Ht in Hu'. injection Hu' as <-. exists i, t'. rewrite list_lookup_insert_eq by (by eapply lookup_lt_Some). done.
    + exists i, u. by rewrite list_lookup_insert_ne.
Qed.

Lemma down_data_step n d rest :
  net_inv n → down n = PProxyData d :: rest →
  net_inv (set_probe (fst (handleProxyMessage (envelope (PProxyData d)) (prb n))) (with_down rest n)).
Proof.
  intros Hi E. pose proof Hi as (Hb & _). destruct (b_down n Hb d) as (Hne & raw & Hraw & Hrn & Hlen); [rewrite E; by left|].
  assert (Hh : handleProxyMessage (envelope (PProxyData d)) (prb n) = (AgentProxy.write (pd_TunnelID d) raw (prb n), true)).
  { unfold handleProxyMessage. env_simpl. rewrite wire_roundtrip by done.
    rewrite (proj2 (String.eqb_neq _ _) Hne), Hraw, (proj2 (String.eqb_neq _ _) (B64Encode_nonempty raw Hrn)), B64Decode_Encode.
    cbn [orb]. destruct raw as [|c raw]; [done|]. rewrite (proj2 (Z.ltb_ge _ _)); [done|]. unfold AgentProxy.proxyChunkSize. lia. }
  rewrite Hh. cbn [fst]. unfold AgentProxy.write. destruct (tabs (prb n) !! pd_TunnelID d) as [p|] eqn:Et.
  2: { rewrite (set_probe_down n rest Hb). apply (pop_down n (PProxyData d) rest Hi E); [done|]. intros id.
    destruct (String.eqb_spec (pd_TunnelID d) id) as [<-|]; [|by apply run_other_data].
    unfold opened. rewrite Et. apply run_closed. }
  destruct (inv_tabs _ _ _ (b_prb n Hb) _ _ Et) as (t & Ht & Hcl). rewrite Ht.
  pose proof (Forall_lookup_1 _ _ _ _ (inv_ok _ _ _ (b_prb n Hb)) Ht) as [Hch Hq]. unfold AgentProxy.enqueue.
  rewrite Hcl, Hch, Hcl. destruct (Nat.ltb_spec (length (p_writes t)) proxyWriteQueue) as [Hlt|_].
  { pose proof (accept_step n d raw rest p t Hi E Hraw Et Ht Hlt) as H1. by rewrite Hch, Hcl in H1. }
  assert (Hset : set_tab p t (prb n) = prb n) by (unfold set_tab; rewrite list_insert_id by done; by destruct (prb n)).
  rewrite Hset.
  pose proof (drop_step n (pd_TunnelID d) (Some p) true Hi) as H1.
  apply (pop_down _ (PProxyData d) rest H1 E); [done|]. intros id.
  destruct (String.eqb_spec (pd_TunnelID d) id) as [<-|]; [|by apply run_other_data].
  unfold opened. cbn [prb set_probe]. rewrite (dropIf_gone n p) by (done || by eapply lookup_weaken; [|apply Hb]). apply run_closed.
Qed.

Lemma down_close_step n c rest :
  net_inv n → down n = PProxyClose c :: rest →
  net_inv (set_probe (fst (handleProxyMessage (envelope (PProxyClose c)) (prb n))) (with_down rest n)).
Proof.
  intros Hi E. pose proof Hi as (Hb & _).
  assert (Hh : fst (handleProxyMessage (envelope (PProxyClose c)) (prb n)) =
    if (pc_TunnelID c =? "")%string then prb n else dropIf (pc_TunnelID c) None false (prb n)).
  { unfold handleProxyMessage. env_simpl. rewrite wire_roundtrip by done. by destruct (_ =? _)%string. }
  rewrite Hh. set (m' := if (pc_TunnelID c =? "")%string then _ else _).
  assert (H1 : net_inv (set_probe m' n)).
  { unfold m'. destruct (_ =? _)%string; [by rewrite set_probe_same|by apply drop_step]. }
  apply (pop_down _ (PProxyClose c) rest H1 E); [done|]. intros id.
  destruct (String.eqb_spec (pc_TunnelID c) id) as [<-|]; [|by apply run_other_close].
  assert (Hn : tabs m' !! pc_TunnelID c = None).
  { unfold m'. destruct (String.eqb_spec (pc_TunnelID c) "") as [->|].
    - destruct (tabs (prb n) !! "") as [p|] eqn:Et; [|done].
      pose proof (lookup_weaken _ _ _ _ Et (b_tabs n Hb)) as Eg. by rewrite no_empty_tab in Eg.
    - unfold dropIf. destruct (tabs (prb n) !! pc_TunnelID c) eqn:Et; [|done].
      rewrite bool_decide_eq_false_2 by (by intros [? _]). simpl. apply lookup_delete_eq. }
  unfold opened. cbn [prb set_probe]. by rewrite Hn.
Qed.

Lemma message_step n msg rest :
  (32 <= int_size)%Z → net_inv n → linked n = true → down n = msg :: rest →
  net_inv (set_probe (fst (handleProxyMessage (envelope msg) (prb n))) (with_down rest n)).
Proof.
  intros HW Hi Hl E. pose proof Hi as (Hb & _).
  assert (Hother : (∀ d, msg ≠ PProxyData d) → (∀ c, msg ≠ PProxyClose c) → (∀ r, msg ≠ PProxyOpen r) →
    fst (handleProxyMessage (envelope msg) (prb n)) = prb n → net_inv (set_probe (fst (handleProxyMessage (envelope msg) (prb n))) (with_down rest n))).
  { intros H1 H2 H3 ->. rewrite (set_probe_down n rest Hb). apply (pop_down n msg rest Hi E); [done|].
    intros id. destruct msg as [| | | | |r| |d|c|]; try done; [by destruct (H3 r)|by destruct (H1 d)|by destruct (H2 c)]. }
  destruct msg as [| | | | |r| |d|c|]; try (by apply Hother); [|by apply down_data_step|by apply down_close_step].
  destruct (b_open n Hb r) as [(Hid & Hh & Hp) _]; [rewrite E; by left|].
  assert (Hm : (2 ^ 31 <= 2 ^ (int_size - 1))%Z) by (apply Z.pow_le_mono_r; lia).
  assert (Hok : wire_ok r) by (split; [unfold exact_range; simpl; lia|unfold int_max, int_min; simpl; lia]).
  assert (Hhd : handleProxyMessage (envelope (PProxyOpen r)) (prb n) = (AgentProxy.open r (prb n), true)).
  { unfold handleProxyMessage. env_simpl. rewrite wire_roundtrip by done. by rewrite (proj2 (String.eqb_neq _ _) Hid). }
  rewrite Hhd. by apply open_step.
Qed.

End Net.
