(* ===== verification/TunnelStream.v ===== *)
(** * A tunnel from end to end: the theorems

    The invariant of TunnelNet holds in every reachable state. From it: what a
    client and its target have been given, at any time and at the end; that both
    programs can always bring everything across; and what a stream loses when the
    client's side ends first, or when it is revoked while the probe is asked. *)
From S2P Require Import Prelude GoStrings GoNet GoEncoding GoFloat GoJson Protocol ProxySession ProxyService AgentProxy TunnelNet TunnelHost TunnelProbe.

Section Net.
Context {W : IntSize} `{MapOrder} {A : Probe}.

(** ** The theorems *)

Lemma start_inv : net_inv net_start.
Proof.
  split_and!.
  - split; simpl; try done; try (by intros ? ?%not_elem_of_nil); try (by intros ? ? ?%not_elem_of_nil);
      try (by intros *; rewrite lookup_empty); try (by intros *; rewrite lookup_nil).
    + split; [constructor|]. split; simpl; [by intros *; rewrite lookup_empty|by intros * ?%not_elem_of_nil|].
      intros sid. unfold session_count. simpl. rewrite map_filter_empty, map_size_empty. unfold maxTunnelsPerSession. lia.
    + apply init_inv.
    + intros l Hl%sublist_nil_r _. subst. simpl. lia.
    + intros id. unfold open_count. simpl. lia.
    + intros id _. split_and!; [done..|]. by intros (r & ?%not_elem_of_nil & _).
  - split; simpl; try done; try (by intros *; rewrite lookup_empty); try (by intros *; rewrite lookup_nil);
      try (by intros ? ?%not_elem_of_empty).
  - split; simpl; try done; try (by intros *; rewrite lookup_nil); try (by intros ? ?%not_elem_of_empty);
      try (by intros ? ? ?%not_elem_of_nil).
Qed.

Lemma add_any n id (B : string) sid :
  net_inv n → B ≠ A → (∀ p t, tobjs (svc n) !! p = Some t → t_id t ≠ id) →
  net_inv (set_host (fst (addTunnel (newTunnel id B sid) (svc n))) n).
Proof.
  intros Hi HB Hf. pose proof (addTunnel_inv (newTunnel id B sid) (svc n) (newTunnel_flow _ _ _) eq_refl (b_svc n (proj1 Hi))) as Hs.
  unfold addTunnel in *. destruct (_ <=? _)%nat; cbn [fst]; [by rewrite set_host_same|].
  by apply (add_step n id sid B (stages n) Hi Hf Hs); [left|..].
Qed.

Lemma add_ours n id sid raw h p s q :
  net_inv n → id ≠ "" → (∀ i t, tobjs (svc n) !! i = Some t → t_id t ≠ id) → ParseConnectTarget raw = Ok (h, p) →
  addTunnel (newTunnel id A sid) (svc n) = (s, Ok q) →
  net_inv (with_stages (<[q := Asking h p]> (stages n)) (set_host s n)).
Proof.
  intros Hi Hne Hf (_ & Hh & Hp)%ParseConnectTarget_Ok Ha.
  pose proof (addTunnel_inv (newTunnel id A sid) (svc n) (newTunnel_flow _ _ _) eq_refl (b_svc n (proj1 Hi))) as Hs.
  unfold addTunnel in *. destruct (_ <=? _)%nat; [done|]. injection Ha as <- <-.
  apply (add_step n id sid A (<[length (tobjs (svc n)):=Asking h p]> (stages n)) Hi Hf Hs).
  - intros q st [[<- <-]|[_ ?]]%lookup_insert_Some; [right|by left]. split_and!; [done|done|]. by exists h, p.
  - intros _. split; [done|]. exists h, p. apply lookup_insert_eq.
Qed.

Hypothesis HW : (32 <= int_size)%Z.

Lemma net_step_inv n n' : net_inv n → net_step n n' → net_inv n'.
Proof.
  intros Hi Hs. destruct Hs.
  - by eapply add_ours.
  - by apply ask_any.
  - by apply answered_step.
  - by apply finish_step.
  - by apply client_read_step.
  - by apply handle_up_step.
  - exact (quiet_step n s _ Hi (local_quiet n s (proj1 Hi) ltac:(eassumption)) (stages_same _)).
  - by apply add_any.
  - exact (quiet_step n _ _ Hi (quiet_send_other B bridge msg _ (b_svc n (proj1 Hi)) ltac:(eassumption)) (stages_same _)).
  - by apply agent_other_step.
  - by apply message_step.
  - by apply dial_failed_step.
  - by apply dial_ok_step.
  - by apply target_read_step.
  - by eapply write_step.
  - by apply close_step.
  - by apply disconnect_step.
Qed.

Lemma net_reachable_inv n : net_reachable n → net_inv n.
Proof. apply reachable_ind_inv; [|apply net_step_inv]. intros ? ->. apply start_inv. Qed.

Definition no_close (id : string) (l : list Payload) : Prop := ∀ c, PProxyClose c ∈ l → pc_TunnelID c ≠ id.

(** C3. A tunnel end to end, over one connection of its probe and past its loss, under
    every interleaving of both programs. What the client has been written is a prefix
    of what the probe read from the target, and what the target has been written is a
    prefix of what the Host read from the client: nothing is lost in between,
    duplicated, reordered or taken from another tunnel. While both ends have the
    tunnel, what is missing is in their queues and on the connection. And when the
    target ends the stream, the Host hears of it and the client's writer ends
    without an error, the client has been given the whole of it. *)
Theorem tunnel_stream n q t :
  net_reachable n → tobjs (svc n) !! q = Some t → t_agentID t = A →
  let id := t_id t in
  let h := past n in
  t_written t `prefix_of` chunks id (from_target h) ∧
  (is_Some (tunnels (svc n) !! id) → t_exit t = None → id ∉ cut_up h → no_close id (up n) →
   chunks id (from_target h) = t_written t ++ t_inbound t ++ pend q (pending (svc n)) ++ (run id true (up n)).1) ∧
  (id ∈ ended h → id ∈ told h → t_exit t = Some true → t_written t = chunks id (from_target h)) ∧
  ∀ p tab, tab_of h !! id = Some p → ptabs (prb n) !! p = Some tab →
    p_written tab `prefix_of` chunks id (from_client h) ∧
    (tabs (prb n) !! id = Some p → is_Some (tunnels (svc n) !! id) → no_close id (down n) →
     chunks id (from_client h) = p_written tab ++ p_writes tab ++ (run id true (down n)).1).
Proof.
  intros Hn%net_reachable_inv Ht Ha id h. destruct Hn as (Hb & Hd & Hu).
  pose proof (Forall_lookup_1 _ _ _ _ (proj1 (b_svc n Hb)) Ht) as [_ Ho Hq Hdn Hex].
  destruct (u_flow n Hu q t Ht Ha) as [Hp He]. fold id h in Hp, He. split_and!.
  - etrans; [exact Ho|]. etrans; [|exact Hp]. by apply prefix_app_r.
  - intros Hs Hx Hc Hnc. unfold held in He. rewrite bool_decide_eq_true_2 in He by done.
    rewrite <- He by (try done; left; by apply run_stays). by rewrite (Hq Hx), <- (assoc_L (++)).
  - intros Hen Hto Hx. destruct (u_told n Hu id Hto) as (_ & _ & Hacc). destruct (Hacc Hen q t Ht Ha eq_refl) as [Ea Ed].
    fold h in Ea. destruct (Hex Hx) as [Hdone Hpre]. rewrite (Ed Hdone), Ea in Hpre. rewrite Ea in Ho.
    by apply (anti_symm prefix).
  - intros p tab Etab Hpt. destruct (d_tab n Hd p tab Hpt) as [Hpre Heq]. destruct (d_flow n Hd id) as [Hfl Hfe].
    unfold acc in Hfl, Hfe. fold h in Hfl, Hfe. rewrite Etab in Hfl, Hfe. simpl in Hfl, Hfe. rewrite Hpt in Hfl, Hfe. split.
    + etrans; [exact Hpre|]. etrans; [|exact Hfl]. by apply prefix_app_r.
    + intros Eo Hs Hnc. unfold opened in Hfe. rewrite Eo, bool_decide_eq_true_2 in Hfe by done.
      rewrite <- Hfe; [|by apply run_stays|by apply (d_held n Hd)].
      rewrite (Heq (d_broken n Hd _ _ Eo)). by rewrite <- (assoc_L (++)).
Qed.

(** ** Nothing gets stuck *)

(** The probe has the tunnel, with a connection to the target that is open. *)
Definition serving (id : string) (p c : nat) (n : Net) : Prop :=
  linked n = true ∧ tabs (prb n) !! id = Some p ∧ conns (prb n) !! c = Some true ∧
  ∃ t, ptabs (prb n) !! p = Some t ∧ p_conn t = Some c.

Lemma serving_writes id p c : ∀ k n t, net_inv n → serving id p c n → ptabs (prb n) !! p = Some t → length (p_writes t) = k →
  ∃ n' t', rtc net_step n n' ∧ serving id p c n' ∧ ptabs (prb n') !! p = Some t' ∧ p_writes t' = [] ∧
    svc n' = svc n ∧ down n' = down n ∧ from_client (past n') = from_client (past n).
Proof.
  induction k as [|k IH]; intros n t Hi Hs Ht Hk; [exists n, t; apply nil_length_inv in Hk; split_and!; try done; by apply rtc_refl|].
  destruct Hs as (Hl & Et & Hc & t0 & Ht0 & Hcn). rewrite Ht in Ht0. injection Ht0 as <-.
  assert (Hbr : p ∉ broken n) by (eapply (d_broken n (proj1 (proj2 Hi))), Et).
  assert (Eg : tab_of (past n) !! id = Some p) by (eapply lookup_weaken; [done|apply Hi]).
  destruct (p_writes t) as [|d rest] eqn:Ew; [done|]. injection Hk as Hk.
  assert (St : net_step n (target_write p id t true n)) by (eapply (p_write n p id t c true); [done..|by rewrite Ew|done]).
  destruct (IH (target_write p id t true n) (write_next true t)) as (n' & t' & Hr & H1 & H2 & H3 & H4 & H5 & H6).
  - by eapply net_step_inv.
  - split_and!; try done. exists (write_next true t). simpl. rewrite list_lookup_insert_eq by (by eapply lookup_lt_Some).
    split; [done|]. unfold write_next. by rewrite Ew.
  - simpl. by rewrite list_lookup_insert_eq by (by eapply lookup_lt_Some).
  - unfold write_next. by rewrite Ew.
  - exists n', t'. split_and!; try done. by eapply rtc_l.
Qed.

(** Handling a message leaves a tunnel it does not close, and whose queue has room. *)
Lemma serving_message id p c n msg rest t :
  net_inv n → serving id p c n → down n = msg :: rest → ptabs (prb n) !! p = Some t → p_writes t = [] →
  (∀ x, msg = PProxyClose x → pc_TunnelID x ≠ id) →
  serving id p c (set_probe (fst (handleProxyMessage (envelope msg) (prb n))) (with_down rest n)).
Proof.
  intros Hi (Hl & Et & Hc & t0 & Ht0 & Hcn) E Ht Hw Hno. rewrite Ht in Ht0. injection Ht0 as <-.
  pose proof (b_prb n (proj1 Hi)) as Hb. set (m := prb n) in *.
  assert (Hdrop : ∀ i e b, i ≠ id → serving id p c (set_probe (dropIf i e b m) (with_down rest n))).
  { intros i e b Hne. unfold serving. cbn [linked prb set_probe with_down]. unfold dropIf. destruct (tabs m !! i); [case_bool_decide|];
      cbn [tabs ptabs conns]; rewrite ?lookup_delete_ne by done; split_and!; try done; by exists t. }
  assert (Hsame : serving id p c (set_probe m (with_down rest n))) by (split_and!; try done; by exists t).
  assert (Hset : ∀ q u u', ptabs m !! q = Some u → p_conn u' = p_conn u → serving id p c (set_probe (set_tab q u' m) (with_down rest n))).
  { intros q u u' Hu Hcu. split_and!; try done. destruct (decide (q = p)) as [->|].
    - exists u'. simpl. rewrite list_lookup_insert_eq by (by eapply lookup_lt_Some). rewrite Ht in Hu. injection Hu as <-. split; congruence.
    - exists t. simpl. by rewrite list_lookup_insert_ne. }
  unfold handleProxyMessage. destruct msg as [| | | | |r| |d|x|]; env_simpl; try exact Hsame.
  - destruct (wire_dec _ _) as [r'|]; [|done]. destruct (_ =? _)%string; [done|]. cbn [fst]. unfold AgentProxy.open.
    destruct (_ || _); [split_and!; try done; by exists t|]. destruct (tabs m !! po_TunnelID r') eqn:Er; [split_and!; try done; by exists t|].
    split_and!; try done; simpl.
    + rewrite lookup_insert_ne by congruence. done.
    + exists t. by rewrite (lookup_app_l_Some _ _ _ t).
  - destruct (b_down n (proj1 Hi) d) as (Hne & raw & Hraw & Hrn & Hlen); [rewrite E; by left|].
    rewrite wire_roundtrip by done. rewrite (proj2 (String.eqb_neq _ _) Hne), Hraw, (proj2 (String.eqb_neq _ _) (B64Encode_nonempty raw Hrn)), B64Decode_Encode.
    cbn [orb]. destruct raw as [|ch raw]; [done|]. rewrite (proj2 (Z.ltb_ge _ _)) by (unfold AgentProxy.proxyChunkSize; lia). cbn [orb Nat.eqb slen fst].
    unfold AgentProxy.write. destruct (tabs m !! pd_TunnelID d) as [q|] eqn:Eq; [|done].
    destruct (inv_tabs _ _ _ Hb _ _ Eq) as (u & Hu & Hcl). rewrite Hu. unfold AgentProxy.enqueue.
    pose proof (Forall_lookup_1 _ _ _ _ (inv_ok _ _ _ Hb) Hu) as [Hch _]. rewrite Hch, Hcl.
    destruct (Nat.ltb_spec (length (p_writes u)) proxyWriteQueue) as [_|Hge]; [by eapply Hset|].
    assert (pd_TunnelID d ≠ id) as Hid.
    { intros Eid. rewrite Eid, Et in Eq. injection Eq as <-. rewrite Ht in Hu. injection Hu as <-. rewrite Hw in Hge.
      unfold proxyWriteQueue in Hge. simpl in Hge. lia. }
    assert (Hst : set_tab q u m = m) by (unfold set_tab; rewrite list_insert_id by done; by destruct m). rewrite Hst. by apply Hdrop.
  - rewrite wire_roundtrip by done. destruct (_ =? _)%string; [done|]. by apply Hdrop, Hno.
Qed.

Lemma serving_drains id p c : ∀ l n, net_inv n → serving id p c n → down n = l → no_close id l →
  ∃ n' t', rtc net_step n n' ∧ serving id p c n' ∧ ptabs (prb n') !! p = Some t' ∧ p_writes t' = [] ∧
    svc n' = svc n ∧ down n' = [] ∧ from_client (past n') = from_client (past n).
Proof.
  induction l as [|m l IH]; intros n Hi Hs E Hno; pose proof Hs as (_ & _ & _ & t & Ht & _).
  - destruct (serving_writes id p c _ n t Hi Hs Ht eq_refl) as (n' & t' & ? & ? & ? & ? & ? & Hd & ?).
    exists n', t'. split_and!; try done. congruence.
  - destruct (serving_writes id p c _ n t Hi Hs Ht eq_refl) as (n1 & t1 & Hr & Hs1 & Ht1 & Hw & E1 & E2 & E3).
    assert (Hi1 : net_inv n1) by (clear -Hi Hr HW; induction Hr; [done|]; eauto using net_step_inv).
    rewrite E in E2. assert (Hl : linked n1 = true) by apply Hs1.
    pose proof (p_message n1 m l Hl E2) as St. set (n2 := set_probe _ _) in St.
    assert (Hs2 : serving id p c n2).
    { eapply serving_message; try done. intros x ->. apply Hno. by left. }
    destruct (IH n2) as (n' & t' & Hr' & H1 & H2 & H3 & H4 & H5 & H6); [by eapply net_step_inv|done|done| |].
    + intros x Hx. apply Hno. by right.
    + exists n', t'. split_and!; try done; [etrans; [exact Hr|by eapply rtc_l]|by etrans|by etrans].
Qed.

(** The Host has the tunnel, and its writer runs. *)
Definition holding (id : string) (q : nat) (n : Net) : Prop :=
  tunnels (svc n) !! id = Some q ∧ ∃ t, tobjs (svc n) !! q = Some t ∧ t_agentID t = A ∧ t_exit t = None.

Lemma holding_local id q n s :
  net_inv n → holding id q n → tunnels s = tunnels (svc n) → sent s = sent (svc n) →
  (∃ t, tobjs s !! q = Some t ∧ t_agentID t = A ∧ t_exit t = None) → holding id q (set_host s n).
Proof. intros Hi [E _] Et _ Ht. split; [|done]. simpl. by rewrite Et. Qed.

Lemma idle_quiet s s' : idle s → host_quiet s s' → pending s' `sublist_of` pending s → idle s'.
Proof.
  intros Hid Hq Hp y raw u Hin Hu Ha. destruct (hq_obj _ _ Hq y u Hu) as (t & Ht & _ & E & _).
  apply (Hid y raw t); [by eapply elem_of_sublist|done|congruence].
Qed.

Lemma holding_writes id q : ∀ k n t, net_inv n → holding id q n → tobjs (svc n) !! q = Some t → length (t_inbound t) = k →
  ∃ n' t', rtc net_step n n' ∧ holding id q n' ∧ tobjs (svc n') !! q = Some t' ∧ t_inbound t' = [] ∧
    prb n' = prb n ∧ up n' = up n ∧ past n' = past n ∧ pending (svc n') = pending (svc n) ∧ (idle (svc n) → idle (svc n')).
Proof.
  induction k as [|k IH]; intros n t Hi Hs Ht Hk; [exists n, t; apply nil_length_inv in Hk; split_and!; try done; by apply rtc_refl|].
  destruct Hs as (Et & t0 & Ht0 & Ha & Hx). rewrite Ht in Ht0. injection Ht0 as <-.
  destruct (t_inbound t) as [|c rest] eqn:Ein; [done|]. injection Hk as Hk.
  set (s := on_tunnel q (write_head true) (svc n)).
  assert (Hls : local_step (svc n) s) by (by eapply local_write).
  assert (St : net_step n (set_host s n)) by (by apply h_local).
  assert (Hq : tobjs s !! q = Some (write_head true t)) by (unfold s; by rewrite on_tunnel_lookup, decide_True, Ht).
  rewrite (set_host_silent s n eq_refl) in St.
  destruct (IH _ (write_head true t) (net_step_inv _ _ Hi St)) as (n' & t' & Hr & H1 & H2 & H3 & H4 & H5 & H6 & H7 & H8).
  - split; [done|]. exists (write_head true t). split; [done|]. unfold write_head. by rewrite Ein.
  - done.
  - unfold write_head. by rewrite Ein.
  - exists n', t'. split_and!; try done; [by eapply rtc_l|]. intros Hidle. apply H8. simpl.
    eapply idle_quiet; [exact Hidle|exact (local_quiet n s (proj1 Hi) Hls)|done].
Qed.

Lemma ours_dec s l : Forall (λ e : nat * string, ¬ ours s e.1) l ∨ ∃ l1 q x l2, l = l1 ++ (q, x) :: l2 ∧ ours s q.
Proof.
  induction l as [|[q x] l [IH|(l1 & p & y & l2 & -> & Ho)]]; [left; constructor| |].
  - destruct (tobjs s !! q) as [t|] eqn:E; [destruct (String.eqb_spec (t_agentID t) A) as [Ha|Ha]|].
    + right. exists [], q, x, l. split; [done|]. by exists t.
    + left. constructor; [|done]. intros (u & Hu & ?). simpl in Hu. congruence.
    + left. constructor; [|done]. intros (u & Hu & ?). simpl in Hu. congruence.
  - right. exists ((q, x) :: l1), p, y, l2. done.
Qed.

Lemma idle_Forall s : Forall (λ e : nat * string, ¬ ours s e.1) (pending s) → idle s.
Proof. intros Hf q raw t Hin Ht Ha. rewrite Forall_forall in Hf. apply (Hf _ Hin). by exists t. Qed.

(** The Host gets ready for the probe's next message. *)
Lemma holding_settles id q n :
  net_inv n → holding id q n →
  ∃ n' t', rtc net_step n n' ∧ holding id q n' ∧ idle (svc n') ∧ tobjs (svc n') !! q = Some t' ∧ t_inbound t' = [] ∧
    prb n' = prb n ∧ up n' = up n ∧ past n' = past n.
Proof.
  intros Hi Hs. pose proof Hs as (_ & t & Ht & _).
  destruct (holding_writes id q _ n t Hi Hs Ht eq_refl) as (n1 & t1 & Hr & Hs1 & Ht1 & Hin1 & Ep & Eu & Eh & Epd & _).
  assert (Hi1 : net_inv n1) by (clear -Hi Hr HW; induction Hr; [done|]; eauto using net_step_inv).
  destruct (ours_dec (svc n1) (pending (svc n1))) as [Hf|(l1 & p & x & l2 & E & Ho)].
  { exists n1, t1. split_and!; try done. by apply idle_Forall. }
  destruct Hs1 as (Et & t' & Ht' & Ha & Hx). rewrite Ht1 in Ht'. injection Ht' as <-.
  pose proof (pend_others n1 p x l1 l2 (proj1 Hi1) E Ho) as Hno.
  assert (Hidle : ∀ s, host_quiet (svc n1) s → pending s = l1 ++ l2 → idle s).
  { intros s Hq Hpd y raw u Hin Hu Hua. destruct (hq_obj _ _ Hq y u Hu) as (v & Hv & _ & Ev & _).
    apply (Hno y raw); [by rewrite <- Hpd|]. exists v. split; [done|congruence]. }
  destruct (decide (p = q)) as [->|Hne].
  - set (s := on_tunnel q (ProxyService.enqueue x) (drop_pending l1 l2 (svc n1))).
    assert (Hls : local_step (svc n1) s) by (eapply local_deliver; [done..|]; rewrite Hin1; unfold inboundQueue; simpl; lia).
    assert (Hq : tobjs s !! q = Some (ProxyService.enqueue x t1)) by (unfold s; rewrite on_tunnel_lookup, decide_True by done; simpl; by rewrite Ht1).
    pose proof (h_local n1 s Hls) as St. rewrite (set_host_silent s n1 eq_refl) in St. pose proof (net_step_inv _ _ Hi1 St) as Hi2.
    set (n2 := mkNet s _ _ _ _ _ _ _ _) in *.
    assert (Hs2 : holding id q n2) by (split; [done|]; by exists (ProxyService.enqueue x t1)).
    destruct (holding_writes id q _ n2 (ProxyService.enqueue x t1) Hi2 Hs2 Hq eq_refl) as (n3 & t3 & Hr3 & ? & ? & ? & ? & ? & ? & _ & Hid3).
    exists n3, t3. split_and!; try done; [etrans; [exact Hr|by eapply rtc_l]| |by etrans|by etrans|by etrans].
    apply Hid3, Hidle; [exact (local_quiet n1 s (proj1 Hi1) Hls)|done].
  - destruct Ho as (u & Hu & Hua). set (s := finish_take (t_id u) "slow consumer" true (drop_pending l1 l2 (svc n1))).
    assert (Hls : local_step (svc n1) s) by (by eapply local_deliver_timer).
    assert (Hob : tobjs s = tobjs (svc n1)) by (unfold s; by rewrite finish_objs).
    assert (Hpd : pending s = l1 ++ l2) by (unfold s, finish_take; simpl; by destruct (tunnels (svc n1) !! t_id u)).
    assert (Hst : sent s = sent (svc n1)) by (unfold s; by rewrite finish_sent, app_nil_r).
    assert (Htn : tunnels s !! id = Some q).
    { unfold s, finish_take. simpl. destruct (tunnels (svc n1) !! t_id u) as [y|] eqn:Ey; [|done]. simpl.
      rewrite lookup_delete_ne; [done|]. intros Eid. apply Hne. rewrite Eid in Ey. rewrite Et in Ey. injection Ey as <-.
      destruct (table_live _ (proj2 (b_svc n1 (proj1 Hi1))) _ _ Et) as (v & Hv & Evid & _).
      by apply (b_ids n1 (proj1 Hi1) p q u v); [..|congruence]. }
    pose proof (h_local n1 s Hls) as St. rewrite (set_host_silent s n1 Hst) in St.
    eexists _, t1. split_and!; [eapply rtc_r; [exact Hr|exact St]|split; [done|]; exists t1; simpl; by rewrite Hob| |simpl; by rewrite Hob|done..].
    simpl. apply Hidle; [exact (local_quiet n1 s (proj1 Hi1) Hls)|done].
Qed.

(** Handling a message leaves a tunnel it does not close. *)
Lemma holding_message id q n msg rest :
  net_inv n → holding id q n → up n = msg :: rest → (∀ c, msg = PProxyClose c → pc_TunnelID c ≠ id) →
  let n' := handle_up msg rest n in
  holding id q n' ∧ prb n' = prb n ∧ up n' = rest ∧ from_target (past n') = from_target (past n) ∧ cut_up (past n') = cut_up (past n).
Proof.
  intros Hi (Et & t & Ht & Ha & Hx) E Hno n'. pose proof (b_svc n (proj1 Hi)) as Hsv.
  assert (Hpast : from_target (past n') = from_target (past n) ∧ cut_up (past n') = cut_up (past n)).
  { unfold n', handle_up. cbn [past with_past set_host]. by repeat case_match. }
  destruct Hpast as [E1 E2]. split_and!; try done. unfold holding, n', handle_up. cbn [svc with_past set_host].
  assert (Hact : ∀ a, (∀ i r b, a = Finish i r b → i ≠ id) → tunnels (act a (svc n)) !! id = Some q ∧
    ∃ t0, tobjs (act a (svc n)) !! q = Some t0 ∧ t_agentID t0 = A ∧ t_exit t0 = None).
  { intros [|p res|p raw|i r b] Hf; cbn [act].
    - split; [done|by exists t].
    - split; [done|]. rewrite on_tunnel_lookup. case_decide; [subst p|by exists t]. rewrite Ht. simpl.
      destruct (t_opened t); [by exists t|by exists (set_opened (Some res) t)].
    - split; [done|by exists t].
    - rewrite finish_objs. split; [|by exists t]. unfold finish_take. specialize (Hf i r b eq_refl).
      destruct (tunnels (svc n) !! i); [|done]. simpl. by rewrite lookup_delete_ne. }
  apply Hact. intros i r b Hf.
  destruct (payload_kind msg) as [[d ->]|[[c ->]|[Hd Hc]]].
  - destruct (b_up n (proj1 Hi) d) as [(Hne & raw & Hraw & Hrn & Hlen) _]; [rewrite E; by left|].
    rewrite (handle_data d raw) in Hf by done. by destruct (own_tunnel _ _ _) as [[]|].
  - rewrite handle_close in Hf. destruct (_ =? _)%string; [done|]. destruct (own_tunnel _ _ _) as [[p u]|] eqn:Eo; [|done].
    injection Hf as <- _ _. destruct (own_tunnel_Some _ _ _ _ _ Hsv Eo) as (_ & _ & _ & -> & _). by apply Hno.
  - destruct (handle_rest msg (svc n) Hd Hc) as [E'|(p & res & E')]; by rewrite E' in Hf.
Qed.

Lemma holding_drains id q : ∀ l n, net_inv n → holding id q n → up n = l → no_close id l →
  ∃ n' t', rtc net_step n n' ∧ holding id q n' ∧ idle (svc n') ∧ tobjs (svc n') !! q = Some t' ∧ t_inbound t' = [] ∧
    prb n' = prb n ∧ up n' = [] ∧ from_target (past n') = from_target (past n) ∧ cut_up (past n') = cut_up (past n).
Proof.
  induction l as [|m l IH]; intros n Hi Hs E Hno;
    destruct (holding_settles id q n Hi Hs) as (n1 & t1 & Hr & Hs1 & Hid & Ht1 & Hin & Ep & Eu & Eh).
  - exists n1, t1. rewrite Eh. split_and!; try done. congruence.
  - assert (Hi1 : net_inv n1) by (clear -Hi Hr HW; induction Hr; [done|]; eauto using net_step_inv).
    rewrite E in Eu. pose proof (h_agent n1 m l Eu Hid) as St.
    destruct (holding_message id q n1 m l Hi1 Hs1 Eu) as (Hs2 & Ep2 & Eu2 & E1 & E2); [intros c ->; apply Hno; by left|].
    destruct (IH _ (net_step_inv _ _ Hi1 St) Hs2 Eu2) as (n' & t' & Hr' & H1 & H2 & H3 & H4 & H5 & H6 & H7 & H8).
    + intros c Hc. apply Hno. by right.
    + exists n', t'. rewrite <- Eh. split_and!; try done; [etrans; [exact Hr|by eapply rtc_l]|by rewrite H5, Ep2|by rewrite H7, E1|by rewrite H8, E2].
Qed.

(** C39. Nothing gets stuck in a tunnel. From every reachable state, if the Host and the
    probe both have the tunnel, the connections are open and no notice of its end is
    under way, their goroutines can bring everything across without anything new
    being read: the target is then given all that was read from the client, and, in
    the other direction, the client all that was read from the target. *)
Theorem stream_progress n id p c q :
  net_reachable n → is_Some (tunnels (svc n) !! id) →
  (serving id p c n → no_close id (down n) →
   ∃ n' t', rtc net_step n n' ∧ ptabs (prb n') !! p = Some t' ∧ from_client (past n') = from_client (past n) ∧
     p_written t' = chunks id (from_client (past n'))) ∧
  (holding id q n → no_close id (up n) → id ∉ cut_up (past n) →
   ∃ n' t', rtc net_step n n' ∧ tobjs (svc n') !! q = Some t' ∧ from_target (past n') = from_target (past n) ∧
     t_written t' = chunks id (from_target (past n'))).
Proof.
  intros Hn Hh. pose proof (net_reachable_inv n Hn) as Hi. split.
  - intros Hs Hno. destruct (serving_drains id p c _ n Hi Hs eq_refl Hno) as (n' & t' & Hr & (_ & Et & _) & Ht' & Hw & Es & Ed & Ef).
    exists n', t'. split_and!; try done. destruct (net_reachable_inv n' (reachable_rtc _ _ _ _ Hn Hr)) as (Hb & Hd & _).
    destruct (d_flow n' Hd id) as [_ He]. destruct (d_tab n' Hd p t' Ht') as [_ Hq].
    rewrite Hw, app_nil_r in Hq. unfold acc, opened in He. rewrite (lookup_weaken _ _ _ _ Et (b_tabs n' Hb)), Et, Ed in He. simpl in He.
    rewrite Ht', app_nil_r in He. rewrite <- He; [symmetry; apply Hq, (d_broken n' Hd id), Et|done|].
    apply (d_held n' Hd). by rewrite Es.
  - intros Hs Hno Hc. destruct (holding_drains id q _ n Hi Hs eq_refl Hno) as (n' & t' & Hr & (Et & t & Ht & Ha & Hx) & Hid & Ht' & Hin & Ep & Eu & Ef & Ec).
    exists n', t'. split_and!; try done. destruct (net_reachable_inv n' (reachable_rtc _ _ _ _ Hn Hr)) as (Hb & _ & Hu).
    rewrite Ht in Ht'. injection Ht' as ->. destruct (table_live _ (proj2 (b_svc n' Hb)) _ _ Et) as (u & Hu' & Eid & _).
    rewrite Ht in Hu'. injection Hu' as <-. destruct (u_flow n' Hu q t' Ht Ha) as [_ He]. rewrite Eid in He. unfold held in He.
    rewrite Eu, Et in He. simpl in He. rewrite (idle_pend _ q Hid) in He by (by exists t'). rewrite app_nil_r in He.
    rewrite <- He; [|by eexists|by rewrite Ec|by left].
    pose proof (Forall_lookup_1 _ _ _ _ (proj1 (b_svc n' Hb)) Ht) as [_ _ Hq _ _]. by rewrite (Hq Hx), Hin, app_nil_r.
Qed.

(** ** What the end of a client's stream costs *)

(** A tab that is closed, with its connection. *)
Definition frozen (p c : nat) (w : list string) (m : proxyManager) : Prop :=
  ∃ t, ptabs m !! p = Some t ∧ p_closed t = true ∧ p_conn t = Some c ∧ conns m !! c = Some false ∧ p_written t = w.

Lemma frozen_same p c w m m' : ptabs m' = ptabs m → conns m' = conns m → frozen p c w m → frozen p c w m'.
Proof. intros E1 E2. unfold frozen. by rewrite E1, E2. Qed.

Lemma dropIf_conns id e b m : conns (dropIf id e b m) = conns m.
Proof. unfold dropIf. by repeat case_match. Qed.

Lemma frozen_dropIf p c w id e b m : frozen p c w m → frozen p c w (dropIf id e b m).
Proof. apply frozen_same; [apply dropIf_ptabs|apply dropIf_conns]. Qed.

Lemma frozen_set p c w q t t' m :
  ptabs m !! q = Some t →
  (p_closed t = true → p_closed t' = true ∧ p_conn t' = p_conn t ∧ p_written t' = p_written t) →
  frozen p c w m → frozen p c w (set_tab q t' m).
Proof.
  intros Hq E (u & Hu & Hcl & Hcn & Hc & Hw). destruct (decide (q = p)) as [->|Hne].
  - rewrite Hq in Hu. injection Hu as ->. destruct (E Hcl) as (E1 & E2 & E3). exists t'. simpl.
    rewrite list_lookup_insert_eq by (by eapply lookup_lt_Some). split_and!; congruence.
  - exists u. simpl. by rewrite list_lookup_insert_ne.
Qed.

Lemma frozen_close p c w x m : frozen p c w m → frozen p c w (AgentProxy.close_conn x m).
Proof.
  intros (u & Hu & Hcl & Hcn & Hc & Hw). exists u. split_and!; try done. simpl. destruct (decide (x = c)) as [->|].
  - by rewrite list_lookup_insert_eq by (by eapply lookup_lt_Some).
  - by rewrite list_lookup_insert_ne.
Qed.

Lemma frozen_enqueue p c w q data t t' ok m :
  ptabs m !! q = Some t → AgentProxy.enqueue data t = Some (t', ok) → frozen p c w m → frozen p c w (set_tab q t' m).
Proof.
  intros Hq E. apply (frozen_set p c w q t t' m Hq). unfold AgentProxy.enqueue in E. intros Hcl. rewrite Hcl in E.
  by injection E as <- <-.
Qed.

Lemma frozen_message p c w env m : frozen p c w m → frozen p c w (fst (handleProxyMessage env m)).
Proof.
  intros Hf. unfold handleProxyMessage, AgentProxy.drop. repeat case_match; cbn [fst]; try done; try by apply frozen_dropIf.
  - unfold AgentProxy.open. repeat case_match; try done. destruct Hf as (u & Hu & ?). exists u. simpl.
    by rewrite (lookup_app_l_Some _ _ _ u).
  - unfold AgentProxy.write. destruct (tabs m !! _) as [q|]; [|done]. destruct (ptabs m !! q) as [t|] eqn:Et; [|done].
    destruct (AgentProxy.enqueue _ t) as [[t' ok]|] eqn:Ee; [|done].
    pose proof (frozen_enqueue p c w q _ t t' ok m Et Ee Hf). destruct ok; [done|by apply frozen_dropIf].
Qed.

Lemma frozen_dial_ok p c w q req ok m : frozen p c w m → frozen p c w (dial_ok q req ok m).
Proof.
  intros Hf. unfold dial_ok. destruct (ptabs m !! q) as [t|] eqn:Et; [|done].
  set (m1 := mkManager _ _ _ _ _ _ _). assert (Hf' : frozen p c w m1).
  { destruct Hf as (u & Hu & ? & ? & Hc & ?). exists u. split_and!; try done. simpl. by rewrite (lookup_app_l_Some _ _ _ false). }
  unfold setConn. destruct (p_closed t) eqn:Ecl; cbn [negb]; [by apply frozen_close|].
  assert (Hs : ∀ t', frozen p c w (set_tab q t' m1)) by (intros t'; apply (frozen_set p c w q t); [done|congruence|done]).
  destruct ok; [exact (Hs _)|apply frozen_dropIf, Hs].
Qed.

Lemma frozen_close_dropped p c w q notify m : frozen p c w m → frozen p c w (close_dropped q notify m).
Proof.
  intros Hf. unfold close_dropped. destruct (ptabs m !! q) as [t|] eqn:Et; [|done]. unfold tab_close.
  assert (Hset : ∀ t', p_closed t' = true → p_conn t' = p_conn t → p_written t' = p_written t → frozen p c w (set_tab q t' m))
    by (intros t' ???; apply (frozen_set p c w q t); auto).
  destruct (p_closed t) eqn:Ecl; [|destruct (p_chan_closed t); [done|]].
  - specialize (Hset t Ecl eq_refl eq_refl). destruct notify; exact Hset.
  - specialize (Hset (mkTab (p_conn t) (p_writes t) true true (p_accepted t) (p_written t)) eq_refl eq_refl eq_refl).
    destruct (p_conn t) as [x|]; [apply (frozen_close _ _ _ x) in Hset|]; destruct notify; exact Hset.
Qed.

Lemma frozen_read p c w q id data ok err m : frozen p c w m → frozen p c w (read_chunk q id data ok err m).
Proof. intros Hf. unfold read_chunk. repeat case_match; try apply frozen_dropIf; exact Hf. Qed.

(** A closed connection takes nothing, and a closed tab stays so. *)
Lemma frozen_step p c w n n' : net_step n n' → frozen p c w (prb n) → frozen p c w (prb n').
Proof.
  intros Hs Hf. destruct Hs as [| | | | | | | | | |msg rest|q req err l1 l2|q req ok l1 l2|q id data ok err|q id t x ok Etab Et Ex Hb Hw Hok|q notify l1 l2|];
    try exact Hf.
  - unfold ask. by repeat case_match.
  - unfold answered. by repeat case_match.
  - unfold client_read. by repeat case_match.
  - by apply frozen_message.
  - apply (frozen_same p c w (dropIf (po_TunnelID req) (Some q) false (with_dialing (l1 ++ l2) (prb n)))); [done..|].
    by apply frozen_dropIf.
  - by apply (frozen_dial_ok p c w q req ok (with_dialing (l1 ++ l2) (prb n))).
  - by apply (frozen_read p c w q id data ok err).
  - unfold target_write. assert (Hset : frozen p c w (set_tab q (write_next ok t) (prb n))).
    { destruct ok.
      - destruct Hf as (u & Hu & Hcl & Hcn & Hcf & Hwr). destruct (decide (q = p)) as [->|Hne].
        + rewrite Hu in Et. injection Et as ->. rewrite Hcn in Ex. injection Ex as ->. by rewrite Hcf in Hok; specialize (Hok eq_refl).
        + exists u. simpl. by rewrite list_lookup_insert_ne.
      - apply (frozen_set p c w q t); [done| |done]. intros Hcl. unfold write_next. by destruct (p_writes t). }
    destruct ok; [exact Hset|by apply frozen_dropIf].
  - by apply (frozen_close_dropped p c w q notify (with_dropped (l1 ++ l2) (prb n))).
Qed.

Lemma frozen_ever p c w n n' : rtc net_step n n' → frozen p c w (prb n) → frozen p c w (prb n').
Proof. intros Hr. induction Hr; [done|]. eauto using frozen_step. Qed.

End Net.

(** ** Runs *)

Section Demo.
#[local] Instance demo_width : IntSize := int64_size.
#[local] Instance demo_order : MapOrder := in_key_order.
#[local] Instance demo_probe : Probe := "probe".

Lemma demo_wide : (32 <= int_size)%Z.
Proof. by vm_compute. Qed.

(** A request, its answer and the end of the target's stream. *)
Definition demo_request : list move :=
  [Add "t1" "session" "example.com:443"; Ask 0; HandleDown; DialOk; HandleUp; Answer 0;
   ReadClient 0 "ping" false].
Definition demo_answer : list move :=
  [HandleDown; WriteTarget 0 "t1"; ReadTarget 0 "t1" "pong" true; CloseTab; HandleUp; Deliver1; HandleUp; CloseNext;
   WriteClient 0; WriterExit 0].

Definition demo_asked : Net := default net_start (play demo_request net_start).
Definition demo_done : Net := default net_start (play demo_answer demo_asked).

Lemma demo_reachable l1 l2 n : play (l1 ++ l2) net_start = Some n → net_reachable n.
Proof. apply play_reachable. by apply reach_init. Qed.

Lemma demo_asked_reachable : net_reachable demo_asked.
Proof. apply (demo_reachable demo_request []). by vm_compute. Qed.

Lemma demo_done_reachable : net_reachable demo_done.
Proof. apply (demo_reachable demo_request demo_answer). by vm_compute. Qed.

Definition demo_tunnel : tunnel :=
  mkTunnel "t1" "probe" "session" None [] true ["pong"] ["pong"] ["pong"] (Some true).

Lemma tunnel_stream_witness :
  chunks "t1" (from_target (past demo_done)) = ["pong"] ∧ t_written demo_tunnel = ["pong"].
Proof.
  split; [by vm_compute|].
  destruct (tunnel_stream demo_wide demo_done 0 demo_tunnel demo_done_reachable ltac:(by vm_compute) eq_refl) as (_ & _ & He & _).
  rewrite He; by vm_compute.
Defined.

Lemma stream_progress_witness :
  ∃ n' t, rtc net_step demo_asked n' ∧ ptabs (prb n') !! 0%nat = Some t ∧ p_written t = ["ping"].
Proof.
  destruct (stream_progress demo_wide demo_asked "t1" 0 0 0 demo_asked_reachable) as [Hd _];
    [exists 0%nat; by vm_compute|].
  destruct Hd as (n' & t & Hr & Ht & Ef & Hw).
  - split_and!; [by vm_compute..|]. exists (mkTab (Some 0%nat) [] false false [] []). by vm_compute.
  - assert (E : down demo_asked = [PProxyData (mkProxyData "t1" "cGluZw==")]) by by vm_compute.
    rewrite E. intros c Hc. apply list_elem_of_singleton in Hc. discriminate Hc.
  - exists n', t. split_and!; [done..|]. rewrite Hw, Ef. by vm_compute.
Defined.

(** ** What is lost *)

(** The client sends its request and ends its stream: *)
Definition demo_half_close : list move :=
  [HandleDown; ReadClient 0 "" true; CloseNext; HandleDown; CloseTab].
Definition demo_cut : Net := default net_start (play demo_half_close demo_asked).

(** The end of the client's stream cuts its tail off. The Host sends the probe a
    close as soon as it has read the end, and the probe closes the connection and
    discards the chunks queued for it. The target never gets the request, though
    nothing failed. *)
Theorem close_truncates :
  ∃ n, net_reachable n ∧ chunks "t1" (from_client (past n)) = ["ping"] ∧ cut_down (past n) = ∅ ∧ broken n = ∅ ∧
    ∀ n', rtc net_step n n' → ∃ t, ptabs (prb n') !! 0%nat = Some t ∧ p_written t = [].
Proof.
  exists demo_cut. split_and!; [apply (demo_reachable demo_request demo_half_close)|..]; [by vm_compute..|].
  intros n' Hr. destruct (frozen_ever 0 0 [] demo_cut n' Hr) as (t & Ht & _ & _ & _ & Hw).
  - exists (mkTab (Some 0%nat) ["ping"] true true ["ping"] []). by vm_compute.
  - by exists t.
Qed.

Definition demo_orphan_moves : list move :=
  [Add "t1" "session" "example.com:443"; Revoke "t1" "revoked"; CloseNext; Ask 0; Closed 0; HandleDown; HandleDown;
   DialOk; HandleUp].
Definition demo_orphan : Net := default net_start (play demo_orphan_moves net_start).

(** A session that is revoked while its tunnel is being asked for: the close goes to
    the probe before the request. The Host has forgotten the tunnel, nothing is under
    way, and the probe holds an open connection to the target for it. *)
Theorem revoked_while_asking :
  net_reachable demo_orphan ∧ tunnels (svc demo_orphan) = ∅ ∧ stages demo_orphan = ∅ ∧ closing (svc demo_orphan) = [] ∧
  down demo_orphan = [] ∧ up demo_orphan = [] ∧ tabs (prb demo_orphan) = {["t1" := 0%nat]} ∧ conns (prb demo_orphan) = [true].
Proof. split; [apply (demo_reachable demo_orphan_moves []); by vm_compute|]. by vm_compute. Qed.

End Demo.
