(* ===== verification/ExitPath.v ===== *)
(** * From a local client to the probe's dial

    The tunnel client, the Host and the probe composed: the credential of the
    command line is the one the Host looks up, and the address a SOCKS5 client
    names is the one the probe dials. *)
From S2P Require Import Prelude GoStrings GoNet GoEncoding GoJson Protocol Socks5 ProxySession ProxyService AgentProxy Dialer LocalProxy.

Section Startup.
Context {W : IntSize} `{UrlParse}.

Lemma Cut_spec s c u p : Cut s c = (u, p, true) → s = u +:+ String c p ∧ no_byte c u.
Proof.
  unfold Cut. destruct (IndexByte s c) as [i|] eqn:E; [|done]. intros [= <- <-].
  by apply IndexByte_Some in E as [Hn E].
Qed.

Lemma add_rules_reachable listen specs : ∀ f, forwarder_reachable f → forwarder_reachable (fst (add_rules listen specs f)).
Proof.
  induction specs as [|spec specs IH]; intros f Hf; cbn [add_rules]; [done|].
  pose proof (reach_step _ _ _ _ Hf (step_Add f listen spec)) as Hf'.
  destruct (Add listen spec f) as [f' [r|e]]; [by apply IH|done].
Qed.

Lemma main_parts fl es ec listen s d p f :
  main fl es ec listen = Run s d p f →
  ∃ user pass, Cut (firstNonEmpty [fl_credential fl; ec]) ":" = (user, pass, true) ∧ user ≠ "" ∧ pass ≠ "" ∧
    NewDialer (firstNonEmpty [fl_server fl; es]) user pass (fl_insecure fl) = Ok d ∧
    (if negb (fl_listen fl =? "")%string then Start listen (fl_listen fl) NewLocalProxy else (NewLocalProxy, Ok tt)) = (p, Ok tt) ∧
    add_rules listen (fl_forward fl) NewForwarder = (f, true).
Proof.
  unfold main. destruct (fl_version fl); [done|]. destruct (_ || _) eqn:E1; [done|].
  destruct (Cut _ ":") as [[user pass] ok] eqn:Ec. destruct (negb ok || _ || _) eqn:E2; [done|]. go_bool. subst ok.
  destruct (NewDialer _ _ _ _) as [dialer|] eqn:Ed; [|done].
  destruct (if negb (fl_listen fl =? "")%string then _ else _) as [proxy [[]|]] eqn:Ep; [|done].
  destruct (add_rules _ _ _) as [fw [|]] eqn:Ef; [|done]. intros [= <- <- <- <-]. by exists user, pass.
Qed.

(** A client that starts, starts with each part in a reachable state. *)
Lemma main_reachable fl es ec listen s d p f :
  (∀ x y, listen x = Ok y → y ≠ "") → main fl es ec listen = Run s d p f →
  (∃ user pass, ∀ M : MapOrder, dialer_reachable (firstNonEmpty [fl_server fl; es]) user pass (fl_insecure fl) d) ∧
  proxy_reachable p ∧ forwarder_reachable f.
Proof.
  intros Hl (user & pass & _ & _ & _ & Ed & Ep & Ef)%main_parts. split_and!.
  - exists user, pass. intros M. by apply reach_init.
  - destruct (negb (fl_listen fl =? "")%string).
    + replace p with (fst (Start listen (fl_listen fl) NewLocalProxy)) by (by rewrite Ep).
      eapply reach_step; [by apply reach_init|]. by apply step_Start.
    + injection Ep as <-. by apply reach_init.
  - replace f with (fst (add_rules listen (fl_forward fl) NewForwarder)) by (by rewrite Ef).
    apply add_rules_reachable. by apply reach_init.
Qed.

(** The header the dialer sends. *)
Lemma auth_credential server user pass ins d :
  NewDialer server user pass ins = Ok d → no_byte ":" user → user ≠ "" → pass ≠ "" →
  tunnelCredential "" (auth d) = Some (user, pass).
Proof.
  unfold NewDialer. destruct (buildTunnelURL server); [|done]. cbn. intros [= <-] Hn Hu Hp. cbn [auth].
  unfold tunnelCredential. change (ParseBasicAuth "") with (None (A := string * string)). cbn iota.
  by apply (ParseBasicAuth_roundtrip "Basic ").
Qed.

(** What a local SOCKS5 client sends. *)
Definition socks_stream (methods : string) (rsv : ascii) (a : address) (port : Z) (rest : string) : string :=
  greeting methods +:+ (connect_request socksCmdConnect rsv a port +:+ rest).

(** From the target of a dial to the address the probe dials: the request the client
    sends, the Host's gate, and the Host's request to the probe. *)
Definition probe_dials (now : Z) (st : Store) (online : string → bool) (d : Dialer) (target id : string) : option (Session * string) :=
  req ← dec_request (mkRequest "") (enc_request (mkRequest target));
  match tunnel_gate now st online "" (auth d) true (Some (q_Target req)) with
  | inr (sess, host, port) =>
      open ← decode (enc_ProxyOpen (mkProxyOpen id host port));
      addr ← dial_addr open; Some (sess, addr)
  | inl _ => None
  end.

(** C2. The way out. A client started with a credential the Host knows: whatever
    address and port a local SOCKS5 client names (IPv4, IPv6 or a plain name), the
    proxy dials it as written, the Host reads the same credential and the same
    address out of the handshake, finds the session and its probe, and the request
    it sends for the tunnel makes the probe dial exactly that address; the answer
    of the Host comes back unchanged; and the client's proxy and forward rules start
    in states the theorems on them speak of. *)
Theorem exit_path fl es ec listen s d p f user pass now st sess online dial reply_ok buffered methods rsv a port rest id :
  (32 <= int_size)%Z → main fl es ec listen = Run s d p f →
  Cut (firstNonEmpty [fl_credential fl; ec]) ":" = (user, pass, true) →
  Authenticate now user pass st = Ok sess → online (AgentID sess) = true →
  (slen methods <= 255)%nat → IndexByte methods socksNoAuth ≠ None →
  addr_ok a → plain_host a → (1 <= port <= 65535)%Z →
  let t := JoinHostPort (host_of a) (Itoa port) in
  sv_dialed (handleSOCKS5 dial true reply_ok buffered (socks_stream methods rsv a port rest)) = Some t ∧
  dial_target t = Ok t ∧
  probe_dials now st online d t id = Some (sess, t) ∧
  (∀ y, dec_reply (mkReply false "") (enc_reply y) = Some y) ∧
  ((∀ x y, listen x = Ok y → y ≠ "") → proxy_reachable p ∧ forwarder_reachable f).
Proof.
  intros HW Hm Hc Ha Ho Hl Hno Hok Hpl Hp t. destruct (host_of_ok a Hok) as [Hne Hph]. destruct (Hph Hpl) as [Hhost Hpr].
  destruct (Itoa_digits port) as [Hd Hdne]; [lia|].
  assert (Hport : port_ok (Itoa port)) by (split_and!; (eapply all_bytes_no_byte; [|exact Hd]); done).
  assert (Hpp : all_bytes printable (Itoa port) = true) by (eapply all_bytes_impl; [exact digit_printable|done]).
  assert (Hauth : tunnelCredential "" (auth d) = Some (user, pass)).
  { apply main_parts in Hm as (u & q & Hc' & Hu & Hq & Ed & _). rewrite Hc in Hc'. injection Hc' as <- <-.
    apply Cut_spec in Hc as [_ Hn]. by eapply auth_credential. }
  split_and!.
  - unfold socks_stream. by rewrite dialed_target.
  - by apply dial_target_Join.
  - assert (Hw : wire_ok (mkProxyOpen id (host_of a) port)).
    { split; [unfold exact_range; cbn; lia|]. assert (2 ^ 31 <= 2 ^ (int_size - 1))%Z by (apply Z.pow_le_mono_r; lia).
      unfold int_max, int_min. cbn. lia. }
    assert (Hd' : decode (enc_ProxyOpen (mkProxyOpen id (host_of a) port)) = Some (mkProxyOpen id (host_of a) port)) by exact (wire_roundtrip _ Hw).
    unfold probe_dials. rewrite request_roundtrip. cbn [mbind option_bind q_Target]. unfold tunnel_gate. rewrite Hauth, Ha. cbn [negb].
    unfold t. rewrite ParseConnectTarget_Join by done. rewrite Ho. cbn [negb]. rewrite Hd'. cbn [mbind option_bind].
    unfold dial_addr. cbn [po_Host po_Port]. by rewrite itoa_port.
  - apply reply_roundtrip.
  - intros Hli. by apply (main_reachable _ _ _ _ _ _ _ _ Hli Hm).
Qed.
End Startup.

(** ** Witness *)

Definition exit_flags : Flags := mkFlags "ping.example.com" "" "127.0.0.1:8899" true ["5432:db:5432"] false false.

(** A credential as it is issued, with its store. *)
Definition exit_issued : Store * Session * string :=
  Eval vm_compute in
    match Issue (H := in_key_order) (H1 := counting_rand) 0 0 "a" "A" 1 NewStore with
    | (st, Ok (sess, pw)) => (st, sess, pw)
    | (st, Err _) => (st, mkSession "" "" "" "" 0 0 0 "" false, "")
    end.
Definition exit_store : Store := exit_issued.1.1.
Definition exit_session : Session := exit_issued.1.2.
Definition exit_password : string := exit_issued.2.
Definition exit_dialer : Dialer :=
  mkDialer "wss://ping.example.com/api/proxy/tunnel" ("Basic " +:+ B64Encode (Username exit_session +:+ ":" +:+ exit_password))
    false ∅ 0 [] [] [] [].

Lemma exit_path_witness :
  let _ := int64_size in let _ := plain_url in
  let t := "[2001:db8::1]:8443" in
  sv_dialed (handleSOCKS5 (λ _, true) true true 0 (socks_stream (bytes [0]%N) "000"
    (IPv6 (bytes [32; 1; 13; 184; 0; 0; 0; 0; 0; 0; 0; 0; 0; 0; 0; 1]%N)) 8443 "")) = Some t ∧
  dial_target t = Ok t ∧
  probe_dials 5 exit_store (λ _, true) exit_dialer t "t1" = Some (exit_session, t).
Proof.
  intros H1 H2 t.
  pose proof (exit_path (H := H2) exit_flags "" (Username exit_session +:+ ":" +:+ exit_password) bind_all Headless exit_dialer
    (fst (Start bind_all "127.0.0.1:8899" NewLocalProxy)) (fst (Add bind_all "5432:db:5432" NewForwarder))
    (Username exit_session) exit_password 5 exit_store exit_session (λ _, true) (λ _, true) true 0
    (bytes [0]%N) "000" (IPv6 (bytes [32; 1; 13; 184; 0; 0; 0; 0; 0; 0; 0; 0; 0; 0; 0; 1]%N)) 8443 "" "t1") as E.
  destruct E as (E1 & E2 & E3 & _);
    [vm_compute; discriminate|vm_compute; reflexivity|vm_compute; reflexivity|vm_compute; reflexivity|reflexivity|cbn; lia|
     discriminate|reflexivity|exact I|lia|].
  exact (conj E1 (conj E2 E3)).
Defined.
