(* ===== verification/System.v ===== *)
(** * Host and probe together

    What one side sends is what the other side acts on: target lists from the
    console to the pinging goroutines, measurements and routes from the probe to
    the database, and the forced restart of old probes. *)
From S2P Require Import Prelude GoStrings GoEncoding GoFloat GoJson Protocol Model Version Feature IpUtil RouteClass Hub Ingest Console.
From S2P Require Import Pinger Detector Tracer AgentClient Scheduler.

(** The target list the Host sends a probe, and what the probe makes of an envelope. *)
Definition host_targets (sv : Server) (id : string) : list TargetConfig :=
  buildTargetConfigs (agent_row (sv_db sv)) id (enabled_targets (sv_db sv)).

Definition sync_envelope {W : IntSize} (ts : list TargetConfig) : Envelope :=
  mkEnvelope TypeTargetSync (wire_enc (mkTargetSync ts)).

(** The columns of the probe's row that change its list. *)
Definition paused_for (sv : Server) (id : string) : gset string :=
  splitIDList (if (id =? "")%string then "" else from_option ag_PausedTargets "" (agent_row (sv_db sv) id)).
Definition unrouted_for (sv : Server) (id : string) : gset string :=
  splitIDList (if (id =? "")%string then "" else from_option ag_DisabledRouteTargets "" (agent_row (sv_db sv) id)).

(** ** Lemmas *)

Lemma kept_target_ids (ts : list Target) (P : Target → bool) (f : Target → TargetConfig) :
  (∀ t, tc_ID (f t) = tg_ID t) → NoDup (tg_ID <$> ts) →
  NoDup (tc_ID <$> omap (λ t, if P t then None else Some (f t)) ts).
Proof.
  intros Hf. induction ts as [|t ts IH]; csimpl; [constructor|]. intros [Hn Hnd]%NoDup_cons.
  destruct (P t); csimpl; [by apply IH|]. apply NoDup_cons. split; [|by apply IH].
  intros (c & Ec & Hc)%list_elem_of_fmap. apply list_elem_of_omap in Hc as (u & Hu & Eu). destruct (P u); [done|].
  injection Eu as <-. apply Hn, list_elem_of_fmap. exists u. split; [|done]. by rewrite <- Hf, Ec, Hf.
Qed.

Lemma host_targets_spec sv id c :
  c ∈ host_targets sv id ↔ ∃ t, t ∈ db_targets (sv_db sv) ∧ tg_Enabled t = true ∧ (tg_ID t ∉ paused_for sv id) ∧
    c = mkTargetConfig (tg_ID t) (tg_Name t) (tg_Host t) (tg_PacketCount t) (tg_IntervalSec t)
          (tg_DisableRoute t || bool_decide (tg_ID t ∈ unrouted_for sv id)).
Proof.
  unfold host_targets, buildTargetConfigs, paused_for, unrouted_for, enabled_targets.
  set (pr := if negb (id =? "")%string then _ else _).
  assert (pr = (if (id =? "")%string then "" else from_option ag_DisabledRouteTargets "" (agent_row (sv_db sv) id),
                if (id =? "")%string then "" else from_option ag_PausedTargets "" (agent_row (sv_db sv) id))) as ->.
  { subst pr. destruct (id =? "")%string; [done|]. by destruct (agent_row (sv_db sv) id). }
  unfold buildTargetConfigsWithOverrides. rewrite list_elem_of_omap. setoid_rewrite list_elem_of_In.
  setoid_rewrite filter_In. split.
  - intros (t & [Ht He] & E). destruct (bool_decide_reflect (tg_ID t ∈ splitIDList (if (id =? "")%string then "" else from_option ag_PausedTargets "" (agent_row (sv_db sv) id)))); [done|].
    injection E as <-. eauto 6.
  - intros (t & Ht & He & Hp & ->). exists t. split; [done|]. by rewrite bool_decide_eq_false_2.
Qed.

Lemma host_targets_ids sv id : tables_ok (sv_db sv) → NoDup (tc_ID <$> host_targets sv id).
Proof.
  intros Hd. unfold host_targets, buildTargetConfigs. destruct (if negb _ then _ else _) as [d p].
  apply kept_target_ids; [done|]. apply filter_map_NoDup, Hd.
Qed.

Lemma host_targets_sane sv id : tables_ok (sv_db sv) →
  Forall (λ c, 1 <= tc_PacketCount c <= 100 ∧ 5 <= tc_IntervalSec c <= 3600)%Z (host_targets sv id).
Proof.
  intros Hd. apply Forall_forall. intros c (t & Ht & _ & _ & ->)%host_targets_spec.
  pose proof (ok_targets _ Hd) as Hs. rewrite Forall_forall in Hs. destruct (Hs t Ht). done.
Qed.

Section Wire.
Context {W : IntSize}.

Lemma sync_received u s ts : Forall target_ok ts → react u s (sync_envelope ts) = AgentClient.SyncTargets ts.
Proof.
  intros H. unfold react, sync_envelope. cbn [env_Type env_Payload].
  change (TypeTargetSync =? TypeTargetSync)%string with true. cbv iota. unfold decode. by rewrite wire_roundtrip.
Qed.
End Wire.

Lemma step_mono `{Alloc} (P Q : list TargetConfig → Prop) s s' :
  (∀ ts, P ts → Q ts) → step P s s' → step Q s s'.
Proof. intros HPQ Hs. destruct Hs; econstructor; eauto. Qed.

Lemma scheduler_reachable_mono `{Alloc} (P Q : list TargetConfig → Prop) s :
  (∀ ts, P ts → Q ts) → scheduler_reachable P s → scheduler_reachable Q s.
Proof.
  intros HPQ. induction 1 as [s Hi|s s' _ IH Hs]; [by apply reach_init|].
  eapply reach_step; [exact IH|]. by eapply step_mono.
Qed.

(** The instance of the probe's arithmetic and memory: an [int] of 32 or 64 bits,
    and room for a window of a hundred samples. *)
Definition roomy {W : IntSize} `{Alloc} : Prop := (3600 <= int_max)%Z ∧ (100 * stat_size <= max_alloc)%Z.

Lemma sane_wire {W : IntSize} ts :
  (3600 <= int_max)%Z →
  Forall (λ c, 1 <= tc_PacketCount c <= 100 ∧ 5 <= tc_IntervalSec c <= 3600)%Z ts → Forall target_ok ts.
Proof.
  intros HW Hs. eapply Forall_impl; [exact Hs|]. intros c [Hp Hi]. unfold target_ok, int_ok, exact_range, int_min, int_max in *. lia.
Qed.

(** A measured round, as the row it becomes. *)
Definition metric_of (agentID : string) (at_ : Z) (r : SinglePingResult) : PingMetric :=
  mkMetric agentID (pr_TargetID r) at_ (pr_PacketsSent r) (pr_PacketsRecv r) (pr_LossPct r) (pr_MinRTT r)
    (pr_MaxRTT r) (pr_AvgRTT r) (pr_Jitter r) (pr_StdDev r) (pr_ErrorMsg r).

(** The envelopes of the probe's messages. *)
Definition ping_envelope {W : IntSize} {TT : TimeText} (r : PingReportPayload) : Envelope :=
  mkEnvelope TypePingReport (wire_enc r).
Definition trace_envelope {W : IntSize} {TT : TimeText} (r : TracerouteReportPayload) : Envelope :=
  mkEnvelope TypeTracerouteReport (wire_enc r).

(** ** Properties *)

Section Properties.
Context `{MapOrder} `{Gorm} `{Alloc} `{Columns} {W : IntSize} {TT : TimeText}.

(** C9. What the operator configures is what a probe runs: the list a probe
    decodes from a target sync is the list the Host built, holding exactly the
    enabled targets not paused for that probe with their settings, no id twice,
    and no target that could hurt it. *)
Theorem console_to_probe sv id u s :
  server_reachable sv → roomy →
  let ts := host_targets sv id in
  AgentClient.react u s (sync_envelope ts) = AgentClient.SyncTargets ts ∧
  NoDup (tc_ID <$> ts) ∧ Forall target_harmless ts ∧
  (∀ c, c ∈ ts ↔ ∃ t, t ∈ db_targets (sv_db sv) ∧ tg_Enabled t = true ∧ (tg_ID t ∉ paused_for sv id) ∧
    c = mkTargetConfig (tg_ID t) (tg_Name t) (tg_Host t) (tg_PacketCount t) (tg_IntervalSec t)
          (tg_DisableRoute t || bool_decide (tg_ID t ∈ unrouted_for sv id))).
Proof.
  intros Hr [HW Hm] ts. pose proof (host_targets_sane sv id) as Hs.
  pose proof (server_tables sv Hr) as Hd.
  specialize (Hs Hd). split_and!.
  - apply sync_received. by apply sane_wire.
  - by apply host_targets_ids.
  - eapply Forall_impl; [exact Hs|]. intros c [Hp Hi]. unfold target_harmless, stat_size in *. lia.
  - apply host_targets_spec.
Qed.

(** C1. A probe driven by the console's target lists, in any order of syncs,
    rounds, traces and time: it never panics, and runs exactly one worker for
    each target of the last list. *)
Theorem probe_under_console s :
  roomy →
  scheduler_reachable (λ ts, ∃ sv id u x, server_reachable sv ∧
     AgentClient.react u x (sync_envelope (host_targets sv id)) = AgentClient.SyncTargets ts) s →
  crashed s = false ∧
  (stopped s = false → ∀ t, t ∈ targets s → ∃ w, live s w t) ∧
  (∀ w1 w2 t1 t2, live s w1 t1 → live s w2 t2 → tc_ID t1 = tc_ID t2 → w1 = w2).
Proof.
  intros [HW Hm] Hr.
  assert (Hts : ∀ ts, (∃ sv id u x, server_reachable sv ∧
     AgentClient.react u x (sync_envelope (host_targets sv id)) = AgentClient.SyncTargets ts) →
     NoDup (tc_ID <$> ts) ∧ Forall target_harmless ts).
  { intros ts (sv & id & u & x & Hsv & E). pose proof (server_tables sv Hsv) as Hd.
    pose proof (host_targets_sane sv id Hd) as Hs. rewrite (sync_received u x _ (sane_wire _ HW Hs)) in E.
    injection E as <-. split; [by apply host_targets_ids|]. eapply Forall_impl; [exact Hs|].
    intros c [Hp Hi]. unfold target_harmless, stat_size in *. lia. }
  assert (Hharm : harmless_inv s).
  { apply scheduler_harmless. eapply scheduler_reachable_mono; [|exact Hr]. intros ts ?. by apply Hts. }
  assert (Hwork : workers_ok s).
  { apply scheduler_workers. eapply scheduler_reachable_mono; [|exact Hr]. intros ts ?. by apply Hts. }
  destruct (workers_unique s Hwork) as (Ha & _ & Hb). split_and!; [apply Hharm|done|done].
Qed.

(** C6. From a ping to the database: what a probe measures in a round and sends
    becomes, when its clock is plausible and its target enabled, one row under the id
    of the connection whatever the report claims: exactly what the columns make of
    the measurement, numbers as [numeric] rounds them and the time to the microsecond,
    the counts as measured. Nothing is stored when a statement fails or a column
    refuses a value, as the one for errors does a text past 255 characters; the
    connection is only closed when the probe could not be counted. *)
Theorem measurement_end_to_end linux now env t p p' r claimed agentID hostnow fl db :
  PingTargetOnce linux now env t p = Some (p', r) →
  tc_ID t ∈ tg_ID <$> List.filter tg_Enabled (db_targets db) →
  agentID ∈ ag_ID <$> db_agents db → (int_max >= 1)%Z →
  now ≠ 0%Z → (hostnow - 48 * hour <= now <= hostnow + 5 * minute)%Z →
  let '(db', reaction) :=
    handleIncomingMessage agentID hostnow fl (ping_envelope (mkPingReport claimed [r])) db in
  reaction = (if f_count fl then CloseConnection else Ingest.NoReaction) ∧
  db_metrics db' = db_metrics db ++
    (if f_count fl || f_targets fl || f_insert fl then [] else option_list (stored_metric (metric_of agentID now r))) ∧
  pr_TargetID r = tc_ID t ∧ pr_PacketsSent r = 1%Z ∧
  ∀ row, stored_metric (metric_of agentID now r) = Some row →
    (Z.abs (pm_Timestamp row - now) <= 1000)%Z ∧ pm_PacketsSent row = 1%Z ∧ pm_PacketsRecv row = pr_PacketsRecv r ∧
    numeric 8 2 (pr_AvgRTT r) = Some (pm_AvgRTT row) ∧ numeric 5 2 (pr_LossPct r) = Some (pm_LossPct row) ∧
    varchar 36 agentID = Some (pm_AgentID row) ∧ varchar 255 (pr_ErrorMsg r) = Some (pm_ErrorMsg row).
Proof.
  intros Hp Ht Ha HW Hn0 Hnow.
  assert (Hr : pr_TargetID r = tc_ID t ∧ pr_Timestamp r = now ∧ pr_PacketsSent r = 1%Z ∧
               (pr_PacketsRecv r = 0 ∨ pr_PacketsRecv r = 1)%Z).
  { unfold PingTargetOnce in Hp. destruct (GetOrCreateWindow _ _ p) as [[p1 w]|]; [|done]. simpl in Hp.
    destruct (ExecuteSinglePing linux now (p_isPrivileged p1) env) as [stat priv] eqn:Ee.
    assert (st_Timestamp stat = now) by (unfold ExecuteSinglePing in Ee; repeat case_match; by simplify_eq).
    destruct (st_Success stat); injection Hp as <- <-; cbn; split_and!; try done; [by right|by left]. }
  destruct Hr as (E1 & E2 & E3 & E4).
  assert (Hok : wire_ok (mkPingReport claimed [r])).
  { constructor; [|constructor]. unfold ping_ok, int_ok, exact_range, int_min, int_max in *. lia. }
  unfold handleIncomingMessage, ping_envelope. cbn [env_Type env_Payload].
  change (TypePingReport =? TypeHeartbeat)%string with false. change (TypePingReport =? TypePingReport)%string with true.
  cbv iota. unfold decode. rewrite (wire_roundtrip _ Hok).
  assert (existsb (λ a, (ag_ID a =? agentID)%string) (db_agents db) = true) as ->.
  { apply existsb_exists. apply list_elem_of_fmap in Ha as (a & -> & Hin). exists a.
    split; [by apply list_elem_of_In|apply String.eqb_refl]. }
  cbn [negb]. rewrite orb_false_r.
  assert (Hrow : ∀ row, stored_metric (metric_of agentID now r) = Some row →
    (Z.abs (pm_Timestamp row - now) <= 1000)%Z ∧ pm_PacketsSent row = 1%Z ∧ pm_PacketsRecv row = pr_PacketsRecv r ∧
    numeric 8 2 (pr_AvgRTT r) = Some (pm_AvgRTT row) ∧ numeric 5 2 (pr_LossPct r) = Some (pm_LossPct row) ∧
    varchar 36 agentID = Some (pm_AgentID row) ∧ varchar 255 (pr_ErrorMsg r) = Some (pm_ErrorMsg row)).
  { intros row Es. split; [exact (stored_metric_time _ _ Es)|]. apply stored_metric_columns in Es. by rewrite <- E3. }
  destruct (f_count fl); [split_and!; try done; by rewrite app_nil_r|]. cbn [orb].
  split; [done|]. split; [|done]. cbn [fst]. rewrite persist_metrics.
  destruct (f_insert fl); [by rewrite orb_true_r|]. destruct (f_targets fl); cbn [orb]; [done|].
  unfold metric_rows. cbn [omap list_omap]. rewrite E1, bool_decide_eq_true_2 by done. cbn [negb].
  rewrite plausible_id, E2 by (by rewrite E2). unfold metric_of. rewrite E1.
  unfold mapM. cbn. match goal with |- context [option_list ?m] => by destruct m end.
Qed.

(** From a traceroute to the database: the report of any trace arrives
    unchanged, whatever the network did to it, and what is stored is what the columns
    make of a record with the hops the probe saw, in order. *)
Theorem trace_end_to_end `{Http} e target claimed agentID hostnow fl db uuid cache :
  exact_range (te_elapsed e) → (31 <= int_max)%Z → tc_Host target ≠ "" →
  let sent := (TraceTarget e target).1 in
  let report := mkTraceReport claimed (tr_TargetID sent) (tr_TargetHost sent) (tr_ResolvedIP sent) (tr_Timestamp sent)
                  (tr_DurationMs sent) (tr_Reached sent) (tr_Hops sent) in
  handleIncomingMessage agentID hostnow fl (trace_envelope report) db = (db, Ingest.Trace report) ∧
  (let '(db', _) := persistTracerouteReport uuid agentID hostnow fl report cache db in
   ∃ rec, db_traces db' = db_traces db ++ (if f_insert fl then [] else option_list (stored_trace rec)) ∧ trc_AgentID rec = agentID ∧ trc_TargetID rec = tc_ID target ∧
     trc_Reached rec = tr_Reached sent ∧
     (λ h, (eh_TTL h, eh_IP h, eh_RTTs h)) <$> trc_Hops rec = (λ h, (hop_TTL h, hop_IP h, hop_RTTs h)) <$> tr_Hops sent).
Proof.
  intros He HW Hh sent report.
  assert (Hf : tr_TargetID sent = tc_ID target ∧ tr_TargetHost sent = tc_Host target ∧ tr_DurationMs sent = te_elapsed e).
  { subst sent. unfold TraceTarget. destruct (te_lookup e) as [[|ip ips]|m]; [done| |done]. destruct (te_listen e); [|done].
    by destruct (hop_loop _ _ _ _ _ _) as [[hops reached] log]. }
  destruct Hf as (F1 & F2 & F3).
  assert (Hok : wire_ok report).
  { split; [unfold report; cbn; by rewrite F3|]. destruct (trace_ttls e target) as (k & Hk & E). fold sent in E.
    apply (proj1 (Forall_fmap hop_TTL int_ok _)). cbn [tr_Hops report]. rewrite E. apply Forall_seqZ. intros i Hi.
    unfold int_ok, exact_range, int_min, int_max in *. lia. }
  split.
  - unfold handleIncomingMessage, trace_envelope. cbn [env_Type env_Payload].
    change (TypeTracerouteReport =? TypeHeartbeat)%string with false.
    change (TypeTracerouteReport =? TypePingReport)%string with false.
    change (TypeTracerouteReport =? TypeTracerouteReport)%string with true. cbv iota. unfold decode.
    by rewrite (wire_roundtrip _ Hok).
  - unfold persistTracerouteReport. cbn [tr_Hops tr_TargetHost report]. rewrite F2.
    rewrite (proj2 (String.eqb_neq _ _) Hh), andb_false_r.
    pose proof (enrich_hops_shape (tr_Hops sent) cache) as Hs. destruct (enrich_hops (tr_Hops sent) cache) as [ehs c].
    destruct (GenerateASPath _) as [pa n]. set (rec := mkTraceRecord _ _ _ _ _ _ _ _ _ _ _ _ _).
    match goal with |- context [set_online fl agentID hostnow ?d] => destruct (set_online_same fl agentID hostnow d) as (_ & _ & ->) end.
    exists rec. split; [destruct (stored_trace rec), (f_insert fl); cbn; by rewrite ?app_nil_r|]. cbn. by split_and!.
Qed.

(** C15. The forced restart of old probes does what it is for: a mode of "crash"
    is only chosen for 64-bit probes; such a probe accepts the crafted target
    list and dies of a panic in the first round of the worker it starts for it,
    however much memory it has; a 32-bit probe cannot even parse the list and
    carries on. *)
Theorem forced_crash_works version arch u x (sch : Scheduler) linux env :
  (ForceRestartModeFor version arch = ForceRestartCrash → is_64bit arch = true) ∧
  AgentClient.react (W := int64_size) u x (sync_envelope (W := int64_size) (ts_Targets legacyCrashTargetSync))
    = AgentClient.SyncTargets (ts_Targets legacyCrashTargetSync) ∧
  (let s := Scheduler.SyncTargets (ts_Targets legacyCrashTargetSync) sch in
   ∃ wk, workers s !! next_worker sch = Some wk ∧ crashed (first_round linux env (next_worker sch) wk s) = true) ∧
  AgentClient.react (W := int32_size) u x (sync_envelope (W := int32_size) (ts_Targets legacyCrashTargetSync))
    = AgentClient.Nothing.
Proof.
  split_and!.
  - unfold ForceRestartModeFor. destruct (Supports _ _); [done|]. destruct (negb (AtLeast _ _)); [done|].
    by destruct (is_64bit arch).
  - apply sync_received. constructor; [|constructor]. split; split; vm_compute; try done; split; discriminate.
  - eexists. split; [unfold Scheduler.SyncTargets; cbn; apply lookup_insert_eq|]. apply first_round_panics.
    vm_compute. discriminate.
  - destruct u, x; vm_compute; reflexivity.
Qed.
End Properties.

(** ** Witnesses *)

Lemma console_to_probe_witness :
  let _ := in_key_order in let _ := alloc_amd64 in let _ := int32_size in
  let ts := host_targets demo_server "a1" in
  AgentClient.react true true (sync_envelope ts) = AgentClient.SyncTargets ts ∧
  NoDup (tc_ID <$> ts) ∧ Forall target_harmless ts ∧
  (∀ c, c ∈ ts ↔ ∃ t, t ∈ db_targets (sv_db demo_server) ∧ tg_Enabled t = true ∧ (tg_ID t ∉ paused_for demo_server "a1") ∧
    c = mkTargetConfig (tg_ID t) (tg_Name t) (tg_Host t) (tg_PacketCount t) (tg_IntervalSec t)
          (tg_DisableRoute t || bool_decide (tg_ID t ∈ unrouted_for demo_server "a1"))).
Proof. intros O A W. apply console_to_probe; [exact demo_server_reachable|split; vm_compute; discriminate]. Defined.

Definition demo_list : list TargetConfig := Eval vm_compute in host_targets demo_server "a1".

(** A probe that got that list from that server, and pinged once. *)
Definition demo_probe : Scheduler :=
  let _ := alloc_amd64 in
  first_round true Scheduler.demo_env 0 (mkWorker (hd zero_TargetConfig demo_list) false false)
    (Scheduler.SyncTargets demo_list (NewTargetScheduler false demo_now)).

Lemma probe_under_console_witness :
  let _ := in_key_order in let _ := alloc_amd64 in let _ := int64_size in
  crashed demo_probe = false ∧
  (stopped demo_probe = false → ∀ t, t ∈ targets demo_probe → ∃ w, live demo_probe w t) ∧
  (∀ w1 w2 t1 t2, live demo_probe w1 t1 → live demo_probe w2 t2 → tc_ID t1 = tc_ID t2 → w1 = w2).
Proof.
  intros O A W. apply probe_under_console; [split; vm_compute; discriminate|].
  eapply reach_step; [|by apply step_first].
  eapply reach_step; [apply reach_init; by exists false, demo_now|]. apply step_sync; [done|].
  exists demo_server, "a1", true, true. split; [exact demo_server_reachable|vm_compute; reflexivity].
Defined.

Lemma measurement_end_to_end_witness :
  let _ := alloc_amd64 in let _ := int64_size in let _ := binary_time in let _ := simple_columns in
  ∃ p' r, PingTargetOnce true demo_now Pinger.demo_env Pinger.demo_target (NewPinger false) = Some (p', r) ∧
  let '(db', reaction) :=
    handleIncomingMessage "a1" (demo_now + 5) no_faults (ping_envelope (mkPingReport "?" [r])) demo_db in
  reaction = Ingest.NoReaction ∧ db_metrics db' = db_metrics demo_db ++ option_list (stored_metric (metric_of "a1" demo_now r)) ∧
  is_Some (stored_metric (metric_of "a1" demo_now r)) ∧ pr_TargetID r = tc_ID Pinger.demo_target ∧ pr_PacketsSent r = 1%Z.
Proof.
  intros A W T C. destruct (PingTargetOnce true demo_now Pinger.demo_env Pinger.demo_target (NewPinger false)) as [[p' r]|] eqn:E.
  2: { vm_compute in E. discriminate. }
  exists p', r. split; [done|].
  assert (Hs : is_Some (stored_metric (metric_of "a1" demo_now r))).
  { replace r with (default r (snd <$> PingTargetOnce true demo_now Pinger.demo_env Pinger.demo_target (NewPinger false))) by (by rewrite E).
    clear E. apply (bool_decide_unpack _). vm_compute. exact I. }
  pose proof (measurement_end_to_end true demo_now Pinger.demo_env Pinger.demo_target (NewPinger false) p' r "?" "a1" (demo_now + 5) no_faults demo_db E) as H.
  destruct (handleIncomingMessage _ _ _ _ _) as [db' reaction]. destruct H as (H1 & H2 & H3 & H4 & _); [..|by split_and!].
  - left.
  - left.
  - vm_compute. discriminate.
  - vm_compute. discriminate.
  - split; vm_compute; discriminate.
Defined.

Lemma trace_end_to_end_witness :
  let _ := int32_size in let _ := binary_time in let _ := no_http in let _ := simple_columns in
  let sent := (TraceTarget demo_trace Tracer.demo_target).1 in
  let report := mkTraceReport "a1" (tr_TargetID sent) (tr_TargetHost sent) (tr_ResolvedIP sent) (tr_Timestamp sent)
                  (tr_DurationMs sent) (tr_Reached sent) (tr_Hops sent) in
  handleIncomingMessage "a1" 5 no_faults (trace_envelope report) demo_db = (demo_db, Ingest.Trace report) ∧
  (let '(db', _) := persistTracerouteReport "u" "a1" 5 no_faults report ∅ demo_db in
   ∃ rec, db_traces db' = db_traces demo_db ++ option_list (stored_trace rec) ∧ trc_AgentID rec = "a1" ∧ trc_TargetID rec = tc_ID Tracer.demo_target ∧
     trc_Reached rec = tr_Reached sent ∧
     (λ h, (eh_TTL h, eh_IP h, eh_RTTs h)) <$> trc_Hops rec = (λ h, (hop_TTL h, hop_IP h, hop_RTTs h)) <$> tr_Hops sent).
Proof. intros W T N C. apply (trace_end_to_end demo_trace Tracer.demo_target "a1" "a1" 5 no_faults); vm_compute; try reflexivity; discriminate. Defined.
