(* ===== verification/Registration.v ===== *)
(** * A probe registers ([host/internal/ws/handler.go], [agent/internal/client/loop.go])

    Both ends of the handshake as a whole: the request a probe writes, what the Host
    does with it up to the start of the pumps, and what the probe makes of the first
    messages it reads. *)
From S2P Require Import Prelude GoStrings GoNet GoEncoding GoFloat GoJson Protocol Model Version Feature IpUtil RouteClass Hub Ingest Console.
From S2P Require Import Pinger AgentClient Scheduler System.

Section Registration.
Context `{MapOrder} `{Gorm} {W : IntSize}.

(** ** The Host *)

(** [writeDirectEnvelope] with [TypeError]: the payload is the text. *)
Definition writeDirectEnvelope (msg : string) : Envelope := mkEnvelope TypeError (JStr msg).

(** The address of the connection: the one the headers claim, else gin's. *)
Definition remote_ip (r : option Request) (clientIP : string) : string :=
  let ip := GetClientIP r in if (ip =? "")%string then clientIP else ip.

(** [ac.QueueEnvelope], whose error is dropped. *)
Definition QueueEnvelope (msg : Payload) (p : nat) (h : Hub) : Hub :=
  match hconns h !! p ≫= SafeSend msg with
  | Some (ac, _) => set_conn p ac h
  | None => h
  end.

(** What follows when the row [a] is known, in the critical sections and statements
    of the code. [Save] of the row read before: GORM inserts it again when it is gone
    meanwhile, the unique index on tokens refuses it when another probe has its
    token, and the error is dropped. *)
Definition accept_save (saved : bool) (a : Agent) (sv : Server) : Server :=
  let db := sv_db sv in
  if negb saved || existsb (λ b, negb (ag_ID b =? ag_ID a)%string && (ag_Token b =? ag_Token a)%string) (db_agents db) then sv
  else if existsb (λ b, (ag_ID b =? ag_ID a)%string) (db_agents db) then mkServer (save_agent a db) (sv_hub sv)
  else mkServer (set_agents (db_agents db ++ [a]) db) (sv_hub sv).

Definition accept_register (ip : string) (a : Agent) (sv : Server) : Server :=
  let h := sv_hub sv in
  mkServer (sv_db sv) (Register (ag_ID a) (length (hconns h))
    (mkHub (agents h) (hconns h ++ [new_conn (ag_ID a) ip (ag_Version a) (ag_Arch a)]) (updates h) (leaving h) (calls h) (effects h))).

Definition welcome (id : string) : Payload := PRegisterResponse (mkRegisterResponse true id "Authentication successful").

Definition accept_welcome (id : string) (p : nat) (sv : Server) : Server :=
  mkServer (sv_db sv) (QueueEnvelope (welcome id) p (sv_hub sv)).

(** The whole of it: the state, and the message written before a refused connection
    is closed or the connection whose pumps then start. [m k]: what everybody else
    does between two of its statements; [db_ok], [saved], [targets_ok], [row_ok]: the
    lookup, [Save], and the two queries of [SyncSingleAgent] succeed. *)
Definition handle_websocket (m : nat → Server → Server) (db_ok saved targets_ok row_ok : bool) (r : option Request) (clientIP : string)
    (now : Z) (initial : option Envelope) (sv : Server) : Server * (Envelope + nat) :=
  let ip := remote_ip r clientIP in
  match HandleWebSocket db_ok ip now initial (sv_db sv) with
  | Rejected msg => (sv, inl (writeDirectEnvelope msg))
  | Registered a =>
      let id := ag_ID a in
      let sv := m 1 (accept_save saved a (m 0 sv)) in
      let p := length (hconns (sv_hub sv)) in
      let sv := m 2 (accept_register ip a sv) in
      let sv := m 3 (accept_welcome id p sv) in
      let targets := if targets_ok then Some (enabled_targets (sv_db sv)) else None in
      let sv := m 4 sv in
      let row := if row_ok then agent_row (sv_db sv) else λ _, None in
      let sv := m 5 sv in
      (mkServer (sv_db sv) (SyncSingleAgent targets row id (sv_hub sv)), inr p)
  end.

(** A step of everybody else: on the tables or on the hub. The pumps of the connection
    [p] have not started, so nothing is taken from its queue. *)
Inductive other (p : nat) (sv : Server) : Server → Prop :=
  | other_db sv' : server_step sv sv' → other p sv (mkServer (sv_db sv') (sv_hub sv))
  | other_hub h :
      Hub.step (sv_hub sv) h →
      (∀ ac ac', hconns (sv_hub sv) !! p = Some ac → hconns h !! p = Some ac' → ac_Send ac `prefix_of` ac_Send ac') →
      other p sv (mkServer (sv_db sv) h).
Definition others (p : nat) : Server → Server → Prop := rtc (other p).

(** ** The probe *)

Definition register_request (token hostname os arch version : string) : Envelope :=
  mkEnvelope TypeRegisterRequest (wire_enc (mkRegisterRequest token hostname os arch version)).

(** The first message, whose type is not looked at. *)
Definition read_answer (first : option Envelope) : option RegisterResponse :=
  env ← first; decode (A := RegisterResponse) (env_Payload env).

(** ** What they make of each other *)

Lemma row_unique db token a :
  tables_ok db → a ∈ db_agents db → ag_Token a = token →
  List.find (λ b, (ag_Token b =? token)%string) (db_agents db) = Some a.
Proof.
  intros Hd Ha Et. destruct (List.find _ _) as [b|] eqn:E.
  - apply find_some in E as [Hb Eb%String.eqb_eq]. f_equal.
    apply (key_inj ag_Token (db_agents db)); [apply Hd|by apply list_elem_of_In|done|congruence].
  - apply list_elem_of_In in Ha. pose proof (find_none _ _ E a Ha) as Hn. simpl in Hn. by rewrite Et, String.eqb_refl in Hn.
Qed.

Lemma Register_new id p ac h :
  length (hconns h) = S p → hconns h !! p = Some ac → (∀ q, agents h !! id = Some q → (q < p)%nat) →
  agents (Register id p h) = <[id := p]> (agents h) ∧ hconns (Register id p h) !! p = Some ac ∧
  length (hconns (Register id p h)) = S p ∧
  ∀ q, q ≠ p → hconns (Register id p h) !! q =
    if bool_decide (agents h !! id = Some q) then (λ ac, default ac (conn_close ac)) <$> hconns h !! q else hconns h !! q.
Proof.
  intros Hl Hp Hold. unfold Register. destruct (agents h !! id) as [old|] eqn:Eo; simpl.
  - specialize (Hold old eq_refl). unfold close_conn. destruct (hconns h !! old) as [o|] eqn:Eold.
    2: { apply lookup_ge_None in Eold. lia. }
    simpl. destruct (conn_close o) as [o'|] eqn:Ec; simpl.
    + split_and!; [done|by rewrite list_lookup_insert_ne by lia|by rewrite length_insert|]. intros q Hq.
      destruct (decide (old = q)) as [->|Hne].
      * rewrite bool_decide_eq_true_2, Eold by done. simpl. rewrite Ec. apply list_lookup_insert_eq. lia.
      * rewrite bool_decide_eq_false_2 by congruence. by apply list_lookup_insert_ne.
    + split_and!; [done..|]. intros q Hq. case_bool_decide as E; [|done]. injection E as ->. rewrite Eold. simpl. by rewrite Ec.
  - by split_and!.
Qed.

(** A connection keeps who it is for, and stays closed. *)
Definition same_conn (ac ac' : AgentConn) : Prop :=
  ac_AgentID ac' = ac_AgentID ac ∧ ac_Version ac' = ac_Version ac ∧ ac_Arch ac' = ac_Arch ac ∧
  (ac_closed ac = true → ac_closed ac' = true).

#[local] Instance same_conn_refl : Reflexive same_conn.
Proof. intros a. by split_and!. Qed.
#[local] Instance same_conn_trans : Transitive same_conn.
Proof. intros a b c (H1 & H2 & H3 & H4) (K1 & K2 & K3 & K4). split_and!; [congruence..|auto]. Qed.

Lemma set_conn_same p ac ac' h q a :
  hconns h !! p = Some ac → same_conn ac ac' → hconns h !! q = Some a →
  ∃ a', hconns (set_conn p ac' h) !! q = Some a' ∧ same_conn a a'.
Proof.
  intros Hp Hs Hq. simpl. destruct (decide (p = q)) as [->|Hne].
  - rewrite list_lookup_insert_eq by (by eapply lookup_lt_Some). rewrite Hp in Hq. injection Hq as ->. eauto.
  - rewrite list_lookup_insert_ne by done. by exists a.
Qed.

Lemma close_conn_same p h q a : hconns h !! q = Some a → ∃ a', hconns (close_conn p h) !! q = Some a' ∧ same_conn a a'.
Proof.
  intros Hq. unfold close_conn. destruct (hconns h !! p) as [ac|] eqn:Ep; simpl; [|by exists a].
  destruct (conn_close ac) as [ac'|] eqn:Ec; [|by exists a]. eapply set_conn_same; [done| |done].
  unfold conn_close in Ec. destruct (ac_closed ac) eqn:E; [|destruct (ac_send_closed ac); [done|]]; injection Ec as <-; by split_and!.
Qed.

Lemma SafeSend_same msg ac ac' err : SafeSend msg ac = Some (ac', err) → same_conn ac ac'.
Proof.
  unfold SafeSend. destruct (ac_closed ac) eqn:E; [by intros [= <- <-]|]. destruct (ac_send_closed ac); [done|].
  destruct (_ <? _)%nat; intros [= <- <-]; split_and!; simpl; congruence.
Qed.

Lemma SendToAgent_same id msg h q a :
  hconns h !! q = Some a → ∃ a', hconns (fst (SendToAgent id msg h)) !! q = Some a' ∧ same_conn a a'.
Proof.
  intros Hq. unfold SendToAgent. cbn [agents]. destruct (agents h !! id) as [p|]; [|by exists a]. cbn [hconns].
  destruct (hconns h !! p) as [ac|] eqn:Ep; simpl; [|by exists a].
  destruct (SafeSend msg ac) as [[ac' err]|] eqn:Es; [|by exists a]. simpl.
  destruct (set_conn_same p ac ac' h q a Ep (SafeSend_same _ _ _ _ Es) Hq) as (a' & Ha' & Hs). by exists a'.
Qed.

Lemma step_same h h' q a : Hub.step h h' → hconns h !! q = Some a → ∃ a', hconns h' !! q = Some a' ∧ same_conn a a'.
Proof.
  intros Hs Hq. destruct Hs as [id ip v ar|p ac Hp|id|id p l1 l2 E|p|p ac Hp|id msg|p ac ac' err msg Hp Hsend|now id res].
  - set (nc := new_conn id ip v ar). set (h0 := mkHub _ _ _ _ _ _). assert (Hq0 : hconns h0 !! q = Some a) by by apply lookup_app_l_Some.
    unfold Register. cbn [hconns]. destruct (agents h0 !! id) as [old|]; [|by exists a]. by apply close_conn_same.
  - unfold Unregister. case_bool_decide; by exists a.
  - by exists a.
  - unfold leave. destruct p as [p|]; [|by exists a]. cbn [hconns]. by apply close_conn_same.
  - by apply close_conn_same.
  - by eapply set_conn_same.
  - by apply SendToAgent_same.
  - eapply set_conn_same; [done| |done]. by eapply SafeSend_same.
  - unfold RecordUpdateStatus. destruct (id =? "")%string; by exists a.
Qed.

Lemma others_ok p s s' :
  others p s s' → tables_ok (sv_db s) → Hub.inv (sv_hub s) → tables_ok (sv_db s') ∧ Hub.inv (sv_hub s').
Proof.
  induction 1 as [s|s s1 s' Hs _ IH]; [done|]. intros Hd Hi. destruct Hs as [s2 Hs|h Hs _]; apply IH; try done.
  - exact (server_step_ok _ _ Hd Hs).
  - exact (hub_step_inv _ _ Hi Hs).
Qed.

Lemma others_conn p s s' ac :
  others p s s' → hconns (sv_hub s) !! p = Some ac →
  ∃ ac' l, hconns (sv_hub s') !! p = Some ac' ∧ same_conn ac ac' ∧ ac_Send ac' = ac_Send ac ++ l.
Proof.
  intros Hr. revert ac. induction Hr as [s|s s1 s' Hs _ IH]; intros ac Hac.
  - exists ac, []. by rewrite app_nil_r.
  - assert (Hstep : ∃ ac1 l, hconns (sv_hub s1) !! p = Some ac1 ∧ same_conn ac ac1 ∧ ac_Send ac1 = ac_Send ac ++ l).
    { destruct Hs as [s2 _|h Hs Hk]; [exists ac, []; by rewrite app_nil_r|].
      destruct (step_same _ _ _ _ Hs Hac) as (ac1 & H1 & Hsame). destruct (Hk _ _ Hac H1) as [l El]. by exists ac1, l. }
    destruct Hstep as (ac1 & l & H1 & Hsame & El). destruct (IH _ H1) as (ac' & l' & H' & Hsame' & El').
    exists ac', (l ++ l'). split_and!; [done|by etrans|]. by rewrite El', El, (assoc_L (++)).
Qed.

(** What a send does to the queue of a connection that is open and not full. *)
Lemma SafeSend_open msg ac : conn_ok ac →
  ∃ ac' err, SafeSend msg ac = Some (ac', err) ∧ same_conn ac ac' ∧
  (ac_closed ac' = false → (length (ac_Send ac') < send_capacity)%nat → ac_Send ac' = ac_Send ac ++ [msg]).
Proof.
  intros Hok. destruct (SafeSend_ok msg ac Hok) as (ac' & err & E & _ & _ & _). exists ac', err. split; [done|].
  split; [by eapply SafeSend_same|]. revert E. unfold SafeSend. destruct (ac_closed ac) eqn:Ec; [intros [= <- <-]; congruence|].
  destruct (ac_send_closed ac); [done|]. destruct (Nat.ltb_spec (length (ac_Send ac)) send_capacity); intros [= <- <-]; [done|]. intros _ ?. lia.
Qed.

Lemma SendToAgent_self id msg p ac h :
  Hub.inv h → hconns h !! p = Some ac →
  ∃ ac', hconns (fst (SendToAgent id msg h)) !! p = Some ac' ∧ same_conn ac ac' ∧
  agents (fst (SendToAgent id msg h)) = agents h ∧
  (agents h !! id = Some p → ac_closed ac' = false → (length (ac_Send ac') < send_capacity)%nat → ac_Send ac' = ac_Send ac ++ [msg]).
Proof.
  intros Hi Hp. destruct (SendToAgent_same id msg h p ac Hp) as (ac' & Hp' & Hs). exists ac'. split; [done|]. split; [done|].
  revert Hp'. unfold SendToAgent. cbn [agents]. destruct (agents h !! id) as [q|]; [|by intros _]. cbn [hconns].
  destruct (hconns h !! q) as [a|] eqn:Eq; simpl; [|split; [done|]; intros [= ->]; congruence].
  destruct (SafeSend_open msg a) as (a' & err & Es & _ & Hq); [by apply (Forall_lookup_1 _ _ _ _ (Hub.inv_conns _ Hi) Eq)|].
  rewrite Es. simpl. intros Hp'. split; [done|]. intros [= ->]. rewrite Hp in Eq. injection Eq as ->.
  rewrite list_lookup_insert_eq in Hp' by (by eapply lookup_lt_Some). by injection Hp' as ->.
Qed.

Lemma find_save (l : list Agent) a' id :
  List.find (λ b, (ag_ID b =? id)%string) ((λ b, if (ag_ID b =? ag_ID a')%string then a' else b) <$> l) =
  (λ b, if (ag_ID b =? ag_ID a')%string then a' else b) <$> List.find (λ b, (ag_ID b =? id)%string) l.
Proof.
  induction l as [|b l IH]; [done|]. csimpl.
  assert (Ei : ag_ID (if (ag_ID b =? ag_ID a')%string then a' else b) = ag_ID b) by (by destruct (String.eqb_spec (ag_ID b) (ag_ID a'))).
  rewrite Ei. destruct (ag_ID b =? id)%string; [done|]. exact IH.
Qed.

Lemma find_row db a : tables_ok db → a ∈ db_agents db → agent_row db (ag_ID a) = Some a.
Proof.
  intros Hd Ha. unfold agent_row. destruct (List.find _ _) as [b|] eqn:E.
  - apply find_some in E as [Hb Eb%String.eqb_eq]. f_equal.
    apply (key_inj ag_ID (db_agents db)); [apply Hd|by apply list_elem_of_In|done|done].
  - apply list_elem_of_In in Ha. pose proof (find_none _ _ E a Ha) as Hn. simpl in Hn. by rewrite String.eqb_refl in Hn.
Qed.

Lemma saved_row db a a' : tables_ok db → a ∈ db_agents db → ag_ID a' = ag_ID a → agent_row (save_agent a' db) (ag_ID a) = Some a'.
Proof.
  intros Hd Ha Ei. pose proof (find_row _ _ Hd Ha) as Hf. unfold agent_row in *. simpl. rewrite find_save, Hf. simpl.
  by rewrite Ei, String.eqb_refl.
Qed.

Lemma accept_save_ok saved a a' sv :
  tables_ok (sv_db sv) → ag_ID a' = ag_ID a → ag_Token a' = ag_Token a →
  tables_ok (sv_db (accept_save saved a' sv)) ∧ sv_hub (accept_save saved a' sv) = sv_hub sv ∧
  (saved = true → (∀ b, b ∈ db_agents (sv_db sv) → ag_Token b = ag_Token a → ag_ID b = ag_ID a) →
   agent_row (sv_db (accept_save saved a' sv)) (ag_ID a) = Some a').
Proof.
  intros Hd Ei Et. unfold accept_save. cbv zeta. destruct saved; cbn [negb orb]; [|by split_and!].
  destruct (existsb _ _) eqn:Ex.
  { split_and!; [done..|]. intros _ Hno. exfalso. apply existsb_exists in Ex as (b & Hb & E). apply andb_prop in E as [Eb Ek%String.eqb_eq].
    apply negb_true_iff, String.eqb_neq in Eb. apply Eb. rewrite Ei. apply Hno; [by apply list_elem_of_In|congruence]. }
  assert (Hf : ∀ b, b ∈ db_agents (sv_db sv) → ag_ID b ≠ ag_ID a' → ag_Token b ≠ ag_Token a').
  { intros b Hb Hne E. apply not_true_iff_false in Ex. apply Ex, existsb_exists. exists b. split; [by apply list_elem_of_In|].
    by rewrite (proj2 (String.eqb_neq _ _) Hne), (proj2 (String.eqb_eq _ _) E). }
  destruct (existsb (λ b, (ag_ID b =? ag_ID a')%string) _) eqn:Ey; cbn [sv_db sv_hub].
  - apply existsb_exists in Ey as (b & Hb%list_elem_of_In & Eb%String.eqb_eq). split_and!; [|done|].
    + by apply (save_agent_ok _ b).
    + intros _ _. rewrite <- Ei, <- Eb. by apply saved_row.
  - assert (Hno : ∀ b, b ∈ db_agents (sv_db sv) → ag_ID b ≠ ag_ID a').
    { intros b Hb E. apply not_true_iff_false in Ey. apply Ey, existsb_exists. exists b. split; [by apply list_elem_of_In|by apply String.eqb_eq]. }
    split_and!; [|done|].
    + destruct Hd as [H1 H2 H3 H4]. split; cbn; try done; rewrite fmap_app; apply NoDup_app; (split_and!; [done| |by apply NoDup_singleton]);
        intros x (b & -> & Hb)%list_elem_of_fmap Hx%list_elem_of_singleton; [by apply (Hno b Hb)|by apply (Hf b Hb (Hno b Hb))].
    + intros _ _. unfold agent_row. cbn [set_agents db_agents]. rewrite <- Ei. clear -Hno. induction (db_agents (sv_db sv)) as [|b l IH]; cbn.
      * by rewrite String.eqb_refl.
      * rewrite (proj2 (String.eqb_neq _ _) (Hno b ltac:(by left))). apply IH. intros c Hc. apply Hno. by right.
Qed.

Lemma accept_register_ok ip a sv :
  Hub.inv (sv_hub sv) →
  let s' := accept_register ip a sv in let p := length (hconns (sv_hub sv)) in
  Hub.inv (sv_hub s') ∧ agents (sv_hub s') = <[ag_ID a := p]> (agents (sv_hub sv)) ∧
  hconns (sv_hub s') !! p = Some (new_conn (ag_ID a) ip (ag_Version a) (ag_Arch a)) ∧
  ∀ q ac, hconns (sv_hub sv) !! q = Some ac →
    ∃ ac', hconns (sv_hub s') !! q = Some ac' ∧ ac_Send ac' = ac_Send ac ∧
      ac_closed ac' = (bool_decide (agents (sv_hub sv) !! ag_ID a = Some q) || ac_closed ac).
Proof.
  intros Hi s' p. split; [by apply register_inv|]. set (nc := new_conn (ag_ID a) ip (ag_Version a) (ag_Arch a)).
  set (h0 := mkHub (agents (sv_hub sv)) (hconns (sv_hub sv) ++ [nc]) (updates (sv_hub sv)) (leaving (sv_hub sv)) (calls (sv_hub sv))
    (effects (sv_hub sv))).
  destruct (Register_new (ag_ID a) p nc h0) as (Ea & Ep & El & Eq).
  { simpl. rewrite length_app. simpl. subst p. lia. }
  { simpl. by rewrite lookup_app_r, Nat.sub_diag by done. }
  { simpl. intros q Hq. destruct (Hub.inv_agents _ Hi _ _ Hq) as (ac & Hac & _). by eapply lookup_lt_Some. }
  split_and!; [done|done|]. intros q ac Hac.
  assert (Hq : q ≠ p) by (intros ->; apply lookup_lt_Some in Hac; subst p; lia).
  change (hconns (sv_hub s') !! q) with (hconns (Register (ag_ID a) p h0) !! q). rewrite Eq by done. simpl.
  rewrite (lookup_app_l_Some _ _ _ _ Hac). pose proof (Forall_lookup_1 _ _ _ _ (Hub.inv_conns _ Hi) Hac) as Hok.
  destruct (bool_decide (agents (sv_hub sv) !! ag_ID a = Some q)); [|by exists ac].
  destruct (conn_close_ok ac Hok) as (ac' & Ecl & _). simpl. rewrite Ecl. exists ac'. split; [done|]. revert Ecl.
  unfold conn_close. destruct (ac_closed ac); [by intros [= <-]|]. destruct (ac_send_closed ac); [done|]. by intros [= <-].
Qed.

(** The list that is sent is harmless on the wire, whatever the row says. *)
Lemma built_sane db row id : tables_ok db →
  Forall (λ c, 1 <= tc_PacketCount c <= 100 ∧ 5 <= tc_IntervalSec c <= 3600)%Z (buildTargetConfigs row id (enabled_targets db)).
Proof.
  intros Hd. unfold buildTargetConfigs, buildTargetConfigsWithOverrides, enabled_targets.
  destruct (if negb (id =? "")%string then _ else _) as [dr pa]. apply Forall_forall. intros c (t & Ht & E)%list_elem_of_omap.
  destruct (bool_decide _); [done|]. injection E as <-. cbn. apply list_elem_of_In, filter_In in Ht as [Ht _].
  pose proof (ok_targets _ Hd) as Hs. rewrite Forall_forall in Hs. by destruct (Hs t ltac:(by apply list_elem_of_In)).
Qed.

(** A member that no key names keeps its value. *)
Lemma field_absent {A} name (d : decoder A) old o :
  Forall (λ kv : string * json, EqualFold kv.1 name = false) o → field name d old o = Some old.
Proof. intros Ho. unfold field. induction Ho as [|kv o Hk _ IH]; [done|]. cbn. by rewrite Hk. Qed.

Lemma no_success j o res :
  members j = Some o → Forall (λ kv : string * json, EqualFold kv.1 "success" = false) o →
  decode (A := RegisterResponse) j = Some res → rs_Success res = false.
Proof.
  intros Hj Ho. unfold decode. cbn [wire_dec wire_RegisterResponse]. unfold dec_RegisterResponse. rewrite Hj. cbn [mbind option_bind].
  rewrite (field_absent "success") by done. cbn [mbind option_bind]. intros E.
  apply bind_Some in E as (a & _ & E). apply bind_Some in E as (m & _ & E). by injection E as <-.
Qed.

Lemma omit_absent name key v : EqualFold key name = false → Forall (λ kv : string * json, EqualFold kv.1 name = false) (omit_str key v).
Proof. intros Hk. unfold omit_str. destruct (v =? "")%string; [done|]. by apply Forall_singleton. Qed.

(** A message that is no answer ends the connection when it is the first. *)
Lemma no_answer x c : (∀ res, x ≠ PRegisterResponse res) → registered (read_answer (Some (envelope x))) c = disconnect c.
Proof.
  intros Hx. unfold read_answer. cbn [mbind option_bind].
  assert (Ho : ∃ o, members (env_Payload (envelope x)) = Some o ∧ Forall (λ kv : string * json, EqualFold kv.1 "success" = false) o).
  { destruct x as [res|t| | | |q|q|d|cl|up]; [by destruct (Hx res)|..]; (eexists; split; [reflexivity|]).
    all: repeat first [apply omit_absent; reflexivity | apply Forall_app; split | apply Forall_nil_2 | apply Forall_cons; split; [reflexivity|]]. }
  destruct Ho as (o & Hm & Ho). destruct (decode _) as [res|] eqn:E; [|done]. unfold registered. by rewrite (no_success _ _ _ Hm Ho E).
Qed.

(** From the registration of the connection on: what its queue holds in the end. *)
Lemma welcomed_queue p id s4 s5 s6 s7 s8 s9 (targets_ok row_ok : bool) nc :
  tables_ok (sv_db s4) → Hub.inv (sv_hub s4) → hconns (sv_hub s4) !! p = Some nc → ac_Send nc = [] →
  others p s4 s5 → s6 = accept_welcome id p s5 → others p s6 s7 → others p s7 s8 → others p s8 s9 →
  let targets := if targets_ok then Some (enabled_targets (sv_db s7)) else None in
  let row := if row_ok then agent_row (sv_db s8) else λ _, None in
  let h := SyncSingleAgent targets row id (sv_hub s9) in
  tables_ok (sv_db s7) ∧
  ∃ ac pre mid, hconns h !! p = Some ac ∧ same_conn nc ac ∧ ac_Send <$> hconns (sv_hub s5) !! p = Some pre ∧
  (ac_closed ac = false → (length (ac_Send ac) < send_capacity)%nat → agents h !! id = Some p →
   ac_Send ac = pre ++ [welcome id] ++ mid ++
     (if targets_ok then [PTargetSync (mkTargetSync (buildTargetConfigs row id (enabled_targets (sv_db s7))))] else [])).
Proof.
  intros D4 I4 N4 Nil O5 -> O7 O8 O9 targets row h.
  destruct (others_ok _ _ _ O5 D4 I4) as [D5 I5]. destruct (others_conn _ _ _ _ O5 N4) as (c5 & pre & H5 & S5 & Q5).
  rewrite Nil in Q5. cbn in Q5.
  destruct (SafeSend_open (welcome id) c5) as (c6 & err & Es & S6 & Q6); [by apply (Forall_lookup_1 _ _ _ _ (Hub.inv_conns _ I5) H5)|].
  assert (E6 : sv_hub (accept_welcome id p s5) = set_conn p c6 (sv_hub s5)).
  { unfold accept_welcome, QueueEnvelope. rewrite H5. cbn [mbind option_bind]. by rewrite Es. }
  assert (H6 : hconns (sv_hub (accept_welcome id p s5)) !! p = Some c6).
  { rewrite E6. apply list_lookup_insert_eq. by eapply lookup_lt_Some. }
  assert (I6 : Hub.inv (sv_hub (accept_welcome id p s5))).
  { rewrite E6. eapply hub_step_inv; [exact I5|]. by eapply step_queue. }
  destruct (others_ok _ _ _ O7 D5 I6) as [D7 I7]. destruct (others_conn _ _ _ _ O7 H6) as (c7 & l7 & H7 & S7 & Q7).
  destruct (others_ok _ _ _ O8 D7 I7) as [D8 I8]. destruct (others_conn _ _ _ _ O8 H7) as (c8 & l8 & H8 & S8 & Q8).
  destruct (others_ok _ _ _ O9 D8 I8) as [_ I9]. destruct (others_conn _ _ _ _ O9 H8) as (c9 & l9 & H9 & S9 & Q9).
  assert (Hend : ∃ ac, hconns h !! p = Some ac ∧ same_conn c9 ac ∧ agents h = agents (sv_hub s9) ∧
    (ac_closed ac = false → (length (ac_Send ac) < send_capacity)%nat → agents (sv_hub s9) !! id = Some p →
     ac_Send ac = ac_Send c9 ++ (if targets_ok then [PTargetSync (mkTargetSync (buildTargetConfigs row id (enabled_targets (sv_db s7))))] else []))).
  { subst h targets. unfold SyncSingleAgent. destruct targets_ok.
    - destruct (SendToAgent_self id (PTargetSync (mkTargetSync (buildTargetConfigs row id (enabled_targets (sv_db s7))))) p c9 _ I9 H9)
        as (ac & K1 & K2 & K3 & K4). exists ac. split_and!; [done..|]. intros; by apply K4.
    - exists c9. split_and!; [done..|]. intros. by rewrite app_nil_r. }
  destruct Hend as (ac & Hac & Sac & Eag & Qac). split; [done|]. exists ac, pre, (l7 ++ l8 ++ l9).
  split; [done|]. split; [by etrans; [exact S5|etrans; [exact S6|etrans; [exact S7|etrans; [exact S8|by etrans]]]]|]. split; [by rewrite H5, <- Q5|].
  intros Hc Hl Hag. rewrite Eag in Hag. rewrite Qac by done. specialize (Qac Hc Hl Hag). rewrite Q9, Q8, Q7.
  rewrite Q6; [rewrite Q5; by rewrite <- !(assoc_L (++))| |].
  - apply not_true_iff_false. intros E. destruct S7 as (_ & _ & _ & S7). destruct S8 as (_ & _ & _ & S8). destruct S9 as (_ & _ & _ & S9).
    destruct Sac as (_ & _ & _ & Sac). rewrite (Sac (S9 (S8 (S7 E)))) in Hc. done.
  - rewrite Qac, Q9, Q8, Q7, !length_app in Hl. lia.
Qed.

(** C36. A probe registers, while everybody else goes on between the statements of the
    handler. Its request, as it arrives: with no token, with one that no probe has, or
    when the lookup fails, nothing changes on the Host, and what it answers makes the
    probe disconnect and try again. With the token of a probe, that probe's row takes
    the address, the version and the architecture (if [Save] succeeds and no other
    probe got the token meanwhile); its previous connection is closed and no other,
    and the new one is the probe's. While that one stays open, not full and the
    probe's, its queue is what others queued since it was registered, the answer,
    what others queued since, and the list of targets, unless its query failed. The
    first of these is what the probe reads: if nobody was faster than the answer it is
    online as the probe the token belongs to, and else it disconnects. The list is the
    one the console has for it, or has without overrides when the row could not be
    read, and the probe starts to measure it when it gets to it. *)
Theorem registration m r clientIP now db_ok saved targets_ok row_ok token hostname os arch version sv c u x :
  tables_ok (sv_db sv) → hub_reachable (sv_hub sv) → (3600 <= int_max)%Z →
  let req := mkRegisterRequest token hostname os arch version in
  let ip := remote_ip r clientIP in
  let hello := register_request token hostname os arch version in
  let '(sv', out) := handle_websocket m db_ok saved targets_ok row_ok r clientIP now (Some hello) sv in
  match out with
  | inl msg =>
      sv' = sv ∧ (db_ok = false ∨ token = "" ∨ ∀ a, a ∈ db_agents (sv_db sv) → ag_Token a ≠ token) ∧
      registered (read_answer (Some msg)) c = disconnect c
  | inr p =>
      db_ok = true ∧ token ≠ "" ∧ ∃ a, a ∈ db_agents (sv_db sv) ∧ ag_Token a = token ∧
      let id := ag_ID a in let a' := register_row ip now req a in
      let s1 := m 0 sv in let s2 := accept_save saved a' s1 in
      let s3 := m 1 s2 in let s4 := accept_register ip a' s3 in
      let s5 := m 2 s4 in let s6 := accept_welcome id p s5 in
      let s7 := m 3 s6 in let s8 := m 4 s7 in let s9 := m 5 s8 in
      p = length (hconns (sv_hub s3)) ∧
      (others p sv s1 → others p s2 s3 → others p s4 s5 → others p s6 s7 → others p s7 s8 → others p s8 s9 →
       let ts := buildTargetConfigs (if row_ok then agent_row (sv_db s8) else λ _, None) id (enabled_targets (sv_db s7)) in
       (saved = true → (∀ b, b ∈ db_agents (sv_db s1) → ag_Token b = token → ag_ID b = id) → agent_row (sv_db s2) id = Some a') ∧
       agents (sv_hub s4) = <[id := p]> (agents (sv_hub s3)) ∧
       (∀ q ac, hconns (sv_hub s3) !! q = Some ac →
          ∃ ac', hconns (sv_hub s4) !! q = Some ac' ∧ ac_Send ac' = ac_Send ac ∧
            ac_closed ac' = (bool_decide (agents (sv_hub s3) !! id = Some q) || ac_closed ac)) ∧
       (∃ ac pre mid, hconns (sv_hub sv') !! p = Some ac ∧ ac_AgentID ac = id ∧ ac_Version ac = version ∧ ac_Arch ac = arch ∧
          ac_Send <$> hconns (sv_hub s5) !! p = Some pre ∧
          (ac_closed ac = false → (length (ac_Send ac) < send_capacity)%nat → agents (sv_hub sv') !! id = Some p →
             ac_Send ac = pre ++ [welcome id] ++ mid ++ (if targets_ok then [PTargetSync (mkTargetSync ts)] else []) ∧
             let c' := registered (read_answer (envelope <$> head (ac_Send ac))) c in
             match pre with
             | [] => online c' = true ∧ agentID c' = id ∧ conn c' = conn c ∧ loop c' = Draining
             | y :: _ => (∀ res, y ≠ PRegisterResponse res) → c' = disconnect c
             end)) ∧
       (row_ok = true → sv_db s8 = sv_db s7 → ts = host_targets s7 id) ∧
       AgentClient.react u x (envelope (PTargetSync (mkTargetSync ts))) = AgentClient.SyncTargets ts)
  end.
Proof.
  intros Hd Hi%hub_inv HW req ip hello. unfold handle_websocket. fold ip.
  assert (Ew : decode (A := RegisterRequest) (env_Payload hello) = Some req).
  { unfold decode, hello, register_request. cbn [env_Payload]. by rewrite wire_roundtrip. }
  unfold HandleWebSocket. rewrite Ew. change (negb (env_Type hello =? TypeRegisterRequest)%string) with false.
  cbn [rr_Token req]. assert (Hrej : ∀ msg, registered (read_answer (Some (writeDirectEnvelope msg))) c = disconnect c) by done.
  destruct (String.eqb_spec token "") as [->|Hne]; [split_and!; [done|by right; left|done]|].
  destruct db_ok; [|split_and!; [done|by left|done]].
  destruct (List.find _ (db_agents (sv_db sv))) as [a|] eqn:Ef.
  2: { split_and!; [done| |done]. do 2 right. intros a Ha Et. by rewrite (row_unique _ token a) in Ef. }
  apply find_some in Ef as [Ha%list_elem_of_In Et%String.eqb_eq]. split; [done|]. split; [done|]. exists a. split; [done|]. split; [done|].
  set (id := ag_ID a). set (a' := register_row ip now req a). change (ag_ID a') with id.
  set (s1 := m 0 sv). set (s2 := accept_save saved a' s1). set (s3 := m 1 s2). set (s4 := accept_register ip a' s3).
  set (p := length (hconns (sv_hub s3))). set (s5 := m 2 s4). set (s6 := accept_welcome id p s5). set (s7 := m 3 s6).
  set (s8 := m 4 s7). set (s9 := m 5 s8). cbv zeta. split; [done|]. intros O1 O3 O5 O7 O8 O9.
  destruct (others_ok _ _ _ O1 Hd Hi) as [D1 I1]. destruct (accept_save_ok saved a a' s1 D1 eq_refl eq_refl) as (D2 & E2 & Hrow).
  fold s2 in D2, E2, Hrow. destruct (others_ok _ _ _ O3 D2) as [D3 I3]; [by rewrite E2|].
  destruct (accept_register_ok ip a' s3 I3) as (I4 & A4 & N4 & C4). fold s4 p in I4, A4, N4, C4. change (ag_ID a') with id in A4, C4.
  split; [|split; [exact A4|split; [exact C4|]]].
  { intros Hsv Hno. apply Hrow; [done|]. intros b Hb Eb. apply Hno; [done|]. by rewrite Eb. }
  destruct (welcomed_queue p id s4 s5 s6 s7 s8 s9 targets_ok row_ok _ D3 I4 N4 eq_refl O5 eq_refl O7 O8 O9)
    as (D7 & ac & pre & mid & Hac & Hsame & Hpre & Hq).
  split; [|split].
  - exists ac, pre, mid. destruct Hsame as (S1 & S2 & S3 & _). split; [exact Hac|]. split; [exact S1|]. split; [exact S2|]. split; [exact S3|].
    split; [exact Hpre|]. intros Hc Hl Hag. pose proof (Hq Hc Hl Hag) as Eq. split; [exact Eq|]. rewrite Eq. destruct pre as [|y pre].
    + cbn [app head fmap option_fmap option_map].
      assert (Er : read_answer (Some (envelope (welcome id))) = Some (mkRegisterResponse true id "Authentication successful")).
      { unfold read_answer, welcome, envelope, decode. cbn [mbind option_bind env_Payload]. by rewrite wire_roundtrip. }
      rewrite Er. by split_and!.
    + intros Hy. cbn [app head fmap option_fmap option_map]. by apply no_answer.
  - intros -> Edb. unfold host_targets. by rewrite Edb.
  - apply (sync_received u x). apply sane_wire; [done|]. by apply built_sane.
Qed.
End Registration.

(** ** Witness *)

Definition demo_site : Server := mkServer (sv_db demo_server) NewHub.
Definition demo_request : Envelope := register_request (HexEncode "secret") "host1" "linux" "amd64" "1.2.1".
Definition idle (k : nat) (sv : Server) : Server := sv.
Definition demo_handshake (m : nat → Server → Server) : Server * (Envelope + nat) :=
  let _ := in_key_order in let _ := int64_size in
  handle_websocket m true true true true None "192.0.2.9" 7 (Some demo_request) demo_site.

Lemma registration_witness :
  let _ := in_key_order in let _ := int64_size in
  ∃ p ac, snd (demo_handshake idle) = inr p ∧ hconns (sv_hub (fst (demo_handshake idle))) !! p = Some ac ∧
  (∃ mid, ac_Send ac = welcome "a1" :: mid ++ [PTargetSync (mkTargetSync demo_list)]) ∧
  online (registered (read_answer (envelope <$> head (ac_Send ac))) (dialed NewClient)) = true.
Proof.
  intros O W. pose proof (registration idle None "192.0.2.9" 7 true true true true (HexEncode "secret") "host1" "linux" "amd64" "1.2.1" demo_site
    (dialed NewClient) true true) as R.
  assert (Hd : tables_ok (sv_db demo_site)) by exact (server_tables _ demo_server_reachable).
  assert (Hh : hub_reachable (sv_hub demo_site)) by (by apply reach_init).
  specialize (R Hd Hh ltac:(vm_compute; discriminate)). fold demo_request in R. change (handle_websocket _ _ _ _ _ _ _ _ _ _) with (demo_handshake idle) in R.
  assert (Hc : (∃ ac, hconns (sv_hub (fst (demo_handshake idle))) !! 0 = Some ac ∧ ac_closed ac = false ∧ (length (ac_Send ac) < send_capacity)%nat) ∧
    agents (sv_hub (fst (demo_handshake idle))) !! "a1" = Some 0 ∧ snd (demo_handshake idle) = inr 0).
  { split; [eexists; split; [vm_compute; reflexivity|]; split; [reflexivity|vm_compute; lia]|]. split; vm_compute; reflexivity. }
  destruct Hc as ((ac & Hac & Hcl & Hlen) & Hag & Hout). destruct (demo_handshake idle) as [sv' out]. cbn [fst snd] in *. subst out.
  destruct R as (_ & _ & a & Ha & _ & R). apply list_elem_of_singleton in Ha as ->. cbv zeta in R. destruct R as (_ & R). cbn [ag_ID] in R.
  specialize (R ltac:(apply rtc_refl) ltac:(apply rtc_refl) ltac:(apply rtc_refl) ltac:(apply rtc_refl) ltac:(apply rtc_refl) ltac:(apply rtc_refl)).
  destruct R as (_ & _ & _ & (ac' & pre & mid & Hac' & _ & _ & _ & Hpre & R) & _). rewrite Hac in Hac'. injection Hac' as <-.
  destruct (R Hcl Hlen Hag) as (Eq & Hon). vm_compute in Hpre. injection Hpre as <-.
  exists 0, ac. split; [done|]. split; [done|]. split; [exists mid; exact Eq|]. exact (proj1 Hon).
Defined.

(** A request of the console that is faster than the answer is what the probe reads first. *)
Example outrun :
  let _ := int64_size in
  let ask k sv := if (k =? 2)%nat then mkServer (sv_db sv) (fst (SendToAgent "a1" PUpdateCheck (sv_hub sv))) else sv in
  match hconns (sv_hub (fst (demo_handshake ask))) !! 0 with
  | Some ac => (head (ac_Send ac) = Some PUpdateCheck) ∧
      conn (registered (read_answer (envelope <$> head (ac_Send ac))) (dialed NewClient)) = None
  | None => False
  end.
Proof. by vm_compute. Qed.

(** A probe that is deleted while it registers comes back, with its token. *)
Example deleted_comes_back :
  let _ := in_key_order in
  let delete k sv := if (k =? 0)%nat then fst (adminDeleteAgent "a1" sv) else sv in
  db_agents (sv_db (fst (adminDeleteAgent "a1" demo_site))) = [] ∧
  ag_Token <$> db_agents (sv_db (fst (demo_handshake delete))) = [HexEncode "secret"].
Proof. by vm_compute. Qed.
